(** * HCS-LAB: a shallow embedding of the profile -> code pipeline

    The Go package [internal/hcs] turns a personality/astrology profile into
    versioned codes (U3, U4, U5, U7).  This development embeds the parts of
    the package that the specification's properties speak about and proves
    (or refutes) those properties on the embedding.

    Conventions.
    - A Go [string] and a Go [[]byte] are byte sequences: Rocq [string]s,
      one [ascii] per byte.
    - A Go [int] is a 64-bit integer: a [Z], wrapped with [wrap64] where the
      source does arithmetic on values that are not known to be small.
    - A Go [float64] is a primitive binary64 [float]; every operation rounds
      on its own (no fused multiply-add), as the amd64 compiler emits it.
    - A Go [(T, error)] result is a [result T]; the error carries its message.
    - A pointer that may be nil is an [option]. *)

From Stdlib Require Import ZArith NArith List String Ascii Bool Lia.
From Stdlib Require Import Floats DecimalString DecimalZ Permutation QArith Qabs.
Import ListNotations.

Set Warnings "-inexact-float,-register-all".

Local Open Scope Z_scope.
Local Open Scope string_scope.

(* ================================================================== *)
(** * Go runtime and standard library, as far as the package uses them *)
(* ================================================================== *)

(** ** Errors *)

Inductive result (T : Type) : Type :=
| Ok (v : T)
| Err (msg : string).
Arguments Ok {T} v.
Arguments Err {T} msg.

Definition isErr {T} (r : result T) : bool :=
  match r with Ok _ => false | Err _ => true end.

(** ** Integers *)

(** Two's complement wrap-around of a 64-bit [int]. *)
Definition wrap64 (z : Z) : Z := (z + 2 ^ 63) mod 2 ^ 64 - 2 ^ 63.

Definition minInt64 : Z := - 2 ^ 63.
Definition maxInt64 : Z := 2 ^ 63 - 1.

(** ** [fmt]: the verbs the package uses *)

(** [%d]: decimal, a minus sign for negative numbers. *)
Definition fmt_d (z : Z) : string := NilZero.string_of_int (Z.to_int z).

(** [%02d]: at least two characters wide, zero padded.  A negative number
    already has two characters with its sign. *)
Definition fmt_02d (z : Z) : string :=
  if ((0 <=? z) && (z <? 10))%Z then "0" ++ fmt_d z else fmt_d z.

(** ** [float64] *)

Section Float64.
Local Open Scope float_scope.

(** [uint64 -> float64] for values below 2^53 (exact there). *)
Definition float_of_small_Z (q : Z) : float := PrimFloat.of_uint63 (Uint63.of_Z q).

(** [math.Round]: nearest integer, halves away from zero; zeros, infinities
    and NaN are returned unchanged.  When the exponent is non-negative the
    value is an integer already; otherwise |x| = m / 2^-e < 2^52 and the
    rounded magnitude is floor(|x| + 1/2). *)
Definition math_Round (x : float) : float :=
  match Prim2SF x with
  | S754_finite s m e =>
      if (0 <=? e)%Z then x
      else
        let d := (2 ^ (- e))%Z in
        let q := ((2 * Zpos m + d) / (2 * d))%Z in
        let r := float_of_small_Z q in
        if s then - r else r
  | _ => x
  end.

(** [int(f)] for a float64 [f]: truncation towards zero.  For a value that
    an [int] cannot hold (too large, infinite, NaN) Go leaves the result to
    the implementation; amd64's CVTTSD2SQ gives the smallest int64. *)
Definition int_of_float (f : float) : Z :=
  match Prim2SF f with
  | S754_zero _ => 0%Z
  | S754_finite s m e =>
      let mag := (if 0 <=? e then Zpos m * 2 ^ e else Zpos m / 2 ^ (- e))%Z in
      let v := (if s then - mag else mag)%Z in
      if ((minInt64 <=? v) && (v <=? maxInt64))%Z then v else minInt64
  | _ => minInt64
  end.

(** [math.Max] and [math.Min] on the arguments the package passes: one
    argument is the constant 0 or 1.  NaN propagates. *)
Definition math_Max (x y : float) : float :=
  if PrimFloat.is_nan x || PrimFloat.is_nan y then nan
  else if x <? y then y
  else if y <? x then x
  else if PrimFloat.is_zero x && PrimFloat.is_zero y
       then (if PrimFloat.get_sign x then y else x)
       else x.

Definition math_Min (x y : float) : float :=
  if PrimFloat.is_nan x || PrimFloat.is_nan y then nan
  else if x <? y then x
  else if y <? x then y
  else if PrimFloat.is_zero x && PrimFloat.is_zero y
       then (if PrimFloat.get_sign x then x else y)
       else x.

End Float64.

(** ** Exact values of floats

    Every finite binary64 value is an integer multiple of 2^-1074.
    [float_units x] is that integer; it is undefined for infinities and
    NaN. *)
Definition float_units (x : float) : option Z :=
  match Prim2SF x with
  | S754_zero _ => Some 0
  | S754_finite s m e =>
      let u := Z.shiftl (Zpos m) (e + 1074) in Some (if s then - u else u)
  | _ => None
  end.

Definition unitsPerOne : positive := (2 ^ 1074)%positive.


(* ================================================================== *)
(** * Data model ([types.go], [crypto.go]) *)
(* ================================================================== *)

Module ModalBalance.
Record t := mk { Cardinal : float; Fixed : float; Mutable : float }.
End ModalBalance.

Module CognitionProfile.
Record t := mk {
  Fluid : float; Crystallized : float; Verbal : float;
  Strategic : float; Creative : float }.
End CognitionProfile.

Module InteractionPreferences.
Record t := mk { Pace : string; Structure : string; Tone : string }.
End InteractionPreferences.

Module BirthInfo.
Record t := mk {
  Year : Z; Month : Z; Day : Z; Hour : Z; Minute : Z; Timezone : string }.
End BirthInfo.

Module InputProfile.
Record t := mk {
  DominantElement : string;
  Modal : ModalBalance.t;
  Cognition : CognitionProfile.t;
  Interaction : InteractionPreferences.t;
  BirthInfo : option BirthInfo.t }.
End InputProfile.

Module NormalizedModal.
Record t := mk { C : Z; F : Z; M : Z }.
End NormalizedModal.

Module NormalizedCognition.
Record t := mk { F : Z; C : Z; V : Z; S : Z; Cr : Z }.
End NormalizedCognition.

Module NormalizedInteraction.
Record t := mk { PB : string; SM : string; TN : string }.
End NormalizedInteraction.

Module NormalizedProfile.
Record t := mk {
  Element : string;
  Modal : NormalizedModal.t;
  Cog : NormalizedCognition.t;
  Int : NormalizedInteraction.t }.
End NormalizedProfile.

(* ================================================================== *)
(** * Normalizer ([crypto.go]) *)
(* ================================================================== *)

Section Normalizer.
Local Open Scope float_scope.

(** clampAndRound clamps a float between 0 and 1, then converts to percentage *)
Definition clampAndRound (value : float) : Z :=
  let value := if value <? 0 then 0 else value in
  let value := if 1 <? value then 1 else value in
  int_of_float (math_Round (value * 100)).

End Normalizer.

Definition mapElementToLetter (element : string) : string :=
  if element =? "Earth" then "E"
  else if element =? "Air" then "A"
  else if element =? "Water" then "W"
  else if element =? "Fire" then "F"
  else "E".

Definition mapPaceToLetter (pace : string) : string :=
  if pace =? "balanced" then "B"
  else if pace =? "fast" then "F"
  else if pace =? "slow" then "S"
  else "B".

Definition mapStructureToLetter (structure : string) : string :=
  if structure =? "low" then "L"
  else if structure =? "medium" then "M"
  else if structure =? "high" then "H"
  else "M".

Definition mapToneToLetter (tone : string) : string :=
  if tone =? "warm" then "W"
  else if tone =? "neutral" then "N"
  else if tone =? "sharp" then "S"
  else if tone =? "precise" then "P"
  else "N".

Definition NormalizeProfile (i : InputProfile.t) : NormalizedProfile.t :=
  let m := InputProfile.Modal i in
  let c := InputProfile.Cognition i in
  let x := InputProfile.Interaction i in
  NormalizedProfile.mk
    (mapElementToLetter (InputProfile.DominantElement i))
    (NormalizedModal.mk
       (clampAndRound (ModalBalance.Cardinal m))
       (clampAndRound (ModalBalance.Fixed m))
       (clampAndRound (ModalBalance.Mutable m)))
    (NormalizedCognition.mk
       (clampAndRound (CognitionProfile.Fluid c))
       (clampAndRound (CognitionProfile.Crystallized c))
       (clampAndRound (CognitionProfile.Verbal c))
       (clampAndRound (CognitionProfile.Strategic c))
       (clampAndRound (CognitionProfile.Creative c)))
    (NormalizedInteraction.mk
       (mapPaceToLetter (InteractionPreferences.Pace x))
       (mapStructureToLetter (InteractionPreferences.Structure x))
       (mapToneToLetter (InteractionPreferences.Tone x))).

(* ================================================================== *)
(** * Plain-text codec U3 ([codec_u3.go]) *)
(* ================================================================== *)

Definition elemSegmentOf (letter : string) : string := "E:" ++ letter.

Definition modalSegmentOf (c f m : Z) : string :=
  "MOD:c" ++ fmt_02d c ++ "f" ++ fmt_02d f ++ "m" ++ fmt_02d m.

Definition cogSegmentOf (f c v s cr : Z) : string :=
  "COG:F" ++ fmt_02d f ++ "C" ++ fmt_02d c ++ "V" ++ fmt_02d v
          ++ "S" ++ fmt_02d s ++ "Cr" ++ fmt_02d cr.

Definition intSegmentOf (pb sm tn : string) : string :=
  "INT:PB=" ++ pb ++ ",SM=" ++ sm ++ ",TN=" ++ tn.

(** EncodeU3 generates the HCS-U3 code from an InputProfile and CHIP *)
Definition EncodeU3 (i : InputProfile.t) (chip : string) : string :=
  let m := InputProfile.Modal i in
  let c := InputProfile.Cognition i in
  let x := InputProfile.Interaction i in
  let elemSegment := elemSegmentOf (mapElementToLetter (InputProfile.DominantElement i)) in
  let modalSegment :=
    modalSegmentOf (clampAndRound (ModalBalance.Cardinal m))
                   (clampAndRound (ModalBalance.Fixed m))
                   (clampAndRound (ModalBalance.Mutable m)) in
  let cogSegment :=
    cogSegmentOf (clampAndRound (CognitionProfile.Fluid c))
                 (clampAndRound (CognitionProfile.Crystallized c))
                 (clampAndRound (CognitionProfile.Verbal c))
                 (clampAndRound (CognitionProfile.Strategic c))
                 (clampAndRound (CognitionProfile.Creative c)) in
  let intSegment :=
    intSegmentOf (mapPaceToLetter (InteractionPreferences.Pace x))
                 (mapStructureToLetter (InteractionPreferences.Structure x))
                 (mapToneToLetter (InteractionPreferences.Tone x)) in
  let chipSegment := "CHIP:" ++ chip in
  "HCS-U3|" ++ elemSegment ++ "|" ++ modalSegment ++ "|" ++ cogSegment
            ++ "|" ++ intSegment ++ "|" ++ chipSegment.

(** The profile of the package's own test fixture ([getTestInput]). *)
Definition testInput : InputProfile.t :=
  InputProfile.mk "Air"
    (ModalBalance.mk 0.31 0.23 0.46)
    (CognitionProfile.mk 0.52 0.13 0.53 0.15 0.33)
    (InteractionPreferences.mk "balanced" "medium" "precise")
    None.


(* ================================================================== *)
(** * Go maps from strings to floats and run-time panics *)
(* ================================================================== *)

(** A computation that may panic (index out of range): [None] is the panic. *)
Definition obind {A B} (x : option A) (k : A -> option B) : option B :=
  match x with Some a => k a | None => None end.

Notation "'let?' x ':=' e 'in' k" := (obind e (fun x => k))
  (at level 10, x pattern, e at level 100, k at level 200).

(** [table[i]] on a slice: panics when [i] is negative or too large. *)
Definition index {A} (table : list A) (i : Z) : option A :=
  if (i <? 0)%Z then None else nth_error table (Z.to_nat i).

(** A [map[string]float64] as an association list with distinct keys.  The
    list order has no meaning to the program: a [range] loop visits the keys
    in an order the run time chooses, which the model takes as a parameter
    wherever the order can influence the result. *)
Definition fmap := list (string * float).

Fixpoint mget (m : fmap) (k : string) : float :=
  match m with
  | [] => 0%float
  | (k', v) :: m' => if (k' =? k)%string then v else mget m' k
  end.

Fixpoint mset (m : fmap) (k : string) (v : float) : fmap :=
  match m with
  | [] => [(k, v)]
  | (k', v') :: m' => if (k' =? k)%string then (k, v) :: m' else (k', v') :: mset m' k v
  end.

Definition mkeys (m : fmap) : list string := map fst m.

(** [m[k] += x] *)
Definition madd (m : fmap) (k : string) (x : float) : fmap :=
  mset m k (mget m k + x)%float.

(** [total := 0.0; for _, v := range m { total += v }], the keys visited in
    the order [ord]. *)
Definition range_sum (m : fmap) (ord : list string) : float :=
  fold_left (fun total k => (total + mget m k)%float) ord 0%float.

(** [for k := range m { m[k] = f(m[k]) }]: every key is rewritten once, so
    the visiting order does not show in the result. *)
Definition range_update (f : float -> float) (m : fmap) : fmap :=
  map (fun kv => (fst kv, f (snd kv))) m.

(* ================================================================== *)
(** * Calendar engine ([bazi.go], [chinese.go]) *)
(* ================================================================== *)

Module Stem.
Record t := mk { Name : string; Element : string; YinYang : string }.
End Stem.

Module Branch.
Record t := mk { Name : string; Element : string; YinYang : string; Animal : string }.
End Branch.

(** HeavenlyStems represents the 10 Heavenly Stems *)
Definition HeavenlyStems : list Stem.t :=
  [ Stem.mk "Jia" "Wood" "Yang";
    Stem.mk "Yi" "Wood" "Yin";
    Stem.mk "Bing" "Fire" "Yang";
    Stem.mk "Ding" "Fire" "Yin";
    Stem.mk "Wu" "Earth" "Yang";
    Stem.mk "Ji" "Earth" "Yin";
    Stem.mk "Geng" "Metal" "Yang";
    Stem.mk "Xin" "Metal" "Yin";
    Stem.mk "Ren" "Water" "Yang";
    Stem.mk "Gui" "Water" "Yin" ].

(** EarthlyBranches represents the 12 Earthly Branches *)
Definition EarthlyBranches : list Branch.t :=
  [ Branch.mk "Zi" "Water" "Yang" "Rat";
    Branch.mk "Chou" "Earth" "Yin" "Ox";
    Branch.mk "Yin" "Wood" "Yang" "Tiger";
    Branch.mk "Mao" "Wood" "Yin" "Rabbit";
    Branch.mk "Chen" "Earth" "Yang" "Dragon";
    Branch.mk "Si" "Fire" "Yin" "Snake";
    Branch.mk "Wu" "Fire" "Yang" "Horse";
    Branch.mk "Wei" "Earth" "Yin" "Goat";
    Branch.mk "Shen" "Metal" "Yang" "Monkey";
    Branch.mk "You" "Metal" "Yin" "Rooster";
    Branch.mk "Xu" "Earth" "Yang" "Dog";
    Branch.mk "Hai" "Water" "Yin" "Pig" ].

(** MonthBranchMapping maps month numbers to earthly branches *)
Definition MonthBranchMapping : list Z := [2; 3; 4; 5; 6; 7; 8; 9; 10; 11; 0; 1].

Module Pillar.
Record t := mk { Stem : string; Branch : string; StemIndex : Z; BranchIndex : Z }.
End Pillar.

(** PillarToString returns the string representation of a pillar *)
Definition PillarToString (p : Pillar.t) : string :=
  Pillar.Stem p ++ "-" ++ Pillar.Branch p.

(** Go's [%] truncates towards zero ([Z.rem]); the source then adds the
    modulus to a negative remainder. *)
Definition nonNegRem (a n : Z) : Z :=
  let r := Z.rem a n in if (r <? 0)%Z then r + n else r.

Definition mkPillar (stemIndex branchIndex : Z) : option Pillar.t :=
  let? s := index HeavenlyStems stemIndex in
  let? b := index EarthlyBranches branchIndex in
  Some (Pillar.mk (Stem.Name s) (Branch.Name b) stemIndex branchIndex).

(** ComputeYearPillar computes the Year Pillar based on birth year *)
Definition ComputeYearPillar (year : Z) : option Pillar.t :=
  let cycleYear := wrap64 (year - 1924) in
  let stemIndex := nonNegRem cycleYear 10 in
  let branchIndex := nonNegRem cycleYear 12 in
  mkPillar stemIndex branchIndex.

(** ComputeMonthPillar computes the Month Pillar *)
Definition ComputeMonthPillar (year month day : Z) : option Pillar.t :=
  let? yearPillar := ComputeYearPillar year in
  let? monthBranchIndex := index MonthBranchMapping (wrap64 (month - 1)) in
  let monthStemIndex := Z.rem (wrap64 (wrap64 (Pillar.StemIndex yearPillar * 2) + month)) 10 in
  mkPillar monthStemIndex monthBranchIndex.

(** ** The [time] package: civil dates

    [time.Date] accepts fields outside their usual ranges and normalises
    them; the day count below is the one it computes (days since
    0001-01-01 in the proleptic Gregorian calendar). *)

Definition isLeap (year : Z) : bool :=
  (year mod 4 =? 0)%Z && (negb (year mod 100 =? 0)%Z || (year mod 400 =? 0)%Z).

Definition daysBefore : list Z :=
  [0; 31; 59; 90; 120; 151; 181; 212; 243; 273; 304; 334; 365].

(** Days from 0001-01-01 to the first of January of [year]. *)
Definition daysSinceEpoch (year : Z) : Z :=
  let y := year - 1 in 365 * y + y / 4 - y / 100 + y / 400.

(** The day number of the civil date (year, month, day), fields normalised
    as [time.Date] does: the month overflows into the year, the day is
    added as an offset. *)
Definition dateToDays (year month day : Z) : Z :=
  let m := month - 1 in
  let year := year + m / 12 in
  let m := m mod 12 in
  daysSinceEpoch year
  + nth (Z.to_nat m) daysBefore 0
  + (if isLeap year && (2 <=? m)%Z then 1 else 0)
  + (day - 1).

Definition secondsPerDay : Z := 86400.

(** Wall-clock seconds of the fields given to [time.Date] (seconds and
    nanoseconds are always 0 in this package). *)
Definition dateToSeconds (year month day hour min : Z) : Z :=
  dateToDays year month day * secondsPerDay + hour * 3600 + min * 60.

(** The year and the day within it (from 0) of a day number, as [absDate]
    computes them: 400-, 100-, 4- and 1-year cycles. *)
Definition daysToYearDay (days : Z) : Z * Z :=
  let n400 := days / 146097 in
  let d := days - 146097 * n400 in
  let n100 := d / 36524 in
  let n100 := n100 - Z.shiftr n100 2 in
  let d := d - 36524 * n100 in
  let n4 := d / 1461 in
  let d := d - 1461 * n4 in
  let n1 := d / 365 in
  let n1 := n1 - Z.shiftr n1 2 in
  let d := d - 365 * n1 in
  (400 * n400 + 100 * n100 + 4 * n4 + n1 + 1, d).

(** The month (1..12) and day of the month of a day within a year. *)
Definition yearDayToMonthDay (year yday : Z) : Z * Z :=
  let leap := isLeap year in
  if leap && (yday =? 59)%Z then (2, 29)
  else
    let day := if leap && (59 <? yday)%Z then yday - 1 else yday in
    let month := Z.of_nat (List.length (filter (fun b => (b <=? day)%Z) (firstn 12 daysBefore))) in
    (month, day - nth (Z.to_nat (month - 1)) daysBefore 0 + 1).

Module Civil.
Record t := mk { Year : Z; Month : Z; Day : Z; Hour : Z }.
End Civil.

(** [t.Year()], [t.Month()], [t.Day()], [t.Hour()] of wall-clock seconds. *)
Definition secondsToCivil (secs : Z) : Civil.t :=
  let days := secs / secondsPerDay in
  let '(year, yday) := daysToYearDay days in
  let '(month, day) := yearDayToMonthDay year yday in
  Civil.mk year month day ((secs mod secondsPerDay) / 3600).

(** ** The [time] package: durations *)

Definition Hour_ns : Z := 3600 * 10 ^ 9.

(** [t.Sub(u)] for two times at midnight UTC given by their day numbers:
    the difference in nanoseconds, saturated to the range of an int64. *)
Definition Time_Sub (tdays udays : Z) : Z :=
  let d := (tdays - udays) * secondsPerDay * 10 ^ 9 in
  if (d <? minInt64)%Z then minInt64
  else if (maxInt64 <? d)%Z then maxInt64
  else d.

(** [float64(n)] for an integer of magnitude below 2^53 (exact there). *)
Definition float_of_int (n : Z) : float :=
  if (n <? 0)%Z then (- float_of_small_Z (- n))%float else float_of_small_Z n.

(** [d.Hours()] *)
Definition Duration_Hours (d : Z) : float :=
  let hour := Z.quot d Hour_ns in
  let nsec := Z.rem d Hour_ns in
  (float_of_int hour + float_of_int nsec / (60 * 60 * 1e9))%float.

(** ComputeDayPillar computes the Day Pillar using a deterministic algorithm *)
Definition daysSinceRef (year month day : Z) : Z :=
  int_of_float (Duration_Hours (Time_Sub (dateToDays year month day) (dateToDays 1900 1 1)) / 24)%float.

Definition ComputeDayPillar (year month day : Z) : option Pillar.t :=
  let d := daysSinceRef year month day in
  let stemIndex := nonNegRem d 10 in
  let branchIndex := nonNegRem d 12 in
  mkPillar stemIndex branchIndex.

(** ComputeHourPillar computes the Hour Pillar *)
Definition ComputeHourPillar (dayPillar : Pillar.t) (hour : Z) : option Pillar.t :=
  let hourBranchIndex := Z.rem (Z.quot (wrap64 (hour + 1)) 2) 12 in
  let hourStemBase := wrap64 (Z.rem (Pillar.StemIndex dayPillar) 5 * 2) in
  let hourStemIndex := Z.rem (wrap64 (hourStemBase + hourBranchIndex)) 10 in
  mkPillar hourStemIndex hourBranchIndex.

(** ** Derived metrics *)

Definition elementNames : list string := ["Wood"; "Fire"; "Earth"; "Metal"; "Water"].

Definition stemElement (p : Pillar.t) : option string :=
  let? s := index HeavenlyStems (Pillar.StemIndex p) in Some (Stem.Element s).

Definition branchElement (p : Pillar.t) : option string :=
  let? b := index EarthlyBranches (Pillar.BranchIndex p) in Some (Branch.Element b).

(** The counting loop of CalculateElementBalance. *)
Fixpoint countElements (elements : fmap) (pillars : list Pillar.t) : option fmap :=
  match pillars with
  | [] => Some elements
  | pillar :: rest =>
      let? stemElement := stemElement pillar in
      let elements := madd elements stemElement 1.0 in
      let? branchElement := branchElement pillar in
      let elements := madd elements branchElement 0.5 in
      countElements elements rest
  end.

(** CalculateElementBalance calculates the balance of five elements.  [ord]
    is the order in which the summing loop visits the five keys. *)
Definition CalculateElementBalance (ord : list string) (pillars : list Pillar.t) : option fmap :=
  let elements : fmap :=
    [("Wood", 0); ("Fire", 0); ("Earth", 0); ("Metal", 0); ("Water", 0)]%float in
  let? elements := countElements elements pillars in
  let total := range_sum elements ord in
  Some (range_update (fun v => v / total)%float elements).

(** The counting loop of CalculateYinYangBalance: (yangCount, totalCount). *)
Fixpoint countYang (acc : float * float) (pillars : list Pillar.t) : option (float * float) :=
  match pillars with
  | [] => Some acc
  | pillar :: rest =>
      let '(yangCount, totalCount) := acc in
      let? s := index HeavenlyStems (Pillar.StemIndex pillar) in
      let yangCount := if (Stem.YinYang s =? "Yang")%string then (yangCount + 1.0)%float else yangCount in
      let totalCount := (totalCount + 1.0)%float in
      let? b := index EarthlyBranches (Pillar.BranchIndex pillar) in
      let yangCount := if (Branch.YinYang b =? "Yang")%string then (yangCount + 0.5)%float else yangCount in
      let totalCount := (totalCount + 0.5)%float in
      countYang (yangCount, totalCount) rest
  end.

(** CalculateYinYangBalance calculates the Yin/Yang balance *)
Definition CalculateYinYangBalance (pillars : list Pillar.t) : option float :=
  let? (yangCount, totalCount) := countYang (0, 0)%float pillars in
  Some (yangCount / totalCount)%float.

(** GetDayMaster returns the Day Master (Day Stem) information *)
Definition GetDayMaster (dayPillar : Pillar.t) : option string :=
  let? s := index HeavenlyStems (Pillar.StemIndex dayPillar) in Some (Stem.Name s).

Definition generationCycle : list (string * string) :=
  [("Wood", "Fire"); ("Fire", "Earth"); ("Earth", "Metal"); ("Metal", "Water"); ("Water", "Wood")].

Fixpoint lookupString (m : list (string * string)) (k : string) : string :=
  match m with
  | [] => ""
  | (k', v) :: m' => if (k' =? k)%string then v else lookupString m' k
  end.

(** isGeneratingElement checks if element1 generates element2 in the creation cycle *)
Definition isGeneratingElement (element1 element2 : string) : bool :=
  (lookupString generationCycle element1 =? element2)%string.

(** The body of the loop of GetDayMasterStrength for a pillar other than
    the day pillar, given the elements of its stem and branch. *)
Definition supportStep (dayElement : string) (elems : string * string) (strength : float) : float :=
  let '(stemElement, branchElement) := elems in
  (* Same element strengthens *)
  let strength := if (stemElement =? dayElement)%string then (strength + 0.15)%float else strength in
  let strength := if (branchElement =? dayElement)%string then (strength + 0.1)%float else strength in
  (* Generating element strengthens (simplified cycle) *)
  let strength := if isGeneratingElement stemElement dayElement then (strength + 0.1)%float else strength in
  let strength := if isGeneratingElement branchElement dayElement then (strength + 0.05)%float else strength in
  strength.

(** The loop of GetDayMasterStrength; [i] is the index of the first pillar
    of [pillars] in the whole slice. *)
Fixpoint supportLoop (dayElement : string) (i : nat) (strength : float)
         (pillars : list Pillar.t) : option float :=
  match pillars with
  | [] => Some strength
  | pillar :: rest =>
      let? stemElement := stemElement pillar in
      let? branchElement := branchElement pillar in
      (* Skip the day pillar itself *)
      if Nat.eqb i 2 then supportLoop dayElement (S i) strength rest
      else supportLoop dayElement (S i)
             (supportStep dayElement (stemElement, branchElement) strength) rest
  end.

(** GetDayMasterStrength evaluates the strength of the Day Master *)
Definition GetDayMasterStrength (pillars : list Pillar.t) (dayPillar : Pillar.t) : option float :=
  let? dayElement := stemElement dayPillar in
  let? strength := supportLoop dayElement 0 0.3%float pillars in
  Some (math_Min (math_Max strength 0) 1).

Module ChineseProfile.
Record t := mk {
  YearPillar : string;
  MonthPillar : string;
  DayPillar : string;
  HourPillar : string;
  YinYangBalance : float;
  ElementBalance : fmap;
  DayMaster : string;
  DayMasterStrength : float }.
End ChineseProfile.

(** GetDayMasterType returns a categorization of the Day Master strength *)
Definition dayMasterTypeOf (strength : float) : string :=
  if (0.7 <? strength)%float then "Strong"
  else if (strength <? 0.3)%float then "Weak"
  else "Moderate".

Definition GetDayMasterType (cp : ChineseProfile.t) : string :=
  dayMasterTypeOf (ChineseProfile.DayMasterStrength cp).

(** validateBirthInfo validates the birth information *)
Definition validateBirthInfo (info : BirthInfo.t) : result unit :=
  if ((BirthInfo.Year info <? 1900) || (2100 <? BirthInfo.Year info))%Z then
    Err ("year must be between 1900 and 2100, got " ++ fmt_d (BirthInfo.Year info))
  else if ((BirthInfo.Month info <? 1) || (12 <? BirthInfo.Month info))%Z then
    Err ("month must be between 1 and 12, got " ++ fmt_d (BirthInfo.Month info))
  else if ((BirthInfo.Day info <? 1) || (31 <? BirthInfo.Day info))%Z then
    Err ("day must be between 1 and 31, got " ++ fmt_d (BirthInfo.Day info))
  else if ((BirthInfo.Hour info <? 0) || (23 <? BirthInfo.Hour info))%Z then
    Err ("hour must be between 0 and 23, got " ++ fmt_d (BirthInfo.Hour info))
  else if ((BirthInfo.Minute info <? 0) || (59 <? BirthInfo.Minute info))%Z then
    Err ("minute must be between 0 and 59, got " ++ fmt_d (BirthInfo.Minute info))
  else Ok tt.

Section ChineseProfileComputation.

(** The time zone database is outside the package.  [LoadLocation] resolves
    an identifier or fails; for a resolved zone, [zoneWallClock] gives the
    wall-clock seconds that the accessors of [time.Date(..., loc)] report
    for the wall-clock seconds of the requested fields (the two differ only
    where the requested time does not exist in the zone). *)
Variable Zone : Type.
Variable LoadLocation : string -> option Zone.
Variable zoneWallClock : Zone -> Z -> Z.

(** The order in which the run time visits the keys of the element map. *)
Variable ord : list string.

(** A [*time.Location]: [None] is [time.UTC]. *)
Definition resolveLocation (tz : string) : option Zone :=
  if negb (tz =? "")%string && negb (tz =? "UTC")%string then
    match LoadLocation tz with
    | Some parsedLoc => Some parsedLoc
    | None => None   (* If timezone parsing fails, continue with UTC *)
    end
  else None.

Definition wallClock (loc : option Zone) (secs : Z) : Z :=
  match loc with None => secs | Some z => zoneWallClock z secs end.

(** ComputeChineseProfile generates a complete Chinese astrological profile.
    The outer [option] is [None] when the computation panics. *)
Definition ComputeChineseProfile (birthInfo : BirthInfo.t) : option (result ChineseProfile.t) :=
  match validateBirthInfo birthInfo with
  | Err msg => Some (Err msg)
  | Ok _ =>
      let loc := resolveLocation (BirthInfo.Timezone birthInfo) in
      let birthTime :=
        secondsToCivil
          (wallClock loc
             (dateToSeconds (BirthInfo.Year birthInfo) (BirthInfo.Month birthInfo)
                            (BirthInfo.Day birthInfo) (BirthInfo.Hour birthInfo)
                            (BirthInfo.Minute birthInfo))) in
      let year := Civil.Year birthTime in
      let month := Civil.Month birthTime in
      let day := Civil.Day birthTime in
      let hour := Civil.Hour birthTime in
      let? yearPillar := ComputeYearPillar year in
      let? monthPillar := ComputeMonthPillar year month day in
      let? dayPillar := ComputeDayPillar year month day in
      let? hourPillar := ComputeHourPillar dayPillar hour in
      let pillars := [yearPillar; monthPillar; dayPillar; hourPillar] in
      let? elementBalance := CalculateElementBalance ord pillars in
      let? yinYangBalance := CalculateYinYangBalance pillars in
      let? dayMaster := GetDayMaster dayPillar in
      let? dayMasterStrength := GetDayMasterStrength pillars dayPillar in
      Some (Ok (ChineseProfile.mk
                  (PillarToString yearPillar) (PillarToString monthPillar)
                  (PillarToString dayPillar) (PillarToString hourPillar)
                  yinYangBalance elementBalance dayMaster dayMasterStrength))
  end.

End ChineseProfileComputation.


(* ================================================================== *)
(** * Fusion engine ([fusion.go]): the element signature *)
(* ================================================================== *)

Module WesternProfile.
Record t := mk {
  DominantElement : string;
  Modal : ModalBalance.t;
  Cognition : CognitionProfile.t;
  Interaction : InteractionPreferences.t }.
End WesternProfile.

(** [for element, balance := range m { signature[element] += balance * w }]:
    every key of [m] is visited once and touches its own entry only. *)
Definition addWeighted (w : float) (signature : fmap) (m : fmap) : fmap :=
  fold_left (fun sig kv => madd sig (fst kv) (snd kv * w)%float) m signature.

(** The signature before it is normalised: the Western dominant element,
    then the Chinese element balance. *)
Definition weightedSignature (dominantElement : string) (elementBalance : fmap) : fmap :=
  let signature : fmap := [] in
  (* 40% influence from Western *)
  let westernWeight := 0.4%float in
  let signature :=
    if (dominantElement =? "Earth")%string then madd signature "Earth" westernWeight
    else if (dominantElement =? "Air")%string then
      (* Air maps to Wood and Metal in Chinese system *)
      let signature := madd signature "Wood" (westernWeight * 0.5)%float in
      madd signature "Metal" (westernWeight * 0.5)%float
    else if (dominantElement =? "Water")%string then madd signature "Water" westernWeight
    else if (dominantElement =? "Fire")%string then madd signature "Fire" westernWeight
    else signature in
  (* Add Chinese elements (60% influence) *)
  let chineseWeight := 0.6%float in
  addWeighted chineseWeight signature elementBalance.

(** [if total > 0 { for k := range signature { signature[k] /= total } }] *)
Definition normalizeBy (total : float) (signature : fmap) : fmap :=
  if (0 <? total)%float then range_update (fun v => v / total)%float signature
  else signature.

(** The element signature from the Western dominant element and the
    Chinese element balance; [ord] is the order in which the summing loop
    visits the keys of the signature. *)
Definition elementSignature (ord : list string) (dominantElement : string)
           (elementBalance : fmap) : fmap :=
  let signature := weightedSignature dominantElement elementBalance in
  (* Normalize to sum to 1 *)
  let total := range_sum signature ord in
  normalizeBy total signature.

(** buildElementSignature combines Western 4 elements with Chinese 5 elements *)
Definition buildElementSignature (ord : list string)
           (western : WesternProfile.t) (chinese : ChineseProfile.t) : fmap :=
  elementSignature ord (WesternProfile.DominantElement western)
                   (ChineseProfile.ElementBalance chinese).

(* ================================================================== *)
(** * Encodings of the standard library *)
(* ================================================================== *)

(** ** Bytes *)

Definition byteVal (c : ascii) : N := N_of_ascii c.
Definition byteOf (n : N) : ascii := ascii_of_N n.

(** The double quote character. *)
Definition dquote : ascii := "034"%char.
Definition backslash : ascii := "092"%char.

Definition str1 (c : ascii) : string := String c "".

Fixpoint repeatByte (c : ascii) (n : nat) : string :=
  match n with O => "" | S n' => String c (repeatByte c n') end.

Fixpoint mapBytes (f : ascii -> ascii) (s : string) : string :=
  match s with "" => "" | String c s' => String (f c) (mapBytes f s') end.

Fixpoint takeBytes (n : nat) (s : string) : string :=
  match n, s with
  | S n', String c s' => String c (takeBytes n' s')
  | _, _ => ""
  end.

(** ** [encoding/hex] *)

Definition hexDigit (n : N) : ascii :=
  if (n <? 10)%N then byteOf (48 + n) else byteOf (87 + n).

(** hex.EncodeToString: two lower-case digits per byte. *)
Fixpoint hex_EncodeToString (s : string) : string :=
  match s with
  | "" => ""
  | String c s' =>
      String (hexDigit (byteVal c / 16)) (String (hexDigit (byteVal c mod 16))
                                                 (hex_EncodeToString s'))
  end.

Definition fromHexChar (c : ascii) : option N :=
  let n := byteVal c in
  if ((48 <=? n) && (n <=? 57))%N then Some (n - 48)%N
  else if ((97 <=? n) && (n <=? 102))%N then Some (n - 87)%N
  else if ((65 <=? n) && (n <=? 70))%N then Some (n - 55)%N
  else None.

(** The text of hex.InvalidByteError: the byte as a code point ([%#U]),
    with its glyph when it is printable. *)
Definition hexInvalidByte (c : ascii) : string :=
  let n := byteVal c in
  "encoding/hex: invalid byte: U+00"
  ++ str1 (byteOf (let d := (n / 16)%N in if (d <? 10)%N then 48 + d else 55 + d))
  ++ str1 (byteOf (let d := (n mod 16)%N in if (d <? 10)%N then 48 + d else 55 + d))
  ++ (if ((32 <=? n) && (n <=? 126))%N then " '" ++ str1 c ++ "'"
      else if ((161 <=? n) && negb (n =? 173))%N
      then " '" ++ String (byteOf (192 + n / 64)) (str1 (byteOf (128 + n mod 64))) ++ "'"
      else "").

(** hex.DecodeString: pairs of digits of either case; a bad digit or an
    odd length is an error. *)
Fixpoint hex_DecodeString (s : string) : result string :=
  match s with
  | "" => Ok ""
  | String a "" =>
      match fromHexChar a with
      | None => Err (hexInvalidByte a)
      | Some _ => Err "encoding/hex: odd length hex string"
      end
  | String a (String b s') =>
      match fromHexChar a with
      | None => Err (hexInvalidByte a)
      | Some x =>
          match fromHexChar b with
          | None => Err (hexInvalidByte b)
          | Some y =>
              match hex_DecodeString s' with
              | Ok r => Ok (String (byteOf (16 * x + y)) r)
              | Err e => Err e
              end
          end
      end
  end.

(** ** [unicode/utf8]

    The length of the UTF-8 sequence that starts the string, or [None]
    where [utf8.DecodeRune] reports an encoding error (and a width of 1). *)
Definition isCont (c : ascii) : bool :=
  let n := byteVal c in ((128 <=? n) && (n <=? 191))%N.

Definition inRangeB (lo hi : N) (c : ascii) : bool :=
  let n := byteVal c in ((lo <=? n) && (n <=? hi))%N.

Definition utf8Size (s : string) : option nat :=
  match s with
  | "" => None
  | String c0 s1 =>
      let n0 := byteVal c0 in
      if (n0 <? 128)%N then Some 1%nat
      else if (n0 <? 194)%N then None
      else if (n0 <? 224)%N then
        match s1 with
        | String c1 _ => if isCont c1 then Some 2%nat else None
        | _ => None
        end
      else if (n0 <? 240)%N then
        match s1 with
        | String c1 (String c2 _) =>
            let lo := if (n0 =? 224)%N then 160%N else 128%N in
            let hi := if (n0 =? 237)%N then 159%N else 191%N in
            if inRangeB lo hi c1 && isCont c2 then Some 3%nat else None
        | _ => None
        end
      else if (n0 <? 245)%N then
        match s1 with
        | String c1 (String c2 (String c3 _)) =>
            let lo := if (n0 =? 240)%N then 144%N else 128%N in
            let hi := if (n0 =? 244)%N then 143%N else 191%N in
            if inRangeB lo hi c1 && isCont c2 && isCont c3 then Some 4%nat else None
        | _ => None
        end
      else None
  end.

(** U+FFFD, the replacement character, in UTF-8. *)
Definition replacementChar : string :=
  String (byteOf 239) (String (byteOf 191) (String (byteOf 189) "")).

(** ** [encoding/json]: marshalling *)

Definition hexDigits4 (n : N) : string :=
  String (hexDigit (n / 4096 mod 16)) (String (hexDigit (n / 256 mod 16))
    (String (hexDigit (n / 16 mod 16)) (String (hexDigit (n mod 16)) ""))).

(** The escape of one ASCII byte inside a JSON string (HTML escaping on, as
    [json.Marshal] has it). *)
Definition jsonEscapeAscii (c : ascii) : string :=
  let n := byteVal c in
  if ((n =? 34) || (n =? 92))%N then String backslash (str1 c)
  else if (n =? 8)%N then String backslash "b"
  else if (n =? 12)%N then String backslash "f"
  else if (n =? 10)%N then String backslash "n"
  else if (n =? 13)%N then String backslash "r"
  else if (n =? 9)%N then String backslash "t"
  else if ((n <? 32) || (n =? 60) || (n =? 62) || (n =? 38))%N then
    String backslash ("u" ++ hexDigits4 n)
  else str1 c.

(** The body of a JSON string: bytes that are not valid UTF-8 become the
    escape of U+FFFD, U+2028 and U+2029 are escaped, everything else from
    0x80 up is copied. *)
Fixpoint jsonEscape (s : string) : string :=
  match s with
  | "" => ""
  | String c0 s1 =>
      if (byteVal c0 <? 128)%N then jsonEscapeAscii c0 ++ jsonEscape s1
      else
        match utf8Size s with
        | None => String backslash "ufffd" ++ jsonEscape s1
        | Some 2%nat =>
            match s1 with
            | String c1 s2 => String c0 (String c1 (jsonEscape s2))
            | _ => ""
            end
        | Some 3%nat =>
            match s1 with
            | String c1 (String c2 s3) =>
                if ((byteVal c0 =? 226) && (byteVal c1 =? 128)
                    && ((byteVal c2 =? 168) || (byteVal c2 =? 169)))%N
                then String backslash ("u202" ++ str1 (hexDigit (byteVal c2 mod 16)))
                       ++ jsonEscape s3
                else String c0 (String c1 (String c2 (jsonEscape s3)))
            | _ => ""
            end
        | Some _ =>
            match s1 with
            | String c1 (String c2 (String c3 s4)) =>
                String c0 (String c1 (String c2 (String c3 (jsonEscape s4))))
            | _ => ""
            end
        end
  end.

Definition jsonString (s : string) : string :=
  String dquote (jsonEscape s ++ str1 dquote).

(** ["name":] *)
Definition jsonKey (name : string) : string :=
  String dquote (name ++ String dquote ":").

(** json.Marshal of a NormalizedProfile: the fields in declaration order
    under their tags. *)
Definition marshalNormalizedProfile (n : NormalizedProfile.t) : string :=
  let m := NormalizedProfile.Modal n in
  let c := NormalizedProfile.Cog n in
  let i := NormalizedProfile.Int n in
  "{" ++ jsonKey "element" ++ jsonString (NormalizedProfile.Element n)
  ++ "," ++ jsonKey "modal" ++ "{" ++ jsonKey "c" ++ fmt_d (NormalizedModal.C m)
       ++ "," ++ jsonKey "f" ++ fmt_d (NormalizedModal.F m)
       ++ "," ++ jsonKey "m" ++ fmt_d (NormalizedModal.M m) ++ "}"
  ++ "," ++ jsonKey "cog" ++ "{" ++ jsonKey "F" ++ fmt_d (NormalizedCognition.F c)
       ++ "," ++ jsonKey "C" ++ fmt_d (NormalizedCognition.C c)
       ++ "," ++ jsonKey "V" ++ fmt_d (NormalizedCognition.V c)
       ++ "," ++ jsonKey "S" ++ fmt_d (NormalizedCognition.S c)
       ++ "," ++ jsonKey "Cr" ++ fmt_d (NormalizedCognition.Cr c) ++ "}"
  ++ "," ++ jsonKey "int" ++ "{" ++ jsonKey "PB" ++ jsonString (NormalizedInteraction.PB i)
       ++ "," ++ jsonKey "SM" ++ jsonString (NormalizedInteraction.SM i)
       ++ "," ++ jsonKey "TN" ++ jsonString (NormalizedInteraction.TN i) ++ "}"
  ++ "}".

(** A [*NormalizedProfile]: nil marshals as [null]. *)
Definition marshalNormalizedProfilePtr (n : option NormalizedProfile.t) : string :=
  match n with
  | Some p => marshalNormalizedProfile p
  | None => "null"
  end.

(** ** [encoding/base64]: the URL-safe alphabet without padding *)

Definition base64urlChar (n : N) : ascii :=
  if (n <? 26)%N then byteOf (65 + n)
  else if (n <? 52)%N then byteOf (71 + n)
  else if (n <? 62)%N then byteOf (n - 4)
  else if (n =? 62)%N then "-"%char
  else "_"%char.

(** base64.RawURLEncoding.EncodeToString *)
Fixpoint base64_RawURL_Encode (s : string) : string :=
  match s with
  | "" => ""
  | String a "" =>
      let x := byteVal a in
      String (base64urlChar (x / 4)) (String (base64urlChar (x mod 4 * 16)) "")
  | String a (String b "") =>
      let x := byteVal a in
      let y := byteVal b in
      String (base64urlChar (x / 4))
        (String (base64urlChar (x mod 4 * 16 + y / 16))
           (String (base64urlChar (y mod 16 * 4)) ""))
  | String a (String b (String c s')) =>
      let x := byteVal a in
      let y := byteVal b in
      let z := byteVal c in
      String (base64urlChar (x / 4))
        (String (base64urlChar (x mod 4 * 16 + y / 16))
           (String (base64urlChar (y mod 16 * 4 + z / 64))
              (String (base64urlChar (z mod 64)) (base64_RawURL_Encode s'))))
  end.

(** ** [fmt]: fixed-point floats and [sort.Strings] *)

Definition padZeros (width : nat) (digits : string) : string :=
  repeatByte "0"%char (width - String.length digits) ++ digits.

(** [%.<prec>f] for [prec > 0]: the exact value rounded to [prec] decimals,
    halves to even; infinities and NaN by name. *)
Definition fmt_fixed (prec : nat) (x : float) : string :=
  match float_units x with
  | None =>
      if PrimFloat.is_nan x then "NaN"
      else if (x <? 0)%float then "-Inf" else "+Inf"
  | Some u =>
      let scaled := Z.abs u * 10 ^ Z.of_nat prec in
      let d := Zpos unitsPerOne in
      let q := scaled / d in
      let r := scaled mod d in
      let q := if (d <? 2 * r)%Z then q + 1
               else if (2 * r =? d)%Z then (if Z.even q then q else q + 1)
               else q in
      (if PrimFloat.get_sign x then "-" else "")
      ++ fmt_d (q / 10 ^ Z.of_nat prec) ++ "."
      ++ padZeros prec (fmt_d (q mod 10 ^ Z.of_nat prec))
  end.

Fixpoint insertSorted (k : string) (l : list string) : list string :=
  match l with
  | [] => [k]
  | k' :: l' => if String.leb k k' then k :: l else k' :: insertSorted k l'
  end.

(** sort.Strings: ascending in byte order. *)
Definition sort_Strings (l : list string) : list string :=
  fold_right insertSorted [] l.

(* ================================================================== *)
(** * Hash and signature engine ([crypto.go], [quantum.go]) *)
(* ================================================================== *)

Section Hashes.

(** The hash functions come from outside the package.  Each maps a byte
    string to its digest. *)
Variable sha256 : string -> string.
Variable sha3_256 : string -> string.
Variable blake3 : string -> string.

(** GenerateCHIP computes the CHIP-96 (12 hex chars) from salt and
    normalized profile.  [json.Marshal] cannot fail on this type. *)
Definition GenerateCHIP (salt : string) (normalized : option NormalizedProfile.t) : result string :=
  let canonicalJSON := marshalNormalizedProfilePtr normalized in
  let data := salt ++ canonicalJSON in
  let hash := sha256 data in
  let hexHash := hex_EncodeToString hash in
  Ok (takeBytes 12 hexHash).

(** ** [crypto/hmac] over SHA3-256

    The block size of SHA3-256 is its rate, 136 bytes.  A key longer than
    a block is replaced by its digest; the key is then padded with zero
    bytes to a full block. *)
Definition sha3_256_BlockSize : nat := 136.

Definition xorByte (k : N) (c : ascii) : ascii := byteOf (N.lxor (byteVal c) k).

Definition hmacKeyBlock (key : string) : string :=
  let key := if Nat.ltb sha3_256_BlockSize (String.length key) then sha3_256 key else key in
  key ++ repeatByte Ascii.zero (sha3_256_BlockSize - String.length key).

Definition hmac_sha3_256 (key msg : string) : string :=
  let block := hmacKeyBlock key in
  let ipad := mapBytes (xorByte 54) block in
  let opad := mapBytes (xorByte 92) block in
  sha3_256 (opad ++ sha3_256 (ipad ++ msg)).

(** ComputeQuantumSignatures computes the primary HMAC-SHA3-256 based
    signature (QSIG) and a secondary BLAKE3 digest over the canonical
    profile data. *)
Definition ComputeQuantumSignatures (canonical secret salt : string) : result (string * string) :=
  if Nat.eqb (String.length secret) 0 then Err "secret key must not be empty"
  else
    let derivedKey := hmac_sha3_256 secret salt in
    let qsig := hmac_sha3_256 derivedKey canonical in
    let qsigHex := hex_EncodeToString qsig in
    let b3sum := blake3 (derivedKey ++ canonical) in
    let b3Hex := hex_EncodeToString b3sum in
    Ok (qsigHex, b3Hex).

End Hashes.

(* ================================================================== *)
(** * Signed codec U7 ([codec_u7.go]) and stub codec U4 ([codec_u4.go]) *)
(* ================================================================== *)

(** FormatHCSU7 assembles the HCS-U7 code from the normalized profile and
    cryptographic signatures. *)
Definition FormatHCSU7 (profile : option NormalizedProfile.t) (qsigHex b3Hex : string) : result string :=
  match profile with
  | None => Err "normalized profile cannot be nil"
  | Some profile =>
      if Nat.eqb (String.length qsigHex) 0 || Nat.eqb (String.length b3Hex) 0 then
        Err "signatures must not be empty"
      else
        let m := NormalizedProfile.Modal profile in
        let c := NormalizedProfile.Cog profile in
        let i := NormalizedProfile.Int profile in
        let elemSegment := elemSegmentOf (NormalizedProfile.Element profile) in
        let modalSegment :=
          modalSegmentOf (NormalizedModal.C m) (NormalizedModal.F m) (NormalizedModal.M m) in
        let cogSegment :=
          cogSegmentOf (NormalizedCognition.F c) (NormalizedCognition.C c)
                       (NormalizedCognition.V c) (NormalizedCognition.S c)
                       (NormalizedCognition.Cr c) in
        let intSegment :=
          intSegmentOf (NormalizedInteraction.PB i) (NormalizedInteraction.SM i)
                       (NormalizedInteraction.TN i) in
        (* Truncate signatures for the inline code *)
        let qsigInline := takeBytes 24 qsigHex in
        let b3Inline := takeBytes 32 b3Hex in
        Ok ("HCS-U7|V:7.0|ALG:QS|" ++ elemSegment ++ "|" ++ modalSegment ++ "|" ++ cogSegment
            ++ "|" ++ intSegment ++ "|QSIG:" ++ qsigInline ++ "|B3:" ++ b3Inline)
  end.

(** json.Marshal of the map {"profile": normalized, "chip": chip}: the
    keys of a map are written in sorted order. *)
Definition marshalU4Data (normalized : option NormalizedProfile.t) (chip : string) : string :=
  "{" ++ jsonKey "chip" ++ jsonString chip
  ++ "," ++ jsonKey "profile" ++ marshalNormalizedProfilePtr normalized ++ "}".

(** EncodeU4 generates the HCS-U4 code from normalized profile and CHIP *)
Definition EncodeU4 (normalized : option NormalizedProfile.t) (chip : string) : result string :=
  let jsonData := marshalU4Data normalized chip in
  let encoded := base64_RawURL_Encode jsonData in
  Ok ("HCS-U4|" ++ encoded).

(* ================================================================== *)
(** * Fusion profile types ([fusion.go]) *)
(* ================================================================== *)

Module CognitiveFusion.
Record t := mk {
  Analytical : float; Creative : float; Grounded : float;
  Adaptive : float; Expressive : float }.
End CognitiveFusion.

Module TempoSignals.
Record t := mk { Pace : float; Variability : float; Intensity : float; Rhythm : string }.
End TempoSignals.

Module FusionProfile.
Record t := mk {
  ElementSignature : fmap;
  CognitiveFusion : CognitiveFusion.t;
  TempoSignals : TempoSignals.t;
  UnifiedBalance : float;
  HarmonicResonance : float;
  FusionID : string }.
End FusionProfile.

Module CombinedProfile.
Record t := mk {
  Western : WesternProfile.t;
  Chinese : ChineseProfile.t;
  Fusion : FusionProfile.t }.
End CombinedProfile.

(* ================================================================== *)
(** * Canonicalizer ([canonical.go]) *)
(* ================================================================== *)

Definition rbind {A B} (x : result A) (k : A -> result B) : result B :=
  match x with Ok a => k a | Err e => Err e end.

Notation "'try!' x ':=' e 'in' k" := (rbind e (fun x => k))
  (at level 10, x pattern, e at level 100, k at level 200).

(** A [fixed4] value inside json.Marshal: the text of [MarshalJSON] is
    [%.4f]; the encoder rejects a text that is not a JSON value, which is
    the case for infinities and NaN. *)
Definition marshalFixed4 (f : float) : result string :=
  let text := fmt_fixed 4 f in
  let problem :=
    if (text =? "NaN")%string then "invalid character 'N' looking for beginning of value"
    else if (text =? "+Inf")%string then "invalid character '+' looking for beginning of value"
    else if (text =? "-Inf")%string then "invalid character 'I' in numeric literal"
    else "" in
  if (problem =? "")%string then Ok text
  else Err ("json: error calling MarshalJSON for type hcs.fixed4: " ++ problem).

(** The sorted (name, value) pairs of the element balance, as a JSON array. *)
Fixpoint marshalElements (balance : fmap) (keys : list string) : result string :=
  match keys with
  | [] => Ok ""
  | k :: rest =>
      try! v := marshalFixed4 (mget balance k) in
      try! more := marshalElements balance rest in
      Ok ("{" ++ jsonKey "name" ++ jsonString k ++ "," ++ jsonKey "value" ++ v ++ "}"
          ++ (match rest with [] => "" | _ => "," end) ++ more)
  end.

Definition marshalCanonicalChinese (ch : ChineseProfile.t) : result string :=
  try! yinYang := marshalFixed4 (ChineseProfile.YinYangBalance ch) in
  let keys := sort_Strings (mkeys (ChineseProfile.ElementBalance ch)) in
  try! elems := marshalElements (ChineseProfile.ElementBalance ch) keys in
  try! strength := marshalFixed4 (ChineseProfile.DayMasterStrength ch) in
  Ok ("{" ++ jsonKey "yearPillar" ++ jsonString (ChineseProfile.YearPillar ch)
      ++ "," ++ jsonKey "monthPillar" ++ jsonString (ChineseProfile.MonthPillar ch)
      ++ "," ++ jsonKey "dayPillar" ++ jsonString (ChineseProfile.DayPillar ch)
      ++ "," ++ jsonKey "hourPillar" ++ jsonString (ChineseProfile.HourPillar ch)
      ++ "," ++ jsonKey "yinYangBalance" ++ yinYang
      ++ (match keys with
          | [] => ""   (* omitempty *)
          | _ => "," ++ jsonKey "elementBalance" ++ "[" ++ elems ++ "]"
          end)
      ++ "," ++ jsonKey "dayMaster" ++ jsonString (ChineseProfile.DayMaster ch)
      ++ "," ++ jsonKey "dayMasterStrength" ++ strength ++ "}").

Definition marshalCanonicalFusion (f : FusionProfile.t) : result string :=
  try! unified := marshalFixed4 (FusionProfile.UnifiedBalance f) in
  try! resonance := marshalFixed4 (FusionProfile.HarmonicResonance f) in
  Ok ("{" ++ jsonKey "fusionId" ++ jsonString (FusionProfile.FusionID f)
      ++ "," ++ jsonKey "unifiedBalance" ++ unified
      ++ "," ++ jsonKey "harmonicResonance" ++ resonance ++ "}").

(** CanonicalProfileData builds a canonical JSON representation of the
    profile data used for cryptographic signatures. *)
Definition CanonicalProfileData (normalized : option NormalizedProfile.t)
           (combined : option CombinedProfile.t) : result string :=
  let head := "{" ++ jsonKey "normalized" ++ marshalNormalizedProfilePtr normalized in
  let b :=
    match combined with
    | None => Ok (head ++ "}")
    | Some combined =>
        try! chinese := marshalCanonicalChinese (CombinedProfile.Chinese combined) in
        try! fusion := marshalCanonicalFusion (CombinedProfile.Fusion combined) in
        Ok (head ++ "," ++ jsonKey "chinese" ++ chinese
            ++ "," ++ jsonKey "fusion" ++ fusion ++ "}")
    end in
  match b with
  | Ok b => Ok b
  | Err e => Err ("failed to marshal canonical profile: " ++ e)
  end.

(* ================================================================== *)
(** * Secret key ([secret.go]) and generator ([generator.go]) *)
(* ================================================================== *)

(** LoadSecretKey, as a function of the value of HCS_SECRET_KEY when the
    key is first loaded (the result is cached for the life of the process). *)
Definition LoadSecretKey (value : string) : result string :=
  if (value =? "")%string then Err "HCS_SECRET_KEY is not set"
  else
    match hex_DecodeString value with
    | Err e => Err ("invalid HCS_SECRET_KEY hex encoding: " ++ e)
    | Ok decoded =>
        let l := String.length decoded in
        if negb (Nat.eqb l 32) && negb (Nat.eqb l 64) then
          Err ("HCS_SECRET_KEY must be 32 or 64 bytes, got " ++ fmt_d (Z.of_nat l) ++ " bytes")
        else Ok decoded
    end.

Module GeneratorOptions.
Record t := mk { U3Only : bool; U4Only : bool }.
End GeneratorOptions.

(** Modelled from the spec: the fields CodeU7, QSig and B3Sig of OutputHCS.
    The generator assigns them, but the declaration of the type that is
    part of the sources predates the signed code; the specification lists
    the U7 code among the generated codes of the output. *)
Module OutputHCS.
Record t := mk {
  Input : InputProfile.t;
  CodeU3 : string;
  CodeU4 : string;
  CodeU5 : string;
  Chip : string;
  ChineseProfile : option ChineseProfile.t;
  CombinedProfile : option CombinedProfile.t;
  CodeU7 : string;
  QSig : string;
  B3Sig : string }.
End OutputHCS.

(** validateRange checks if a value is between 0 and 1 *)
Definition validateRange (field : string) (value : float) : result unit :=
  if ((value <? 0) || (1 <? value))%float then
    Err (field ++ " must be between 0 and 1, got " ++ fmt_fixed 6 value)
  else Ok tt.

Definition memberOf (valid : list string) (k : string) : bool :=
  existsb (String.eqb k) valid.

(** The defaults that validateInput writes into the caller's profile. *)
Definition applyInteractionDefaults (x : InteractionPreferences.t) : InteractionPreferences.t :=
  let pace := InteractionPreferences.Pace x in
  let structure := InteractionPreferences.Structure x in
  let tone := InteractionPreferences.Tone x in
  InteractionPreferences.mk
    (if (pace =? "")%string then "balanced" else pace)
    (if (structure =? "")%string then "medium" else structure)
    (if (tone =? "")%string then "neutral" else tone).

Definition withInteraction (i : InputProfile.t) (x : InteractionPreferences.t) : InputProfile.t :=
  InputProfile.mk (InputProfile.DominantElement i) (InputProfile.Modal i)
                  (InputProfile.Cognition i) x (InputProfile.BirthInfo i).

(** validateInput checks if the input profile has valid values.  It works
    on the caller's profile through a pointer: the result is the profile
    as the call leaves it, and the error if any. *)
Definition validateInput (i : InputProfile.t) : InputProfile.t * result unit :=
  if negb (memberOf ["Earth"; "Air"; "Water"; "Fire"] (InputProfile.DominantElement i)) then
    (i, Err ("invalid dominant element: " ++ InputProfile.DominantElement i))
  else
    let m := InputProfile.Modal i in
    let c := InputProfile.Cognition i in
    let ranges :=
      try! _ := validateRange "modal.cardinal" (ModalBalance.Cardinal m) in
      try! _ := validateRange "modal.fixed" (ModalBalance.Fixed m) in
      try! _ := validateRange "modal.mutable" (ModalBalance.Mutable m) in
      try! _ := validateRange "cognition.fluid" (CognitionProfile.Fluid c) in
      try! _ := validateRange "cognition.crystallized" (CognitionProfile.Crystallized c) in
      try! _ := validateRange "cognition.verbal" (CognitionProfile.Verbal c) in
      try! _ := validateRange "cognition.strategic" (CognitionProfile.Strategic c) in
      validateRange "cognition.creative" (CognitionProfile.Creative c) in
    match ranges with
    | Err e => (i, Err e)
    | Ok _ =>
        (* Apply sensible defaults for interaction preferences when fields are empty *)
        let i := withInteraction i (applyInteractionDefaults (InputProfile.Interaction i)) in
        let x := InputProfile.Interaction i in
        if negb (memberOf ["balanced"; "fast"; "slow"] (InteractionPreferences.Pace x)) then
          (i, Err ("invalid pace: " ++ InteractionPreferences.Pace x))
        else if negb (memberOf ["low"; "medium"; "high"] (InteractionPreferences.Structure x)) then
          (i, Err ("invalid structure: " ++ InteractionPreferences.Structure x))
        else if negb (memberOf ["warm"; "neutral"; "sharp"; "precise"] (InteractionPreferences.Tone x)) then
          (i, Err ("invalid tone: " ++ InteractionPreferences.Tone x))
        else
          match InputProfile.BirthInfo i with
          | Some birthInfo =>
              match validateBirthInfo birthInfo with
              | Err e => (i, Err ("invalid birth info: " ++ e))
              | Ok _ => (i, Ok tt)
              end
          | None => (i, Ok tt)
          end
    end.

Section Generator.

Variable sha256 : string -> string.
Variable sha3_256 : string -> string.
Variable blake3 : string -> string.

Variable Zone : Type.
Variable LoadLocation : string -> option Zone.
Variable zoneWallClock : Zone -> Z -> Z.
Variable ord : list string.

(** The rest of the fusion engine and the bit-packed codec U5 are used by
    the generator as they are; no property below depends on what they
    compute. *)
Variable BuildFusionProfile : WesternProfile.t -> ChineseProfile.t -> FusionProfile.t.
Variable EncodeU5 :
  WesternProfile.t -> ChineseProfile.t -> FusionProfile.t -> string -> result string.

(** The value of HCS_SECRET_KEY in the environment of the process. *)
Variable secretEnv : string.

(** Generator handles HCS code generation with persistent salt *)
Record Generator := mkGenerator { salt : string }.

(** The optional part of a generation: the Chinese profile, the combined
    profile and the U5 code, when birth info is provided and the profile
    can be computed.  A failure is reported as a warning on the standard
    output and otherwise ignored. *)
Definition chineseBranch (g : Generator) (i : InputProfile.t)
  : option (option ChineseProfile.t * option CombinedProfile.t * string) :=
  match InputProfile.BirthInfo i with
  | None => Some (None, None, "")
  | Some birthInfo =>
      let? r := ComputeChineseProfile Zone LoadLocation zoneWallClock ord birthInfo in
      match r with
      | Err _ => Some (None, None, "")
      | Ok chineseProfile =>
          let westernProfile :=
            WesternProfile.mk (InputProfile.DominantElement i) (InputProfile.Modal i)
                              (InputProfile.Cognition i) (InputProfile.Interaction i) in
          let fusionProfile := BuildFusionProfile westernProfile chineseProfile in
          let combined := CombinedProfile.mk westernProfile chineseProfile fusionProfile in
          let codeU5 :=
            match EncodeU5 westernProfile chineseProfile fusionProfile (salt g) with
            | Ok u5Code => u5Code
            | Err _ => ""
            end in
          Some (Some chineseProfile, Some combined, codeU5)
      end
  end.

(** The codes of a validated profile. *)
Definition generateCodes (g : Generator) (i : InputProfile.t) (opts : GeneratorOptions.t)
  : option (result OutputHCS.t) :=
  let normalized := NormalizeProfile i in
  match GenerateCHIP sha256 (salt g) (Some normalized) with
  | Err e => Some (Err ("failed to generate CHIP: " ++ e))
  | Ok chip =>
      let codeU3 := if negb (GeneratorOptions.U4Only opts) then EncodeU3 i chip else "" in
      match (if negb (GeneratorOptions.U3Only opts) then EncodeU4 (Some normalized) chip
             else Ok "") with
      | Err e => Some (Err ("failed to generate U4 code: " ++ e))
      | Ok codeU4 =>
          let? (chineseProfile, combinedProfile, codeU5) := chineseBranch g i in
          Some (
            match CanonicalProfileData (Some normalized) combinedProfile with
            | Err e => Err ("failed to build canonical profile: " ++ e)
            | Ok canonical =>
                match LoadSecretKey secretEnv with
                | Err e => Err ("failed to load secret key: " ++ e)
                | Ok secret =>
                    match ComputeQuantumSignatures sha3_256 blake3 canonical secret (salt g) with
                    | Err e => Err ("failed to compute quantum signatures: " ++ e)
                    | Ok (qsigHex, b3Hex) =>
                        match FormatHCSU7 (Some normalized) qsigHex b3Hex with
                        | Err e => Err ("failed to format HCS-U7 code: " ++ e)
                        | Ok u7 =>
                            Ok (OutputHCS.mk i codeU3 codeU4 codeU5 chip
                                  chineseProfile combinedProfile u7 qsigHex b3Hex)
                        end
                    end
                end
            end)
      end
  end.

(** GenerateWithOptions creates HCS codes with specific options.  The
    first component is the caller's profile after the call (the argument
    is a pointer), the second the returned output or error, [None] if the
    call panics. *)
Definition GenerateWithOptions (g : Generator) (i : option InputProfile.t)
           (opts : option GeneratorOptions.t)
  : option InputProfile.t * option (result OutputHCS.t) :=
  match i with
  | None => (None, Some (Err "input profile cannot be nil"))
  | Some i =>
      match validateInput i with
      | (i, Err e) => (Some i, Some (Err ("invalid input profile: " ++ e)))
      | (i, Ok _) =>
          let opts := match opts with
                      | Some o => o
                      | None => GeneratorOptions.mk false false
                      end in
          (Some i, generateCodes g i opts)
      end
  end.

(** Generate creates HCS codes from an input profile *)
Definition Generate (g : Generator) (i : option InputProfile.t)
  : option InputProfile.t * option (result OutputHCS.t) :=
  GenerateWithOptions g i None.

End Generator.

(* ================================================================== *)
(** * Decoding: base64, JSON and the stub codec U4 *)
(* ================================================================== *)

(** ** base64.RawURLEncoding.DecodeString

    Carriage returns and line feeds are skipped; every other character must
    be in the alphabet (the padding character is not); the characters are
    taken four at a time, a final group of two or three gives one or two
    bytes, a final single character is an error. *)

Definition base64urlValue (c : ascii) : option N :=
  let n := byteVal c in
  if ((65 <=? n) && (n <=? 90))%N then Some (n - 65)%N
  else if ((97 <=? n) && (n <=? 122))%N then Some (n - 71)%N
  else if ((48 <=? n) && (n <=? 57))%N then Some (n + 4)%N
  else if (n =? 45)%N then Some 62%N
  else if (n =? 95)%N then Some 63%N
  else None.

Definition base64Corrupt (pos : nat) : string :=
  "illegal base64 data at input byte " ++ fmt_d (Z.of_nat pos).

(** The 6-bit values of the characters, each with its offset in the input. *)
Fixpoint base64Values (s : string) (pos : nat) : result (list (N * nat)) :=
  match s with
  | "" => Ok []
  | String c s' =>
      if ((byteVal c =? 13) || (byteVal c =? 10))%N then base64Values s' (S pos)
      else
        match base64urlValue c with
        | None => Err (base64Corrupt pos)
        | Some v =>
            match base64Values s' (S pos) with
            | Ok l => Ok ((v, pos) :: l)
            | Err e => Err e
            end
        end
  end.

Fixpoint base64Assemble (l : list (N * nat)) : result string :=
  match l with
  | [] => Ok ""
  | [(_, pos)] => Err (base64Corrupt pos)
  | [(a, _); (b, _)] => Ok (str1 (byteOf (a * 4 + b / 16)))
  | [(a, _); (b, _); (c, _)] =>
      Ok (String (byteOf (a * 4 + b / 16)) (str1 (byteOf (b mod 16 * 16 + c / 4))))
  | (a, _) :: (b, _) :: (c, _) :: (d, _) :: rest =>
      match base64Assemble rest with
      | Ok r =>
          Ok (String (byteOf (a * 4 + b / 16))
                (String (byteOf (b mod 16 * 16 + c / 4))
                   (String (byteOf (c mod 4 * 64 + d)) r)))
      | Err e => Err e
      end
  end.

Definition base64_RawURL_Decode (s : string) : result string :=
  match base64Values s 0 with
  | Ok l => base64Assemble l
  | Err e => Err e
  end.

(** ** [encoding/json]: the syntax of a JSON text *)

Inductive json : Type :=
| JNull
| JBool (b : bool)
| JNumber (literal : string)
| JString (s : string)
| JArray (elements : list json)
| JObject (members : list (string * json)).

Definition isWs (c : ascii) : bool :=
  let n := byteVal c in ((n =? 32) || (n =? 9) || (n =? 10) || (n =? 13))%N.

Fixpoint skipWs (s : string) : string :=
  match s with
  | "" => ""
  | String c s' => if isWs c then skipWs s' else s
  end.

(** utf8.EncodeRune: surrogates and values beyond U+10FFFF are encoded as
    U+FFFD. *)
Definition utf8Encode (r : N) : string :=
  if (r <? 128)%N then str1 (byteOf r)
  else if (r <? 2048)%N then
    String (byteOf (192 + r / 64)) (str1 (byteOf (128 + r mod 64)))
  else if ((55296 <=? r) && (r <=? 57343))%N then replacementChar
  else if (r <? 65536)%N then
    String (byteOf (224 + r / 4096))
      (String (byteOf (128 + r / 64 mod 64)) (str1 (byteOf (128 + r mod 64))))
  else if (r <=? 1114111)%N then
    String (byteOf (240 + r / 262144))
      (String (byteOf (128 + r / 4096 mod 64))
         (String (byteOf (128 + r / 64 mod 64)) (str1 (byteOf (128 + r mod 64)))))
  else replacementChar.

(** The four hex digits of a [\u] escape ([getu4]). *)
Definition hex4 (a b c d : ascii) : option N :=
  match fromHexChar a, fromHexChar b, fromHexChar c, fromHexChar d with
  | Some x, Some y, Some z, Some w => Some (4096 * x + 256 * y + 16 * z + w)%N
  | _, _, _, _ => None
  end.

Definition isSurrogate (r : N) : bool := ((55296 <=? r) && (r <? 57344))%N.

(** utf16.DecodeRune: a high surrogate followed by a low one. *)
Definition surrogatePair (r1 r2 : N) : option N :=
  if ((55296 <=? r1) && (r1 <? 56320) && (56320 <=? r2) && (r2 <? 57344))%N
  then Some ((r1 - 55296) * 1024 + (r2 - 56320) + 65536)%N
  else None.

Definition simpleEscape (e : ascii) : option ascii :=
  let n := byteVal e in
  if ((n =? 34) || (n =? 92) || (n =? 47))%N then Some e
  else if (n =? 98)%N then Some (byteOf 8)
  else if (n =? 102)%N then Some (byteOf 12)
  else if (n =? 110)%N then Some (byteOf 10)
  else if (n =? 114)%N then Some (byteOf 13)
  else if (n =? 116)%N then Some (byteOf 9)
  else None.

Definition prepend (p : string) (r : option (string * string)) : option (string * string) :=
  match r with
  | Some (s, rest) => Some (p ++ s, rest)
  | None => None
  end.

(** The content of a string literal after its opening quote: the decoded
    string and the text after the closing quote.  Escapes are resolved;
    bytes from 0x80 up are copied when they form a UTF-8 sequence and
    replaced by U+FFFD otherwise (decoding a well-formed sequence and
    encoding it again gives the same bytes). *)
Fixpoint unquoteBody (s : string) : option (string * string) :=
  match s with
  | "" => None
  | String c s1 =>
      if (byteVal c =? 34)%N then Some ("", s1)
      else if (byteVal c =? 92)%N then
        match s1 with
        | "" => None
        | String e s2 =>
            if (byteVal e =? 117)%N then
              match s2 with
              | String h1 (String h2 (String h3 (String h4 s6))) =>
                  match hex4 h1 h2 h3 h4 with
                  | None => None
                  | Some rr =>
                      if isSurrogate rr then
                        match s6 with
                        | String b1 (String u1 (String g1 (String g2 (String g3 (String g4 s12))))) =>
                            match (if ((byteVal b1 =? 92) && (byteVal u1 =? 117))%N
                                   then hex4 g1 g2 g3 g4 else None) with
                            | Some rr1 =>
                                match surrogatePair rr rr1 with
                                | Some r => prepend (utf8Encode r) (unquoteBody s12)
                                | None => prepend replacementChar (unquoteBody s6)
                                end
                            | None => prepend replacementChar (unquoteBody s6)
                            end
                        | _ => prepend replacementChar (unquoteBody s6)
                        end
                      else prepend (utf8Encode rr) (unquoteBody s6)
                  end
              | _ => None
              end
            else
              match simpleEscape e with
              | Some ch => prepend (str1 ch) (unquoteBody s2)
              | None => None
              end
        end
      else if (byteVal c <? 32)%N then None
      else if (byteVal c <? 128)%N then prepend (str1 c) (unquoteBody s1)
      else
        match utf8Size s with
        | None => prepend replacementChar (unquoteBody s1)
        | Some 2%nat =>
            match s1 with
            | String c1 s2 => prepend (String c (str1 c1)) (unquoteBody s2)
            | _ => None
            end
        | Some 3%nat =>
            match s1 with
            | String c1 (String c2 s3) =>
                prepend (String c (String c1 (str1 c2))) (unquoteBody s3)
            | _ => None
            end
        | Some _ =>
            match s1 with
            | String c1 (String c2 (String c3 s4)) =>
                prepend (String c (String c1 (String c2 (str1 c3)))) (unquoteBody s4)
            | _ => None
            end
        end
  end.

Definition isDigit (c : ascii) : bool :=
  let n := byteVal c in ((48 <=? n) && (n <=? 57))%N.

(** The longest prefix of digits, and the rest. *)
Fixpoint scanDigits (s : string) : string * string :=
  match s with
  | "" => ("", "")
  | String c s' =>
      if isDigit c then let (ds, r) := scanDigits s' in (String c ds, r)
      else ("", s)
  end.

(** At least one digit. *)
Definition scanDigits1 (s : string) : option (string * string) :=
  match scanDigits s with
  | ("", _) => None
  | (ds, r) => Some (ds, r)
  end.

(** A number literal without its sign: 0, or a digit from 1 to 9 and then
    digits; optionally a point and digits; optionally e or E, a sign and
    digits. *)
Definition scanUnsigned (s : string) : option (string * string) :=
  let? (int, s) :=
    match s with
    | String d r =>
        if (byteVal d =? 48)%N then Some ("0", r)
        else if isDigit d then Some (scanDigits s)
        else None
    | "" => None
    end in
  let? (frac, s) :=
    match s with
    | String c r =>
        if (byteVal c =? 46)%N then
          let? (ds, r') := scanDigits1 r in Some (String c ds, r')
        else Some ("", s)
    | "" => Some ("", s)
    end in
  let? (exp, s) :=
    match s with
    | String c r =>
        if ((byteVal c =? 101) || (byteVal c =? 69))%N then
          let (esign, r) :=
            match r with
            | String g r' =>
                if ((byteVal g =? 43) || (byteVal g =? 45))%N then (str1 g, r') else ("", r)
            | "" => ("", r)
            end in
          let? (ds, r') := scanDigits1 r in Some (String c (esign ++ ds), r')
        else Some ("", s)
    | "" => Some ("", s)
    end in
  Some (int ++ frac ++ exp, s).

(** A number literal: an optional minus sign, then the unsigned literal. *)
Definition scanNumber (s : string) : option (string * string) :=
  match s with
  | String c r =>
      if (byteVal c =? 45)%N then prepend "-" (scanUnsigned r) else scanUnsigned s
  | "" => None
  end.

Fixpoint dropPrefix (p s : string) : option string :=
  match p, s with
  | "", _ => Some s
  | String a p', String b s' => if (a =? b)%char then dropPrefix p' s' else None
  | _, "" => None
  end.

(** The scanner refuses values nested deeper than this. *)
Definition maxNestingDepth : N := 10000.

(** One JSON value at the start of the text (after white space), and the
    text after it.  [fuel] bounds the number of values, members and
    elements still to be read; [depth] is the nesting depth. *)
Fixpoint parseValue (fuel : nat) (depth : N) (s : string) {struct fuel}
  : option (json * string) :=
  match fuel with
  | O => None
  | S fuel =>
      match skipWs s with
      | "" => None
      | String c r =>
          let n := byteVal c in
          if (n =? 123)%N then                        (* { *)
            if (maxNestingDepth <? depth + 1)%N then None
            else
              match skipWs r with
              | "" => None
              | String c' r' =>
                  if (byteVal c' =? 125)%N then Some (JObject [], r')
                  else
                    let? (ms, rest) := parseMembers fuel (depth + 1)%N (String c' r') in
                    Some (JObject ms, rest)
              end
          else if (n =? 91)%N then                    (* [ *)
            if (maxNestingDepth <? depth + 1)%N then None
            else
              match skipWs r with
              | "" => None
              | String c' r' =>
                  if (byteVal c' =? 93)%N then Some (JArray [], r')
                  else
                    let? (es, rest) := parseElements fuel (depth + 1)%N (String c' r') in
                    Some (JArray es, rest)
              end
          else if (n =? 34)%N then
            let? (str, rest) := unquoteBody r in Some (JString str, rest)
          else if (n =? 116)%N then
            let? rest := dropPrefix "rue" r in Some (JBool true, rest)
          else if (n =? 102)%N then
            let? rest := dropPrefix "alse" r in Some (JBool false, rest)
          else if (n =? 110)%N then
            let? rest := dropPrefix "ull" r in Some (JNull, rest)
          else
            let? (lit, rest) := scanNumber (String c r) in Some (JNumber lit, rest)
      end
  end

(** The members of an object from its first key to the closing brace. *)
with parseMembers (fuel : nat) (depth : N) (s : string) {struct fuel}
  : option (list (string * json) * string) :=
  match fuel with
  | O => None
  | S fuel =>
      match skipWs s with
      | "" => None
      | String q r =>
          if negb (byteVal q =? 34)%N then None
          else
            let? (key, r1) := unquoteBody r in
            match skipWs r1 with
            | "" => None
            | String colon r2 =>
                if negb (byteVal colon =? 58)%N then None
                else
                  let? (v, r3) := parseValue fuel depth r2 in
                  match skipWs r3 with
                  | "" => None
                  | String sep r4 =>
                      if (byteVal sep =? 125)%N then Some ([(key, v)], r4)
                      else if (byteVal sep =? 44)%N then
                        let? (ms, rest) := parseMembers fuel depth r4 in
                        Some ((key, v) :: ms, rest)
                      else None
                  end
            end
      end
  end

(** The elements of an array from its first element to the closing bracket. *)
with parseElements (fuel : nat) (depth : N) (s : string) {struct fuel}
  : option (list json * string) :=
  match fuel with
  | O => None
  | S fuel =>
      let? (v, r1) := parseValue fuel depth s in
      match skipWs r1 with
      | "" => None
      | String sep r2 =>
          if (byteVal sep =? 93)%N then Some ([v], r2)
          else if (byteVal sep =? 44)%N then
            let? (vs, rest) := parseElements fuel depth r2 in
            Some (v :: vs, rest)
          else None
      end
  end.

(** A whole text: one value, then white space only.  Every value, member
    and element takes at least one character of the text. *)
Definition parseJSON (s : string) : option json :=
  let? (v, rest) := parseValue (S (String.length s)) 0 s in
  match skipWs rest with
  | "" => Some v
  | _ => None
  end.

(** ** [encoding/json]: unmarshalling into the types of the package *)

Definition jsonKind (v : json) : string :=
  match v with
  | JNull => "null"
  | JBool _ => "bool"
  | JNumber _ => "number"
  | JString _ => "string"
  | JArray _ => "array"
  | JObject _ => "object"
  end.

(** The text of an UnmarshalTypeError, without the path of the field. *)
Definition unmarshalTypeError (v : json) (goType : string) : string :=
  "json: cannot unmarshal " ++ jsonKind v ++ " into Go value of type " ++ goType.

(** A value for a [string]: a JSON string is stored, null leaves the
    variable as it is. *)
Definition unmarshalString (current : string) (v : json) : result string :=
  match v with
  | JString s => Ok s
  | JNull => Ok current
  | _ => Err (unmarshalTypeError v "string")
  end.

(** strconv.ParseInt(literal, 10, 64) on a JSON number literal. *)
Definition parseInt64 (literal : string) : option Z :=
  match NilZero.int_of_string literal with
  | Some d =>
      let z := Z.of_int d in
      if ((minInt64 <=? z) && (z <=? maxInt64))%Z then Some z else None
  | None => None
  end.

Definition unmarshalInt (current : Z) (v : json) : result Z :=
  match v with
  | JNumber literal =>
      match parseInt64 literal with
      | Some z => Ok z
      | None => Err (unmarshalTypeError v "int")
      end
  | JNull => Ok current
  | _ => Err (unmarshalTypeError v "int")
  end.

(** The folded form of a key, under which field names are compared when no
    field has the key as its exact name: ASCII letters in upper case, and
    the two non-ASCII letters whose case folding is an ASCII letter, the
    long s (U+017F) and the Kelvin sign (U+212A).  (Other letters beyond
    ASCII fold to letters beyond ASCII, which no field name of the package
    contains.) *)
Fixpoint foldName (key : string) : string :=
  match key with
  | "" => ""
  | String c0 (String c1 (String c2 rest as r2) as r1) =>
      if ((byteVal c0 =? 226) && (byteVal c1 =? 132) && (byteVal c2 =? 170))%N
      then String "K"%char (foldName rest)
      else if ((byteVal c0 =? 197) && (byteVal c1 =? 191))%N
      then String "S"%char (foldName r2)
      else String (if ((97 <=? byteVal c0) && (byteVal c0 <=? 122))%N
                   then byteOf (byteVal c0 - 32) else c0) (foldName r1)
  | String c0 (String c1 rest as r1) =>
      if ((byteVal c0 =? 197) && (byteVal c1 =? 191))%N
      then String "S"%char (foldName rest)
      else String (if ((97 <=? byteVal c0) && (byteVal c0 <=? 122))%N
                   then byteOf (byteVal c0 - 32) else c0) (foldName r1)
  | String c0 rest =>
      String (if ((97 <=? byteVal c0) && (byteVal c0 <=? 122))%N
              then byteOf (byteVal c0 - 32) else c0) (foldName rest)
  end.

(** The field that a key denotes: the field of that name, or else the
    first field with the same folded name. *)
Definition lookupField (fields : list string) (key : string) : option string :=
  match find (String.eqb key) fields with
  | Some f => Some f
  | None => find (fun f => (foldName f =? foldName key)%string) fields
  end.

(** The members of an object stored into a struct, in the order of the
    text; keys that denote no field are skipped. *)
Fixpoint unmarshalMembers {S : Type} (fields : list string)
         (store : string -> json -> S -> result S)
         (members : list (string * json)) (current : S) : result S :=
  match members with
  | [] => Ok current
  | (key, v) :: rest =>
      match lookupField fields key with
      | Some f =>
          try! current := store f v current in
          unmarshalMembers fields store rest current
      | None => unmarshalMembers fields store rest current
      end
  end.

Definition unmarshalStruct {S : Type} (goType : string) (fields : list string)
           (store : string -> json -> S -> result S) (current : S) (v : json) : result S :=
  match v with
  | JObject members => unmarshalMembers fields store members current
  | JNull => Ok current
  | _ => Err (unmarshalTypeError v goType)
  end.

Definition storeNormalizedModal (f : string) (v : json) (m : NormalizedModal.t)
  : result NormalizedModal.t :=
  let '(NormalizedModal.mk c f' m') := m in
  if (f =? "c")%string then try! x := unmarshalInt c v in Ok (NormalizedModal.mk x f' m')
  else if (f =? "f")%string then try! x := unmarshalInt f' v in Ok (NormalizedModal.mk c x m')
  else try! x := unmarshalInt m' v in Ok (NormalizedModal.mk c f' x).

Definition storeNormalizedCognition (f : string) (v : json) (c : NormalizedCognition.t)
  : result NormalizedCognition.t :=
  let '(NormalizedCognition.mk f' c' v' s' cr') := c in
  if (f =? "F")%string then try! x := unmarshalInt f' v in Ok (NormalizedCognition.mk x c' v' s' cr')
  else if (f =? "C")%string then try! x := unmarshalInt c' v in Ok (NormalizedCognition.mk f' x v' s' cr')
  else if (f =? "V")%string then try! x := unmarshalInt v' v in Ok (NormalizedCognition.mk f' c' x s' cr')
  else if (f =? "S")%string then try! x := unmarshalInt s' v in Ok (NormalizedCognition.mk f' c' v' x cr')
  else try! x := unmarshalInt cr' v in Ok (NormalizedCognition.mk f' c' v' s' x).

Definition storeNormalizedInteraction (f : string) (v : json) (i : NormalizedInteraction.t)
  : result NormalizedInteraction.t :=
  let '(NormalizedInteraction.mk pb sm tn) := i in
  if (f =? "PB")%string then try! x := unmarshalString pb v in Ok (NormalizedInteraction.mk x sm tn)
  else if (f =? "SM")%string then try! x := unmarshalString sm v in Ok (NormalizedInteraction.mk pb x tn)
  else try! x := unmarshalString tn v in Ok (NormalizedInteraction.mk pb sm x).

Definition storeNormalizedProfile (f : string) (v : json) (p : NormalizedProfile.t)
  : result NormalizedProfile.t :=
  let '(NormalizedProfile.mk e m c i) := p in
  if (f =? "element")%string then
    try! x := unmarshalString e v in Ok (NormalizedProfile.mk x m c i)
  else if (f =? "modal")%string then
    try! x := unmarshalStruct "hcs.NormalizedModal" ["c"; "f"; "m"] storeNormalizedModal m v in
    Ok (NormalizedProfile.mk e x c i)
  else if (f =? "cog")%string then
    try! x := unmarshalStruct "hcs.NormalizedCognition" ["F"; "C"; "V"; "S"; "Cr"]
                              storeNormalizedCognition c v in
    Ok (NormalizedProfile.mk e m x i)
  else
    try! x := unmarshalStruct "hcs.NormalizedInteraction" ["PB"; "SM"; "TN"]
                              storeNormalizedInteraction i v in
    Ok (NormalizedProfile.mk e m c x).

Definition zeroNormalizedProfile : NormalizedProfile.t :=
  NormalizedProfile.mk "" (NormalizedModal.mk 0 0 0) (NormalizedCognition.mk 0 0 0 0 0)
                       (NormalizedInteraction.mk "" "" "").

(** A value for a [*NormalizedProfile]: null makes the pointer nil; an
    object is stored into the struct pointed to, a fresh one if the
    pointer is nil. *)
Definition unmarshalNormalizedProfilePtr (current : option NormalizedProfile.t) (v : json)
  : result (option NormalizedProfile.t) :=
  match v with
  | JNull => Ok None
  | _ =>
      let target := match current with Some p => p | None => zeroNormalizedProfile end in
      try! p := unmarshalStruct "hcs.NormalizedProfile" ["element"; "modal"; "cog"; "int"]
                                storeNormalizedProfile target v in
      Ok (Some p)
  end.

(** The anonymous struct { Profile *NormalizedProfile; Chip string } of
    DecodeU4. *)
Definition storeU4Data (f : string) (v : json) (d : option NormalizedProfile.t * string)
  : result (option NormalizedProfile.t * string) :=
  let (profile, chip) := d in
  if (f =? "profile")%string then
    try! x := unmarshalNormalizedProfilePtr profile v in Ok (x, chip)
  else
    try! x := unmarshalString chip v in Ok (profile, x).

(** json.Unmarshal(decoded, &u4Data) *)
Definition unmarshalU4Data (text : string) : result (option NormalizedProfile.t * string) :=
  match parseJSON text with
  | None => Err "json: syntax error"
  | Some v =>
      unmarshalStruct "struct { Profile *hcs.NormalizedProfile; Chip string }"
                      ["profile"; "chip"] storeU4Data (None, "") v
  end.

(** DecodeU4 decodes an HCS-U4 code back to its components *)
Definition DecodeU4 (code : string) : result (option NormalizedProfile.t * string) :=
  match dropPrefix "HCS-U4|" code with
  | None => Err "invalid HCS-U4 format"
  | Some encoded =>
      match base64_RawURL_Decode encoded with
      | Err e => Err ("failed to decode U4: " ++ e)
      | Ok decoded =>
          match unmarshalU4Data decoded with
          | Err e => Err ("failed to unmarshal U4 data: " ++ e)
          | Ok d => Ok d
          end
      end
  end.

(* ================================================================== *)
(** * Vocabulary of the properties *)
(* ================================================================== *)

(** A pillar whose indices are inside the two tables. *)
Definition validPillar (p : Pillar.t) : Prop :=
  0 <= Pillar.StemIndex p < 10 /\ 0 <= Pillar.BranchIndex p < 12.

(** All lists of length [n] over [l]. *)
Fixpoint tuples {A} (n : nat) (l : list A) : list (list A) :=
  match n with
  | O => [[]]
  | S n' => flat_map (fun x => map (cons x) (tuples n' l)) l
  end.

Definition elementPairs : list (string * string) := list_prod elementNames elementNames.

(** The loop of GetDayMasterStrength on the elements of the pillars. *)
Fixpoint supportLoopE (dayElement : string) (i : nat) (strength : float)
         (es : list (string * string)) : float :=
  match es with
  | [] => strength
  | e :: rest =>
      if Nat.eqb i 2 then supportLoopE dayElement (S i) strength rest
      else supportLoopE dayElement (S i) (supportStep dayElement e strength) rest
  end.

(** The strength computed from the elements lies in [0.3, 1] and is not
    classified as weak. *)
Definition strengthInRange (dayElement : string) (es : list (string * string)) : bool :=
  let v := math_Min (math_Max (supportLoopE dayElement 0 0.3%float es) 0) 1 in
  (0.3 <=? v)%float && (v <=? 1)%float && negb (dayMasterTypeOf v =? "Weak")%string.

(** The exact rational value of a finite float. *)
Definition float_to_Q (x : float) : option Q :=
  option_map (fun u => Qmake u unitsPerOne) (float_units x).

(** The exact sum of the values of a map, when all of them are finite. *)
Fixpoint exactSum (m : fmap) : option Q :=
  match m with
  | [] => Some 0%Q
  | (_, v) :: m' =>
      let? q := float_to_Q v in
      let? r := exactSum m' in
      Some (q + r)%Q
  end.

(** "The values of the map sum to 1.0 within 0.01", as exact rationals. *)
Definition sumsToOne (m : fmap) : Prop :=
  exists q, exactSum m = Some q /\ (Qabs (q - 1) <= 1 # 100)%Q.

Definition validWesternElement (e : string) : Prop :=
  e = "Earth" \/ e = "Air" \/ e = "Water" \/ e = "Fire".

(** The five range conditions of the birth-date validation. *)
Definition birthInfoInRange (info : BirthInfo.t) : Prop :=
  1900 <= BirthInfo.Year info <= 2100
  /\ 1 <= BirthInfo.Month info <= 12
  /\ 1 <= BirthInfo.Day info <= 31
  /\ 0 <= BirthInfo.Hour info <= 23
  /\ 0 <= BirthInfo.Minute info <= 59.

Definition withTimezone (info : BirthInfo.t) (tz : string) : BirthInfo.t :=
  BirthInfo.mk (BirthInfo.Year info) (BirthInfo.Month info) (BirthInfo.Day info)
               (BirthInfo.Hour info) (BirthInfo.Minute info) tz.

(** An interaction field after a call: as before, or the default written
    over an empty field. *)
Definition keptOrDefaulted (before after default : string) : Prop :=
  after = before \/ (before = "" /\ after = default).

(** A profile that passes validation except that its pace is left empty. *)
Definition emptyPaceInput : InputProfile.t :=
  InputProfile.mk "Air"
    (ModalBalance.mk 0.31 0.23 0.46)
    (CognitionProfile.mk 0.52 0.13 0.53 0.15 0.33)
    (InteractionPreferences.mk "" "medium" "precise")
    None.

(** A hash function does not collide on two given messages. *)
Definition noCollision (H : string -> string) (x y : string) : Prop :=
  x <> y -> H x <> H y.

(** Two secrets that the key loader accepts: 32 bytes of 0x01, and the same
    bytes followed by 32 zero bytes. *)
Definition shortSecret : string := repeatByte "001"%char 32.
Definition paddedSecret : string := shortSecret ++ repeatByte Ascii.zero 32.

(** utf8.ValidString *)
Fixpoint validUTF8 (s : string) : bool :=
  match s with
  | "" => true
  | String c0 s1 =>
      if (byteVal c0 <? 128)%N then validUTF8 s1
      else
        match utf8Size s with
        | None => false
        | Some 2%nat =>
            match s1 with
            | String _ s2 => validUTF8 s2
            | _ => false
            end
        | Some 3%nat =>
            match s1 with
            | String _ (String _ s3) => validUTF8 s3
            | _ => false
            end
        | Some _ =>
            match s1 with
            | String _ (String _ (String _ s4)) => validUTF8 s4
            | _ => false
            end
        end
  end.

(** The values of Go's [int]. *)
Definition inInt64 (z : Z) : bool := ((minInt64 <=? z) && (z <=? maxInt64))%Z.

(** The strings of a profile are valid UTF-8. *)
Definition validStrings (n : NormalizedProfile.t) : bool :=
  let i := NormalizedProfile.Int n in
  validUTF8 (NormalizedProfile.Element n)
  && validUTF8 (NormalizedInteraction.PB i)
  && validUTF8 (NormalizedInteraction.SM i)
  && validUTF8 (NormalizedInteraction.TN i).

(** The integers of a profile are values of [int]. *)
Definition intsInRange (n : NormalizedProfile.t) : bool :=
  let m := NormalizedProfile.Modal n in
  let c := NormalizedProfile.Cog n in
  inInt64 (NormalizedModal.C m) && inInt64 (NormalizedModal.F m)
  && inInt64 (NormalizedModal.M m)
  && inInt64 (NormalizedCognition.F c) && inInt64 (NormalizedCognition.C c)
  && inInt64 (NormalizedCognition.V c) && inInt64 (NormalizedCognition.S c)
  && inInt64 (NormalizedCognition.Cr c).

Definition onProfile (p : NormalizedProfile.t -> bool) (n : option NormalizedProfile.t) : bool :=
  match n with
  | Some x => p x
  | None => true
  end.

(* ================================================================== *)
(** * Auxiliary definitions of the proofs *)
(* ================================================================== *)

(** The elements of a valid pillar: both lookups succeed and give one of
    the five element names. *)
Definition hasElements (p : Pillar.t) (e : string * string) : Prop :=
  stemElement p = Some (fst e) /\ branchElement p = Some (snd e).

(** Every choice of a day element and of the elements of the three other
    pillars passes [strengthInRange]. *)
Definition strengthInRange3 (d : string) (es : list (string * string)) : bool :=
  match es with
  | [e0; e1; e3] => strengthInRange d [e0; e1; (d, d); e3]
  | _ => true
  end.

(** The pillars of the package's element-balance test, with the third as
    the day pillar. *)
Definition samplePillars : list Pillar.t :=
  [ Pillar.mk "Jia" "Zi" 0 0; Pillar.mk "Bing" "Wu" 2 6;
    Pillar.mk "Wu" "Chen" 4 4; Pillar.mk "Geng" "Shen" 6 8 ].

(** Halves of small naturals as floats: the values the counting loop of
    CalculateElementBalance can hold. *)
Definition halfF (n : nat) : float := (float_of_small_Z (Z.of_nat n) / 2)%float.

(** How often each of the five elements was counted, in half units: Wood,
    Fire, Earth, Metal, Water. *)
Definition Counts : Type := nat * nat * nat * nat * nat.

Definition mapOfCounts (c : Counts) : fmap :=
  let '(a, b, c, d, e) := c in
  [("Wood", halfF a); ("Fire", halfF b); ("Earth", halfF c);
   ("Metal", halfF d); ("Water", halfF e)].

Definition countOf (k : string) (c : Counts) : nat :=
  let '(a, b, c, d, e) := c in
  if k =? "Wood" then a else if k =? "Fire" then b else if k =? "Earth" then c
  else if k =? "Metal" then d else if k =? "Water" then e else 0%nat.

Definition addCount (k : string) (j : nat) (c : Counts) : Counts :=
  let '(a, b, c, d, e) := c in
  if k =? "Wood" then (a + j, b, c, d, e)%nat
  else if k =? "Fire" then (a, b + j, c, d, e)%nat
  else if k =? "Earth" then (a, b, c + j, d, e)%nat
  else if k =? "Metal" then (a, b, c, d + j, e)%nat
  else (a, b, c, d, e + j)%nat.

Definition totalCount (c : Counts) : nat :=
  let '(a, b, c, d, e) := c in (a + b + c + d + e)%nat.

Definition countPillar (c : Counts) (e : string * string) : Counts :=
  addCount (snd e) 1 (addCount (fst e) 2 c).

Definition float_scaled64 (x : float) : option Z :=
  match Prim2SF x with
  | S754_zero _ => Some 0
  | S754_finite s m e =>
      if (-64 <=? e)%Z
      then let u := Z.shiftl (Zpos m) (e + 64) in Some (if s then - u else u)
      else None
  | _ => None
  end.

Fixpoint scaledSum (m : fmap) : option Z :=
  match m with
  | [] => Some 0
  | (_, v) :: m' =>
      let? a := float_scaled64 v in
      let? r := scaledSum m' in
      Some (a + r)
  end.

(** The sum, in units of 2^-64, is within one percent of 2^64. *)
Definition nearOne64 (m : fmap) : bool :=
  match scaledSum m with
  | Some s => (Z.abs (100 * s - 100 * 2 ^ 64) <=? 2 ^ 64)%Z
  | None => false
  end.

Definition unitsPer64 : Z := 2 ^ 1010.

Definition balanceOfCounts (c : Counts) : fmap :=
  range_update (fun v => v / halfF 12)%float (mapOfCounts c).

Definition range13 : list nat := seq 0 13.

Definition allCounts : list Counts :=
  filter (fun c => Nat.eqb (totalCount c) 12)
    (list_prod (list_prod (list_prod (list_prod range13 range13) range13) range13) range13).

Definition westernElements : list string := ["Earth"; "Air"; "Water"; "Fire"].

Definition isOrder (l : list string) : bool :=
  forallb (fun k => existsb (String.eqb k) l) elementNames.

Definition allOrders : list (list string) := filter isOrder (tuples 5 elementNames).

(** Removing repeated floats (the same bits) from a list. *)
Fixpoint nodupF (l : list float) : list float :=
  match l with
  | [] => []
  | x :: l' => let r := nodupF l' in
               if existsb (PrimFloat.Leibniz.eqb x) r then r else x :: r
  end.

(** The check for one signature before normalisation: whatever total the
    summing loop arrives at (one candidate per visiting order), the
    normalised signature sums to one. *)
Definition totalsCheck (sig : fmap) : bool :=
  forallb (fun total => nearOne64 (normalizeBy total sig))
          (nodupF (map (range_sum sig) allOrders)).

Definition countsCheck (c : Counts) : bool :=
  nearOne64 (balanceOfCounts c)
  && forallb (fun w => totalsCheck (weightedSignature w (balanceOfCounts c)))
             westernElements.

(** A zone database that knows no zone at all: every identifier falls
    back to UTC. *)
Definition noZones : string -> option unit := fun _ => None.

(** A stand-in for a hash function in examples: the first 32 bytes of the
    message, padded with zero bytes. *)
Definition prefixDigest (x : string) : string :=
  takeBytes 32 (x ++ repeatByte Ascii.zero 32).

Definition sampleSecretEnv : string :=
  "0102030405060708090a0b0c0d0e0f101112131415161718191a1b1c1d1e1f20".

Definition noFusion (w : WesternProfile.t) (c : ChineseProfile.t) : FusionProfile.t :=
  FusionProfile.mk [] (CognitiveFusion.mk 0 0 0 0 0) (TempoSignals.mk 0 0 0 "steady") 0 0 "XX".

Definition noU5 (w : WesternProfile.t) (c : ChineseProfile.t) (f : FusionProfile.t)
           (salt : string) : result string := Err "not generated".

(** The part of a U7 code before the signatures. *)
Definition u7Head (profile : NormalizedProfile.t) : string :=
  let m := NormalizedProfile.Modal profile in
  let c := NormalizedProfile.Cog profile in
  let i := NormalizedProfile.Int profile in
  "HCS-U7|V:7.0|ALG:QS|" ++ elemSegmentOf (NormalizedProfile.Element profile)
  ++ "|" ++ modalSegmentOf (NormalizedModal.C m) (NormalizedModal.F m) (NormalizedModal.M m)
  ++ "|" ++ cogSegmentOf (NormalizedCognition.F c) (NormalizedCognition.C c)
                         (NormalizedCognition.V c) (NormalizedCognition.S c)
                         (NormalizedCognition.Cr c)
  ++ "|" ++ intSegmentOf (NormalizedInteraction.PB i) (NormalizedInteraction.SM i)
                         (NormalizedInteraction.TN i).

Definition otherSecret : string := repeatByte "002"%char 32.

Definition sextetOk (n : N) : bool :=
  match base64urlValue (base64urlChar n) with
  | Some v => (v =? n)%N
  | None => false
  end
  && negb ((byteVal (base64urlChar n) =? 13) || (byteVal (base64urlChar n) =? 10))%N.

Definition numberEnd (c : ascii) : Prop := c = ","%char \/ c = "}"%char.

(** A field name of the package: plain characters that the encoder copies. *)
Definition plainKey (k : string) : Prop := validUTF8 k = true /\ jsonEscape k = k.

(** The syntax trees of the marshalled values. *)
Definition astModal (m : NormalizedModal.t) : json :=
  JObject [("c", JNumber (fmt_d (NormalizedModal.C m)));
           ("f", JNumber (fmt_d (NormalizedModal.F m)));
           ("m", JNumber (fmt_d (NormalizedModal.M m)))].

Definition astCognition (c : NormalizedCognition.t) : json :=
  JObject [("F", JNumber (fmt_d (NormalizedCognition.F c)));
           ("C", JNumber (fmt_d (NormalizedCognition.C c)));
           ("V", JNumber (fmt_d (NormalizedCognition.V c)));
           ("S", JNumber (fmt_d (NormalizedCognition.S c)));
           ("Cr", JNumber (fmt_d (NormalizedCognition.Cr c)))].

Definition astInteraction (i : NormalizedInteraction.t) : json :=
  JObject [("PB", JString (NormalizedInteraction.PB i));
           ("SM", JString (NormalizedInteraction.SM i));
           ("TN", JString (NormalizedInteraction.TN i))].

Definition astProfile (n : NormalizedProfile.t) : json :=
  JObject [("element", JString (NormalizedProfile.Element n));
           ("modal", astModal (NormalizedProfile.Modal n));
           ("cog", astCognition (NormalizedProfile.Cog n));
           ("int", astInteraction (NormalizedProfile.Int n))].

Definition astProfilePtr (n : option NormalizedProfile.t) : json :=
  match n with
  | Some p => astProfile p
  | None => JNull
  end.

Definition astU4Data (n : option NormalizedProfile.t) (chip : string) : json :=
  JObject [("chip", JString chip); ("profile", astProfilePtr n)].

(* ================================================================== *)
(** * Further code of the package *)
(* ================================================================== *)

(** ** Go maps from strings to strings *)

Definition smap : Type := list (string * string).

Fixpoint sget (m : smap) (k : string) : option string :=
  match m with
  | [] => None
  | (k', v) :: rest => if (k' =? k)%string then Some v else sget rest k
  end.

(** [m[k] = v]: the entry is replaced, or added. *)
Fixpoint sset (m : smap) (k v : string) : smap :=
  match m with
  | [] => [(k, v)]
  | (k', v') :: rest =>
      if (k' =? k)%string then (k, v) :: rest else (k', v') :: sset rest k v
  end.

(** ** [regexp]: the part of the syntax that the package's patterns use

    A pattern is a sequence of: the anchors, single characters (escaped or
    not), and classes [\d] or [[...]] of single characters and ranges, with
    an optional count [{n}] and optionally inside a capturing group.  Such
    a pattern has at most one match at a position. *)

Inductive ritem : Type :=
| RBegin
| REnd
| RChar (c : ascii)
| RClass (capture : bool) (ranges : list (N * N)) (count : nat).

Definition inClass (ranges : list (N * N)) (c : ascii) : bool :=
  existsb (fun r => (fst r <=? byteVal c)%N && (byteVal c <=? snd r)%N) ranges.

(** The members of a bracket expression up to the closing bracket. *)
Fixpoint parseBracket (s : string) : option (list (N * N) * string) :=
  match s with
  | "" => None
  | String c rest =>
      if (byteVal c =? 93)%N then Some ([], rest)                      (* ] *)
      else
        match rest with
        | String dash (String hi rest') =>
            if ((byteVal dash =? 45) && negb (byteVal hi =? 93))%N then
              let? (rs, r) := parseBracket rest' in
              Some ((byteVal c, byteVal hi) :: rs, r)
            else
              let? (rs, r) := parseBracket rest in
              Some ((byteVal c, byteVal c) :: rs, r)
        | _ =>
            let? (rs, r) := parseBracket rest in
            Some ((byteVal c, byteVal c) :: rs, r)
        end
  end.

(** A count [{n}] if the text starts with one, else one occurrence. *)
Definition parseCount (s : string) : option (nat * string) :=
  match s with
  | String c rest =>
      if (byteVal c =? 123)%N then                                      (* { *)
        match scanDigits rest with
        | ("", _) => None
        | (ds, String close rest') =>
            if (byteVal close =? 125)%N then
              match NilEmpty.uint_of_string ds with
              | Some u => Some (Nat.of_uint u, rest')
              | None => None
              end
            else None
        | _ => None
        end
      else Some (1%nat, s)
  | "" => Some (1%nat, s)
  end.

(** A class at the start of the text: [\d] or a bracket expression. *)
Definition parseClass (s : string) : option (list (N * N) * string) :=
  match s with
  | String c (String d rest) =>
      if ((byteVal c =? 92) && (byteVal d =? 100))%N then Some ([(48, 57)%N], rest)
      else if (byteVal c =? 91)%N then parseBracket (String d rest)
      else None
  | _ => None
  end.

(** regexp.Compile on this syntax; [None] stands for a pattern outside
    it. *)
Fixpoint compileRegexp (fuel : nat) (s : string) : option (list ritem) :=
  match fuel with
  | O => None
  | S fuel =>
      match s with
      | "" => Some []
      | String c rest =>
          let n := byteVal c in
          if (n =? 94)%N then let? r := compileRegexp fuel rest in Some (RBegin :: r)
          else if (n =? 36)%N then let? r := compileRegexp fuel rest in Some (REnd :: r)
          else if (n =? 40)%N then                                      (* ( class ) *)
            let? (ranges, r1) := parseClass rest in
            let? (count, r2) := parseCount r1 in
            match r2 with
            | String close r3 =>
                if (byteVal close =? 41)%N then
                  let? r := compileRegexp fuel r3 in Some (RClass true ranges count :: r)
                else None
            | "" => None
            end
          else
            match parseClass s with
            | Some (ranges, r1) =>
                let? (count, r2) := parseCount r1 in
                let? r := compileRegexp fuel r2 in Some (RClass false ranges count :: r)
            | None =>
                if (n =? 92)%N then                                     (* escaped character *)
                  match rest with
                  | String e rest' =>
                      let? r := compileRegexp fuel rest' in Some (RChar e :: r)
                  | "" => None
                  end
                else if ((n =? 41) || (n =? 91) || (n =? 123) || (n =? 42) || (n =? 43)
                         || (n =? 63) || (n =? 46) || (n =? 124))%N then None
                else let? r := compileRegexp fuel rest in Some (RChar c :: r)
            end
      end
  end.

Definition regexp_Compile (pattern : string) : option (list ritem) :=
  compileRegexp (S (String.length pattern)) pattern.

(** [count] characters of the class at the start of the text. *)
Fixpoint takeClass (ranges : list (N * N)) (count : nat) (s : string)
  : option (string * string) :=
  match count with
  | O => Some ("", s)
  | S count' =>
      match s with
      | String c rest =>
          if inClass ranges c then
            let? (g, r) := takeClass ranges count' rest in Some (String c g, r)
          else None
      | "" => None
      end
  end.

(** A match of the items at the start of [s]: the captured groups and the
    text after the match.  [atStart] tells whether [s] is the whole text. *)
Fixpoint matchItems (items : list ritem) (atStart : bool) (s : string)
  : option (list string * string) :=
  match items with
  | [] => Some ([], s)
  | RBegin :: rest => if atStart then matchItems rest atStart s else None
  | REnd :: rest =>
      match s with
      | "" => matchItems rest atStart s
      | _ => None
      end
  | RChar c :: rest =>
      match s with
      | String a s' => if (a =? c)%char then matchItems rest false s' else None
      | "" => None
      end
  | RClass capture ranges count :: rest =>
      let? (g, s') := takeClass ranges count s in
      let? (caps, r) := matchItems rest (atStart && Nat.eqb count 0) s' in
      Some (if capture then g :: caps else caps, r)
  end.

(** The leftmost match: the matched text followed by the groups. *)
Fixpoint searchItems (items : list ritem) (atStart : bool) (s : string)
  : option (list string) :=
  match matchItems items atStart s with
  | Some (caps, r) => Some (takeBytes (String.length s - String.length r) s :: caps)
  | None =>
      match s with
      | String _ s' => searchItems items false s'
      | "" => None
      end
  end.

(** regexp.MatchString: an error of the pattern gives [false]. *)
Definition regexp_MatchString (pattern s : string) : bool :=
  match regexp_Compile pattern with
  | Some items =>
      match searchItems items true s with Some _ => true | None => false end
  | None => false
  end.

(** Regexp.FindStringSubmatch: nil without a match.  [None] is the panic
    of regexp.MustCompile. *)
Definition regexp_FindStringSubmatch (pattern s : string) : option (list string) :=
  let? items := regexp_Compile pattern in
  Some match searchItems items true s with
       | Some l => l
       | None => []
       end.

(** ** Plain-text codec U3: validation and parsing ([codec_u3.go]) *)

Definition u3Pattern : string :=
  "^HCS-U3\|E:[AEWF]\|MOD:c\d{2}f\d{2}m\d{2}\|COG:F\d{2}C\d{2}V\d{2}S\d{2}Cr\d{2}\|INT:PB=[BFS],SM=[LMH],TN=[WNSP]\|CHIP:[0-9a-f]{12}$".

(** ValidateU3Format checks if a string matches the expected HCS-U3 format *)
Definition ValidateU3Format (code : string) : bool :=
  regexp_MatchString u3Pattern code.

Definition u3GroupPattern : string :=
  "HCS-U3\|E:([AEWF])\|MOD:c(\d{2})f(\d{2})m(\d{2})\|COG:F(\d{2})C(\d{2})V(\d{2})S(\d{2})Cr(\d{2})\|INT:PB=([BFS]),SM=([LMH]),TN=([WNSP])\|CHIP:([0-9a-f]{12})".

Definition u3ComponentNames : list string :=
  ["element"; "modal_cardinal"; "modal_fixed"; "modal_mutable";
   "cog_fluid"; "cog_crystallized"; "cog_verbal"; "cog_strategic"; "cog_creative";
   "int_pace"; "int_structure"; "int_tone"; "chip"].

(** components[name] = matches[k] for the names in order, k from 1. *)
Fixpoint storeComponents (names matches : list string) (components : smap) : smap :=
  match names, matches with
  | name :: names', m :: matches' => storeComponents names' matches' (sset components name m)
  | _, _ => components
  end.

(** ParseU3 parses an HCS-U3 code and extracts components.  [None] is a
    panic. *)
Definition ParseU3 (code : string) : option (result smap) :=
  if negb (ValidateU3Format code) then Some (Err "invalid HCS-U3 format")
  else
    let? matches := regexp_FindStringSubmatch u3GroupPattern code in
    let components : smap := [] in
    Some (Ok (if Nat.eqb (List.length matches) 14
              then storeComponents u3ComponentNames (tl matches) components
              else components)).

(** ** The server's substring test ([main.go] of the server) *)

Fixpoint contains (s substr : string) : bool :=
  (Nat.leb (String.length substr) (String.length s)
   && (takeBytes (String.length substr) s =? substr)%string)
  || (Nat.ltb (String.length substr) (String.length s)
      && match s with
         | String _ s' => contains s' substr
         | "" => false
         end).

(** ** Vocabulary of the further properties *)

Fixpoint allChars (p : ascii -> bool) (s : string) : bool :=
  match s with
  | "" => true
  | String c s' => p c && allChars p s'
  end.

(** A lower-case hexadecimal digit. *)
Definition isLowerHex (c : ascii) : bool :=
  let n := byteVal c in
  (((48 <=? n) && (n <=? 57)) || ((97 <=? n) && (n <=? 102)))%N.

(** Exactly [n] lower-case hexadecimal digits. *)
Definition isLowerHexOfLength (n : nat) (s : string) : bool :=
  Nat.eqb (String.length s) n && allChars isLowerHex s.

(** A percentage that two digits can show. *)
Definition twoDigits (z : Z) : bool := ((0 <=? z) && (z <=? 99))%Z.

Definition percentagesTwoDigits (n : NormalizedProfile.t) : bool :=
  let m := NormalizedProfile.Modal n in
  let c := NormalizedProfile.Cog n in
  twoDigits (NormalizedModal.C m) && twoDigits (NormalizedModal.F m)
  && twoDigits (NormalizedModal.M m)
  && twoDigits (NormalizedCognition.F c) && twoDigits (NormalizedCognition.C c)
  && twoDigits (NormalizedCognition.V c) && twoDigits (NormalizedCognition.S c)
  && twoDigits (NormalizedCognition.Cr c).

(** A character of the URL-safe base64 alphabet. *)
Definition isBase64Url (c : ascii) : bool :=
  let n := byteVal c in
  (((65 <=? n) && (n <=? 90)) || ((97 <=? n) && (n <=? 122))
   || ((48 <=? n) && (n <=? 57)) || (n =? 45) || (n =? 95))%N.

(** The segments E, MOD, COG and INT that the codecs U3 and U7 share. *)
Definition sharedSegments (n : NormalizedProfile.t) : string :=
  let m := NormalizedProfile.Modal n in
  let c := NormalizedProfile.Cog n in
  let i := NormalizedProfile.Int n in
  elemSegmentOf (NormalizedProfile.Element n)
  ++ "|" ++ modalSegmentOf (NormalizedModal.C m) (NormalizedModal.F m) (NormalizedModal.M m)
  ++ "|" ++ cogSegmentOf (NormalizedCognition.F c) (NormalizedCognition.C c)
                         (NormalizedCognition.V c) (NormalizedCognition.S c)
                         (NormalizedCognition.Cr c)
  ++ "|" ++ intSegmentOf (NormalizedInteraction.PB i) (NormalizedInteraction.SM i)
                         (NormalizedInteraction.TN i).

(* ================================================================== *)
(** * Methods of the Chinese profile ([chinese.go]) *)
(* ================================================================== *)

(** [maxElement := ""; maxValue := 0.0;
     for element, value := range m { if value > maxValue { ... } }],
    the keys visited in the order [ord].  The state is
    (maxElement, maxValue). *)
Definition argmaxStep (m : fmap) (st : string * float) (element : string) : string * float :=
  let value := mget m element in
  if (snd st <? value)%float then (element, value) else st.

Definition range_argmax (m : fmap) (ord : list string) : string :=
  fst (fold_left (argmaxStep m) ord ("", 0%float)).

(** GetDominantChineseElement returns the most prominent element in the
    profile *)
Definition GetDominantChineseElement (ord : list string) (cp : ChineseProfile.t) : string :=
  range_argmax (ChineseProfile.ElementBalance cp) ord.

(** GetChineseElementStrength returns the strength of a specific element *)
Definition GetChineseElementStrength (cp : ChineseProfile.t) (element : string) : float :=
  match find (fun kv => (fst kv =? element)%string) (ChineseProfile.ElementBalance cp) with
  | Some (_, val) => val
  | None => 0%float
  end.

(** GetYinYangType returns a string representation of the Yin/Yang balance *)
Definition yinYangTypeOf (balance : float) : string :=
  if (0.6 <? balance)%float then "Yang-dominant"
  else if (balance <? 0.4)%float then "Yin-dominant"
  else "Balanced".

Definition GetYinYangType (cp : ChineseProfile.t) : string :=
  yinYangTypeOf (ChineseProfile.YinYangBalance cp).

(** GetElement and GetYinYang of a pillar: the element and the polarity
    of its stem.  The lookup panics on an index outside the table. *)
Definition Pillar_GetElement (p : Pillar.t) : option string :=
  let? s := index HeavenlyStems (Pillar.StemIndex p) in Some (Stem.Element s).

Definition Pillar_GetYinYang (p : Pillar.t) : option string :=
  let? s := index HeavenlyStems (Pillar.StemIndex p) in Some (Stem.YinYang s).

(* ================================================================== *)
(** * Fusion engine ([fusion.go]) *)
(* ================================================================== *)

Section Fusion.
Local Open Scope float_scope.

Definition clampValue (value : float) : float := math_Max 0 (math_Min 1 value).

(** [variance := 0.0; for _, value := range elements { diff := value - mean;
    variance += diff * diff }] with mean 0.2, the keys in the order [ord]. *)
Definition sumSquaredDiff (mean : float) (elements : fmap) (ord : list string) : float :=
  fold_left (fun variance k => let diff := mget elements k - mean in variance + diff * diff)
            ord 0.

Definition calculateElementVariability (ord : list string) (elements : fmap) : float :=
  let variance := sumSquaredDiff 0.2 elements ord in
  (* Normalize variance to 0-1 range *)
  let stdDev := PrimFloat.sqrt (variance / 5) in
  math_Min (stdDev * 4) 1.

Definition calculateModalVariability (modal : ModalBalance.t) : float :=
  let values := [ModalBalance.Cardinal modal; ModalBalance.Fixed modal;
                 ModalBalance.Mutable modal] in
  let mean := 1 / 3 in
  let variance := fold_left (fun variance v => let diff := v - mean in variance + diff * diff)
                            values 0 in
  let stdDev := PrimFloat.sqrt (variance / 3) in
  1 - math_Min (stdDev * 3) 1.

(** getDominantElement: the same loop as GetDominantChineseElement. *)
Definition getDominantElement (ord : list string) (elements : fmap) : string :=
  range_argmax elements ord.

Definition compatibleElements : list (string * list string) :=
  [("Fire", ["Fire"; "Wood"]);
   ("Earth", ["Earth"; "Fire"; "Metal"]);
   ("Air", ["Wood"; "Metal"]);
   ("Water", ["Water"; "Wood"])].

Definition areElementsCompatible (western chinese : string) : bool :=
  match find (fun kv => (fst kv =? western)%string) compatibleElements with
  | Some (_, compatList) => existsb (fun elem => (elem =? chinese)%string) compatList
  | None => false
  end.

Definition elementCodes : list (string * string) :=
  [("Fire-Fire", "A"); ("Fire-Wood", "B"); ("Fire-Earth", "C"); ("Fire-Metal", "D");
   ("Fire-Water", "E");
   ("Earth-Fire", "F"); ("Earth-Wood", "G"); ("Earth-Earth", "H"); ("Earth-Metal", "I");
   ("Earth-Water", "J");
   ("Air-Fire", "K"); ("Air-Wood", "L"); ("Air-Earth", "M"); ("Air-Metal", "N");
   ("Air-Water", "O");
   ("Water-Fire", "P"); ("Water-Wood", "Q"); ("Water-Earth", "R"); ("Water-Metal", "S");
   ("Water-Water", "T")].

Definition getElementCode (western chinese : string) : string :=
  let key := (western ++ "-" ++ chinese)%string in
  match sget elementCodes key with
  | Some code => code
  | None => "X"   (* Default *)
  end.

(** [codes[index]] panics on an index outside the nine codes. *)
Definition getBalanceCode (modal : ModalBalance.t) (yinYang : float) : option string :=
  let modalZone :=
    if 0.4 <? ModalBalance.Cardinal modal then 2%Z
    else if 0.4 <? ModalBalance.Fixed modal then 1%Z
    else 0%Z in
  let yinYangZone :=
    if 0.66 <? yinYang then 2%Z
    else if 0.33 <? yinYang then 1%Z
    else 0%Z in
  let codes := ["1"; "2"; "3"; "4"; "5"; "6"; "7"; "8"; "9"]%string in
  let index' := (modalZone * 3 + yinYangZone)%Z in
  index codes index'.

(** generateFusionID creates a 2-character fusion identifier *)
Definition generateFusionID (ord : list string)
           (western : WesternProfile.t) (chinese : ChineseProfile.t) : option string :=
  let elementCode :=
    getElementCode (WesternProfile.DominantElement western)
                   (getDominantElement ord (ChineseProfile.ElementBalance chinese)) in
  let? balanceCode :=
    getBalanceCode (WesternProfile.Modal western) (ChineseProfile.YinYangBalance chinese) in
  Some (elementCode ++ balanceCode)%string.

(** buildCognitiveFusion merges cognitive patterns from both systems *)
Definition buildCognitiveFusion (ord : list string)
           (western : WesternProfile.t) (chinese : ChineseProfile.t) : CognitiveFusion.t :=
  let balance := ChineseProfile.ElementBalance chinese in
  let cog := WesternProfile.Cognition western in
  let metalInfluence := mget balance "Metal" in
  let waterInfluence := mget balance "Water" in
  let fireInfluence := mget balance "Fire" in
  let woodInfluence := mget balance "Wood" in
  let earthInfluence := mget balance "Earth" in
  let yangInfluence := ChineseProfile.YinYangBalance chinese in
  let analytical :=
    CognitionProfile.Strategic cog * 0.5 + (metalInfluence * 0.3 + waterInfluence * 0.2) in
  let creative :=
    CognitionProfile.Creative cog * 0.5 + (fireInfluence * 0.3 + woodInfluence * 0.2) in
  let grounded := CognitionProfile.Crystallized cog * 0.5 + earthInfluence * 0.5 in
  let elementVariability := calculateElementVariability ord balance in
  let adaptive := CognitionProfile.Fluid cog * 0.6 + elementVariability * 0.4 in
  let expressive := CognitionProfile.Verbal cog * 0.5 + yangInfluence * 0.5 in
  CognitiveFusion.mk (clampValue analytical) (clampValue creative) (clampValue grounded)
                     (clampValue adaptive) (clampValue expressive).

(** buildTempoSignals creates tempo and rhythm preferences *)
Definition buildTempoSignals (ord : list string)
           (western : WesternProfile.t) (chinese : ChineseProfile.t) : TempoSignals.t :=
  let balance := ChineseProfile.ElementBalance chinese in
  let wpace := InteractionPreferences.Pace (WesternProfile.Interaction western) in
  let basePace :=
    if (wpace =? "fast")%string then 0.8
    else if (wpace =? "slow")%string then 0.2
    else 0.5 in
  let pace := basePace * 0.6 + ChineseProfile.YinYangBalance chinese * 0.4 in
  let modalVariability := calculateModalVariability (WesternProfile.Modal western) in
  let elementVariability := calculateElementVariability ord balance in
  let variability := (modalVariability + elementVariability) / 2 in
  let fireWater := mget balance "Fire" + mget balance "Water" in
  let intensity := fireWater * 0.5 + ChineseProfile.DayMasterStrength chinese * 0.5 in
  let rhythm :=
    if 0.6 <? variability then "fluctuating"%string
    else if (0.6 <? intensity) && (0.6 <? pace) then "dynamic"%string
    else "steady"%string in
  TempoSignals.mk (clampValue pace) (clampValue variability) (clampValue intensity) rhythm.

(** calculateUnifiedBalance combines Yin/Yang with modal balance *)
Definition calculateUnifiedBalance (western : WesternProfile.t) (chinese : ChineseProfile.t)
  : float :=
  let modal := WesternProfile.Modal western in
  let modalBalance :=
    ModalBalance.Cardinal modal * 0.5 + ModalBalance.Mutable modal * 0.3
    + (1 - ModalBalance.Fixed modal) * 0.2 in
  let unified := modalBalance * 0.4 + ChineseProfile.YinYangBalance chinese * 0.6 in
  clampValue unified.

(** calculateHarmonicResonance measures how well the two systems align *)
Definition calculateHarmonicResonance (ord : list string)
           (western : WesternProfile.t) (chinese : ChineseProfile.t) : float :=
  let balance := ChineseProfile.ElementBalance chinese in
  let yinYang := ChineseProfile.YinYangBalance chinese in
  let interaction := WesternProfile.Interaction western in
  let resonance := 0.5 in
  let westernElement := WesternProfile.DominantElement western in
  let chineseDominant := getDominantElement ord balance in
  let resonance :=
    if areElementsCompatible westernElement chineseDominant then resonance + 0.2
    else resonance in
  let wpace := InteractionPreferences.Pace interaction in
  let resonance :=
    if (wpace =? "fast")%string && (0.6 <? yinYang) then resonance + 0.15
    else if (wpace =? "slow")%string && (yinYang <? 0.4) then resonance + 0.15
    else if (wpace =? "balanced")%string && (0.4 <=? yinYang) && (yinYang <=? 0.6)
         then resonance + 0.15
    else resonance in
  let earthMetal := mget balance "Earth" + mget balance "Metal" in
  let wstructure := InteractionPreferences.Structure interaction in
  let resonance :=
    if (wstructure =? "high")%string && (0.4 <? earthMetal) then resonance + 0.15
    else if (wstructure =? "low")%string && (earthMetal <? 0.3) then resonance + 0.15
    else resonance in
  clampValue resonance.

(** The orders in which the loops over the element balance visit its keys
    during one call of BuildFusionProfile, in the order of the calls:
    the summing loop of buildElementSignature, the variability loops of
    buildCognitiveFusion and buildTempoSignals, and the loops of
    getDominantElement in calculateHarmonicResonance and generateFusionID. *)
Record FusionOrders := mkFusionOrders {
  ordSignature : list string;
  ordCognitive : list string;
  ordTempo : list string;
  ordResonance : list string;
  ordFusionID : list string }.

(** BuildFusionProfile creates a fusion profile from Western and Chinese
    profiles.  [None] is a panic. *)
Definition BuildFusionProfile (o : FusionOrders)
           (western : WesternProfile.t) (chinese : ChineseProfile.t) : option FusionProfile.t :=
  let elementSig := buildElementSignature (ordSignature o) western chinese in
  let cogFusion := buildCognitiveFusion (ordCognitive o) western chinese in
  let tempoSignals := buildTempoSignals (ordTempo o) western chinese in
  let unifiedBalance := calculateUnifiedBalance western chinese in
  let harmonicResonance := calculateHarmonicResonance (ordResonance o) western chinese in
  let? fusionID := generateFusionID (ordFusionID o) western chinese in
  Some (FusionProfile.mk elementSig cogFusion tempoSignals unifiedBalance
                         harmonicResonance fusionID).

End Fusion.

(** A float in the interval [0, 1]. *)
Definition inUnit (r : float) : bool := ((0 <=? r) && (r <=? 1))%float.

(** NaN, or a float in [0, 1]. *)
Definition nanOrUnit (r : float) : bool := PrimFloat.is_nan r || inUnit r.

(** A letter from A to T or X, then a digit from 1 to 9. *)
Definition isFusionID (id : string) : bool :=
  match id with
  | String a (String b "") =>
      ((((65 <=? byteVal a) && (byteVal a <=? 84)) || (byteVal a =? 88))
       && ((49 <=? byteVal b) && (byteVal b <=? 57)))%N
  | _ => false
  end.

(* ================================================================== *)
(** * Bit-packed codec U5 ([codec_u5.go]) *)
(* ================================================================== *)

(** ** Slices of strings and 16-bit words *)

(** [s[lo:hi]] panics unless 0 <= lo <= hi <= len(s). *)
Definition slice (s : string) (lo hi : Z) : option string :=
  if ((0 <=? lo) && (lo <=? hi) && (hi <=? Z.of_nat (String.length s)))%Z
  then Some (substring (Z.to_nat lo) (Z.to_nat (hi - lo)) s)
  else None.

Definition len (s : string) : Z := Z.of_nat (String.length s).

Definition uint16 (z : Z) : Z := z mod 65536.

(** [uint16(f)] for a float64 [f]: truncation towards zero.  For a value
    that a uint16 cannot hold Go leaves the result to the implementation;
    amd64 converts to a 32-bit integer (CVTTSD2SL, which gives 0x80000000
    for what an int32 cannot hold) and keeps the low 16 bits. *)
Definition uint16_of_float (f : float) : Z :=
  match Prim2SF f with
  | S754_zero _ => 0
  | S754_finite s m e =>
      let mag := (if 0 <=? e then Zpos m * 2 ^ e else Zpos m / 2 ^ (- e))%Z in
      let v := (if s then - mag else mag)%Z in
      if ((- 2 ^ 31 <=? v) && (v <=? 2 ^ 31 - 1))%Z then uint16 v else 0
  | _ => 0
  end.

(** [x << n] on uint16. *)
Definition shl16 (x n : Z) : Z := uint16 (Z.shiftl x n).

(** [%04x] of a uint16: four lower-case hexadecimal digits. *)
Definition fmt_04x (bits : Z) : string := hexDigits4 (Z.to_N bits).

(** ** Compression of the three profiles *)

Section U5.
Local Open Scope float_scope.

(** compressWesternProfile compresses Western profile to 4 hex chars
    (16 bits) *)
Definition compressWesternProfile (western : WesternProfile.t) : string :=
  let element := WesternProfile.DominantElement western in
  let modal := WesternProfile.Modal western in
  let interaction := WesternProfile.Interaction western in
  let bits := 0%Z in
  (* Element (bits 15-14) *)
  let elementBits :=
    if (element =? "Fire")%string then 0%Z
    else if (element =? "Earth")%string then 1%Z
    else if (element =? "Air")%string then 2%Z
    else if (element =? "Water")%string then 3%Z
    else 0%Z in
  let bits := Z.lor bits (shl16 elementBits 14) in
  (* Convert to 3-bit values (0-7) *)
  let cardinalBits := uint16_of_float (ModalBalance.Cardinal modal * 7) in
  let fixedBits := uint16_of_float (ModalBalance.Fixed modal * 7) in
  let mutableBits := uint16_of_float (ModalBalance.Mutable modal * 7) in
  let bits := Z.lor bits (shl16 cardinalBits 10) in
  let bits := Z.lor bits (shl16 fixedBits 7) in
  let bits := Z.lor bits (shl16 mutableBits 4) in
  (* Pace (bits 3-2) *)
  let pace := InteractionPreferences.Pace interaction in
  let paceBits :=
    if (pace =? "slow")%string then 0%Z
    else if (pace =? "balanced")%string then 1%Z
    else if (pace =? "fast")%string then 2%Z
    else 0%Z in
  let bits := Z.lor bits (shl16 paceBits 2) in
  (* Structure (bit 1) *)
  let bits :=
    if (InteractionPreferences.Structure interaction =? "high")%string
    then Z.lor bits (shl16 1 1) else bits in
  (* Tone category (bit 0) *)
  let tone := InteractionPreferences.Tone interaction in
  let bits :=
    if ((tone =? "sharp") || (tone =? "precise"))%string then Z.lor bits 1 else bits in
  fmt_04x bits.

(** Helper function to calculate element distribution variance *)
Definition calculateElementDistribution (ord : list string) (elements : fmap) : float :=
  let sumSquaredDiff := sumSquaredDiff 0.2 elements ord in
  let variance := sumSquaredDiff / 5 in
  clampValue (variance * 10).

(** [for i, stem := range HeavenlyStems { if stem.Name == name { ...; break } }]:
    the index of the first stem of that name, else 0. *)
Fixpoint stemIndexOf (name : string) (stems : list Stem.t) (i : Z) : Z :=
  match stems with
  | [] => 0%Z
  | stem :: rest =>
      if (Stem.Name stem =? name)%string then uint16 i else stemIndexOf name rest (i + 1)%Z
  end.

(** compressChineseProfile compresses Chinese profile to 4 hex chars
    (16 bits).  [ordDominant] and [ordDistribution] are the orders in
    which the two loops over the element balance visit its keys. *)
Definition compressChineseProfile (ordDominant ordDistribution : list string)
           (chinese : ChineseProfile.t) : string :=
  let bits := 0%Z in
  (* Dominant element (bits 15-13) *)
  let dominantElement := GetDominantChineseElement ordDominant chinese in
  let elementBits :=
    if (dominantElement =? "Wood")%string then 0%Z
    else if (dominantElement =? "Fire")%string then 1%Z
    else if (dominantElement =? "Earth")%string then 2%Z
    else if (dominantElement =? "Metal")%string then 3%Z
    else if (dominantElement =? "Water")%string then 4%Z
    else 0%Z in
  let bits := Z.lor bits (shl16 elementBits 13) in
  (* Yin/Yang balance (bits 12-10) *)
  let yinYangBits := uint16_of_float (ChineseProfile.YinYangBalance chinese * 7) in
  let bits := Z.lor bits (shl16 yinYangBits 10) in
  (* Day Master index (bits 9-6) *)
  let dayMasterBits := stemIndexOf (ChineseProfile.DayMaster chinese) HeavenlyStems 0 in
  let bits := Z.lor bits (shl16 dayMasterBits 6) in
  (* Day Master strength (bits 5-3) *)
  let strengthBits := uint16_of_float (ChineseProfile.DayMasterStrength chinese * 7) in
  let bits := Z.lor bits (shl16 strengthBits 3) in
  (* Element distribution pattern (bits 2-0) *)
  let variance :=
    calculateElementDistribution ordDistribution (ChineseProfile.ElementBalance chinese) in
  let patternBits := uint16_of_float (variance * 7) in
  let bits := Z.lor bits patternBits in
  fmt_04x bits.

(** The two loops of getCognitivePattern over the map of the five traits,
    visited in the orders [ordPrimary] and [ordSecondary]; the state is
    (maxVal, pattern). *)
Definition traitValue (traits : list (Z * float)) (p : Z) : float :=
  match find (fun kv => (fst kv =? p)%Z) traits with
  | Some (_, v) => v
  | None => 0
  end.

Definition primaryStep (traits : list (Z * float)) (st : float * Z) (p : Z) : float * Z :=
  let val := traitValue traits p in
  if fst st <? val then (val, p) else st.

Definition secondaryStep (traits : list (Z * float)) (pattern : Z) (st : float * Z) (p : Z)
  : float * Z :=
  let val := traitValue traits p in
  if negb (p =? pattern)%Z && (fst st <? val) then (val, p) else st.

(** getCognitivePattern returns a 4-bit pattern representing dominant
    cognitive trait *)
Definition getCognitivePattern (ordPrimary ordSecondary : list Z) (cog : CognitiveFusion.t)
  : Z :=
  let traits :=
    [(0, CognitiveFusion.Analytical cog); (1, CognitiveFusion.Creative cog);
     (2, CognitiveFusion.Grounded cog); (3, CognitiveFusion.Adaptive cog);
     (4, CognitiveFusion.Expressive cog)]%Z in
  let pattern := snd (fold_left (primaryStep traits) ordPrimary (0, 0%Z)) in
  (* Add secondary trait influence (bits 3-2) *)
  let secondPattern := snd (fold_left (secondaryStep traits pattern) ordSecondary (0, 0%Z)) in
  (* Combine primary and secondary patterns *)
  Z.lor (shl16 pattern 2) (Z.land secondPattern 3).

(** compressFusionProfile compresses Fusion profile to 4 hex chars
    (16 bits) *)
Definition compressFusionProfile (ordPrimary ordSecondary : list Z) (fusion : FusionProfile.t)
  : string :=
  let tempo := FusionProfile.TempoSignals fusion in
  let bits := 0%Z in
  (* Cognitive fusion pattern (bits 15-12) *)
  let cogPattern :=
    getCognitivePattern ordPrimary ordSecondary (FusionProfile.CognitiveFusion fusion) in
  let bits := Z.lor bits (shl16 cogPattern 12) in
  (* Tempo pace (bits 11-9) *)
  let paceBits := uint16_of_float (TempoSignals.Pace tempo * 7) in
  let bits := Z.lor bits (shl16 paceBits 9) in
  (* Intensity (bits 8-6) *)
  let intensityBits := uint16_of_float (TempoSignals.Intensity tempo * 7) in
  let bits := Z.lor bits (shl16 intensityBits 6) in
  (* Unified balance (bits 5-3) *)
  let balanceBits := uint16_of_float (FusionProfile.UnifiedBalance fusion * 7) in
  let bits := Z.lor bits (shl16 balanceBits 3) in
  (* Harmonic resonance (bits 2-0) *)
  let resonanceBits := uint16_of_float (FusionProfile.HarmonicResonance fusion * 7) in
  let bits := Z.lor bits resonanceBits in
  fmt_04x bits.

(** The orders in which the loops over maps run during one call of
    EncodeU5. *)
Record U5Orders := mkU5Orders {
  ordDominant : list string;
  ordDistribution : list string;
  ordPrimary : list Z;
  ordSecondary : list Z }.

(** SHA-256, and the text that [fmt.Sprintf("U5|W:%+v|C:%+v|F:%+v", ...)]
    prints for the three profiles, come from outside the package. *)
Variable sha256 : string -> string.
Variable describeProfiles :
  WesternProfile.t -> ChineseProfile.t -> FusionProfile.t -> string.

(** generateU5Chip generates a unique CHIP for U5 using all profile data *)
Definition generateU5Chip (western : WesternProfile.t) (chinese : ChineseProfile.t)
           (fusion : FusionProfile.t) (salt : string) : result string :=
  let data := describeProfiles western chinese fusion in
  let input := (salt ++ data)%string in
  let hash := sha256 input in
  let hexHash := hex_EncodeToString hash in
  Ok (takeBytes 12 hexHash).

(** EncodeU5 generates the HCS-U5 code from combined profiles and CHIP.
    Format: HCS-U5|XX|W:<hex>|C:<hex>|F:<hex>|CHIP:<12hex> *)
Definition EncodeU5 (o : U5Orders) (western : WesternProfile.t) (chinese : ChineseProfile.t)
           (fusion : FusionProfile.t) (salt : string) : result string :=
  let fusionID := FusionProfile.FusionID fusion in
  let fusionID := if negb (Nat.eqb (String.length fusionID) 2) then "XX"%string else fusionID in
  let westernHex := compressWesternProfile western in
  let chineseHex := compressChineseProfile (ordDominant o) (ordDistribution o) chinese in
  let fusionHex := compressFusionProfile (ordPrimary o) (ordSecondary o) fusion in
  match generateU5Chip western chinese fusion salt with
  | Err e => Err ("failed to generate U5 CHIP: " ++ e)%string
  | Ok chipU5 =>
      Ok ("HCS-U5|" ++ fusionID ++ "|W:" ++ westernHex ++ "|C:" ++ chineseHex
          ++ "|F:" ++ fusionHex ++ "|CHIP:" ++ chipU5)%string
  end.

End U5.

(** ** Validation and decoding *)

(** [for i := ...; i < ...; i++ { if code[i:i+len(seg)] == seg { found = true;
    break } }], from index [i] for [count] rounds. *)
Fixpoint scanSegment (code seg : string) (i : Z) (count : nat) : option bool :=
  match count with
  | O => Some false
  | S count' =>
      let? t := slice code i (i + len seg) in
      if (t =? seg)%string then Some true else scanSegment code seg (i + 1) count'
  end.

Fixpoint checkSegments (code : string) (segs : list string) : option bool :=
  match segs with
  | [] => Some true
  | seg :: rest =>
      let? found := scanSegment code seg 0 (Z.to_nat (len code - len seg)) in
      if negb found then Some false else checkSegments code rest
  end.

(** ValidateU5Format checks if a string matches the expected HCS-U5
    format.  [None] is a panic. *)
Definition ValidateU5Format (code : string) : option bool :=
  if (len code <? 30)%Z then Some false
  else
    let? badPrefix :=
      if (len code <? 7)%Z then Some true
      else let? p := slice code 0 7 in Some (negb (p =? "HCS-U5|")%string) in
    if badPrefix then Some false
    else checkSegments code ["|W:"; "|C:"; "|F:"; "|CHIP:"].

(** One round of the loop that looks for "W:", "C:" and "F:"; the state
    is (wPos, cPos, fPos). *)
Definition markerStep (code : string) (st : Z * Z * Z) (i : Z) : option (Z * Z * Z) :=
  let '(wPos, cPos, fPos) := st in
  let? t := slice code i (i + 2) in
  if (t =? "W:")%string && (wPos =? -1)%Z then Some (i + 2, cPos, fPos)
  else if (t =? "C:")%string && (cPos =? -1)%Z then Some (wPos, i + 2, fPos)
  else if (t =? "F:")%string && (fPos =? -1)%Z then Some (wPos, cPos, i + 2)
  else Some st.

Fixpoint scanMarkers (code : string) (st : Z * Z * Z) (i : Z) (count : nat)
  : option (Z * Z * Z) :=
  match count with
  | O => Some st
  | S count' =>
      let? st' := markerStep code st i in
      scanMarkers code st' (i + 1) count'
  end.

Fixpoint scanChip (code : string) (i : Z) (count : nat) : option Z :=
  match count with
  | O => Some (-1)
  | S count' =>
      let? t := slice code i (i + 5) in
      if (t =? "CHIP:")%string then Some (i + 5) else scanChip code (i + 1) count'
  end.

(** DecodeU5 decodes an HCS-U5 code to extract basic information.
    [None] is a panic: a slice out of range. *)
Definition DecodeU5 (code : string) : option (result smap) :=
  let? valid := ValidateU5Format code in
  if negb valid then Some (Err "invalid HCS-U5 format")
  else
    let components : smap := [] in
    (* Extract fusion ID (chars 7-8) *)
    let? fusionId := slice code 7 9 in
    let components := sset components "fusionId" fusionId in
    let? (wPos, cPos, fPos) :=
      scanMarkers code (-1, -1, -1) 0 (Z.to_nat (len code - 2)) in
    let? chipPos := scanChip code 0 (Z.to_nat (len code - 5)) in
    (* Extract hex values *)
    let? components :=
      if ((0 <? wPos) && (wPos <? cPos))%Z then
        let? t := slice code wPos (wPos + 4) in Some (sset components "western" t)
      else Some components in
    let? components :=
      if ((0 <? cPos) && (cPos <? fPos))%Z then
        let? t := slice code cPos (cPos + 4) in Some (sset components "chinese" t)
      else Some components in
    let? components :=
      if ((0 <? fPos) && (fPos <? chipPos))%Z then
        let? t := slice code fPos (fPos + 4) in Some (sset components "fusion" t)
      else Some components in
    let? components :=
      if ((0 <? chipPos) && (chipPos + 12 <=? len code))%Z then
        let? t := slice code chipPos (chipPos + 12) in Some (sset components "chip" t)
      else Some components in
    Some (Ok components).

(** The character at an index, if the index is inside the string. *)
Definition charAt (s : string) (j : Z) : option ascii :=
  if (j <? 0)%Z then None else String.get (Z.to_nat j) s.

(** The segment occurs at the index. *)
Definition occursAt (code seg : string) (j : Z) : Prop :=
  slice code j (j + len seg) = Some seg.

Definition occursAtb (code seg : string) (j : Z) : bool :=
  match slice code j (j + len seg) with
  | Some t => (t =? seg)%string
  | None => false
  end.

(** The index after the first occurrence of the segment from [i] on,
    within [count] positions; -1 if there is none. *)
Fixpoint firstAfter (code seg : string) (i : Z) (count : nat) : Z :=
  match count with
  | O => -1
  | S count' =>
      if occursAtb code seg i then i + len seg else firstAfter code seg (i + 1) count'
  end.

(** The position that the marker loop holds for a marker: the one it
    had, or the first occurrence from [i] on if it had none. *)
Definition markerPos (code seg : string) (held i : Z) (count : nat) : Z :=
  if (held =? -1)%Z then firstAfter code seg i count else held.

Definition markerUpd (code seg : string) (held i : Z) : Z :=
  if occursAtb code seg i && (held =? -1)%Z then i + len seg else held.

(** The segments that ValidateU5Format requires. *)
Definition u5Segments : list string := ["|W:"; "|C:"; "|F:"; "|CHIP:"].

(** The text that EncodeU5 prints. *)
Definition u5Code (fid w c f chip : string) : string :=
  "HCS-U5|" ++ fid ++ "|W:" ++ w ++ "|C:" ++ c ++ "|F:" ++ f ++ "|CHIP:" ++ chip.

(** Sample profiles and visiting orders. *)
Definition sampleWestern : WesternProfile.t :=
  WesternProfile.mk "Air" (ModalBalance.mk 0.31 0.23 0.46)
    (CognitionProfile.mk 0.52 0.13 0.53 0.15 0.33)
    (InteractionPreferences.mk "balanced" "medium" "precise").

Definition sampleChinese : ChineseProfile.t :=
  ChineseProfile.mk "Geng-Wu" "Ren-Wu" "Xin-Mao" "Yi-Wei" 0.5
    [("Wood", 0.25); ("Fire", 0.25); ("Earth", 0.1); ("Metal", 0.3); ("Water", 0.1)]%float
    "Xin" 0.55.

Definition sampleFusionOrders : FusionOrders :=
  mkFusionOrders elementNames elementNames elementNames elementNames elementNames.

Definition sampleU5Orders : U5Orders :=
  mkU5Orders elementNames elementNames [0; 1; 2; 3; 4] [4; 3; 2; 1; 0].

Definition sampleFusion : FusionProfile.t :=
  FusionProfile.mk
    [("Air", 0.5); ("Metal", 0.3); ("Wood", 0.2)]%float
    (CognitiveFusion.mk 0.6 0.4 0.3 0.7 0.5)
    (TempoSignals.mk 0.55 0.2 0.6 "steady")
    0.52 0.7 "K5".

Definition sampleDescribe (western : WesternProfile.t) (chinese : ChineseProfile.t)
           (fusion : FusionProfile.t) : string :=
  "U5|W:" ++ WesternProfile.DominantElement western
  ++ "|C:" ++ ChineseProfile.DayMaster chinese
  ++ "|F:" ++ FusionProfile.FusionID fusion.

(** A fusion profile whose identifier reads as a marker of the code. *)
Definition sampleMarkerFusion : FusionProfile.t :=
  FusionProfile.mk
    (FusionProfile.ElementSignature sampleFusion)
    (FusionProfile.CognitiveFusion sampleFusion)
    (FusionProfile.TempoSignals sampleFusion)
    (FusionProfile.UnifiedBalance sampleFusion)
    (FusionProfile.HarmonicResonance sampleFusion)
    "W:".

(** The polarity of the branch of a pillar, read in the table as
    CalculateYinYangBalance does. *)
Definition Pillar_branchYinYang (p : Pillar.t) : option string :=
  let? b := index EarthlyBranches (Pillar.BranchIndex p) in Some (Branch.YinYang b).

(** Yang for an even index, Yin for an odd one. *)
Definition polarityOf (i : Z) : string := if Z.even i then "Yang" else "Yin".

(** The values that the Yang share of four pillars can take when three
    pillars pair equal polarities and one pairs opposite polarities. *)
Definition yinYangBalances : list float :=
  [0.5 / 6; 1 / 6; 2 / 6; 2.5 / 6; 3.5 / 6; 4 / 6; 5 / 6; 5.5 / 6]%float.

(** Sample birth data. *)
Definition sampleBirthInfo : BirthInfo.t := BirthInfo.mk 1990 6 15 14 30 "UTC".

(** The eight ratios of an input profile. *)
Definition ratiosOf (i : InputProfile.t) : list float :=
  let m := InputProfile.Modal i in
  let c := InputProfile.Cognition i in
  [ModalBalance.Cardinal m; ModalBalance.Fixed m; ModalBalance.Mutable m;
   CognitionProfile.Fluid c; CognitionProfile.Crystallized c; CognitionProfile.Verbal c;
   CognitionProfile.Strategic c; CognitionProfile.Creative c].

(** Empty, or one of the listed names. *)
Definition emptyOr (valid : list string) (v : string) : bool :=
  (v =? "")%string || memberOf valid v.

(** No birth info, or birth info in the validated ranges. *)
Definition birthInfoOk (b : option BirthInfo.t) : Prop :=
  match b with
  | None => True
  | Some info => birthInfoInRange info
  end.


(** The Western profile that the generator builds from a validated input. *)
Definition westernOf (i : InputProfile.t) : WesternProfile.t :=
  WesternProfile.mk (InputProfile.DominantElement i) (InputProfile.Modal i)
                    (InputProfile.Cognition i) (InputProfile.Interaction i).

(** BuildFusionProfile as the generator calls it: the function returns
    the profile, and a panic inside it would abort the call. *)
Definition fusionOf (o : FusionOrders) (western : WesternProfile.t)
           (chinese : ChineseProfile.t) : FusionProfile.t :=
  match BuildFusionProfile o western chinese with
  | Some fusion => fusion
  | None => noFusion western chinese
  end.

(** The test fixture with birth info. *)
Definition sampleBirthInput : InputProfile.t :=
  InputProfile.mk (InputProfile.DominantElement testInput) (InputProfile.Modal testInput)
    (InputProfile.Cognition testInput) (InputProfile.Interaction testInput)
    (Some sampleBirthInfo).

Definition sampleGenerator : Generator := mkGenerator "test-salt-32-bytes-padded-here!!".

(** A combined profile with another element balance in its Chinese part. *)
Definition withElementBalance (combined : CombinedProfile.t) (elements : fmap)
  : CombinedProfile.t :=
  let ch := CombinedProfile.Chinese combined in
  CombinedProfile.mk (CombinedProfile.Western combined)
    (ChineseProfile.mk (ChineseProfile.YearPillar ch) (ChineseProfile.MonthPillar ch)
       (ChineseProfile.DayPillar ch) (ChineseProfile.HourPillar ch)
       (ChineseProfile.YinYangBalance ch) elements (ChineseProfile.DayMaster ch)
       (ChineseProfile.DayMasterStrength ch))
    (CombinedProfile.Fusion combined).

Definition sampleCombined : CombinedProfile.t :=
  CombinedProfile.mk sampleWestern sampleChinese sampleFusion.

(** Ascending in byte order: each string is at most every later one. *)
Definition lebP (a b : string) : Prop := String.leb a b = true.

Fixpoint sortedStrings (l : list string) : Prop :=
  match l with
  | [] => True
  | x :: l' => Forall (lebP x) l' /\ sortedStrings l'
  end.

(* ================================================================== *)
(** * Persistent salt ([salt.go]) and the constructors of the generator *)
(* ================================================================== *)

(** An error of the operating system: what [os.IsNotExist] answers for
    it, and its text. *)
Record ioError := mkIoError { isNotExist : bool; ioMessage : string }.

Definition saltFileName : string := ".hcs_salt".
Definition saltSize : nat := 32.

Section Salt.

(** The file system and the random source are outside the package.  A
    world is their state.  [os.ReadFile] returns the bytes it could read
    and an error or nil; [rand.Read] fills a slice of the given size or
    fails; [os.WriteFile] writes the bytes with the given permissions or
    fails. *)
Variable World : Type.
Variable filepath_Join : string -> string -> string.
Variable os_ReadFile : World -> string -> string * option ioError.
Variable rand_Read : World -> nat -> World * result string.
Variable os_WriteFile : World -> string -> string -> Z -> World * option string.

(** LoadOrCreateSalt loads the salt from file or creates a new one if not
    exists *)
Definition LoadOrCreateSalt (w : World) (dir : string) : World * result string :=
  let dir := if (dir =? "")%string then "." else dir in
  let saltPath := filepath_Join dir saltFileName in
  (* Try to read existing salt *)
  let '(salt, err) := os_ReadFile w saltPath in
  let errIsNil := match err with None => true | Some _ => false end in
  if errIsNil && Nat.eqb (String.length salt) saltSize then (w, Ok salt)
  else
    (* Generate new salt if file doesn't exist or is invalid *)
    let notExist := match err with Some e => isNotExist e | None => false end in
    if notExist || negb (Nat.eqb (String.length salt) saltSize) then
      match rand_Read w saltSize with
      | (w, Err e) => (w, Err ("failed to generate salt: " ++ e))
      | (w, Ok salt) =>
          (* Write salt to file *)
          match os_WriteFile w saltPath salt 384 with
          | (w, Some e) => (w, Err ("failed to save salt: " ++ e))
          | (w, None) => (w, Ok salt)
          end
      end
    else
      (w, Err ("failed to read salt: "
               ++ match err with Some e => ioMessage e | None => "%!w(<nil>)" end)).

(** NewGeneratorWithSaltDir creates a generator with a specific salt
    directory *)
Definition NewGeneratorWithSaltDir (w : World) (dir : string) : World * result Generator :=
  match LoadOrCreateSalt w dir with
  | (w, Err e) =>
      (w, Err ("failed to initialize generator with dir " ++ dir ++ ": " ++ e))
  | (w, Ok salt) => (w, Ok (mkGenerator salt))
  end.

(** NewGenerator creates a new HCS code generator *)
Definition NewGenerator (w : World) : World * result Generator :=
  match LoadOrCreateSalt w "." with
  | (w, Err e) => (w, Err ("failed to initialize generator: " ++ e))
  | (w, Ok salt) => (w, Ok (mkGenerator salt))
  end.

End Salt.

(** A file system for examples: the files that exist, every write
    succeeds, and a random source that always gives the same bytes. *)
Definition SampleWorld : Type := list (string * string).

Definition sampleJoin (dir name : string) : string := dir ++ "/" ++ name.

Fixpoint sampleLookup (w : SampleWorld) (path : string) : option string :=
  match w with
  | [] => None
  | (p, d) :: w' => if (p =? path)%string then Some d else sampleLookup w' path
  end.

Definition sampleReadFile (w : SampleWorld) (path : string) : string * option ioError :=
  match sampleLookup w path with
  | Some d => (d, None)
  | None => ("", Some (mkIoError true "no such file or directory"))
  end.

Definition sampleRand (w : SampleWorld) (n : nat) : SampleWorld * result string :=
  (w, Ok (repeatByte "s"%char n)).

Definition sampleWriteFile (w : SampleWorld) (path data : string) (perm : Z)
  : SampleWorld * option string :=
  ((path, data) :: w, None).

(** The character classes of the U3 pattern. *)
Definition digitRanges : list (N * N) := [(48, 57)%N].

Definition singleIn (ranges : list (N * N)) (l : string) : Prop :=
  exists c, l = String c "" /\ inClass ranges c = true.

Definition hexRanges : list (N * N) := [(48, 57)%N; (97, 102)%N].

(* ================================================================== *)
(** * Properties *)
(* ================================================================== *)

(** ** Normalizer and plain-text codec *)

(** C1: the U3 code of the reference profile (Air, modal .31/.23/.46,
    cognition .52/.13/.53/.15/.33, balanced/medium/precise) with the chip
    "b04edb83f10e" is exactly the documented string. *)
Theorem EncodeU3_reference_profile :
  EncodeU3 testInput "b04edb83f10e"
  = "HCS-U3|E:A|MOD:c31f23m46|COG:F52C13V53S15Cr33|INT:PB=B,SM=M,TN=P|CHIP:b04edb83f10e".
Proof. vm_compute. reflexivity. Qed.

(** [math.Round] rounds halves away from zero, not to even: 12.5 and 2.5
    go up, -2.5 goes down, and the largest double below one half goes to 0. *)
Lemma math_Round_half_away :
  math_Round 12.5 = 13%float /\ math_Round 2.5 = 3%float
  /\ math_Round (-2.5) = (-3)%float
  /\ math_Round 0x1.fffffffffffffp-2 = 0%float.
Proof. repeat split; vm_compute; reflexivity. Qed.

(** C2: in binary64 arithmetic, clamping to [0,1] and rounding the
    percentage half away from zero sends 0.314 to 31, 0.315 to 32, 1.0 to
    100 and -0.5 to 0. *)
Theorem clampAndRound_examples :
  clampAndRound 0.314 = 31 /\ clampAndRound 0.315 = 32
  /\ clampAndRound 1.0 = 100 /\ clampAndRound (-0.5) = 0.
Proof. repeat split; vm_compute; reflexivity. Qed.

(** ** Calendar engine *)

Lemma wrap64_small z : minInt64 <= z <= maxInt64 -> wrap64 z = z.
Proof.
  unfold wrap64, minInt64, maxInt64. intros H.
  rewrite Z.mod_small by lia. lia.
Qed.

(** The source's "remainder, plus the modulus when negative" is the
    non-negative (floor) modulus. *)
Lemma nonNegRem_mod a n : 0 < n -> nonNegRem a n = a mod n.
Proof.
  intros Hn. unfold nonNegRem.
  pose proof (Z.quot_rem' a n) as E.
  assert (B : - n < Z.rem a n < n /\ (0 <= a -> 0 <= Z.rem a n)).
  { destruct (Z.lt_ge_cases a 0) as [Ha | Ha].
    - pose proof (Z.rem_bound_pos (- a) n ltac:(lia) Hn) as B.
      rewrite Z.rem_opp_l in B by lia. lia.
    - pose proof (Z.rem_bound_pos a n Ha Hn). lia. }
  destruct (Z.ltb_spec (Z.rem a n) 0) as [Hneg | Hpos].
  - apply Z.mod_unique_pos with (q := Z.quot a n - 1); lia.
  - apply Z.mod_unique_pos with (q := Z.quot a n); lia.
Qed.

Lemma index_HeavenlyStems i :
  0 <= i < 10 -> exists s, index HeavenlyStems i = Some s.
Proof.
  intros H. assert (C : i = 0 \/ i = 1 \/ i = 2 \/ i = 3 \/ i = 4 \/ i = 5
                        \/ i = 6 \/ i = 7 \/ i = 8 \/ i = 9) by lia.
  repeat (destruct C as [-> | C]); try subst i; eexists; reflexivity.
Qed.

Lemma index_EarthlyBranches i :
  0 <= i < 12 -> exists b, index EarthlyBranches i = Some b.
Proof.
  intros H. assert (C : i = 0 \/ i = 1 \/ i = 2 \/ i = 3 \/ i = 4 \/ i = 5
                        \/ i = 6 \/ i = 7 \/ i = 8 \/ i = 9 \/ i = 10 \/ i = 11) by lia.
  repeat (destruct C as [-> | C]); try subst i; eexists; reflexivity.
Qed.

Lemma index_map {A B} (f : A -> B) (l : list A) i :
  index (map f l) i = option_map f (index l i).
Proof.
  unfold index. destruct (i <? 0)%Z; [reflexivity |]. apply nth_error_map.
Qed.

Lemma mkPillar_some s b :
  0 <= s < 10 -> 0 <= b < 12 ->
  exists p, mkPillar s b = Some p
            /\ Pillar.StemIndex p = s /\ Pillar.BranchIndex p = b
            /\ index (map Stem.Name HeavenlyStems) s = Some (Pillar.Stem p)
            /\ index (map Branch.Name EarthlyBranches) b = Some (Pillar.Branch p).
Proof.
  intros Hs Hb. unfold mkPillar. rewrite !index_map.
  destruct (index_HeavenlyStems s Hs) as [st Est].
  destruct (index_EarthlyBranches b Hb) as [br Ebr].
  rewrite Est, Ebr. eexists. repeat split.
Qed.

(** C5: 1984 is Jia-Zi and 1990 is Geng-Wu; in general the year pillar of
    a year takes the stem at (year - 1924) mod 10 and the branch at
    (year - 1924) mod 12, both non-negative moduli. *)
Theorem ComputeYearPillar_cycle :
  option_map PillarToString (ComputeYearPillar 1984) = Some "Jia-Zi"
  /\ option_map PillarToString (ComputeYearPillar 1990) = Some "Geng-Wu"
  /\ forall year, minInt64 + 1924 <= year <= maxInt64 ->
       exists p, ComputeYearPillar year = Some p
         /\ Pillar.StemIndex p = (year - 1924) mod 10
         /\ Pillar.BranchIndex p = (year - 1924) mod 12
         /\ index (map Stem.Name HeavenlyStems) ((year - 1924) mod 10) = Some (Pillar.Stem p)
         /\ index (map Branch.Name EarthlyBranches) ((year - 1924) mod 12) = Some (Pillar.Branch p).
Proof.
  split; [reflexivity |]. split; [reflexivity |].
  intros year Hy. unfold ComputeYearPillar.
  rewrite wrap64_small by (unfold minInt64, maxInt64 in *; lia).
  rewrite !nonNegRem_mod by lia.
  destruct (mkPillar_some ((year - 1924) mod 10) ((year - 1924) mod 12))
    as (p & E & Hs & Hb & Hn & Hm).
  - apply Z.mod_pos_bound; lia.
  - apply Z.mod_pos_bound; lia.
  - exists p. repeat split; assumption.
Qed.

(** The year 2024 is a Jia-Chen year: stem 0, branch 4. *)
Lemma ComputeYearPillar_cycle_witness :
  exists p, ComputeYearPillar 2024 = Some p
    /\ Pillar.StemIndex p = (2024 - 1924) mod 10
    /\ Pillar.BranchIndex p = (2024 - 1924) mod 12
    /\ index (map Stem.Name HeavenlyStems) ((2024 - 1924) mod 10) = Some (Pillar.Stem p)
    /\ index (map Branch.Name EarthlyBranches) ((2024 - 1924) mod 12) = Some (Pillar.Branch p).
Proof.
  apply (proj2 (proj2 ComputeYearPillar_cycle) 2024).
  unfold minInt64, maxInt64. lia.
Defined.

(** ** Day-master strength *)

Lemma In_tuples {A} (l : list A) n xs :
  List.length xs = n -> Forall (fun x => In x l) xs -> In xs (tuples n l).
Proof.
  revert n. induction xs as [| x xs IH]; intros n Hlen Hall.
  - subst n. simpl. auto.
  - subst n. simpl. inversion Hall as [| ? ? Hx Hxs]; subst.
    apply in_flat_map. exists x. split; [assumption |].
    apply in_map. apply IH; [reflexivity | assumption].
Qed.

Lemma stemElement_valid i :
  0 <= i < 10 -> exists e, option_map Stem.Element (index HeavenlyStems i) = Some e
                           /\ In e elementNames.
Proof.
  intros H. assert (C : i = 0 \/ i = 1 \/ i = 2 \/ i = 3 \/ i = 4 \/ i = 5
                        \/ i = 6 \/ i = 7 \/ i = 8 \/ i = 9) by lia.
  repeat (destruct C as [-> | C]); try subst i;
    (eexists; split; [reflexivity | simpl; tauto]).
Qed.

Lemma branchElement_valid i :
  0 <= i < 12 -> exists e, option_map Branch.Element (index EarthlyBranches i) = Some e
                           /\ In e elementNames.
Proof.
  intros H. assert (C : i = 0 \/ i = 1 \/ i = 2 \/ i = 3 \/ i = 4 \/ i = 5
                        \/ i = 6 \/ i = 7 \/ i = 8 \/ i = 9 \/ i = 10 \/ i = 11) by lia.
  repeat (destruct C as [-> | C]); try subst i;
    (eexists; split; [reflexivity | simpl; tauto]).
Qed.

Lemma validPillar_elements p :
  validPillar p -> exists e, hasElements p e /\ In e elementPairs.
Proof.
  intros [Hs Hb].
  destruct (stemElement_valid _ Hs) as (se & Es & Is).
  destruct (branchElement_valid _ Hb) as (be & Eb & Ib).
  exists (se, be). split; [| apply in_prod; assumption].
  unfold hasElements, stemElement, branchElement.
  destruct (index HeavenlyStems (Pillar.StemIndex p)); [| discriminate].
  destruct (index EarthlyBranches (Pillar.BranchIndex p)); [| discriminate].
  injection Es as Es. injection Eb as Eb.
  split; simpl; congruence.
Qed.

Lemma validPillars_elements pillars :
  Forall validPillar pillars ->
  exists es, Forall2 hasElements pillars es /\ Forall (fun e => In e elementPairs) es.
Proof.
  induction 1 as [| p ps Hp _ (es & H2 & Hin)].
  - exists []. split; constructor.
  - destruct (validPillar_elements p Hp) as (e & He & Ie).
    exists (e :: es). split; constructor; assumption.
Qed.

Lemma supportLoop_elements dayElement pillars es :
  Forall2 hasElements pillars es ->
  forall i strength,
    supportLoop dayElement i strength pillars
    = Some (supportLoopE dayElement i strength es).
Proof.
  induction 1 as [| p e ps es' [Hs Hb] _ IH]; intros i strength.
  - reflexivity.
  - simpl. rewrite Hs, Hb. destruct e as [se be]. simpl obind. simpl fst. simpl snd.
    destruct (Nat.eqb i 2); apply IH.
Qed.

(** The third pillar (index 2, the day pillar itself) is skipped by the
    loop: its elements do not matter. *)
Lemma supportLoopE_skips_third d s e0 e1 e2 e2' e3 :
  supportLoopE d 0 s [e0; e1; e2; e3] = supportLoopE d 0 s [e0; e1; e2'; e3].
Proof. reflexivity. Qed.

Lemma strengthInRange_all :
  forallb (fun d => forallb (strengthInRange3 d) (tuples 3 elementPairs)) elementNames = true.
Proof. vm_compute. reflexivity. Qed.

Lemma strengthInRange_sound d e0 e1 e2 e3 :
  In d elementNames ->
  Forall (fun e => In e elementPairs) [e0; e1; e2; e3] ->
  strengthInRange d [e0; e1; e2; e3] = true.
Proof.
  intros Id Hin.
  pose proof strengthInRange_all as Hchk.
  rewrite forallb_forall in Hchk. specialize (Hchk d Id).
  rewrite forallb_forall in Hchk.
  assert (Hes : In [e0; e1; e3] (tuples 3 elementPairs)).
  { apply In_tuples; [reflexivity |].
    inversion Hin as [| ? ? H0 Hin1]; subst.
    inversion Hin1 as [| ? ? H1 Hin2]; subst.
    inversion Hin2 as [| ? ? _ Hin3]; subst.
    inversion Hin3 as [| ? ? H3 _]; subst.
    apply Forall_cons; [assumption |]. apply Forall_cons; [assumption |].
    apply Forall_cons; [assumption |]. apply Forall_nil. }
  specialize (Hchk _ Hes).
  change (strengthInRange d [e0; e1; (d, d); e3] = true) in Hchk.
  unfold strengthInRange in *.
  rewrite (supportLoopE_skips_third d _ e0 e1 e2 (d, d) e3). exact Hchk.
Qed.

(** C10: for four pillars with indices inside the tables, the day-master
    strength is computed (no panic), lies between the base 0.3 and 1, and
    is therefore never classified "Weak". *)
Theorem GetDayMasterStrength_range pillars dayPillar :
  List.length pillars = 4%nat ->
  Forall validPillar pillars ->
  validPillar dayPillar ->
  exists v, GetDayMasterStrength pillars dayPillar = Some v
    /\ (0.3 <=? v)%float = true /\ (v <=? 1)%float = true
    /\ forall cp, ChineseProfile.DayMasterStrength cp = v -> GetDayMasterType cp <> "Weak".
Proof.
  intros Hlen Hall Hday.
  destruct (validPillars_elements pillars Hall) as (es & H2 & Hin).
  destruct (validPillar_elements dayPillar Hday) as ([d db] & [Hd _] & Id).
  apply in_prod_iff in Id. destruct Id as [Id _].
  unfold GetDayMasterStrength. rewrite Hd. simpl fst. simpl obind.
  rewrite (supportLoop_elements d pillars es H2). simpl obind.
  rewrite (Forall2_length H2) in Hlen.
  destruct es as [| e0 [| e1 [| e2 [| e3 [| ? ?]]]]]; try discriminate Hlen.
  pose proof (strengthInRange_sound d e0 e1 e2 e3 Id Hin) as Hchk.
  unfold strengthInRange in Hchk.
  apply andb_prop in Hchk. destruct Hchk as [Hchk Hweak].
  apply andb_prop in Hchk. destruct Hchk as [Hlo Hhi].
  eexists. split; [reflexivity |]. repeat split; try assumption.
  intros cp Hcp Habs. unfold GetDayMasterType in Habs. rewrite Hcp in Habs.
  rewrite Habs in Hweak. discriminate.
Qed.

Lemma samplePillars_valid : Forall validPillar samplePillars.
Proof. repeat constructor; simpl; lia. Qed.

Lemma GetDayMasterStrength_range_witness :
  exists v, GetDayMasterStrength samplePillars (Pillar.mk "Wu" "Chen" 4 4) = Some v
    /\ (0.3 <=? v)%float = true /\ (v <=? 1)%float = true
    /\ forall cp, ChineseProfile.DayMasterStrength cp = v -> GetDayMasterType cp <> "Weak".
Proof.
  apply (GetDayMasterStrength_range samplePillars (Pillar.mk "Wu" "Chen" 4 4)).
  - reflexivity.
  - exact samplePillars_valid.
  - unfold validPillar. simpl. lia.
Defined.

(** ** Element balance *)

(** On these values float addition is exact. *)
Lemma halfF_add a b : (a + b <= 12)%nat -> (halfF a + halfF b)%float = halfF (a + b).
Proof.
  intros H.
  do 13 (destruct a as [| a];
         [ do 13 (destruct b as [| b]; [reflexivity |]); simpl in H; lia |]).
  simpl in H. lia.
Qed.

Ltac element_cases H :=
  simpl in H; repeat (destruct H as [<- | H]); try contradiction.

Lemma mget_counts k c : In k elementNames -> mget (mapOfCounts c) k = halfF (countOf k c).
Proof. intros H. destruct c as [[[[a b] c] d] e]. element_cases H; reflexivity. Qed.

Lemma totalCount_addCount k j c :
  In k elementNames -> totalCount (addCount k j c) = (totalCount c + j)%nat.
Proof.
  intros H. destruct c as [[[[a b] c] d] e]. element_cases H; simpl; lia.
Qed.

Lemma madd_counts k j c :
  In k elementNames -> (totalCount c + j <= 12)%nat ->
  madd (mapOfCounts c) k (halfF j) = mapOfCounts (addCount k j c).
Proof.
  intros H Hle. destruct c as [[[[a b] c] d] e]. simpl in Hle.
  element_cases H; unfold madd; cbn [mapOfCounts mget mset addCount String.eqb Ascii.eqb Bool.eqb];
    rewrite halfF_add by lia; reflexivity.
Qed.

Lemma countElements_counts pillars es :
  Forall2 hasElements pillars es ->
  Forall (fun e => In e elementPairs) es ->
  forall c, (totalCount c + 3 * List.length es <= 12)%nat ->
    countElements (mapOfCounts c) pillars = Some (mapOfCounts (fold_left countPillar es c))
    /\ totalCount (fold_left countPillar es c) = (totalCount c + 3 * List.length es)%nat.
Proof.
  induction 1 as [| p e ps es' [Hs Hb] _ IH]; intros Hin c Hle.
  - simpl. split; [reflexivity | lia].
  - inversion Hin as [| ? ? He Hin']; subst.
    destruct e as [se be]. apply in_prod_iff in He. destruct He as [Ise Ibe].
    simpl in Hs, Hb. simpl List.length in Hle.
    cbn [countElements]. rewrite Hs. cbn [obind]. rewrite Hb. cbn [obind].
    change 1.0%float with (halfF 2). change 0.5%float with (halfF 1).
    rewrite madd_counts by (assumption || lia).
    rewrite madd_counts by (try assumption; rewrite totalCount_addCount by assumption; lia).
    cbn [fold_left]. unfold countPillar at 2 4. cbn [fst snd].
    destruct (IH Hin' (addCount be 1 (addCount se 2 c))) as [E T].
    { rewrite !totalCount_addCount by assumption. lia. }
    rewrite E, T, !totalCount_addCount by assumption.
    simpl List.length. split; [reflexivity | lia].
Qed.

Lemma list_sum_Permutation l l' : Permutation l l' -> list_sum l = list_sum l'.
Proof. induction 1; simpl; lia. Qed.

Lemma totalCount_list_sum c : totalCount c = list_sum (map (fun k => countOf k c) elementNames).
Proof. destruct c as [[[[a b] c] d] e]. simpl. lia. Qed.

(** Summing the map in any order of its keys gives the total count: no
    partial sum is rounded. *)
Lemma range_sum_counts_from c ord :
  incl ord elementNames ->
  forall t, (t + list_sum (map (fun k => countOf k c) ord) <= 12)%nat ->
    fold_left (fun total k => (total + mget (mapOfCounts c) k)%float) ord (halfF t)
    = halfF (t + list_sum (map (fun k => countOf k c) ord)).
Proof.
  induction ord as [| k ord IH]; intros Hincl t Hle.
  - simpl. f_equal. lia.
  - assert (E : list_sum (map (fun k => countOf k c) (k :: ord))
                = (countOf k c + list_sum (map (fun k => countOf k c) ord))%nat)
      by reflexivity.
    rewrite E in *. clear E. cbn [fold_left].
    rewrite mget_counts by (apply Hincl; left; reflexivity).
    rewrite halfF_add by lia.
    rewrite IH.
    + f_equal. lia.
    + intros x Hx. apply Hincl. right. assumption.
    + lia.
Qed.

Lemma range_sum_counts c ord :
  Permutation ord elementNames -> (totalCount c <= 12)%nat ->
  range_sum (mapOfCounts c) ord = halfF (totalCount c).
Proof.
  intros Hperm Hle. unfold range_sum.
  assert (Hsum : list_sum (map (fun k => countOf k c) ord) = totalCount c).
  { rewrite totalCount_list_sum. apply list_sum_Permutation.
    apply Permutation_map. assumption. }
  change 0%float with (halfF 0).
  rewrite range_sum_counts_from.
  - rewrite Hsum. reflexivity.
  - intros x Hx. apply (Permutation_in _ Hperm). assumption.
  - rewrite Hsum. simpl. assumption.
Qed.

(** ** Exact sums through 64-bit fixed point

    For the values that occur here (zero, or a 53-bit mantissa with an
    exponent of at least -64) the exact value is an integer multiple of
    2^-64 already; sums of such integers are cheap to compute. *)

Lemma unitsPerOne_split : Zpos unitsPerOne = 2 ^ 64 * unitsPer64.
Proof. vm_compute. reflexivity. Qed.

Lemma unitsPer64_pos : 0 < unitsPer64.
Proof. vm_compute. reflexivity. Qed.

Lemma float_scaled64_units x a :
  float_scaled64 x = Some a -> float_units x = Some (a * unitsPer64).
Proof.
  unfold float_scaled64, float_units, unitsPer64.
  destruct (Prim2SF x) as [s | s | | s m e]; try discriminate.
  - intros [= <-]. reflexivity.
  - destruct (Z.leb_spec (-64) e) as [He |]; [| discriminate].
    intros [= <-]. f_equal.
    rewrite !Z.shiftl_mul_pow2 by lia.
    replace (e + 1074) with ((e + 64) + 1010) by lia.
    rewrite Z.pow_add_r by lia.
    destruct s; ring.
Qed.

Lemma scaledSum_exact m : forall s,
  scaledSum m = Some s ->
  exists q, exactSum m = Some q /\ (q == Qmake (s * unitsPer64) unitsPerOne)%Q.
Proof.
  induction m as [| [k v] m IH]; intros s.
  - intros [= <-]. exists 0%Q. split; [reflexivity |].
    unfold Qeq. simpl. reflexivity.
  - cbn [scaledSum exactSum].
    destruct (float_scaled64 v) as [a |] eqn:Ea; [| discriminate].
    destruct (scaledSum m) as [r |] eqn:Er; [| discriminate].
    cbn [obind]. intros [= <-].
    unfold float_to_Q. rewrite (float_scaled64_units v a Ea). cbn [option_map obind].
    destruct (IH r eq_refl) as (q & -> & Hq). cbn [obind].
    eexists. split; [reflexivity |].
    rewrite Hq. unfold Qeq, Qplus. cbn [Qnum Qden].
    rewrite Pos2Z.inj_mul. ring.
Qed.

Lemma nearOne64_sumsToOne m : nearOne64 m = true -> sumsToOne m.
Proof.
  unfold nearOne64, sumsToOne.
  destruct (scaledSum m) as [s |] eqn:Es; [| discriminate].
  intros Hb. apply Z.leb_le in Hb.
  destruct (scaledSum_exact m s Es) as (q & Eq & Hq).
  exists q. split; [assumption |].
  rewrite Hq. apply Qabs_Qle_condition.
  pose proof unitsPer64_pos as HP. pose proof unitsPerOne_split as HD.
  unfold Qle, Qminus, Qplus, Qopp. cbn [Qnum Qden].
  rewrite !Pos2Z.inj_mul, HD.
  change (Z.pos 1) with 1. change (Z.pos 100) with 100.
  generalize dependent unitsPer64. intros P _ HP.
  set (B := 2 ^ 64) in *.
  assert (HB : 0 < B) by (subst B; reflexivity).
  split; nia.
Qed.

(** ** Enumerations *)

Lemma In_allCounts c : totalCount c = 12%nat -> In c allCounts.
Proof.
  intros H. apply filter_In. split.
  - destruct c as [[[[a b] c] d] e]. simpl in H.
    repeat apply in_prod; apply in_seq; lia.
  - rewrite H. reflexivity.
Qed.

Lemma In_allOrders ord : Permutation ord elementNames -> In ord allOrders.
Proof.
  intros Hperm. apply filter_In. split.
  - apply In_tuples.
    + apply (Permutation_length Hperm).
    + apply Forall_forall. intros x Hx. apply (Permutation_in _ Hperm Hx).
  - apply forallb_forall. intros k Hk. apply existsb_exists.
    exists k. split; [| apply String.eqb_refl].
    apply (Permutation_in _ (Permutation_sym Hperm) Hk).
Qed.

Lemma nodupF_In l x : In x l -> In x (nodupF l).
Proof.
  induction l as [| y l IH]; [intros [] |].
  intros [-> | Hx]; cbn [nodupF].
  - destruct (existsb (PrimFloat.Leibniz.eqb x) (nodupF l)) eqn:E.
    + apply existsb_exists in E. destruct E as (z & Hz & Ez).
      apply FloatAxioms.Leibniz.eqb_spec in Ez. subst z. assumption.
    + left. reflexivity.
  - destruct (existsb (PrimFloat.Leibniz.eqb y) (nodupF l));
      [| right]; apply IH; assumption.
Qed.

Lemma totalsCheck_sound sig ord :
  totalsCheck sig = true -> In ord allOrders ->
  nearOne64 (normalizeBy (range_sum sig ord) sig) = true.
Proof.
  unfold totalsCheck. rewrite forallb_forall. intros H Hin.
  apply H. apply nodupF_In. apply (in_map (range_sum sig)). assumption.
Qed.

Lemma countsCheck_all : forallb countsCheck allCounts = true.
Proof. vm_compute. reflexivity. Qed.

Lemma countsCheck_holds c : totalCount c = 12%nat -> countsCheck c = true.
Proof.
  intros Hc. pose proof countsCheck_all as H. rewrite forallb_forall in H.
  exact (H c (In_allCounts c Hc)).
Qed.

Lemma countsCheck_balance c :
  countsCheck c = true -> nearOne64 (balanceOfCounts c) = true.
Proof.
  intros H. unfold countsCheck in H. apply andb_prop in H. exact (proj1 H).
Qed.

Lemma countsCheck_signature c w :
  countsCheck c = true -> In w westernElements ->
  totalsCheck (weightedSignature w (balanceOfCounts c)) = true.
Proof.
  intros H Hw. unfold countsCheck in H. apply andb_prop in H.
  destruct H as [_ H]. rewrite forallb_forall in H. exact (H w Hw).
Qed.

Lemma validWesternElement_In w : validWesternElement w -> In w westernElements.
Proof.
  unfold validWesternElement, westernElements.
  intros [-> | [-> | [-> | ->]]]; simpl; tauto.
Qed.

Lemma elementSignature_unfold ord w b :
  elementSignature ord w b
  = normalizeBy (range_sum (weightedSignature w b) ord) (weightedSignature w b).
Proof. reflexivity. Qed.

Lemma countsCheck_sound c :
  totalCount c = 12%nat ->
  sumsToOne (balanceOfCounts c)
  /\ forall w ord, validWesternElement w -> Permutation ord elementNames ->
       sumsToOne (elementSignature ord w (balanceOfCounts c)).
Proof.
  intros Hc. pose proof (countsCheck_holds c Hc) as H. split.
  - apply nearOne64_sumsToOne. apply countsCheck_balance. assumption.
  - intros w ord Hw Hord. apply nearOne64_sumsToOne.
    rewrite elementSignature_unfold.
    apply totalsCheck_sound.
    + apply countsCheck_signature; [assumption |].
      apply validWesternElement_In. assumption.
    + apply In_allOrders. assumption.
Qed.

Lemma CalculateElementBalance_counts ord pillars :
  List.length pillars = 4%nat ->
  Forall validPillar pillars ->
  Permutation ord elementNames ->
  exists c, totalCount c = 12%nat
            /\ CalculateElementBalance ord pillars = Some (balanceOfCounts c).
Proof.
  intros Hlen Hvalid Hord.
  destruct (validPillars_elements pillars Hvalid) as (es & H2 & Hin).
  assert (Hes : List.length es = 4%nat) by (rewrite <- (Forall2_length H2); assumption).
  destruct (countElements_counts pillars es H2 Hin (0, 0, 0, 0, 0)%nat) as [E T].
  { rewrite Hes. simpl. lia. }
  rewrite Hes in T. simpl in T.
  exists (fold_left countPillar es (0, 0, 0, 0, 0)%nat). split; [assumption |].
  unfold CalculateElementBalance.
  change [("Wood", 0%float); ("Fire", 0%float); ("Earth", 0%float);
          ("Metal", 0%float); ("Water", 0%float)]
    with (mapOfCounts (0, 0, 0, 0, 0)%nat).
  rewrite E. cbn [obind].
  rewrite range_sum_counts by (assumption || lia).
  rewrite T. reflexivity.
Qed.

Lemma mkeys_balanceOfCounts c : mkeys (balanceOfCounts c) = elementNames.
Proof. destruct c as [[[[a b] c] d] e]. reflexivity. Qed.

(** C6: for four pillars with indices inside the tables, whatever order
    the run time visits the map in, the element balance is computed, has
    the five element names as keys, and its values sum to 1 within 0.01
    (as exact rationals); the element signature that buildElementSignature
    derives from it for a Western profile with a valid dominant element
    sums to 1 within 0.01 as well. *)
Theorem element_maps_sum_to_one pillars ord :
  List.length pillars = 4%nat ->
  Forall validPillar pillars ->
  Permutation ord elementNames ->
  exists balance,
    CalculateElementBalance ord pillars = Some balance
    /\ mkeys balance = elementNames
    /\ sumsToOne balance
    /\ forall western chinese ord',
         validWesternElement (WesternProfile.DominantElement western) ->
         ChineseProfile.ElementBalance chinese = balance ->
         Permutation ord' elementNames ->
         sumsToOne (buildElementSignature ord' western chinese).
Proof.
  intros Hlen Hvalid Hord.
  destruct (CalculateElementBalance_counts ord pillars Hlen Hvalid Hord) as (c & Hc & E).
  destruct (countsCheck_sound c Hc) as [Hbal Hsig].
  exists (balanceOfCounts c). split; [assumption |].
  split; [apply mkeys_balanceOfCounts |]. split; [assumption |].
  intros western chinese ord' Hw Hch Hord'.
  unfold buildElementSignature. rewrite Hch. apply Hsig; assumption.
Qed.

Lemma element_maps_sum_to_one_witness :
  exists balance,
    CalculateElementBalance elementNames samplePillars = Some balance
    /\ mkeys balance = elementNames
    /\ sumsToOne balance
    /\ forall western chinese ord',
         validWesternElement (WesternProfile.DominantElement western) ->
         ChineseProfile.ElementBalance chinese = balance ->
         Permutation ord' elementNames ->
         sumsToOne (buildElementSignature ord' western chinese).
Proof.
  apply (element_maps_sum_to_one samplePillars elementNames).
  - reflexivity.
  - exact samplePillars_valid.
  - apply Permutation_refl.
Defined.

(** ** Birth-date validation and the Chinese profile *)

Lemma validateBirthInfo_ok info :
  birthInfoInRange info -> validateBirthInfo info = Ok tt.
Proof.
  intros (Hy & Hm & Hd & Hh & Hmin). unfold validateBirthInfo.
  repeat match goal with
  | |- context [(?a <? ?b)%Z] => destruct (Z.ltb_spec a b); [lia |]
  end.
  reflexivity.
Qed.

Lemma validateBirthInfo_err info :
  ~ birthInfoInRange info -> exists msg, validateBirthInfo info = Err msg.
Proof.
  intros Hn. unfold validateBirthInfo.
  repeat match goal with
  | |- context [(?a <? ?b)%Z] => destruct (Z.ltb_spec a b)
  end; cbn [orb]; try (eexists; reflexivity).
  exfalso. apply Hn. unfold birthInfoInRange. lia.
Qed.

(** *** The civil date read back from wall-clock seconds *)

Lemma daysToYearDay_nonneg days : 0 <= snd (daysToYearDay days).
Proof.
  unfold daysToYearDay. cbn [snd].
  rewrite !Z.shiftr_div_pow2 by lia. change (2 ^ 2) with 4.
  Z.div_mod_to_equations. lia.
Qed.

Lemma yearDayToMonthDay_month year yday :
  0 <= yday -> 1 <= fst (yearDayToMonthDay year yday) <= 12.
Proof.
  intros H. unfold yearDayToMonthDay.
  destruct (isLeap year && (yday =? 59)%Z); [simpl; lia |].
  cbn [fst].
  set (day := if isLeap year && (59 <? yday)%Z then yday - 1 else yday).
  assert (Hday : 0 <= day).
  { subst day. destruct (isLeap year); [| simpl; lia].
    destruct (Z.ltb_spec 59 yday); simpl; lia. }
  set (f := fun b => (b <=? day)%Z).
  set (l := [31; 59; 90; 120; 151; 181; 212; 243; 273; 304; 334]).
  change (firstn 12 daysBefore) with (0 :: l).
  assert (E : filter f (0 :: l) = 0 :: filter f l).
  { cbn [filter]. unfold f at 1. destruct (Z.leb_spec 0 day); [reflexivity | lia]. }
  rewrite E. cbn [List.length].
  pose proof (filter_length_le f l) as L.
  change (List.length l) with 11%nat in L. lia.
Qed.

Lemma secondsToCivil_ranges secs :
  1 <= Civil.Month (secondsToCivil secs) <= 12
  /\ 0 <= Civil.Hour (secondsToCivil secs) <= 23.
Proof.
  unfold secondsToCivil.
  pose proof (daysToYearDay_nonneg (secs / secondsPerDay)) as Hy.
  destruct (daysToYearDay (secs / secondsPerDay)) as [year yday]. cbn [snd] in Hy.
  pose proof (yearDayToMonthDay_month year yday Hy) as Hm.
  destruct (yearDayToMonthDay year yday) as [month day]. cbn [fst] in Hm.
  cbn [Civil.Month Civil.Hour]. split; [assumption |].
  unfold secondsPerDay. Z.div_mod_to_equations. lia.
Qed.

(** *** The four pillars are always inside the tables *)

Lemma mkPillar_valid s b :
  0 <= s < 10 -> 0 <= b < 12 -> exists p, mkPillar s b = Some p /\ validPillar p.
Proof.
  intros Hs Hb. destruct (mkPillar_some s b Hs Hb) as (p & E & Es & Eb & _).
  exists p. split; [assumption |]. unfold validPillar. rewrite Es, Eb. auto.
Qed.

Lemma nonNegRem_range a n : 0 < n -> 0 <= nonNegRem a n < n.
Proof. intros H. rewrite nonNegRem_mod by assumption. apply Z.mod_pos_bound. assumption. Qed.

Lemma ComputeYearPillar_valid year :
  exists p, ComputeYearPillar year = Some p /\ validPillar p.
Proof. apply mkPillar_valid; apply nonNegRem_range; lia. Qed.

Lemma ComputeDayPillar_valid year month day :
  exists p, ComputeDayPillar year month day = Some p /\ validPillar p.
Proof. apply mkPillar_valid; apply nonNegRem_range; lia. Qed.

Lemma index_MonthBranchMapping i :
  0 <= i < 12 -> exists b, index MonthBranchMapping i = Some b /\ 0 <= b < 12.
Proof.
  intros H. assert (C : i = 0 \/ i = 1 \/ i = 2 \/ i = 3 \/ i = 4 \/ i = 5
                        \/ i = 6 \/ i = 7 \/ i = 8 \/ i = 9 \/ i = 10 \/ i = 11) by lia.
  repeat (destruct C as [-> | C]); try subst i;
    (eexists; split; [reflexivity | lia]).
Qed.

Lemma rem_range a n : 0 <= a -> 0 < n -> 0 <= Z.rem a n < n.
Proof. intros. apply Z.rem_bound_pos; assumption. Qed.

Lemma ComputeMonthPillar_valid year month day :
  1 <= month <= 12 ->
  exists p, ComputeMonthPillar year month day = Some p /\ validPillar p.
Proof.
  intros Hm. unfold ComputeMonthPillar.
  destruct (ComputeYearPillar_valid year) as (yp & -> & [Hys _]). cbn [obind].
  rewrite (wrap64_small (month - 1)) by (unfold minInt64, maxInt64; lia).
  destruct (index_MonthBranchMapping (month - 1)) as (b & -> & Hb); [lia |].
  cbn [obind].
  rewrite (wrap64_small (Pillar.StemIndex yp * 2)) by (unfold minInt64, maxInt64; lia).
  rewrite wrap64_small by (unfold minInt64, maxInt64; lia).
  apply mkPillar_valid; [apply rem_range; lia | assumption].
Qed.

Lemma ComputeHourPillar_valid dayPillar hour :
  validPillar dayPillar -> 0 <= hour <= 23 ->
  exists p, ComputeHourPillar dayPillar hour = Some p /\ validPillar p.
Proof.
  intros [Hs _] Hh. unfold ComputeHourPillar.
  rewrite (wrap64_small (hour + 1)) by (unfold minInt64, maxInt64; lia).
  assert (Hq : 0 <= Z.quot (hour + 1) 2 <= 12).
  { rewrite Z.quot_div_nonneg by lia. Z.div_mod_to_equations. lia. }
  assert (Hb : 0 <= Z.rem (Z.quot (hour + 1) 2) 12 < 12) by (apply rem_range; lia).
  assert (H5 : 0 <= Z.rem (Pillar.StemIndex dayPillar) 5 < 5) by (apply rem_range; lia).
  rewrite (wrap64_small (Z.rem (Pillar.StemIndex dayPillar) 5 * 2))
    by (unfold minInt64, maxInt64; lia).
  rewrite wrap64_small by (unfold minInt64, maxInt64; lia).
  apply mkPillar_valid; [apply rem_range; lia | assumption].
Qed.

(** *** The derived metrics of valid pillars never panic *)

Lemma countElements_some pillars :
  Forall validPillar pillars -> forall m, exists m', countElements m pillars = Some m'.
Proof.
  intros H. destruct (validPillars_elements pillars H) as (es & H2 & _). clear H.
  induction H2 as [| p e ps es' [Hs Hb] _ IH]; intros m.
  - eexists. reflexivity.
  - cbn [countElements]. rewrite Hs. cbn [obind]. rewrite Hb. cbn [obind]. apply IH.
Qed.

Lemma index_some_of_element {A B} (f : A -> B) (table : list A) i e :
  (let? s := index table i in Some (f s)) = Some e -> exists s, index table i = Some s.
Proof. destruct (index table i) as [s |]; [eexists; reflexivity | discriminate]. Qed.

Lemma countYang_some pillars :
  Forall validPillar pillars -> forall acc, exists acc', countYang acc pillars = Some acc'.
Proof.
  intros H. destruct (validPillars_elements pillars H) as (es & H2 & _). clear H.
  induction H2 as [| p e ps es' [Hs Hb] _ IH]; intros [yang total].
  - eexists. reflexivity.
  - cbn [countYang].
    destruct (index_some_of_element _ _ _ _ Hs) as (s & ->).
    destruct (index_some_of_element _ _ _ _ Hb) as (b & ->).
    cbn [obind]. apply IH.
Qed.

Lemma derived_metrics_some ord pillars dayPillar :
  Forall validPillar pillars -> validPillar dayPillar ->
  (exists m, CalculateElementBalance ord pillars = Some m)
  /\ (exists y, CalculateYinYangBalance pillars = Some y)
  /\ (exists d, GetDayMaster dayPillar = Some d)
  /\ (exists s, GetDayMasterStrength pillars dayPillar = Some s).
Proof.
  intros Hp Hd. repeat split.
  - unfold CalculateElementBalance.
    destruct (countElements_some pillars Hp
                [("Wood", 0); ("Fire", 0); ("Earth", 0); ("Metal", 0); ("Water", 0)]%float)
      as (m & ->).
    eexists. reflexivity.
  - unfold CalculateYinYangBalance.
    destruct (countYang_some pillars Hp (0, 0)%float) as ([y t] & ->).
    eexists. reflexivity.
  - unfold GetDayMaster. destruct Hd as [Hs _].
    destruct (index_HeavenlyStems _ Hs) as (s & ->). eexists. reflexivity.
  - unfold GetDayMasterStrength.
    destruct (validPillar_elements dayPillar Hd) as (e & [-> _] & _). cbn [obind].
    destruct (validPillars_elements pillars Hp) as (es & H2 & _).
    rewrite (supportLoop_elements _ pillars es H2). eexists. reflexivity.
Qed.

Section ChineseProfileProperties.

Variable Zone : Type.
Variable LoadLocation : string -> option Zone.
Variable zoneWallClock : Zone -> Z -> Z.
Variable ord : list string.

Let CCP := ComputeChineseProfile Zone LoadLocation zoneWallClock ord.

Lemma ComputeChineseProfile_ok info :
  birthInfoInRange info -> exists cp, CCP info = Some (Ok cp).
Proof.
  intros Hr. unfold CCP, ComputeChineseProfile.
  rewrite (validateBirthInfo_ok info Hr).
  set (civil := secondsToCivil _).
  destruct (secondsToCivil_ranges
              (wallClock Zone zoneWallClock
                 (resolveLocation Zone LoadLocation (BirthInfo.Timezone info))
                 (dateToSeconds (BirthInfo.Year info) (BirthInfo.Month info)
                    (BirthInfo.Day info) (BirthInfo.Hour info) (BirthInfo.Minute info))))
    as [Hm Hh].
  fold civil in Hm, Hh.
  destruct (ComputeYearPillar_valid (Civil.Year civil)) as (yp & -> & Vy).
  destruct (ComputeMonthPillar_valid (Civil.Year civil) (Civil.Month civil) (Civil.Day civil) Hm)
    as (mp & -> & Vm).
  destruct (ComputeDayPillar_valid (Civil.Year civil) (Civil.Month civil) (Civil.Day civil))
    as (dp & -> & Vd).
  cbn [obind].
  destruct (ComputeHourPillar_valid dp (Civil.Hour civil) Vd Hh) as (hp & -> & Vh).
  cbn [obind].
  assert (Vall : Forall validPillar [yp; mp; dp; hp]).
  { apply Forall_cons; [assumption |]. apply Forall_cons; [assumption |].
    apply Forall_cons; [assumption |]. apply Forall_cons; [assumption |].
    apply Forall_nil. }
  destruct (derived_metrics_some ord [yp; mp; dp; hp] dp Vall Vd)
    as ((m & Em) & (y & Ey) & (d & Ed) & (s & Es)).
  rewrite Em. cbn [obind]. rewrite Ey. cbn [obind].
  rewrite Ed. cbn [obind]. rewrite Es. cbn [obind].
  eexists. reflexivity.
Qed.

Lemma ComputeChineseProfile_err info :
  ~ birthInfoInRange info -> exists msg, CCP info = Some (Err msg).
Proof.
  intros Hn. unfold CCP, ComputeChineseProfile.
  destruct (validateBirthInfo_err info Hn) as (msg & ->). eexists. reflexivity.
Qed.

Lemma birthInfoInRange_dec info : birthInfoInRange info \/ ~ birthInfoInRange info.
Proof. unfold birthInfoInRange. lia. Qed.

Lemma resolveLocation_unresolved tz :
  LoadLocation tz = None -> resolveLocation Zone LoadLocation tz = None.
Proof.
  intros H. unfold resolveLocation. rewrite H.
  destruct (negb (tz =? "") && negb (tz =? "UTC")); reflexivity.
Qed.

(** C4: ComputeChineseProfile never panics; it returns an error exactly
    when one of year, month, day, hour, minute is outside its range
    ([1900,2100], [1,12], [1,31], [0,23], [0,59]); and with all five in
    range and a time zone identifier that cannot be resolved it succeeds
    with the profile computed in UTC. *)
Theorem ComputeChineseProfile_error_iff info :
  ((exists msg, CCP info = Some (Err msg)) <-> ~ birthInfoInRange info)
  /\ ((exists cp, CCP info = Some (Ok cp)) <-> birthInfoInRange info)
  /\ (birthInfoInRange info ->
      LoadLocation (BirthInfo.Timezone info) = None ->
      exists cp, CCP info = Some (Ok cp) /\ CCP (withTimezone info "UTC") = Some (Ok cp)).
Proof.
  split; [| split].
  - split.
    + intros (msg & E) Hr. destruct (ComputeChineseProfile_ok info Hr) as (cp & E').
      congruence.
    + apply ComputeChineseProfile_err.
  - split.
    + intros (cp & E). destruct (birthInfoInRange_dec info) as [Hr | Hn]; [assumption |].
      destruct (ComputeChineseProfile_err info Hn) as (msg & E'). congruence.
    + apply ComputeChineseProfile_ok.
  - intros Hr Htz. destruct (ComputeChineseProfile_ok info Hr) as (cp & E).
    exists cp. split; [assumption |]. rewrite <- E.
    unfold CCP, ComputeChineseProfile.
    rewrite (validateBirthInfo_ok info Hr).
    rewrite (validateBirthInfo_ok (withTimezone info "UTC")) by exact Hr.
    cbn [withTimezone BirthInfo.Year BirthInfo.Month BirthInfo.Day BirthInfo.Hour
         BirthInfo.Minute BirthInfo.Timezone].
    rewrite (resolveLocation_unresolved _ Htz). reflexivity.
Qed.

End ChineseProfileProperties.

Lemma ComputeChineseProfile_error_iff_witness :
  exists cp,
    ComputeChineseProfile unit noZones (fun _ s => s) elementNames
      (BirthInfo.mk 1990 6 15 14 30 "Mars/Olympus_Mons") = Some (Ok cp)
    /\ ComputeChineseProfile unit noZones (fun _ s => s) elementNames
         (withTimezone (BirthInfo.mk 1990 6 15 14 30 "Mars/Olympus_Mons") "UTC") = Some (Ok cp).
Proof.
  apply (proj2 (proj2 (ComputeChineseProfile_error_iff unit noZones (fun _ s => s) elementNames
                         (BirthInfo.mk 1990 6 15 14 30 "Mars/Olympus_Mons")))).
  - unfold birthInfoInRange. simpl. lia.
  - reflexivity.
Defined.

(** ** The generator and the caller's input profile *)

Lemma applyInteractionDefaults_nonempty x :
  InteractionPreferences.Pace x <> "" ->
  InteractionPreferences.Structure x <> "" ->
  InteractionPreferences.Tone x <> "" ->
  applyInteractionDefaults x = x.
Proof.
  intros Hp Hs Ht. destruct x as [p s t]. unfold applyInteractionDefaults. simpl in *.
  destruct (String.eqb_spec p ""); [contradiction |].
  destruct (String.eqb_spec s ""); [contradiction |].
  destruct (String.eqb_spec t ""); [contradiction |].
  reflexivity.
Qed.

Lemma applyInteractionDefaults_fields x :
  keptOrDefaulted (InteractionPreferences.Pace x)
                  (InteractionPreferences.Pace (applyInteractionDefaults x)) "balanced"
  /\ keptOrDefaulted (InteractionPreferences.Structure x)
                     (InteractionPreferences.Structure (applyInteractionDefaults x)) "medium"
  /\ keptOrDefaulted (InteractionPreferences.Tone x)
                     (InteractionPreferences.Tone (applyInteractionDefaults x)) "neutral".
Proof.
  destruct x as [p s t]. unfold applyInteractionDefaults, keptOrDefaulted. simpl.
  destruct (String.eqb_spec p ""), (String.eqb_spec s ""), (String.eqb_spec t "");
    repeat split; auto.
Qed.

(** validateInput leaves the profile as it was, or as it was with the
    interaction defaults applied. *)
Lemma validateInput_state i :
  fst (validateInput i) = i
  \/ fst (validateInput i) = withInteraction i (applyInteractionDefaults (InputProfile.Interaction i)).
Proof.
  unfold validateInput.
  destruct (negb (memberOf _ (InputProfile.DominantElement i))); [left; reflexivity |].
  match goal with |- context [match ?r with Ok _ => _ | Err _ => _ end] => destruct r end;
    [| left; reflexivity].
  right.
  repeat match goal with
         | |- context [if ?b then _ else _] => destruct b; [reflexivity |]
         end.
  cbn [InputProfile.BirthInfo withInteraction].
  destruct (InputProfile.BirthInfo i) as [b |]; [| reflexivity].
  destruct (validateBirthInfo b); reflexivity.
Qed.

Lemma withInteraction_same i : withInteraction i (InputProfile.Interaction i) = i.
Proof. destruct i. reflexivity. Qed.

Section GeneratorProperties.

Variable sha256 : string -> string.
Variable sha3_256 : string -> string.
Variable blake3 : string -> string.
Variable Zone : Type.
Variable LoadLocation : string -> option Zone.
Variable zoneWallClock : Zone -> Z -> Z.
Variable ord : list string.
Variable BuildFusionProfile : WesternProfile.t -> ChineseProfile.t -> FusionProfile.t.
Variable EncodeU5 :
  WesternProfile.t -> ChineseProfile.t -> FusionProfile.t -> string -> result string.

Let GenWith (secretEnv : string) :=
  GenerateWithOptions sha256 sha3_256 blake3 Zone LoadLocation zoneWallClock ord
                      BuildFusionProfile EncodeU5 secretEnv.

Lemma GenerateWithOptions_state secretEnv g i opts :
  fst (GenWith secretEnv g (Some i) opts) = Some (fst (validateInput i)).
Proof.
  unfold GenWith, GenerateWithOptions.
  destruct (validateInput i) as [i' [u | e]]; reflexivity.
Qed.

(** C8, as the code has it: a generation call leaves the element, the
    modal and cognition ratios and the birth info of the caller's profile
    as they were; each interaction preference is as it was, or was empty
    and now holds its default ("balanced", "medium", "neutral"); a profile
    whose three interaction preferences are non-empty is not modified at
    all. *)
Theorem Generate_input_frame secretEnv g i opts :
  exists i',
    fst (GenWith secretEnv g (Some i) opts) = Some i'
    /\ InputProfile.DominantElement i' = InputProfile.DominantElement i
    /\ InputProfile.Modal i' = InputProfile.Modal i
    /\ InputProfile.Cognition i' = InputProfile.Cognition i
    /\ InputProfile.BirthInfo i' = InputProfile.BirthInfo i
    /\ keptOrDefaulted (InteractionPreferences.Pace (InputProfile.Interaction i))
                       (InteractionPreferences.Pace (InputProfile.Interaction i')) "balanced"
    /\ keptOrDefaulted (InteractionPreferences.Structure (InputProfile.Interaction i))
                       (InteractionPreferences.Structure (InputProfile.Interaction i')) "medium"
    /\ keptOrDefaulted (InteractionPreferences.Tone (InputProfile.Interaction i))
                       (InteractionPreferences.Tone (InputProfile.Interaction i')) "neutral"
    /\ (InteractionPreferences.Pace (InputProfile.Interaction i) <> "" ->
        InteractionPreferences.Structure (InputProfile.Interaction i) <> "" ->
        InteractionPreferences.Tone (InputProfile.Interaction i) <> "" ->
        i' = i).
Proof.
  exists (fst (validateInput i)). split; [apply GenerateWithOptions_state |].
  destruct (validateInput_state i) as [-> | ->].
  - repeat split; try (left; reflexivity).
  - destruct (applyInteractionDefaults_fields (InputProfile.Interaction i)) as (Hp & Hs & Ht).
    cbn [withInteraction InputProfile.DominantElement InputProfile.Modal
         InputProfile.Cognition InputProfile.BirthInfo InputProfile.Interaction].
    repeat split; try assumption.
    intros Np Ns Nt. rewrite applyInteractionDefaults_nonempty by assumption.
    apply withInteraction_same.
Qed.

End GeneratorProperties.

(** C8, as stated, fails: a call with a profile whose pace is empty writes
    "balanced" into the caller's profile, whatever the hash functions, zone
    database, secret and salt are. *)
Lemma Generate_overwrites_empty_pace :
  InteractionPreferences.Pace (InputProfile.Interaction emptyPaceInput) = ""
  /\ forall sha256 sha3_256 blake3 Zone LoadLocation zoneWallClock ord
            BuildFusionProfile EncodeU5 secretEnv g,
       exists after,
         fst (Generate sha256 sha3_256 blake3 Zone LoadLocation zoneWallClock ord
                       BuildFusionProfile EncodeU5 secretEnv g (Some emptyPaceInput))
         = Some after
         /\ InteractionPreferences.Pace (InputProfile.Interaction after) = "balanced"
         /\ after <> emptyPaceInput.
Proof.
  split; [reflexivity |]. intros.
  unfold Generate. rewrite GenerateWithOptions_state.
  eexists. split; [reflexivity |].
  split; [vm_compute; reflexivity |].
  intros E. apply (f_equal (fun p => InteractionPreferences.Pace (InputProfile.Interaction p))) in E.
  vm_compute in E. discriminate E.
Qed.

(** ** Generation without birth info *)

Lemma hex_EncodeToString_length s :
  String.length (hex_EncodeToString s) = (2 * String.length s)%nat.
Proof. induction s as [| c s IH]; simpl; [reflexivity | rewrite IH; lia]. Qed.

Lemma LoadSecretKey_length env secret :
  LoadSecretKey env = Ok secret ->
  String.length secret = 32%nat \/ String.length secret = 64%nat.
Proof.
  unfold LoadSecretKey. destruct (env =? ""); [discriminate |].
  destruct (hex_DecodeString env) as [decoded | e]; [| discriminate].
  destruct (Nat.eqb_spec (String.length decoded) 32) as [H32 | _].
  - intros [= <-]. left. assumption.
  - destruct (Nat.eqb_spec (String.length decoded) 64) as [H64 | _].
    + intros [= <-]. right. assumption.
    + discriminate.
Qed.

Lemma append_String_nonempty c s t : String c s ++ t <> "".
Proof. simpl. discriminate. Qed.

Lemma validateInput_BirthInfo i :
  InputProfile.BirthInfo (fst (validateInput i)) = InputProfile.BirthInfo i.
Proof. destruct (validateInput_state i) as [-> | ->]; reflexivity. Qed.

Section GenerationWithoutBirthInfo.

Variable sha256 : string -> string.
Variable sha3_256 : string -> string.
Variable blake3 : string -> string.
Variable Zone : Type.
Variable LoadLocation : string -> option Zone.
Variable zoneWallClock : Zone -> Z -> Z.
Variable ord : list string.
Variable BuildFusionProfile : WesternProfile.t -> ChineseProfile.t -> FusionProfile.t.
Variable EncodeU5 :
  WesternProfile.t -> ChineseProfile.t -> FusionProfile.t -> string -> result string.

(** SHA3-256 and BLAKE3 produce 32-byte digests. *)
Hypothesis sha3_256_length : forall x, String.length (sha3_256 x) = 32%nat.
Hypothesis blake3_length : forall x, String.length (blake3 x) = 32%nat.

Lemma ComputeQuantumSignatures_ok canonical secret salt :
  String.length secret <> 0%nat ->
  exists qsigHex b3Hex,
    ComputeQuantumSignatures sha3_256 blake3 canonical secret salt = Ok (qsigHex, b3Hex)
    /\ String.length qsigHex = 64%nat /\ String.length b3Hex = 64%nat.
Proof.
  intros Hs. unfold ComputeQuantumSignatures.
  destruct (Nat.eqb_spec (String.length secret) 0); [contradiction |].
  eexists. eexists. split; [reflexivity |].
  rewrite !hex_EncodeToString_length. unfold hmac_sha3_256.
  rewrite sha3_256_length, blake3_length. split; reflexivity.
Qed.

(** C7: for a profile that passes validation and carries no birth info,
    with the secret key configured, the generation call returns an output
    without U5 code and without Chinese or combined profile, in which the
    U3, U4 and U7 codes are the (non-empty) results of their encoders. *)
Theorem Generate_without_birth_info secretEnv secret g i :
  snd (validateInput i) = Ok tt ->
  InputProfile.BirthInfo i = None ->
  LoadSecretKey secretEnv = Ok secret ->
  exists out,
    snd (Generate sha256 sha3_256 blake3 Zone LoadLocation zoneWallClock ord
                  BuildFusionProfile EncodeU5 secretEnv g (Some i)) = Some (Ok out)
    /\ OutputHCS.CodeU5 out = ""
    /\ OutputHCS.ChineseProfile out = None
    /\ OutputHCS.CombinedProfile out = None
    /\ OutputHCS.CodeU3 out = EncodeU3 (fst (validateInput i)) (OutputHCS.Chip out)
    /\ EncodeU4 (Some (NormalizeProfile (fst (validateInput i)))) (OutputHCS.Chip out)
       = Ok (OutputHCS.CodeU4 out)
    /\ FormatHCSU7 (Some (NormalizeProfile (fst (validateInput i))))
                   (OutputHCS.QSig out) (OutputHCS.B3Sig out)
       = Ok (OutputHCS.CodeU7 out)
    /\ OutputHCS.CodeU3 out <> "" /\ OutputHCS.CodeU4 out <> "" /\ OutputHCS.CodeU7 out <> "".
Proof.
  intros Hvalid Hbirth Hsecret.
  pose proof (validateInput_BirthInfo i) as Hb. rewrite Hbirth in Hb.
  unfold Generate, GenerateWithOptions.
  destruct (validateInput i) as [i' r]. cbn [fst snd] in *. subst r.
  cbn [snd]. unfold generateCodes, GenerateCHIP, EncodeU4, chineseBranch.
  cbn [negb GeneratorOptions.U3Only GeneratorOptions.U4Only].
  rewrite Hb. cbn [obind CanonicalProfileData]. rewrite Hsecret.
  assert (Hlen : String.length secret <> 0%nat)
    by (destruct (LoadSecretKey_length _ _ Hsecret) as [-> | ->]; discriminate).
  match goal with
  | |- context [ComputeQuantumSignatures _ _ ?c _ _] =>
      destruct (ComputeQuantumSignatures_ok c secret (salt g) Hlen) as (q & b & -> & Lq & Lb)
  end.
  assert (Eq : Nat.eqb (String.length q) 0 = false) by (rewrite Lq; reflexivity).
  assert (Eb : Nat.eqb (String.length b) 0 = false) by (rewrite Lb; reflexivity).
  unfold FormatHCSU7. rewrite Eq, Eb. cbn [orb]. eexists. split; [reflexivity |].
  cbn [OutputHCS.CodeU5 OutputHCS.ChineseProfile OutputHCS.CombinedProfile OutputHCS.CodeU3
       OutputHCS.CodeU4 OutputHCS.CodeU7 OutputHCS.Chip OutputHCS.QSig OutputHCS.B3Sig].
  rewrite Eq, Eb. cbn [orb].
  repeat split; try reflexivity; apply append_String_nonempty.
Qed.

End GenerationWithoutBirthInfo.

Lemma takeBytes_length n s : (n <= String.length s)%nat -> String.length (takeBytes n s) = n.
Proof.
  revert s. induction n as [| n IH]; intros s H; [reflexivity |].
  destruct s as [| c s]; simpl in *; [lia |]. rewrite IH by lia. reflexivity.
Qed.

Lemma append_length s t : String.length (s ++ t) = (String.length s + String.length t)%nat.
Proof. induction s as [| c s IH]; simpl; [reflexivity | rewrite IH; reflexivity]. Qed.

Lemma repeatByte_length c n : String.length (repeatByte c n) = n.
Proof. induction n as [| n IH]; simpl; [reflexivity | rewrite IH; reflexivity]. Qed.

Lemma prefixDigest_length x : String.length (prefixDigest x) = 32%nat.
Proof.
  unfold prefixDigest. apply takeBytes_length.
  rewrite append_length, repeatByte_length. lia.
Qed.

Lemma Generate_without_birth_info_witness :
  exists out,
    snd (Generate prefixDigest prefixDigest prefixDigest unit noZones (fun _ s => s)
                  elementNames noFusion noU5 sampleSecretEnv
                  (mkGenerator "test-salt-32-bytes-padded-here!!") (Some testInput))
    = Some (Ok out)
    /\ OutputHCS.CodeU5 out = ""
    /\ OutputHCS.ChineseProfile out = None
    /\ OutputHCS.CombinedProfile out = None
    /\ OutputHCS.CodeU3 out = EncodeU3 (fst (validateInput testInput)) (OutputHCS.Chip out)
    /\ EncodeU4 (Some (NormalizeProfile (fst (validateInput testInput)))) (OutputHCS.Chip out)
       = Ok (OutputHCS.CodeU4 out)
    /\ FormatHCSU7 (Some (NormalizeProfile (fst (validateInput testInput))))
                   (OutputHCS.QSig out) (OutputHCS.B3Sig out)
       = Ok (OutputHCS.CodeU7 out)
    /\ OutputHCS.CodeU3 out <> "" /\ OutputHCS.CodeU4 out <> "" /\ OutputHCS.CodeU7 out <> "".
Proof.
  eapply (Generate_without_birth_info prefixDigest prefixDigest prefixDigest unit noZones
            (fun _ s => s) elementNames noFusion noU5
            prefixDigest_length prefixDigest_length sampleSecretEnv).
  - vm_compute. reflexivity.
  - reflexivity.
  - vm_compute. reflexivity.
Defined.

(** ** Secret sensitivity *)

Lemma append_inj_length s1 t1 s2 t2 :
  String.length s1 = String.length s2 -> s1 ++ t1 = s2 ++ t2 -> s1 = s2 /\ t1 = t2.
Proof.
  revert s2. induction s1 as [| c s1 IH]; intros [| d s2] Hlen E; simpl in *;
    try discriminate.
  - split; [reflexivity | assumption].
  - injection E as -> E. injection Hlen as Hlen.
    destruct (IH s2 Hlen E) as [-> ->]. split; reflexivity.
Qed.

Lemma append_neq_l s1 s2 t1 t2 :
  String.length s1 = String.length s2 -> s1 <> s2 -> s1 ++ t1 <> s2 ++ t2.
Proof. intros Hlen Hne E. apply Hne. apply (append_inj_length _ _ _ _ Hlen E). Qed.

Lemma append_neq_r s t1 t2 : t1 <> t2 -> s ++ t1 <> s ++ t2.
Proof. intros Hne E. apply Hne. apply (append_inj_length s t1 s t2 eq_refl E). Qed.

Lemma mapBytes_length f s : String.length (mapBytes f s) = String.length s.
Proof. induction s as [| c s IH]; simpl; [reflexivity | rewrite IH; reflexivity]. Qed.

Lemma mapBytes_inj f :
  (forall a b, f a = f b -> a = b) ->
  forall s t, mapBytes f s = mapBytes f t -> s = t.
Proof.
  intros Hf. induction s as [| c s IH]; intros [| d t] E; simpl in *;
    try discriminate; [reflexivity |].
  injection E as Ec E. rewrite (Hf _ _ Ec), (IH _ E). reflexivity.
Qed.

Lemma xorByte_involutive_54 c : xorByte 54 (xorByte 54 c) = c.
Proof. destruct c as [[] [] [] [] [] [] [] []]; reflexivity. Qed.

Lemma xorByte_involutive_92 c : xorByte 92 (xorByte 92 c) = c.
Proof. destruct c as [[] [] [] [] [] [] [] []]; reflexivity. Qed.

Lemma xorByte_inj_54 a b : xorByte 54 a = xorByte 54 b -> a = b.
Proof.
  intros E. rewrite <- (xorByte_involutive_54 a), <- (xorByte_involutive_54 b), E.
  reflexivity.
Qed.

Lemma xorByte_inj_92 a b : xorByte 92 a = xorByte 92 b -> a = b.
Proof.
  intros E. rewrite <- (xorByte_involutive_92 a), <- (xorByte_involutive_92 b), E.
  reflexivity.
Qed.

Lemma hexDigit_inj a b : (a < 16)%N -> (b < 16)%N -> hexDigit a = hexDigit b -> a = b.
Proof.
  intros Ha Hb.
  assert (Ca : In a (map N.of_nat (seq 0 16))).
  { apply in_map_iff. exists (N.to_nat a). split; [apply N2Nat.id | apply in_seq; lia]. }
  assert (Cb : In b (map N.of_nat (seq 0 16))).
  { apply in_map_iff. exists (N.to_nat b). split; [apply N2Nat.id | apply in_seq; lia]. }
  simpl in Ca, Cb.
  repeat (destruct Ca as [<- | Ca]; [
    repeat (destruct Cb as [<- | Cb]; [first [reflexivity | intros E; discriminate E] |]);
    contradiction |]).
  contradiction.
Qed.

Lemma byteVal_split c d :
  (byteVal c / 16 = byteVal d / 16)%N -> (byteVal c mod 16 = byteVal d mod 16)%N -> c = d.
Proof.
  intros Hq Hr. unfold byteVal in *.
  rewrite <- (ascii_N_embedding c), <- (ascii_N_embedding d).
  f_equal.
  rewrite (N.div_mod (N_of_ascii c) 16), (N.div_mod (N_of_ascii d) 16) by discriminate.
  rewrite Hq, Hr. reflexivity.
Qed.

Lemma byteVal_bound c : (byteVal c < 256)%N.
Proof. apply N_ascii_bounded. Qed.

Lemma hex_EncodeToString_inj s : forall t,
  hex_EncodeToString s = hex_EncodeToString t -> s = t.
Proof.
  induction s as [| c s IH]; intros [| d t] E; simpl in *; try discriminate;
    [reflexivity |].
  injection E as Eh El E.
  pose proof (byteVal_bound c). pose proof (byteVal_bound d).
  apply hexDigit_inj in Eh;
    [| apply N.Div0.div_lt_upper_bound; lia | apply N.Div0.div_lt_upper_bound; lia].
  apply hexDigit_inj in El; [| apply N.mod_lt; discriminate | apply N.mod_lt; discriminate].
  rewrite (byteVal_split c d Eh El), (IH t E). reflexivity.
Qed.

Section SecretSensitivity.

Variable sha256 : string -> string.
Variable sha3_256 : string -> string.
Variable blake3 : string -> string.
Variable Zone : Type.
Variable LoadLocation : string -> option Zone.
Variable zoneWallClock : Zone -> Z -> Z.
Variable ord : list string.
Variable BuildFusionProfile : WesternProfile.t -> ChineseProfile.t -> FusionProfile.t.
Variable EncodeU5 :
  WesternProfile.t -> ChineseProfile.t -> FusionProfile.t -> string -> result string.

(** SHA3-256 and BLAKE3 produce 32-byte digests. *)
Hypothesis sha3_256_length : forall x, String.length (sha3_256 x) = 32%nat.
Hypothesis blake3_length : forall x, String.length (blake3 x) = 32%nat.

Let hmac := hmac_sha3_256 sha3_256.
Let keyBlock := hmacKeyBlock sha3_256.
Let CQS := ComputeQuantumSignatures sha3_256 blake3.
Let GenerateUnder (secretEnv : string) :=
  Generate sha256 sha3_256 blake3 Zone LoadLocation zoneWallClock ord
           BuildFusionProfile EncodeU5 secretEnv.

Lemma hmacKeyBlock_length key : String.length (keyBlock key) = 136%nat.
Proof.
  unfold keyBlock, hmacKeyBlock, sha3_256_BlockSize.
  destruct (Nat.ltb_spec 136 (String.length key)) as [Hlong | Hshort];
    rewrite append_length, repeatByte_length; [rewrite sha3_256_length |]; lia.
Qed.

(** The CHIP of an output is computed from the salt and the normalized
    profile before the secret is looked at. *)
Lemma Generate_chip secretEnv g i out :
  snd (GenerateUnder secretEnv g (Some i)) = Some (Ok out) ->
  GenerateCHIP sha256 (salt g) (Some (NormalizeProfile (fst (validateInput i))))
  = Ok (OutputHCS.Chip out).
Proof.
  unfold GenerateUnder, Generate, GenerateWithOptions.
  destruct (validateInput i) as [i' [u | e]]; cbn [fst snd]; [| discriminate].
  unfold generateCodes, GenerateCHIP, EncodeU4.
  cbn [negb GeneratorOptions.U3Only GeneratorOptions.U4Only].
  destruct (chineseBranch _ _ _ _ _ _ g i') as [[[cp cb] u5] |]; [| discriminate].
  cbn [obind].
  repeat match goal with
         | |- context [match ?x with Ok _ => _ | Err _ => _ end] =>
             destruct x; try discriminate
         | |- context [let (_, _) := ?x in _] => destruct x
         | |- context [match ?x with (_, _) => _ end] => destruct x
         end.
  intros [= <-]. reflexivity.
Qed.

(** The signatures see the secret through its key block only. *)
Lemma ComputeQuantumSignatures_keyBlock canonical salt s1 s2 :
  s1 <> "" -> s2 <> "" -> keyBlock s1 = keyBlock s2 ->
  CQS canonical s1 salt = CQS canonical s2 salt.
Proof.
  intros H1 H2 E. unfold CQS, ComputeQuantumSignatures.
  destruct s1 as [| c1 s1]; [contradiction |].
  destruct s2 as [| c2 s2]; [contradiction |].
  cbn [String.length Nat.eqb].
  assert (Ek : hmac_sha3_256 sha3_256 (String c1 s1) salt
               = hmac_sha3_256 sha3_256 (String c2 s2) salt).
  { unfold hmac_sha3_256. unfold keyBlock in E. rewrite E. reflexivity. }
  rewrite Ek. reflexivity.
Qed.

(** HMAC under two keys with different key blocks, when the outer hash
    does not collide on the two padded messages. *)
Lemma hmac_keyBlock_neq k1 k2 msg1 msg2 :
  keyBlock k1 <> keyBlock k2 ->
  noCollision sha3_256
    (mapBytes (xorByte 92) (keyBlock k1)
       ++ sha3_256 (mapBytes (xorByte 54) (keyBlock k1) ++ msg1))
    (mapBytes (xorByte 92) (keyBlock k2)
       ++ sha3_256 (mapBytes (xorByte 54) (keyBlock k2) ++ msg2)) ->
  hmac k1 msg1 <> hmac k2 msg2.
Proof.
  intros Hne Hnc. unfold hmac, hmac_sha3_256. apply Hnc.
  apply append_neq_l.
  - rewrite !mapBytes_length, !hmacKeyBlock_length. reflexivity.
  - intros E. apply Hne. apply (mapBytes_inj _ xorByte_inj_92 _ _ E).
Qed.

Lemma keyBlock_of_digests d1 d2 :
  String.length d1 = 32%nat -> String.length d2 = 32%nat -> d1 <> d2 ->
  keyBlock d1 <> keyBlock d2.
Proof.
  intros L1 L2 Hne. unfold keyBlock, hmacKeyBlock, sha3_256_BlockSize.
  rewrite L1, L2. cbn [Nat.ltb Nat.leb].
  apply append_neq_l; [congruence | assumption].
Qed.

Lemma takeBytes_append n s t : String.length s = n -> takeBytes n (s ++ t) = s.
Proof.
  revert n. induction s as [| c s IH]; intros n <-; simpl; [destruct t; reflexivity |].
  rewrite IH by reflexivity. reflexivity.
Qed.

Lemma append_assoc_s (a b c : string) : (a ++ b) ++ c = a ++ (b ++ c).
Proof. induction a as [| x a IH]; simpl; [reflexivity | rewrite IH; reflexivity]. Qed.

Lemma FormatHCSU7_shape normalized q b :
  String.length q = 64%nat -> String.length b = 64%nat ->
  FormatHCSU7 (Some normalized) q b
  = Ok (u7Head normalized ++ "|QSIG:" ++ takeBytes 24 q ++ "|B3:" ++ takeBytes 32 b).
Proof.
  intros Lq Lb. unfold FormatHCSU7, u7Head. rewrite Lq, Lb. cbn [Nat.eqb orb].
  cbv zeta. rewrite !append_assoc_s. reflexivity.
Qed.

(** Two U7 codes of one profile are equal only if the inlined signature
    prefixes are. *)
Lemma FormatHCSU7_inj normalized q1 b1 q2 b2 :
  String.length q1 = 64%nat -> String.length q2 = 64%nat ->
  String.length b1 = 64%nat -> String.length b2 = 64%nat ->
  FormatHCSU7 (Some normalized) q1 b1 = FormatHCSU7 (Some normalized) q2 b2 ->
  takeBytes 24 q1 = takeBytes 24 q2 /\ takeBytes 32 b1 = takeBytes 32 b2.
Proof.
  intros Lq1 Lq2 Lb1 Lb2.
  rewrite !FormatHCSU7_shape by assumption.
  generalize (u7Head normalized). intros head E.
  assert (E' : head ++ "|QSIG:" ++ takeBytes 24 q1 ++ "|B3:" ++ takeBytes 32 b1
               = head ++ "|QSIG:" ++ takeBytes 24 q2 ++ "|B3:" ++ takeBytes 32 b2)
    by congruence.
  apply (append_inj_length head _ head _ eq_refl) in E'. destruct E' as [_ E'].
  apply (append_inj_length "|QSIG:" _ "|QSIG:" _ eq_refl) in E'. destruct E' as [_ E'].
  apply append_inj_length in E'.
  - destruct E' as [Eq E']. split; [assumption |].
    apply (append_inj_length "|B3:" _ "|B3:" _ eq_refl) in E'. apply E'.
  - rewrite !takeBytes_length by lia. reflexivity.
Qed.

(** C3, as the code has it.  For a fixed salt and profile and two
    non-empty secrets: (1) the CHIP (and with it the U3 and U4 codes) of
    the generated output is the same under both secrets; (2) two secrets
    with the same HMAC key block give the same signatures, hence the same
    U7 code; (3) two secrets with different key blocks give different
    primary signatures and different secondary digests provided SHA3-256
    and BLAKE3 do not collide on the messages involved, and the U7 codes
    then differ as soon as the signatures differ within their first 24
    resp. 32 hex characters. *)
Theorem secret_sensitivity canonical salt normalized s1 s2 :
  s1 <> "" -> s2 <> "" ->
  let dk1 := hmac s1 salt in
  let dk2 := hmac s2 salt in
  (forall env1 env2 g i out1 out2,
      snd (GenerateUnder env1 g (Some i)) = Some (Ok out1) ->
      snd (GenerateUnder env2 g (Some i)) = Some (Ok out2) ->
      OutputHCS.Chip out1 = OutputHCS.Chip out2)
  /\ (keyBlock s1 = keyBlock s2 ->
      CQS canonical s1 salt = CQS canonical s2 salt
      /\ forall q1 b1 q2 b2,
           CQS canonical s1 salt = Ok (q1, b1) -> CQS canonical s2 salt = Ok (q2, b2) ->
           FormatHCSU7 (Some normalized) q1 b1 = FormatHCSU7 (Some normalized) q2 b2)
  /\ (keyBlock s1 <> keyBlock s2 ->
      noCollision sha3_256
        (mapBytes (xorByte 92) (keyBlock s1)
           ++ sha3_256 (mapBytes (xorByte 54) (keyBlock s1) ++ salt))
        (mapBytes (xorByte 92) (keyBlock s2)
           ++ sha3_256 (mapBytes (xorByte 54) (keyBlock s2) ++ salt)) ->
      noCollision sha3_256
        (mapBytes (xorByte 92) (keyBlock dk1)
           ++ sha3_256 (mapBytes (xorByte 54) (keyBlock dk1) ++ canonical))
        (mapBytes (xorByte 92) (keyBlock dk2)
           ++ sha3_256 (mapBytes (xorByte 54) (keyBlock dk2) ++ canonical)) ->
      noCollision blake3 (dk1 ++ canonical) (dk2 ++ canonical) ->
      exists q1 b1 q2 b2,
        CQS canonical s1 salt = Ok (q1, b1)
        /\ CQS canonical s2 salt = Ok (q2, b2)
        /\ q1 <> q2 /\ b1 <> b2
        /\ (takeBytes 24 q1 <> takeBytes 24 q2 \/ takeBytes 32 b1 <> takeBytes 32 b2 ->
            FormatHCSU7 (Some normalized) q1 b1 <> FormatHCSU7 (Some normalized) q2 b2)).
Proof.
  intros H1 H2 dk1 dk2. split; [| split].
  - intros env1 env2 g i out1 out2 E1 E2.
    apply Generate_chip in E1. apply Generate_chip in E2. congruence.
  - intros E. pose proof (ComputeQuantumSignatures_keyBlock canonical salt s1 s2 H1 H2 E) as Ec.
    split; [assumption |]. intros q1 b1 q2 b2 E1 E2. congruence.
  - intros Hblock Hnc1 Hnc2 Hnc3.
    assert (Hdk : dk1 <> dk2) by (apply hmac_keyBlock_neq; assumption).
    assert (L1 : String.length dk1 = 32%nat) by apply sha3_256_length.
    assert (L2 : String.length dk2 = 32%nat) by apply sha3_256_length.
    unfold CQS, ComputeQuantumSignatures.
    destruct s1 as [| c1 s1]; [contradiction |].
    destruct s2 as [| c2 s2]; [contradiction |].
    cbn [String.length Nat.eqb].
    fold hmac. fold dk1. fold dk2.
    eexists. eexists. eexists. eexists.
    split; [reflexivity |]. split; [reflexivity |].
    assert (Hq : hex_EncodeToString (hmac dk1 canonical)
                 <> hex_EncodeToString (hmac dk2 canonical)).
    { intros E. apply hex_EncodeToString_inj in E. revert E.
      apply hmac_keyBlock_neq; [| assumption].
      apply keyBlock_of_digests; assumption. }
    assert (Hb : hex_EncodeToString (blake3 (dk1 ++ canonical))
                 <> hex_EncodeToString (blake3 (dk2 ++ canonical))).
    { intros E. apply hex_EncodeToString_inj in E. revert E. apply Hnc3.
      apply append_neq_l; [congruence | assumption]. }
    split; [assumption |]. split; [assumption |].
    intros Htrunc E.
    apply FormatHCSU7_inj in E;
      try (rewrite hex_EncodeToString_length; unfold hmac, hmac_sha3_256;
           rewrite ?sha3_256_length, ?blake3_length; reflexivity).
    destruct E as [Eq Eb]. destruct Htrunc as [Ht | Ht]; contradiction.
Qed.

End SecretSensitivity.

Lemma hmacKeyBlock_padded sha3_256 :
  hmacKeyBlock sha3_256 shortSecret = hmacKeyBlock sha3_256 paddedSecret.
Proof. reflexivity. Qed.

(** C3, as stated, fails: the key loader accepts both a 32-byte key and
    that key followed by 32 zero bytes; the two secrets are different and
    not empty, yet HMAC pads both to the same key block, so that for every
    choice of hash functions, canonical bytes and salt the primary
    signature and the secondary digest are the same, and so is the U7
    code. *)
Lemma padded_secret_same_signatures :
  LoadSecretKey (hex_EncodeToString shortSecret) = Ok shortSecret
  /\ LoadSecretKey (hex_EncodeToString paddedSecret) = Ok paddedSecret
  /\ shortSecret <> paddedSecret
  /\ forall sha3_256 blake3 canonical salt normalized,
       exists qsig b3 u7,
         ComputeQuantumSignatures sha3_256 blake3 canonical shortSecret salt = Ok (qsig, b3)
         /\ ComputeQuantumSignatures sha3_256 blake3 canonical paddedSecret salt = Ok (qsig, b3)
         /\ FormatHCSU7 (Some normalized) qsig b3 = u7.
Proof.
  split; [vm_compute; reflexivity |]. split; [vm_compute; reflexivity |].
  split; [intros E; vm_compute in E; discriminate E |].
  intros sha3_256 blake3 canonical salt normalized.
  pose proof (ComputeQuantumSignatures_keyBlock sha3_256 blake3 canonical salt
                shortSecret paddedSecret) as E.
  rewrite <- E.
  - unfold ComputeQuantumSignatures. change (Nat.eqb (String.length shortSecret) 0) with false.
    cbv iota. eexists. eexists. eexists. repeat split.
  - intros A. vm_compute in A. discriminate A.
  - intros A. vm_compute in A. discriminate A.
  - apply hmacKeyBlock_padded.
Qed.

Lemma prefixDigest_noCollision x y :
  prefixDigest x <> prefixDigest y -> noCollision prefixDigest x y.
Proof. intros H _. exact H. Qed.

(** With the stand-in digest, the secrets 01..01 and 02..02 have different
    key blocks and every hypothesis of the third part holds. *)
Lemma secret_sensitivity_witness :
  exists q1 b1 q2 b2,
    ComputeQuantumSignatures prefixDigest prefixDigest "{}" shortSecret "salt" = Ok (q1, b1)
    /\ ComputeQuantumSignatures prefixDigest prefixDigest "{}" otherSecret "salt" = Ok (q2, b2)
    /\ q1 <> q2 /\ b1 <> b2
    /\ (takeBytes 24 q1 <> takeBytes 24 q2 \/ takeBytes 32 b1 <> takeBytes 32 b2 ->
        FormatHCSU7 (Some (NormalizeProfile testInput)) q1 b1
        <> FormatHCSU7 (Some (NormalizeProfile testInput)) q2 b2).
Proof.
  apply (proj2 (proj2 (secret_sensitivity prefixDigest prefixDigest prefixDigest
                         unit noZones (fun _ s => s) elementNames noFusion noU5
                         prefixDigest_length prefixDigest_length
                         "{}" "salt" (NormalizeProfile testInput) shortSecret otherSecret
                         ltac:(discriminate) ltac:(discriminate)))).
  - intros E. vm_compute in E. discriminate E.
  - apply prefixDigest_noCollision. intros E. vm_compute in E. discriminate E.
  - apply prefixDigest_noCollision. intros E. vm_compute in E. discriminate E.
  - apply prefixDigest_noCollision. intros E. vm_compute in E. discriminate E.
Defined.

(** ** The stub codec U4 *)

(** *** base64 *)

Lemma byteOf_byteVal c : byteOf (byteVal c) = c.
Proof. apply ascii_N_embedding. Qed.

Lemma byteVal_byteOf n : (n < 256)%N -> byteVal (byteOf n) = n.
Proof. apply N_ascii_embedding. Qed.

(** Induction on a string three bytes at a time, as the encoder reads it. *)
Lemma string_ind3 (P : string -> Prop) :
  P "" ->
  (forall a, P (String a "")) ->
  (forall a b, P (String a (String b ""))) ->
  (forall a b c s, P s -> P (String a (String b (String c s)))) ->
  forall s, P s.
Proof.
  intros H0 H1 H2 H3.
  fix IH 1.
  intros [|a [|b [|c s]]].
  - exact H0.
  - apply H1.
  - apply H2.
  - apply H3, IH.
Qed.

Lemma sextetOk_all : forallb sextetOk (map N.of_nat (seq 0 64)) = true.
Proof. vm_compute. reflexivity. Qed.

Lemma base64urlValue_char n :
  (n < 64)%N ->
  base64urlValue (base64urlChar n) = Some n
  /\ ((byteVal (base64urlChar n) =? 13) || (byteVal (base64urlChar n) =? 10))%N = false.
Proof.
  intros H.
  assert (I : In n (map N.of_nat (seq 0 64))).
  { rewrite <- (N2Nat.id n). apply in_map, in_seq. lia. }
  pose proof (proj1 (forallb_forall _ _) sextetOk_all n I) as E.
  unfold sextetOk in E. apply andb_true_iff in E. destruct E as [E1 E2].
  destruct (base64urlValue (base64urlChar n)) as [v|]; [|discriminate].
  apply N.eqb_eq in E1. subst v. split; [reflexivity|].
  now apply negb_true_iff in E2.
Qed.

Lemma base64Values_char n s pos :
  (n < 64)%N ->
  base64Values (String (base64urlChar n) s) pos
  = match base64Values s (S pos) with
    | Ok l => Ok ((n, pos) :: l)
    | Err e => Err e
    end.
Proof.
  intros H. destruct (base64urlValue_char n H) as [E1 E2].
  cbn [base64Values]. rewrite E2, E1. reflexivity.
Qed.

Ltac euclid := Z.to_euclidean_division_equations; lia.

Lemma sextet_bounds x y z :
  (x < 256 -> y < 256 -> z < 256 ->
   x / 4 < 64 /\ x mod 4 * 16 < 64 /\ x mod 4 * 16 + y / 16 < 64
   /\ y mod 16 * 4 < 64 /\ y mod 16 * 4 + z / 64 < 64 /\ z mod 64 < 64)%N.
Proof. intros; repeat split; zify; euclid. Qed.

Lemma sextet_bytes x y z :
  (x < 256 -> y < 256 -> z < 256 ->
   x / 4 * 4 + (x mod 4 * 16 + y / 16) / 16 = x
   /\ (x mod 4 * 16 + y / 16) mod 16 * 16 + (y mod 16 * 4 + z / 64) / 4 = y
   /\ (y mod 16 * 4 + z / 64) mod 4 * 64 + z mod 64 = z
   /\ x / 4 * 4 + (x mod 4 * 16) / 16 = x
   /\ (x mod 4 * 16 + y / 16) mod 16 * 16 + (y mod 16 * 4) / 4 = y)%N.
Proof. intros; repeat split; zify; euclid. Qed.

Lemma base64_values_assemble s :
  forall pos, exists l,
    base64Values (base64_RawURL_Encode s) pos = Ok l /\ base64Assemble l = Ok s.
Proof.
  induction s as [|a|a b|a b c s IH] using string_ind3; intro pos.
  - exists []. split; reflexivity.
  - pose proof (byteVal_bound a) as Ha.
    destruct (sextet_bounds (byteVal a) 0 0 Ha) as (B1 & B2 & _); [lia|lia|].
    destruct (sextet_bytes (byteVal a) 0 0 Ha) as (_ & _ & _ & E & _); [lia|lia|].
    eexists. cbn [base64_RawURL_Encode].
    rewrite !base64Values_char by assumption. cbn [base64Values].
    split; [reflexivity|]. cbn [base64Assemble]. unfold str1.
    rewrite E, byteOf_byteVal. reflexivity.
  - pose proof (byteVal_bound a) as Ha. pose proof (byteVal_bound b) as Hb.
    destruct (sextet_bounds (byteVal a) (byteVal b) 0 Ha Hb) as (B1 & _ & B2 & B3 & _); [lia|].
    destruct (sextet_bytes (byteVal a) (byteVal b) 0 Ha Hb) as (E1 & _ & _ & _ & E2); [lia|].
    eexists. cbn [base64_RawURL_Encode].
    rewrite !base64Values_char by assumption. cbn [base64Values].
    split; [reflexivity|]. cbn [base64Assemble]. unfold str1.
    rewrite E1, E2, !byteOf_byteVal. reflexivity.
  - pose proof (byteVal_bound a) as Ha. pose proof (byteVal_bound b) as Hb.
    pose proof (byteVal_bound c) as Hc.
    destruct (sextet_bounds (byteVal a) (byteVal b) (byteVal c) Ha Hb Hc)
      as (B1 & _ & B2 & _ & B3 & B4).
    destruct (sextet_bytes (byteVal a) (byteVal b) (byteVal c) Ha Hb Hc)
      as (E1 & E2 & E3 & _).
    destruct (IH (S (S (S (S pos))))) as (l & V & A).
    eexists. cbn [base64_RawURL_Encode].
    rewrite !base64Values_char by assumption. rewrite V.
    split; [reflexivity|]. cbn [base64Assemble]. rewrite A.
    rewrite E1, E2, E3, !byteOf_byteVal. reflexivity.
Qed.

Lemma base64_RawURL_round_trip s :
  base64_RawURL_Decode (base64_RawURL_Encode s) = Ok s.
Proof.
  unfold base64_RawURL_Decode.
  destruct (base64_values_assemble s 0%nat) as (l & V & A).
  rewrite V. exact A.
Qed.

(** *** JSON strings *)

Lemma unquoteBody_ascii c t :
  (byteVal c <? 128)%N = true ->
  unquoteBody (jsonEscapeAscii c ++ t) = prepend (str1 c) (unquoteBody t).
Proof.
  destruct c as [[] [] [] [] [] [] [] []]; intros H; try discriminate H; reflexivity.
Qed.

Lemma high_byte_tests c :
  (byteVal c <? 128)%N = false ->
  (byteVal c =? 34)%N = false /\ (byteVal c =? 92)%N = false /\ (byteVal c <? 32)%N = false.
Proof.
  intros H. apply N.ltb_ge in H.
  repeat split; [apply N.eqb_neq | apply N.eqb_neq | apply N.ltb_ge]; lia.
Qed.

Lemma unquoteBody_high c s1 :
  (byteVal c <? 128)%N = false ->
  unquoteBody (String c s1)
  = match utf8Size (String c s1) with
    | None => prepend replacementChar (unquoteBody s1)
    | Some 2%nat =>
        match s1 with
        | String c1 s2 => prepend (String c (str1 c1)) (unquoteBody s2)
        | _ => None
        end
    | Some 3%nat =>
        match s1 with
        | String c1 (String c2 s3) =>
            prepend (String c (String c1 (str1 c2))) (unquoteBody s3)
        | _ => None
        end
    | Some _ =>
        match s1 with
        | String c1 (String c2 (String c3 s4)) =>
            prepend (String c (String c1 (String c2 (str1 c3)))) (unquoteBody s4)
        | _ => None
        end
    end.
Proof.
  intros H. destruct (high_byte_tests c H) as (E34 & E92 & E32).
  cbn [unquoteBody]. rewrite E34, E92, E32, H. reflexivity.
Qed.

Lemma jsonEscape_high c s1 :
  (byteVal c <? 128)%N = false ->
  jsonEscape (String c s1)
  = match utf8Size (String c s1) with
    | None => String backslash "ufffd" ++ jsonEscape s1
    | Some 2%nat =>
        match s1 with
        | String c1 s2 => String c (String c1 (jsonEscape s2))
        | _ => ""
        end
    | Some 3%nat =>
        match s1 with
        | String c1 (String c2 s3) =>
            if ((byteVal c =? 226) && (byteVal c1 =? 128)
                && ((byteVal c2 =? 168) || (byteVal c2 =? 169)))%N
            then String backslash ("u202" ++ str1 (hexDigit (byteVal c2 mod 16)))
                   ++ jsonEscape s3
            else String c (String c1 (String c2 (jsonEscape s3)))
        | _ => ""
        end
    | Some _ =>
        match s1 with
        | String c1 (String c2 (String c3 s4)) =>
            String c (String c1 (String c2 (String c3 (jsonEscape s4))))
        | _ => ""
        end
    end.
Proof. intros H. cbn [jsonEscape]. rewrite H. reflexivity. Qed.

Lemma validUTF8_high c s1 :
  (byteVal c <? 128)%N = false ->
  validUTF8 (String c s1)
  = match utf8Size (String c s1) with
    | None => false
    | Some 2%nat => match s1 with String _ s2 => validUTF8 s2 | _ => false end
    | Some 3%nat => match s1 with String _ (String _ s3) => validUTF8 s3 | _ => false end
    | Some _ =>
        match s1 with String _ (String _ (String _ s4)) => validUTF8 s4 | _ => false end
    end.
Proof. intros H. cbn [validUTF8]. rewrite H. reflexivity. Qed.

Lemma byte_of_value c n : byteVal c = n -> c = byteOf n.
Proof. intros <-. symmetry. apply byteOf_byteVal. Qed.

(** A well-formed sequence of two to four bytes is copied by the encoder
    (or escaped, for U+2028 and U+2029) and read back as itself. *)
Lemma unquoteBody_multibyte c0 s1 :
  (byteVal c0 <? 128)%N = false ->
  validUTF8 (String c0 s1) = true ->
  exists p s',
    String c0 s1 = p ++ s'
    /\ (String.length s' < String.length (String c0 s1))%nat
    /\ validUTF8 s' = true
    /\ forall t, unquoteBody (jsonEscape (String c0 s1) ++ t)
                 = prepend p (unquoteBody (jsonEscape s' ++ t)).
Proof.
  intros Hc V. rewrite validUTF8_high in V by assumption.
  destruct (utf8Size (String c0 s1)) as [k|] eqn:U; [|discriminate].
  pose proof U as U0. unfold utf8Size in U. rewrite Hc in U.
  destruct (byteVal c0 <? 194)%N eqn:E194; [discriminate|].
  destruct (byteVal c0 <? 224)%N eqn:E224; [|destruct (byteVal c0 <? 240)%N eqn:E240;
    [|destruct (byteVal c0 <? 245)%N eqn:E245; [|discriminate]]].
  - destruct s1 as [|c1 s2]; [discriminate|].
    destruct (isCont c1) eqn:C1; [|discriminate]. injection U as <-.
    assert (U2 : forall X, utf8Size (String c0 (String c1 X)) = Some 2%nat).
    { intro X. unfold utf8Size. rewrite Hc, E194, E224, C1. reflexivity. }
    exists (String c0 (str1 c1)), s2. split; [reflexivity|].
    split; [cbn [String.length]; lia|]. split; [exact V|].
    intro t. rewrite jsonEscape_high, U0 by assumption. cbn [append].
    rewrite unquoteBody_high, U2 by assumption. reflexivity.
  - destruct s1 as [|c1 [|c2 s3]]; try discriminate.
    cbv zeta in U.
    match type of U with (if ?b then _ else _) = _ => destruct b eqn:C; [|discriminate] end.
    injection U as <-.
    assert (U3 : forall X, utf8Size (String c0 (String c1 (String c2 X))) = Some 3%nat).
    { intro X. unfold utf8Size. rewrite Hc, E194, E224, E240. cbv zeta. rewrite C. reflexivity. }
    exists (String c0 (String c1 (str1 c2))), s3. split; [reflexivity|].
    split; [cbn [String.length]; lia|]. split; [exact V|].
    intro t. rewrite jsonEscape_high, U0 by assumption.
    destruct ((byteVal c0 =? 226) && (byteVal c1 =? 128)
              && ((byteVal c2 =? 168) || (byteVal c2 =? 169)))%N eqn:L.
    + apply andb_true_iff in L. destruct L as [L L2].
      apply andb_true_iff in L. destruct L as [L0 L1].
      apply N.eqb_eq, byte_of_value in L0, L1. subst c0 c1.
      rewrite append_assoc_s.
      apply orb_true_iff in L2. destruct L2 as [L2|L2];
        apply N.eqb_eq, byte_of_value in L2; subst c2; reflexivity.
    + cbn [append]. rewrite unquoteBody_high, U3 by assumption. reflexivity.
  - destruct s1 as [|c1 [|c2 [|c3 s4]]]; try discriminate.
    cbv zeta in U.
    match type of U with (if ?b then _ else _) = _ => destruct b eqn:C; [|discriminate] end.
    injection U as <-.
    assert (U4 : forall X,
               utf8Size (String c0 (String c1 (String c2 (String c3 X)))) = Some 4%nat).
    { intro X. unfold utf8Size. rewrite Hc, E194, E224, E240, E245. cbv zeta.
      rewrite C. reflexivity. }
    exists (String c0 (String c1 (String c2 (str1 c3)))), s4. split; [reflexivity|].
    split; [cbn [String.length]; lia|]. split; [exact V|].
    intro t. rewrite jsonEscape_high, U0 by assumption. cbn [append].
    rewrite unquoteBody_high, U4 by assumption. reflexivity.
Qed.

Lemma unquoteBody_jsonEscape_bounded n :
  forall s, (String.length s <= n)%nat -> validUTF8 s = true ->
  forall rest, unquoteBody (jsonEscape s ++ String dquote rest) = Some (s, rest).
Proof.
  induction n as [|n IH]; intros [|c0 s1] L V rest;
    try reflexivity; cbn [String.length] in L; [lia|].
  destruct (byteVal c0 <? 128)%N eqn:Hc.
  - cbn [jsonEscape validUTF8] in *. rewrite Hc in *.
    rewrite append_assoc_s, unquoteBody_ascii by assumption.
    rewrite IH by (assumption || lia). reflexivity.
  - destruct (unquoteBody_multibyte c0 s1 Hc V) as (p & s' & E & L' & V' & Q).
    rewrite Q, IH by (assumption || (cbn [String.length] in L'; lia)).
    cbn [prepend]. rewrite <- E. reflexivity.
Qed.

(** The body of a marshalled string, read back: valid UTF-8 is kept. *)
Lemma unquoteBody_jsonEscape s rest :
  validUTF8 s = true ->
  unquoteBody (jsonEscape s ++ String dquote rest) = Some (s, rest).
Proof.
  intros V. apply (unquoteBody_jsonEscape_bounded (String.length s)); [apply Nat.le_refl | exact V].
Qed.

(** *** JSON numbers *)

Lemma append_nil_r_s (s : string) : s ++ "" = s.
Proof. induction s as [|c s IH]; cbn [append]; [reflexivity | rewrite IH; reflexivity]. Qed.

Lemma scanDigits_uint d c rest :
  isDigit c = false ->
  scanDigits (NilEmpty.string_of_uint d ++ String c rest)
  = (NilEmpty.string_of_uint d, String c rest).
Proof.
  intros H. induction d; cbn [NilEmpty.string_of_uint append scanDigits];
    try (rewrite IHd; reflexivity).
  rewrite H. reflexivity.
Qed.

(** The decimal digits of a positive number do not start with 0. *)
Lemma to_uint_head p :
  exists h u, Pos.to_uint p = h u
              /\ In h [Decimal.D1; Decimal.D2; Decimal.D3; Decimal.D4; Decimal.D5;
                       Decimal.D6; Decimal.D7; Decimal.D8; Decimal.D9].
Proof.
  assert (N : Decimal.unorm (Pos.to_uint p) = Pos.to_uint p).
  { rewrite <- (DecimalPos.Unsigned.to_of (Pos.to_uint p)), DecimalPos.Unsigned.of_to.
    reflexivity. }
  pose proof (DecimalPos.Unsigned.to_uint_nonzero p) as Z0.
  pose proof (DecimalPos.Unsigned.to_uint_nonnil p) as Z1.
  destruct (Pos.to_uint p) as [|u|u|u|u|u|u|u|u|u|u] eqn:E;
    [contradiction | | eexists _, u; split; [reflexivity | cbn; tauto] ..].
  exfalso. rewrite DecimalFacts.unorm_D0 in N. unfold Decimal.unorm in N.
  pose proof (DecimalFacts.nzhead_nonzero u) as NZ.
  destruct (Decimal.nzhead u) eqn:F; try (apply (NZ u); exact N); try discriminate N.
  injection N as <-. apply Z0. reflexivity.
Qed.

Lemma scanUnsigned_positive p c rest :
  numberEnd c ->
  scanUnsigned (NilEmpty.string_of_uint (Pos.to_uint p) ++ String c rest)
  = Some (NilEmpty.string_of_uint (Pos.to_uint p), String c rest).
Proof.
  intros Hc. destruct (to_uint_head p) as (h & u & -> & Hh).
  assert (D : isDigit c = false) by (destruct Hc as [-> | ->]; reflexivity).
  pose proof (scanDigits_uint (h u) c rest D) as SD.
  cbn [In] in Hh.
  repeat (destruct Hh as [<- | Hh];
    [cbn [NilEmpty.string_of_uint append] in *; unfold scanUnsigned;
     cbn [byteVal N_of_ascii N_of_digits N.eqb N.add N.mul Pos.eqb obind isDigit
          N.leb N.compare Pos.compare Pos.compare_cont andb Pos.add Pos.mul Pos.succ];
     rewrite SD; destruct Hc as [-> | ->]; cbn; rewrite append_nil_r_s; reflexivity |]).
  contradiction.
Qed.

Lemma string_of_uint_positive p :
  NilZero.string_of_uint (Pos.to_uint p) = NilEmpty.string_of_uint (Pos.to_uint p).
Proof.
  pose proof (DecimalPos.Unsigned.to_uint_nonnil p) as Z1.
  destruct (Pos.to_uint p); [contradiction | reflexivity ..].
Qed.

Lemma scanNumber_digit c r :
  isDigit c = true -> scanNumber (String c r) = scanUnsigned (String c r).
Proof.
  intros H. unfold scanNumber.
  replace (byteVal c =? 45)%N with false; [reflexivity|].
  symmetry. apply N.eqb_neq. unfold isDigit in H. cbv zeta in H.
  apply andb_true_iff in H. destruct H as [H _]. apply N.leb_le in H. lia.
Qed.

Lemma string_of_uint_digit p rest :
  exists c r, NilEmpty.string_of_uint (Pos.to_uint p) ++ rest = String c r
              /\ isDigit c = true.
Proof.
  destruct (to_uint_head p) as (h & u & -> & Hh). cbn [In] in Hh.
  repeat (destruct Hh as [<- | Hh];
          [eexists _, _; split; [cbn [NilEmpty.string_of_uint append]|]; reflexivity |]).
  contradiction.
Qed.

Lemma scanNumber_fmt_d z c rest :
  numberEnd c ->
  scanNumber (fmt_d z ++ String c rest) = Some (fmt_d z, String c rest).
Proof.
  intros Hc. unfold fmt_d. destruct z as [|p|p]; cbn [Z.to_int NilZero.string_of_int].
  - destruct Hc as [-> | ->]; reflexivity.
  - rewrite string_of_uint_positive.
    destruct (string_of_uint_digit p (String c rest)) as (h & r & E & D).
    rewrite E, scanNumber_digit, <- E by exact D. apply scanUnsigned_positive, Hc.
  - rewrite string_of_uint_positive. cbn [append scanNumber].
    change (byteVal "-" =? 45)%N with true. cbv iota.
    rewrite scanUnsigned_positive by exact Hc. reflexivity.
Qed.

(** The first character of a formatted integer is a digit or the sign. *)
Lemma fmt_d_head z rest :
  exists c r, fmt_d z ++ rest = String c r
              /\ (isDigit c || (byteVal c =? 45)%N) = true.
Proof.
  unfold fmt_d. destruct z as [|p|p]; cbn [Z.to_int NilZero.string_of_int].
  - eexists _, _. split; reflexivity.
  - rewrite string_of_uint_positive.
    destruct (string_of_uint_digit p rest) as (h & r & E & D).
    exists h, r. rewrite D. split; [exact E | reflexivity].
  - eexists _, _. split; reflexivity.
Qed.

Lemma parseInt64_fmt_d z : inInt64 z = true -> parseInt64 (fmt_d z) = Some z.
Proof.
  intros R. unfold parseInt64, fmt_d. rewrite NilZero.isi.
  - rewrite DecimalZ.of_to. unfold inInt64 in R. rewrite R. reflexivity.
  - destruct z as [|p|p]; cbn [Z.to_int]; try discriminate.
    intros [= E]. exact (DecimalPos.Unsigned.to_uint_nonnil p E).
  - destruct z as [|p|p]; cbn [Z.to_int]; try discriminate.
    intros [= E]. exact (DecimalPos.Unsigned.to_uint_nonnil p E).
Qed.

(** *** JSON values *)

Lemma parseValue_number_head f d c r :
  (isDigit c || (byteVal c =? 45)%N) = true ->
  parseValue (S f) d (String c r)
  = let? (lit, rest) := scanNumber (String c r) in Some (JNumber lit, rest).
Proof.
  destruct c as [[] [] [] [] [] [] [] []]; intros H; try discriminate H; reflexivity.
Qed.

Lemma parseValue_int f d z c rest :
  numberEnd c ->
  parseValue (S f) d (fmt_d z ++ String c rest) = Some (JNumber (fmt_d z), String c rest).
Proof.
  intros Hc. destruct (fmt_d_head z (String c rest)) as (h & r & E & D).
  rewrite E, parseValue_number_head, <- E by exact D.
  rewrite scanNumber_fmt_d by exact Hc. reflexivity.
Qed.

Lemma parseValue_string f d s rest :
  validUTF8 s = true ->
  parseValue (S f) d (jsonString s ++ rest) = Some (JString s, rest).
Proof.
  intros V. unfold jsonString, str1. cbn [append]. rewrite append_assoc_s. cbn [append].
  change (parseValue (S f) d (String dquote (jsonEscape s ++ String dquote rest)))
    with (let? (str, r) := unquoteBody (jsonEscape s ++ String dquote rest) in
          Some (JString str, r)).
  rewrite unquoteBody_jsonEscape by exact V. reflexivity.
Qed.

Lemma parseValue_null f d rest : parseValue (S f) d ("null" ++ rest) = Some (JNull, rest).
Proof. reflexivity. Qed.

(** *** JSON objects *)

Lemma parseMembers_key f d k r2 :
  plainKey k ->
  parseMembers (S f) d (jsonKey k ++ r2)
  = let? (v, r3) := parseValue f d r2 in
    match skipWs r3 with
    | "" => None
    | String sep r4 =>
        if (byteVal sep =? 125)%N then Some ([(k, v)], r4)
        else if (byteVal sep =? 44)%N then
          let? (ms, rest) := parseMembers f d r4 in Some ((k, v) :: ms, rest)
        else None
    end.
Proof.
  intros [V E]. unfold jsonKey. cbn [append]. rewrite append_assoc_s. cbn [append].
  pose proof (unquoteBody_jsonEscape k (String ":" r2) V) as Q. rewrite E in Q.
  change (parseMembers (S f) d (String dquote (k ++ String dquote (String ":" r2))))
    with (let? (key, r1) := unquoteBody (k ++ String dquote (String ":" r2)) in
          match skipWs r1 with
          | "" => None
          | String colon r2 =>
              if negb (byteVal colon =? 58)%N then None
              else
                let? (v, r3) := parseValue f d r2 in
                match skipWs r3 with
                | "" => None
                | String sep r4 =>
                    if (byteVal sep =? 125)%N then Some ([(key, v)], r4)
                    else if (byteVal sep =? 44)%N then
                      let? (ms, rest) := parseMembers f d r4 in
                      Some ((key, v) :: ms, rest)
                    else None
                end
          end).
  rewrite Q. reflexivity.
Qed.

Lemma member_more f d k v r2 r :
  plainKey k ->
  parseValue f d r2 = Some (v, String ","%char r) ->
  parseMembers (S f) d (jsonKey k ++ r2)
  = let? (ms, rest) := parseMembers f d r in Some ((k, v) :: ms, rest).
Proof. intros K P. rewrite parseMembers_key, P by exact K. reflexivity. Qed.

Lemma member_last f d k v r2 r :
  plainKey k ->
  parseValue f d r2 = Some (v, String "}"%char r) ->
  parseMembers (S f) d (jsonKey k ++ r2) = Some ([(k, v)], r).
Proof. intros K P. rewrite parseMembers_key, P by exact K. reflexivity. Qed.

Lemma member_int_more f d k z r :
  plainKey k ->
  parseMembers (S (S f)) d (jsonKey k ++ fmt_d z ++ String ","%char r)
  = let? (ms, rest) := parseMembers (S f) d r in Some ((k, JNumber (fmt_d z)) :: ms, rest).
Proof. intros K. apply member_more; [exact K | apply parseValue_int; left; reflexivity]. Qed.

Lemma member_int_last f d k z r :
  plainKey k ->
  parseMembers (S (S f)) d (jsonKey k ++ fmt_d z ++ String "}"%char r)
  = Some ([(k, JNumber (fmt_d z))], r).
Proof. intros K. apply member_last; [exact K | apply parseValue_int; right; reflexivity]. Qed.

Lemma member_string_more f d k s r :
  plainKey k -> validUTF8 s = true ->
  parseMembers (S (S f)) d (jsonKey k ++ jsonString s ++ String ","%char r)
  = let? (ms, rest) := parseMembers (S f) d r in Some ((k, JString s) :: ms, rest).
Proof. intros K V. apply member_more; [exact K | apply parseValue_string, V]. Qed.

Lemma member_string_last f d k s r :
  plainKey k -> validUTF8 s = true ->
  parseMembers (S (S f)) d (jsonKey k ++ jsonString s ++ String "}"%char r)
  = Some ([(k, JString s)], r).
Proof. intros K V. apply member_last; [exact K | apply parseValue_string, V]. Qed.

Lemma parseValue_object f d k r :
  (d + 1 <= maxNestingDepth)%N ->
  parseValue (S f) d (String "{"%char (jsonKey k ++ r))
  = let? (ms, rest) := parseMembers f (d + 1) (jsonKey k ++ r) in Some (JObject ms, rest).
Proof.
  intros D. apply N.ltb_ge in D.
  unfold jsonKey. cbn [append parseValue skipWs].
  change (isWs "{") with false. change (isWs dquote) with false. cbv iota.
  change (byteVal "{" =? 123)%N with true. change (byteVal dquote =? 125)%N with false.
  cbv iota beta zeta. rewrite D. reflexivity.
Qed.

Ltac plain_key := split; reflexivity.

Lemma parseValue_profile f d n rest :
  validStrings n = true ->
  (d + 2 <= maxNestingDepth)%N ->
  parseValue (11 + f) d (marshalNormalizedProfile n ++ rest) = Some (astProfile n, rest).
Proof.
  intros V D. destruct n as [e [mc mf mm] [cf cc cv cs ccr] [pb sm tn]].
  unfold validStrings in V. cbn [NormalizedProfile.Element NormalizedProfile.Int
    NormalizedInteraction.PB NormalizedInteraction.SM NormalizedInteraction.TN] in V.
  apply andb_true_iff in V. destruct V as [V Vtn].
  apply andb_true_iff in V. destruct V as [V Vsm].
  apply andb_true_iff in V. destruct V as [Ve Vpb].
  unfold marshalNormalizedProfile, astProfile, astModal, astCognition, astInteraction.
  cbn [NormalizedProfile.Element NormalizedProfile.Int NormalizedProfile.Modal
       NormalizedProfile.Cog NormalizedModal.C NormalizedModal.F NormalizedModal.M
       NormalizedCognition.F NormalizedCognition.C NormalizedCognition.V
       NormalizedCognition.S NormalizedCognition.Cr
       NormalizedInteraction.PB NormalizedInteraction.SM NormalizedInteraction.TN].
  rewrite !append_assoc_s. cbn [append Nat.add].
  rewrite parseValue_object by lia.
  rewrite member_string_more by (plain_key || assumption).
  erewrite member_more; [| plain_key |].
  2: { rewrite parseValue_object by lia.
       rewrite !member_int_more, member_int_last by plain_key. reflexivity. }
  erewrite member_more; [| plain_key |].
  2: { rewrite parseValue_object by lia.
       rewrite !member_int_more, member_int_last by plain_key. reflexivity. }
  erewrite member_last; [| plain_key |].
  2: { rewrite parseValue_object by lia.
       rewrite !member_string_more, member_string_last by (plain_key || assumption).
       reflexivity. }
  reflexivity.
Qed.

Lemma parseValue_profilePtr f d n rest :
  onProfile validStrings n = true ->
  (d + 2 <= maxNestingDepth)%N ->
  parseValue (11 + f) d (marshalNormalizedProfilePtr n ++ rest) = Some (astProfilePtr n, rest).
Proof.
  intros V D. destruct n as [p|]; [apply parseValue_profile; assumption | reflexivity].
Qed.

Lemma marshalU4Data_length n chip :
  exists k, S (String.length (marshalU4Data n chip)) = (14 + k)%nat.
Proof.
  assert (L : (13 <= String.length (marshalU4Data n chip))%nat).
  { unfold marshalU4Data. cbn [append String.length].
    rewrite !append_length. cbn [String.length jsonKey append].
    rewrite !append_length. cbn [String.length]. lia. }
  exists (String.length (marshalU4Data n chip) - 13)%nat. lia.
Qed.

(** The marshalled text parses to the tree it was written from. *)
Lemma parseJSON_marshalU4Data n chip :
  validUTF8 chip = true -> onProfile validStrings n = true ->
  parseJSON (marshalU4Data n chip) = Some (astU4Data n chip).
Proof.
  intros Vc Vn. unfold parseJSON.
  destruct (marshalU4Data_length n chip) as [k ->].
  unfold marshalU4Data. cbn [append Nat.add].
  rewrite parseValue_object by (unfold maxNestingDepth; lia).
  rewrite member_string_more by (plain_key || assumption).
  erewrite member_last; [| plain_key |].
  2: { apply (parseValue_profilePtr k); [assumption | unfold maxNestingDepth; lia]. }
  reflexivity.
Qed.

(** *** Unmarshalling and the round trip *)

Lemma unmarshalInt_fmt_d current z :
  inInt64 z = true -> unmarshalInt current (JNumber (fmt_d z)) = Ok z.
Proof. intros R. unfold unmarshalInt. rewrite parseInt64_fmt_d by exact R. reflexivity. Qed.

(** Storing the tree of a profile into any profile gives that profile. *)
Lemma unmarshal_astProfile target n :
  intsInRange n = true ->
  unmarshalStruct "hcs.NormalizedProfile" ["element"; "modal"; "cog"; "int"]
                  storeNormalizedProfile target (astProfile n)
  = Ok n.
Proof.
  intros R.
  destruct n as [e [mc mf mm] [cf cc cv cs ccr] [pb sm tn]].
  destruct target as [e' [mc' mf' mm'] [cf' cc' cv' cs' ccr'] [pb' sm' tn']].
  unfold intsInRange in R.
  cbn [NormalizedProfile.Modal NormalizedProfile.Cog NormalizedModal.C NormalizedModal.F
       NormalizedModal.M NormalizedCognition.F NormalizedCognition.C NormalizedCognition.V
       NormalizedCognition.S NormalizedCognition.Cr] in R.
  do 7 (apply andb_true_iff in R; let H := fresh "R" in destruct R as [R H]).
  unfold astProfile, astModal, astCognition, astInteraction.
  cbn [NormalizedProfile.Element NormalizedProfile.Int NormalizedProfile.Modal
       NormalizedProfile.Cog NormalizedModal.C NormalizedModal.F NormalizedModal.M
       NormalizedCognition.F NormalizedCognition.C NormalizedCognition.V
       NormalizedCognition.S NormalizedCognition.Cr
       NormalizedInteraction.PB NormalizedInteraction.SM NormalizedInteraction.TN].
  cbn -[fmt_d unmarshalInt].
  repeat (rewrite unmarshalInt_fmt_d by assumption; cbn -[fmt_d unmarshalInt]).
  reflexivity.
Qed.

Lemma unmarshal_astU4Data n chip :
  onProfile intsInRange n = true ->
  unmarshalStruct "struct { Profile *hcs.NormalizedProfile; Chip string }"
                  ["profile"; "chip"] storeU4Data (None, "") (astU4Data n chip)
  = Ok (n, chip).
Proof.
  intros R. destruct n as [p|]; [|reflexivity].
  unfold astU4Data, astProfilePtr.
  cbn [unmarshalStruct unmarshalMembers].
  change (lookupField ["profile"; "chip"] "chip") with (Some "chip").
  change (lookupField ["profile"; "chip"] "profile") with (Some "profile").
  cbv iota beta.
  change (storeU4Data "chip" (JString chip) (None, "")) with (Ok (@None NormalizedProfile.t, chip)).
  cbn [rbind].
  unfold storeU4Data. change ("profile" =? "profile")%string with true. cbv iota beta.
  unfold unmarshalNormalizedProfilePtr, astProfile at 1.
  fold (astProfile p).
  rewrite unmarshal_astProfile by exact R. reflexivity.
Qed.

Lemma unmarshalU4Data_marshal n chip :
  validUTF8 chip = true -> onProfile validStrings n = true ->
  onProfile intsInRange n = true ->
  unmarshalU4Data (marshalU4Data n chip) = Ok (n, chip).
Proof.
  intros Vc Vn R. unfold unmarshalU4Data.
  rewrite parseJSON_marshalU4Data by assumption.
  apply unmarshal_astU4Data, R.
Qed.

(** C9, as the code has it: for every normalized profile (or nil) and
    chip whose strings are valid UTF-8, the integers being values of Go's
    int, EncodeU4 succeeds and DecodeU4 of its code succeeds and returns
    that profile and that chip.  This covers every output of the
    normalizer and every hexadecimal chip. *)
Theorem U4_round_trip (n : option NormalizedProfile.t) (chip : string) :
  validUTF8 chip = true ->
  onProfile validStrings n = true ->
  onProfile intsInRange n = true ->
  exists code, EncodeU4 n chip = Ok code /\ DecodeU4 code = Ok (n, chip).
Proof.
  intros Vc Vn R. eexists. split; [reflexivity|].
  unfold DecodeU4.
  change (dropPrefix "HCS-U4|" ("HCS-U4|" ++ base64_RawURL_Encode (marshalU4Data n chip)))
    with (Some (base64_RawURL_Encode (marshalU4Data n chip))).
  cbv iota beta. rewrite base64_RawURL_round_trip.
  rewrite unmarshalU4Data_marshal by assumption. reflexivity.
Qed.

(** C9, as stated, fails: a chip that is not valid UTF-8, the single byte
    0xFF, is encoded without error, and decoding the code succeeds with the
    three bytes of U+FFFD as chip: json.Marshal writes the escape of the
    replacement character for a byte that is not valid UTF-8. *)
Lemma U4_invalid_utf8_chip :
  EncodeU4 None (str1 (byteOf 255)) = Ok "HCS-U4|eyJjaGlwIjoiXHVmZmZkIiwicHJvZmlsZSI6bnVsbH0"
  /\ DecodeU4 "HCS-U4|eyJjaGlwIjoiXHVmZmZkIiwicHJvZmlsZSI6bnVsbH0" = Ok (None, replacementChar)
  /\ replacementChar <> str1 (byteOf 255).
Proof. split; [|split]; [vm_compute; reflexivity ..| discriminate]. Qed.

(** The reference profile, normalized, with its chip. *)
Lemma U4_round_trip_witness :
  exists code,
    EncodeU4 (Some (NormalizeProfile testInput)) "b04edb83f10e" = Ok code
    /\ DecodeU4 code = Ok (Some (NormalizeProfile testInput), "b04edb83f10e").
Proof.
  apply (U4_round_trip (Some (NormalizeProfile testInput)) "b04edb83f10e");
    vm_compute; reflexivity.
Defined.

(* ================================================================== *)
(** * Further properties *)
(* ================================================================== *)

(** ** The server's substring test *)

Lemma takeBytes_prefix sub : forall s,
  (String.length sub <= String.length s)%nat ->
  takeBytes (String.length sub) s = sub -> exists q, s = sub ++ q.
Proof.
  induction sub as [|c sub IH]; intros s L E.
  - exists s. reflexivity.
  - destruct s as [|d s]; cbn [String.length takeBytes] in *; [lia|].
    injection E as -> E. destruct (IH s) as [q ->]; [lia | exact E |].
    exists q. reflexivity.
Qed.

(** X1: [contains] decides the substring relation: it answers true
    exactly when the second string occurs somewhere in the first. *)
Theorem contains_substring s substr :
  contains s substr = true <-> exists p q, s = p ++ substr ++ q.
Proof.
  split.
  - induction s as [|c s IH]; cbn [contains]; intros H.
    + apply orb_true_iff in H. destruct H as [H|H].
      * apply andb_true_iff in H. destruct H as [L E].
        apply Nat.leb_le in L. apply String.eqb_eq in E.
        destruct (takeBytes_prefix substr "" L E) as [q Hq]. exists "", q. exact Hq.
      * apply andb_true_iff in H. destruct H as [_ H]. discriminate H.
    + apply orb_true_iff in H. destruct H as [H|H].
      * apply andb_true_iff in H. destruct H as [L E].
        apply Nat.leb_le in L. apply String.eqb_eq in E.
        destruct (takeBytes_prefix substr (String c s) L E) as [q Hq]. exists "", q. exact Hq.
      * apply andb_true_iff in H. destruct H as [_ H].
        destruct (IH H) as (p & q & ->). exists (String c p), q. reflexivity.
  - intros (p & q & ->). induction p as [|c p IH].
    + cbn [append]. destruct (substr ++ q) as [|c r] eqn:E; cbn [contains].
      * destruct substr; [reflexivity | discriminate E].
      * rewrite <- E. apply orb_true_iff. left.
        rewrite takeBytes_append by reflexivity. rewrite String.eqb_refl, andb_true_r.
        apply Nat.leb_le. rewrite append_length. lia.
    + cbn [append contains]. apply orb_true_iff. right. rewrite IH, andb_true_r.
      apply Nat.ltb_lt. cbn [String.length]. rewrite !append_length. lia.
Qed.

(** ** Hexadecimal text, the secret key and the CHIP *)

Lemma fromHexChar_hexDigit n : (n < 16)%N -> fromHexChar (hexDigit n) = Some n.
Proof.
  intros H.
  assert (I : In n (map N.of_nat (seq 0 16))).
  { rewrite <- (N2Nat.id n). apply in_map, in_seq. lia. }
  cbn in I. repeat (destruct I as [<- | I]; [reflexivity |]). contradiction.
Qed.

Lemma isLowerHex_hexDigit n : (n < 16)%N -> isLowerHex (hexDigit n) = true.
Proof.
  intros H.
  assert (I : In n (map N.of_nat (seq 0 16))).
  { rewrite <- (N2Nat.id n). apply in_map, in_seq. lia. }
  cbn in I. repeat (destruct I as [<- | I]; [reflexivity |]). contradiction.
Qed.

Lemma byte_nibbles c : (byteVal c / 16 < 16 /\ byteVal c mod 16 < 16)%N.
Proof.
  pose proof (byteVal_bound c). split.
  - apply N.Div0.div_lt_upper_bound. lia.
  - apply N.mod_lt. discriminate.
Qed.

Lemma hex_DecodeString_EncodeToString s :
  hex_DecodeString (hex_EncodeToString s) = Ok s.
Proof.
  induction s as [|c s IH]; [reflexivity|].
  destruct (byte_nibbles c) as [Hq Hr].
  cbn [hex_EncodeToString hex_DecodeString].
  rewrite !fromHexChar_hexDigit, IH by assumption.
  rewrite <- N.div_mod by discriminate. rewrite byteOf_byteVal. reflexivity.
Qed.

Lemma hex_DecodeString_length : forall n v key,
  (String.length v <= n)%nat ->
  hex_DecodeString v = Ok key -> String.length v = (2 * String.length key)%nat.
Proof.
  induction n as [|n IH]; intros [|a [|b v]] key L E; cbn [String.length] in L; try lia;
    cbn [hex_DecodeString] in E.
  - injection E as <-. reflexivity.
  - injection E as <-. reflexivity.
  - destruct (fromHexChar a); discriminate E.
  - destruct (fromHexChar a); [|discriminate E].
    destruct (fromHexChar b); [|discriminate E].
    destruct (hex_DecodeString v) as [r|] eqn:D; [|discriminate E].
    injection E as <-. cbn [String.length]. rewrite (IH v r); [lia | lia | exact D].
Qed.

(** X2: the key loader accepts the hexadecimal spelling of a key exactly
    when the key has 32 or 64 bytes; and every value it accepts is the
    spelling (in either case of the letters, twice as long as the key) of
    the key it returns. *)
Theorem LoadSecretKey_accepts :
  (forall key,
      LoadSecretKey (hex_EncodeToString key) = Ok key
      <-> (String.length key = 32 \/ String.length key = 64)%nat)
  /\ (forall value key,
         LoadSecretKey value = Ok key ->
         hex_DecodeString value = Ok key
         /\ (String.length key = 32 \/ String.length key = 64)%nat
         /\ String.length value = (2 * String.length key)%nat).
Proof.
  assert (A : forall value key,
             LoadSecretKey value = Ok key ->
             hex_DecodeString value = Ok key
             /\ (String.length key = 32 \/ String.length key = 64)%nat
             /\ String.length value = (2 * String.length key)%nat).
  { intros value key E. unfold LoadSecretKey in E.
    destruct (value =? "")%string; [discriminate E|].
    destruct (hex_DecodeString value) as [decoded|] eqn:D; [|discriminate E].
    destruct (Nat.eqb_spec (String.length decoded) 32) as [L32|L32];
      destruct (Nat.eqb_spec (String.length decoded) 64) as [L64|L64];
      cbn [negb andb] in E; try discriminate E; injection E as <-;
      (split; [reflexivity|]); (split; [lia|]);
      apply (hex_DecodeString_length (String.length value)); auto. }
  split; [|exact A].
  intros key. split.
  - intros E. apply (A _ _ E).
  - intros L. unfold LoadSecretKey. rewrite hex_DecodeString_EncodeToString.
    destruct key as [|c key]; [cbn in L; lia|].
    cbn [hex_EncodeToString String.eqb].
    destruct L as [-> | ->]; reflexivity.
Qed.

Lemma allChars_hex_EncodeToString s : allChars isLowerHex (hex_EncodeToString s) = true.
Proof.
  induction s as [|c s IH]; [reflexivity|].
  destruct (byte_nibbles c) as [Hq Hr].
  cbn [hex_EncodeToString allChars]. rewrite !isLowerHex_hexDigit, IH by assumption.
  reflexivity.
Qed.

Lemma allChars_takeBytes p n : forall s, allChars p s = true -> allChars p (takeBytes n s) = true.
Proof.
  induction n as [|n IH]; intros [|c s] H; try reflexivity.
  cbn [takeBytes allChars] in *. apply andb_true_iff in H. destruct H as [-> H].
  rewrite IH by exact H. reflexivity.
Qed.

(** X3: with a hash function of 32-byte digests, GenerateCHIP never fails
    and the CHIP is exactly twelve lower-case hexadecimal digits, whatever
    the salt and the profile (a nil profile included). *)
Theorem GenerateCHIP_twelve_hex (sha256 : string -> string) salt normalized :
  (forall x, String.length (sha256 x) = 32%nat) ->
  exists chip,
    GenerateCHIP sha256 salt normalized = Ok chip
    /\ isLowerHexOfLength 12 chip = true.
Proof.
  intros H. eexists. split; [reflexivity|].
  unfold isLowerHexOfLength.
  rewrite takeBytes_length by (rewrite hex_EncodeToString_length, H; lia).
  rewrite allChars_takeBytes by apply allChars_hex_EncodeToString. reflexivity.
Qed.

Lemma GenerateCHIP_twelve_hex_witness :
  exists chip,
    GenerateCHIP prefixDigest "test-salt" (Some (NormalizeProfile testInput)) = Ok chip
    /\ isLowerHexOfLength 12 chip = true.
Proof.
  apply (GenerateCHIP_twelve_hex prefixDigest "test-salt" (Some (NormalizeProfile testInput))).
  exact prefixDigest_length.
Defined.

(** ** Plain-text codec U3: validation and parsing *)

Lemma matchItems_char c items b s :
  matchItems (RChar c :: items) b (String c s) = matchItems items false s.
Proof. cbn [matchItems]. rewrite Ascii.eqb_refl. reflexivity. Qed.

Lemma searchItems_anchored_later items s : searchItems (RBegin :: items) false s = None.
Proof. induction s as [|c s IH]; cbn [searchItems matchItems]; [reflexivity | exact IH]. Qed.

(** A pattern that starts with [^] matches at the start of the text or
    not at all. *)
Lemma searchItems_anchored items s :
  searchItems (RBegin :: items) true s
  = match matchItems items true s with
    | Some (caps, r) => Some (takeBytes (String.length s - String.length r) s :: caps)
    | None => None
    end.
Proof.
  destruct s as [|c s]; cbn [searchItems matchItems];
    destruct (matchItems items true _) as [[caps r]|]; try reflexivity.
  apply searchItems_anchored_later.
Qed.


Lemma inClass_digit c : inClass digitRanges c = isDigit c.
Proof. unfold inClass, digitRanges, isDigit. cbn [existsb fst snd]. apply orb_false_r. Qed.

(** From 100 on a number has at least three digits. *)
Lemma fmt_d_three_digits z :
  100 <= z ->
  exists d1 d2 d3 r,
    fmt_d z = String d1 (String d2 (String d3 r))
    /\ isDigit d1 = true /\ isDigit d2 = true /\ isDigit d3 = true.
Proof.
  intros Hz. destruct z as [|p|p]; try lia.
  unfold fmt_d. cbn [Z.to_int NilZero.string_of_int]. rewrite string_of_uint_positive.
  pose proof (DecimalPos.Unsigned.of_to p) as E.
  pose proof (DecimalPos.Unsigned.to_uint_nonnil p) as Nn.
  destruct (Pos.to_uint p) as [|u|u|u|u|u|u|u|u|u|u]; [contradiction | ..];
    (destruct u as [|u|u|u|u|u|u|u|u|u|u]; [vm_compute in E; lia | ..]);
    (destruct u as [|u|u|u|u|u|u|u|u|u|u]; [vm_compute in E; lia | ..]);
    cbn [NilEmpty.string_of_uint]; eexists _, _, _, _; repeat split; reflexivity.
Qed.

Lemma fmt_02d_two_digits z :
  twoDigits z = true ->
  exists d1 d2, fmt_02d z = String d1 (String d2 "")
                /\ isDigit d1 = true /\ isDigit d2 = true.
Proof.
  intros H. unfold twoDigits in H. apply andb_true_iff in H. destruct H as [H0 H1].
  apply Z.leb_le in H0, H1.
  assert (I : In (Z.to_nat z) (seq 0 100)) by (apply in_seq; lia).
  rewrite <- (Z2Nat.id z) by lia.
  cbn [seq In] in I.
  repeat (destruct I as [<- | I]; [eexists _, _; repeat split; reflexivity |]).
  contradiction.
Qed.

Lemma fmt_d_negative z : z < 0 -> exists r, fmt_d z = String "-"%char r.
Proof. intros H. destruct z as [|p|p]; try lia. eexists. reflexivity. Qed.

(** Two digits and then a character that is not a digit match the
    formatted percentage exactly when it has two digits. *)
Lemma matchItems_percentage cap c items b z s :
  isDigit c = false ->
  matchItems (RClass cap digitRanges 2 :: RChar c :: items) b (fmt_02d z ++ String c s)
  = if twoDigits z
    then let? (caps, r) := matchItems items false s in
         Some (if cap then fmt_02d z :: caps else caps, r)
    else None.
Proof.
  intros Hc. destruct (twoDigits z) eqn:T.
  - destruct (fmt_02d_two_digits z T) as (d1 & d2 & -> & D1 & D2).
    cbn [append matchItems takeClass obind]. rewrite !inClass_digit, D1, D2.
    cbn [obind]. rewrite Ascii.eqb_refl. reflexivity.
  - unfold twoDigits in T. apply andb_false_iff in T.
    destruct T as [T|T]; [apply Z.leb_gt in T | apply Z.leb_gt in T].
    + destruct (fmt_d_negative z T) as [r E].
      unfold fmt_02d. replace ((0 <=? z) && (z <? 10))%Z with false
        by (symmetry; apply andb_false_iff; left; apply Z.leb_gt; lia).
      rewrite E. reflexivity.
    + destruct (fmt_d_three_digits z) as (d1 & d2 & d3 & r & E & D1 & D2 & D3); [lia|].
      unfold fmt_02d. replace ((0 <=? z) && (z <? 10))%Z with false
        by (symmetry; apply andb_false_iff; right; apply Z.ltb_ge; lia).
      rewrite E. cbn [append matchItems takeClass obind]. rewrite !inClass_digit, D1, D2.
      cbn [obind].
      destruct (Ascii.eqb_spec d3 c) as [->|]; [congruence | reflexivity].
Qed.

Lemma matchItems_single cap ranges items b l s :
  singleIn ranges l ->
  matchItems (RClass cap ranges 1 :: items) b (l ++ s)
  = let? (caps, r) := matchItems items false s in
    Some (if cap then l :: caps else caps, r).
Proof.
  intros (c & -> & H). cbn [append matchItems takeClass obind]. rewrite H.
  cbn [obind Nat.eqb]. rewrite andb_false_r. reflexivity.
Qed.


Lemma inClass_hex c : inClass hexRanges c = isLowerHex c.
Proof.
  unfold inClass, hexRanges, isLowerHex. cbn [existsb fst snd].
  rewrite orb_false_r. reflexivity.
Qed.

Lemma takeClass_exact n : forall s,
  match takeClass hexRanges n s with
  | Some (g, "") => g = s /\ isLowerHexOfLength n s = true
  | _ => isLowerHexOfLength n s = false
  end.
Proof.
  unfold isLowerHexOfLength.
  induction n as [|n IH]; intros [|c s]; cbn [takeClass String.length Nat.eqb allChars andb];
    try reflexivity; [split; reflexivity |].
  rewrite inClass_hex. destruct (isLowerHex c); [|apply andb_false_r].
  specialize (IH s). destruct (takeClass hexRanges n s) as [[g r]|]; cbn [obind andb].
  - destruct r; [destruct IH as [-> IH]; split; [reflexivity | exact IH] | exact IH].
  - exact IH.
Qed.

Lemma matchItems_hex_end cap n b s :
  matchItems [RClass cap hexRanges n; REnd] b s
  = if isLowerHexOfLength n s then Some (if cap then [s] else [], "") else None.
Proof.
  cbn [matchItems]. pose proof (takeClass_exact n s) as H.
  destruct (takeClass hexRanges n s) as [[g r]|]; cbn [obind].
  - destruct r; [destruct H as [-> ->]; reflexivity | rewrite H; reflexivity].
  - rewrite H. reflexivity.
Qed.

Lemma matchItems_hex_last cap n b s :
  isLowerHexOfLength n s = true ->
  matchItems [RClass cap hexRanges n] b s = Some (if cap then [s] else [], "").
Proof.
  intros V. cbn [matchItems]. pose proof (takeClass_exact n s) as H.
  destruct (takeClass hexRanges n s) as [[g r]|]; [|congruence].
  destruct r; [destruct H as [-> _]; reflexivity | congruence].
Qed.

Lemma singleIn_element e :
  singleIn [(65, 65); (69, 69); (87, 87); (70, 70)]%N (mapElementToLetter e).
Proof.
  unfold mapElementToLetter.
  repeat match goal with |- context [if ?b then _ else _] => destruct b end;
    eexists; split; reflexivity.
Qed.

Lemma singleIn_pace p : singleIn [(66, 66); (70, 70); (83, 83)]%N (mapPaceToLetter p).
Proof.
  unfold mapPaceToLetter.
  repeat match goal with |- context [if ?b then _ else _] => destruct b end;
    eexists; split; reflexivity.
Qed.

Lemma singleIn_structure p :
  singleIn [(76, 76); (77, 77); (72, 72)]%N (mapStructureToLetter p).
Proof.
  unfold mapStructureToLetter.
  repeat match goal with |- context [if ?b then _ else _] => destruct b end;
    eexists; split; reflexivity.
Qed.

Lemma singleIn_tone p :
  singleIn [(87, 87); (78, 78); (83, 83); (80, 80)]%N (mapToneToLetter p).
Proof.
  unfold mapToneToLetter.
  repeat match goal with |- context [if ?b then _ else _] => destruct b end;
    eexists; split; reflexivity.
Qed.

Ltac u3_steps :=
  repeat first
    [ rewrite matchItems_char
    | rewrite matchItems_percentage by reflexivity
    | rewrite (matchItems_single _ _ _ _ _ _ (singleIn_element _))
    | rewrite (matchItems_single _ _ _ _ _ _ (singleIn_pace _))
    | rewrite (matchItems_single _ _ _ _ _ _ (singleIn_structure _))
    | rewrite (matchItems_single _ _ _ _ _ _ (singleIn_tone _)) ].

Lemma ValidateU3Format_EncodeU3_eq i chip :
  ValidateU3Format (EncodeU3 i chip)
  = percentagesTwoDigits (NormalizeProfile i) && isLowerHexOfLength 12 chip.
Proof.
  unfold ValidateU3Format, regexp_MatchString.
  let c := eval vm_compute in (regexp_Compile u3Pattern) in
  change (regexp_Compile u3Pattern) with c.
  cbv beta iota. rewrite searchItems_anchored.
  destruct i as [e [a b c] [f g h j k] [p s t] bi].
  unfold EncodeU3, percentagesTwoDigits, NormalizeProfile, elemSegmentOf, modalSegmentOf,
    cogSegmentOf, intSegmentOf.
  cbn [InputProfile.DominantElement InputProfile.Modal InputProfile.Cognition
       InputProfile.Interaction ModalBalance.Cardinal ModalBalance.Fixed ModalBalance.Mutable
       CognitionProfile.Fluid CognitionProfile.Crystallized CognitionProfile.Verbal
       CognitionProfile.Strategic CognitionProfile.Creative
       InteractionPreferences.Pace InteractionPreferences.Structure InteractionPreferences.Tone
       NormalizedProfile.Modal NormalizedProfile.Cog NormalizedModal.C NormalizedModal.F
       NormalizedModal.M NormalizedCognition.F NormalizedCognition.C NormalizedCognition.V
       NormalizedCognition.S NormalizedCognition.Cr].
  generalize (clampAndRound a) (clampAndRound b) (clampAndRound c) (clampAndRound f)
             (clampAndRound g) (clampAndRound h) (clampAndRound j) (clampAndRound k).
  intros za zb zc zf zg zh zj zk.
  rewrite !append_assoc_s. cbn [append].
  fold digitRanges. fold hexRanges.
  u3_steps.
  rewrite matchItems_hex_end.
  destruct (twoDigits za), (twoDigits zb), (twoDigits zc), (twoDigits zf), (twoDigits zg),
    (twoDigits zh), (twoDigits zj), (twoDigits zk), (isLowerHexOfLength 12 chip);
    reflexivity.
Qed.

(** X4: a U3 code that EncodeU3 wrote passes ValidateU3Format exactly when
    each of the eight percentages has two digits (0 to 99) and the chip is
    twelve lower-case hexadecimal digits.  A ratio that rounds to 100 gives
    a code that the validator of the same codec rejects. *)
Theorem ValidateU3Format_EncodeU3 i chip :
  ValidateU3Format (EncodeU3 i chip) = true
  <-> percentagesTwoDigits (NormalizeProfile i) = true
      /\ isLowerHexOfLength 12 chip = true.
Proof. rewrite ValidateU3Format_EncodeU3_eq. apply andb_true_iff. Qed.

Lemma takeBytes_all s : takeBytes (String.length s) s = s.
Proof. induction s as [|c s IH]; cbn [String.length takeBytes]; [|rewrite IH]; reflexivity. Qed.

Lemma searchItems_whole items b s caps :
  matchItems items b s = Some (caps, "") -> searchItems items b s = Some (s :: caps).
Proof.
  intros M. destruct s as [|c s]; cbn [searchItems]; rewrite M; [reflexivity|].
  change (String.length "") with 0%nat. rewrite Nat.sub_0_r, takeBytes_all. reflexivity.
Qed.

(** X5: ParseU3 reads back what EncodeU3 wrote.  For a code with
    two-digit percentages and a chip of twelve lower-case hexadecimal
    digits it returns the thirteen components: the letters, the
    percentages as two digits each, and the chip. *)
Theorem ParseU3_EncodeU3 i chip :
  percentagesTwoDigits (NormalizeProfile i) = true ->
  isLowerHexOfLength 12 chip = true ->
  let n := NormalizeProfile i in
  ParseU3 (EncodeU3 i chip)
  = Some (Ok [("element", NormalizedProfile.Element n);
              ("modal_cardinal", fmt_02d (NormalizedModal.C (NormalizedProfile.Modal n)));
              ("modal_fixed", fmt_02d (NormalizedModal.F (NormalizedProfile.Modal n)));
              ("modal_mutable", fmt_02d (NormalizedModal.M (NormalizedProfile.Modal n)));
              ("cog_fluid", fmt_02d (NormalizedCognition.F (NormalizedProfile.Cog n)));
              ("cog_crystallized", fmt_02d (NormalizedCognition.C (NormalizedProfile.Cog n)));
              ("cog_verbal", fmt_02d (NormalizedCognition.V (NormalizedProfile.Cog n)));
              ("cog_strategic", fmt_02d (NormalizedCognition.S (NormalizedProfile.Cog n)));
              ("cog_creative", fmt_02d (NormalizedCognition.Cr (NormalizedProfile.Cog n)));
              ("int_pace", NormalizedInteraction.PB (NormalizedProfile.Int n));
              ("int_structure", NormalizedInteraction.SM (NormalizedProfile.Int n));
              ("int_tone", NormalizedInteraction.TN (NormalizedProfile.Int n));
              ("chip", chip)]).
Proof.
  intros P C n. subst n. unfold ParseU3.
  rewrite ValidateU3Format_EncodeU3_eq, P, C. cbn [andb negb].
  unfold regexp_FindStringSubmatch.
  let c := eval vm_compute in (regexp_Compile u3GroupPattern) in
  change (regexp_Compile u3GroupPattern) with c.
  cbn [obind].
  destruct i as [e [a b c] [f g h j k] [p s t] bi].
  unfold percentagesTwoDigits, NormalizeProfile in *.
  cbn [InputProfile.DominantElement InputProfile.Modal InputProfile.Cognition
       InputProfile.Interaction ModalBalance.Cardinal ModalBalance.Fixed ModalBalance.Mutable
       CognitionProfile.Fluid CognitionProfile.Crystallized CognitionProfile.Verbal
       CognitionProfile.Strategic CognitionProfile.Creative
       InteractionPreferences.Pace InteractionPreferences.Structure InteractionPreferences.Tone
       NormalizedProfile.Modal NormalizedProfile.Cog NormalizedProfile.Element
       NormalizedProfile.Int NormalizedModal.C NormalizedModal.F
       NormalizedModal.M NormalizedCognition.F NormalizedCognition.C NormalizedCognition.V
       NormalizedCognition.S NormalizedCognition.Cr NormalizedInteraction.PB
       NormalizedInteraction.SM NormalizedInteraction.TN] in *.
  do 7 (apply andb_true_iff in P; let H := fresh "P" in destruct P as [P H]).
  match goal with
  | |- context [searchItems ?items true ?code] =>
      rewrite (searchItems_whole items true code
                 [mapElementToLetter e;
                  fmt_02d (clampAndRound a); fmt_02d (clampAndRound b);
                  fmt_02d (clampAndRound c); fmt_02d (clampAndRound f);
                  fmt_02d (clampAndRound g); fmt_02d (clampAndRound h);
                  fmt_02d (clampAndRound j); fmt_02d (clampAndRound k);
                  mapPaceToLetter p; mapStructureToLetter s; mapToneToLetter t;
                  chip]); [reflexivity |]
  end.
  unfold EncodeU3, elemSegmentOf, modalSegmentOf, cogSegmentOf, intSegmentOf.
  cbn [InputProfile.DominantElement InputProfile.Modal InputProfile.Cognition
       InputProfile.Interaction ModalBalance.Cardinal ModalBalance.Fixed ModalBalance.Mutable
       CognitionProfile.Fluid CognitionProfile.Crystallized CognitionProfile.Verbal
       CognitionProfile.Strategic CognitionProfile.Creative
       InteractionPreferences.Pace InteractionPreferences.Structure InteractionPreferences.Tone].
  rewrite !append_assoc_s. cbn [append].
  fold digitRanges. fold hexRanges.
  u3_steps.
  rewrite matchItems_hex_last by exact C.
  rewrite P, P0, P1, P2, P3, P4, P5, P6. reflexivity.
Qed.

Lemma ParseU3_EncodeU3_witness :
  ParseU3 (EncodeU3 testInput "b04edb83f10e")
  = Some (Ok [("element", "A"); ("modal_cardinal", "31"); ("modal_fixed", "23");
              ("modal_mutable", "46"); ("cog_fluid", "52"); ("cog_crystallized", "13");
              ("cog_verbal", "53"); ("cog_strategic", "15"); ("cog_creative", "33");
              ("int_pace", "B"); ("int_structure", "M"); ("int_tone", "P");
              ("chip", "b04edb83f10e")]).
Proof.
  apply (ParseU3_EncodeU3 testInput "b04edb83f10e"); vm_compute; reflexivity.
Defined.

(** ** Signed codec U7 *)

Lemma length_zero_iff (s : string) : Nat.eqb (String.length s) 0 = true <-> s = "".
Proof. destruct s; cbn; split; congruence. Qed.

(** X6: FormatHCSU7 fails exactly when the profile is nil or one of the
    two signatures is empty. *)
Theorem FormatHCSU7_error_iff profile qsigHex b3Hex :
  isErr (FormatHCSU7 profile qsigHex b3Hex) = true
  <-> profile = None \/ qsigHex = "" \/ b3Hex = "".
Proof.
  unfold FormatHCSU7. destruct profile as [p|].
  - destruct qsigHex as [|c q]; [cbn; split; auto|].
    destruct b3Hex as [|d b]; [cbn; split; auto|].
    cbn [String.length Nat.eqb orb isErr]. split; [discriminate|].
    intros [H|[H|H]]; discriminate H.
  - cbn. split; auto.
Qed.

(** X7: the codecs U3 and U7 agree on a profile: for one input, the U3
    code and the U7 code carry the same segments E, MOD, COG and INT,
    character for character; the U7 code then holds at most the first 24
    characters of the primary signature and the first 32 of the secondary
    digest. *)
Theorem FormatHCSU7_shares_U3_segments i chip qsigHex b3Hex :
  qsigHex <> "" -> b3Hex <> "" ->
  let body := sharedSegments (NormalizeProfile i) in
  EncodeU3 i chip = "HCS-U3|" ++ body ++ "|CHIP:" ++ chip
  /\ FormatHCSU7 (Some (NormalizeProfile i)) qsigHex b3Hex
     = Ok ("HCS-U7|V:7.0|ALG:QS|" ++ body
           ++ "|QSIG:" ++ takeBytes 24 qsigHex ++ "|B3:" ++ takeBytes 32 b3Hex)
  /\ (String.length (takeBytes 24 qsigHex) <= 24)%nat
  /\ (String.length (takeBytes 32 b3Hex) <= 32)%nat.
Proof.
  intros Hq Hb body. subst body. split; [|split; [|split]].
  - unfold EncodeU3, sharedSegments, NormalizeProfile.
    cbn [NormalizedProfile.Modal NormalizedProfile.Cog NormalizedProfile.Element
         NormalizedProfile.Int NormalizedModal.C NormalizedModal.F
         NormalizedModal.M NormalizedCognition.F NormalizedCognition.C NormalizedCognition.V
         NormalizedCognition.S NormalizedCognition.Cr NormalizedInteraction.PB
         NormalizedInteraction.SM NormalizedInteraction.TN].
    cbv zeta. rewrite !append_assoc_s. reflexivity.
  - unfold FormatHCSU7.
    destruct qsigHex as [|c q]; [contradiction|].
    destruct b3Hex as [|d b]; [contradiction|].
    cbn [String.length Nat.eqb orb]. unfold sharedSegments. cbv zeta.
    rewrite !append_assoc_s. reflexivity.
  - clear. generalize 24%nat. intros n. revert qsigHex.
    induction n as [|n IH]; intros [|c s]; cbn [takeBytes String.length]; try lia.
    specialize (IH s). lia.
  - clear. generalize 32%nat. intros n. revert b3Hex.
    induction n as [|n IH]; intros [|c s]; cbn [takeBytes String.length]; try lia.
    specialize (IH s). lia.
Qed.

Lemma FormatHCSU7_shares_U3_segments_witness :
  EncodeU3 testInput "b04edb83f10e"
  = "HCS-U3|" ++ sharedSegments (NormalizeProfile testInput) ++ "|CHIP:" ++ "b04edb83f10e"
  /\ FormatHCSU7 (Some (NormalizeProfile testInput)) "abcdef" "0123"
     = Ok ("HCS-U7|V:7.0|ALG:QS|" ++ sharedSegments (NormalizeProfile testInput)
           ++ "|QSIG:" ++ takeBytes 24 "abcdef" ++ "|B3:" ++ takeBytes 32 "0123")
  /\ (String.length (takeBytes 24 "abcdef") <= 24)%nat
  /\ (String.length (takeBytes 32 "0123") <= 32)%nat.
Proof.
  apply (FormatHCSU7_shares_U3_segments testInput "b04edb83f10e" "abcdef" "0123");
    discriminate.
Defined.

(** ** Stub codec U4 *)

Lemma isBase64Url_char n : (n < 64)%N -> isBase64Url (base64urlChar n) = true.
Proof.
  intros H.
  assert (I : In n (map N.of_nat (seq 0 64))).
  { rewrite <- (N2Nat.id n). apply in_map, in_seq. lia. }
  cbn in I. repeat (destruct I as [<- | I]; [reflexivity |]). contradiction.
Qed.

Lemma base64_RawURL_Encode_alphabet s :
  allChars isBase64Url (base64_RawURL_Encode s) = true
  /\ String.length (base64_RawURL_Encode s) = ((4 * String.length s + 2) / 3)%nat.
Proof.
  induction s as [|a|a b|a b c s [IH1 IH2]] using string_ind3.
  - split; reflexivity.
  - destruct (sextet_bounds (byteVal a) 0 0 (byteVal_bound a)) as (B1 & B2 & _); [lia|lia|].
    cbn [base64_RawURL_Encode allChars]. rewrite !isBase64Url_char by assumption.
    split; reflexivity.
  - destruct (sextet_bounds (byteVal a) (byteVal b) 0 (byteVal_bound a) (byteVal_bound b))
      as (B1 & _ & B2 & B3 & _); [lia|].
    cbn [base64_RawURL_Encode allChars]. rewrite !isBase64Url_char by assumption.
    split; reflexivity.
  - destruct (sextet_bounds (byteVal a) (byteVal b) (byteVal c)
                            (byteVal_bound a) (byteVal_bound b) (byteVal_bound c))
      as (B1 & _ & B2 & _ & B3 & B4).
    cbn [base64_RawURL_Encode allChars String.length]. rewrite !isBase64Url_char by assumption.
    rewrite IH1, IH2. split; [reflexivity|].
    replace (4 * S (S (S (String.length s))) + 2)%nat
      with ((4 * String.length s + 2) + 4 * 3)%nat by lia.
    rewrite Nat.div_add by discriminate. lia.
Qed.

(** X8: a U4 code is the prefix "HCS-U4|" followed by characters of the
    URL-safe base64 alphabet only (letters, digits, "-" and "_"; no
    padding), (4n + 2) / 3 of them for n bytes of JSON. *)
Theorem EncodeU4_url_safe normalized chip :
  exists encoded,
    EncodeU4 normalized chip = Ok ("HCS-U4|" ++ encoded)
    /\ allChars isBase64Url encoded = true
    /\ String.length encoded
       = ((4 * String.length (marshalU4Data normalized chip) + 2) / 3)%nat.
Proof.
  eexists. split; [reflexivity|]. apply base64_RawURL_Encode_alphabet.
Qed.

Lemma DecodeU4_code n chip :
  validUTF8 chip = true -> onProfile validStrings n = true ->
  onProfile intsInRange n = true ->
  DecodeU4 ("HCS-U4|" ++ base64_RawURL_Encode (marshalU4Data n chip)) = Ok (n, chip).
Proof.
  intros Vc Vn R. unfold DecodeU4.
  change (dropPrefix "HCS-U4|" ("HCS-U4|" ++ base64_RawURL_Encode (marshalU4Data n chip)))
    with (Some (base64_RawURL_Encode (marshalU4Data n chip))).
  cbv iota beta. rewrite base64_RawURL_round_trip.
  rewrite unmarshalU4Data_marshal by assumption. reflexivity.
Qed.

(** X9: EncodeU4 is injective on profiles and chips whose strings are
    valid UTF-8: two different inputs never get the same U4 code. *)
Theorem EncodeU4_injective n1 chip1 n2 chip2 :
  validUTF8 chip1 = true -> onProfile validStrings n1 = true ->
  onProfile intsInRange n1 = true ->
  validUTF8 chip2 = true -> onProfile validStrings n2 = true ->
  onProfile intsInRange n2 = true ->
  EncodeU4 n1 chip1 = EncodeU4 n2 chip2 ->
  n1 = n2 /\ chip1 = chip2.
Proof.
  intros V1 S1 R1 V2 S2 R2 E. unfold EncodeU4 in E. cbv zeta in E.
  apply (f_equal (fun r => match r with Ok c => DecodeU4 c | Err e => Err e end)) in E.
  rewrite !DecodeU4_code in E by assumption.
  injection E as -> ->. split; reflexivity.
Qed.

Lemma EncodeU4_injective_witness :
  Some (NormalizeProfile testInput) = Some (NormalizeProfile testInput)
  /\ "b04edb83f10e" = "b04edb83f10e".
Proof.
  apply (EncodeU4_injective (Some (NormalizeProfile testInput)) "b04edb83f10e"
                            (Some (NormalizeProfile testInput)) "b04edb83f10e");
    vm_compute; reflexivity.
Defined.

(** ** The order of binary64 values *)

Lemma compare_cont_spec m1 m2 :
  CompareSpec (m1 = m2) (m1 < m2)%positive (m2 < m1)%positive
              (PosDef.Pos.compare_cont Eq m1 m2).
Proof. exact (Pos.compare_spec m1 m2). Qed.

Lemma SFcompare_refl_not_Lt a : SFcompare a a <> Some Lt.
Proof.
  destruct a as [s|s| |s m e]; cbn [SFcompare]; try discriminate.
  - destruct s; discriminate.
  - rewrite Z.compare_refl. destruct (compare_cont_spec m m); try lia; destruct s; discriminate.
Qed.

Lemma SFcompare_Lt_trans a b c :
  SFcompare a b = Some Lt -> SFcompare b c = Some Lt -> SFcompare a c = Some Lt.
Proof.
  destruct a as [sa|sa| |sa ma ea], b as [sb|sb| |sb mb eb], c as [sc|sc| |sc mc ec];
    cbn [SFcompare]; try discriminate;
    try (destruct sa; try discriminate); try (destruct sb; try discriminate);
    try (destruct sc; try discriminate); try reflexivity; try discriminate;
    destruct (Z.compare_spec ea eb), (Z.compare_spec eb ec), (Z.compare_spec ea ec);
    try discriminate; try reflexivity; try lia; subst;
    destruct (compare_cont_spec ma mb), (compare_cont_spec mb mc), (compare_cont_spec ma mc);
    cbn [CompOpp]; try discriminate; try reflexivity; try lia.
Qed.

Lemma SFcompare_Lt_Le a b : SFcompare a b = Some Lt -> SFleb a b = true.
Proof. unfold SFleb. intros ->. reflexivity. Qed.

Lemma ltb_irrefl (x : float) : (x <? x)%float = false.
Proof.
  rewrite FloatAxioms.ltb_spec. unfold SFltb.
  pose proof (SFcompare_refl_not_Lt (Prim2SF x)) as H.
  destruct (SFcompare (Prim2SF x) (Prim2SF x)) as [[]|]; congruence.
Qed.

Lemma SFltb_Lt a b : SFltb a b = true <-> SFcompare a b = Some Lt.
Proof. unfold SFltb. destruct (SFcompare a b) as [[]|]; split; congruence. Qed.

Lemma ltb_trans (x y z : float) :
  (x <? y)%float = true -> (y <? z)%float = true -> (x <? z)%float = true.
Proof.
  rewrite !FloatAxioms.ltb_spec. intros H1 H2. apply SFltb_Lt in H1, H2. apply SFltb_Lt.
  exact (SFcompare_Lt_trans _ _ _ H1 H2).
Qed.

Lemma ltb_leb (x y : float) : (x <? y)%float = true -> (x <=? y)%float = true.
Proof.
  rewrite FloatAxioms.ltb_spec, FloatAxioms.leb_spec. intros H. apply SFltb_Lt in H. apply SFcompare_Lt_Le, H.
Qed.

Lemma is_nan_spec (x : float) : PrimFloat.is_nan x = true <-> Prim2SF x = S754_nan.
Proof.
  unfold PrimFloat.is_nan. rewrite FloatAxioms.eqb_spec. unfold SFeqb.
  destruct (Prim2SF x) as [s|s| |s m e]; cbn [SFcompare negb]; try (split; congruence).
  - destruct s; cbn; split; congruence.
  - rewrite Z.compare_refl. destruct (compare_cont_spec m m); try lia; destruct s; cbn; split; congruence.
Qed.

(** Two numbers are comparable: if the first is not below the second, the
    second is at most the first. *)
Lemma nltb_leb (x y : float) :
  PrimFloat.is_nan x = false -> PrimFloat.is_nan y = false ->
  (x <? y)%float = false -> (y <=? x)%float = true.
Proof.
  intros Nx Ny. rewrite FloatAxioms.ltb_spec, FloatAxioms.leb_spec.
  assert (Hx : Prim2SF x <> S754_nan) by (intros E; apply is_nan_spec in E; congruence).
  assert (Hy : Prim2SF y <> S754_nan) by (intros E; apply is_nan_spec in E; congruence).
  unfold SFltb, SFleb.
  destruct (Prim2SF x) as [sa|sa| |sa ma ea], (Prim2SF y) as [sb|sb| |sb mb eb];
    try congruence; cbn [SFcompare];
    try (destruct sa); try (destruct sb); try reflexivity; try discriminate;
    destruct (Z.compare_spec ea eb), (Z.compare_spec eb ea); try lia;
    try reflexivity; try discriminate;
    destruct (compare_cont_spec ma mb), (compare_cont_spec mb ma); try lia;
    cbn [CompOpp]; try reflexivity; try discriminate.
Qed.

(** ** Fusion engine *)

Lemma clampValue_nan x :
  PrimFloat.is_nan x = true -> PrimFloat.is_nan (clampValue x) = true.
Proof.
  intros H. unfold clampValue, math_Min. rewrite H.
  change (PrimFloat.is_nan 1) with false. cbn [orb]. reflexivity.
Qed.

Lemma clampValue_number x :
  PrimFloat.is_nan x = false ->
  inUnit (clampValue x) = true
  /\ ((0 <? x)%float = true -> (x <? 1)%float = true -> clampValue x = x).
Proof.
  intros H. unfold clampValue, math_Min. rewrite H.
  change (PrimFloat.is_nan 1) with false. cbn [orb].
  change (PrimFloat.is_zero 1) with false. cbn [andb].
  destruct (1 <? x)%float eqn:E1.
  - split; [vm_compute; reflexivity|]. intros H0 H1.
    pose proof (ltb_trans _ _ _ H1 E1) as C. rewrite ltb_irrefl in C. discriminate C.
  - destruct (x <? 1)%float eqn:E2.
    + unfold math_Max. rewrite H. change (PrimFloat.is_nan 0) with false. cbn [orb].
      destruct (0 <? x)%float eqn:E3.
      * split; [|reflexivity]. unfold inUnit.
        rewrite (ltb_leb _ _ E3), (ltb_leb _ _ E2). reflexivity.
      * split; [|discriminate].
        destruct (x <? 0)%float; [vm_compute; reflexivity|].
        change (PrimFloat.get_sign 0) with false.
        destruct (PrimFloat.is_zero 0 && PrimFloat.is_zero x); vm_compute; reflexivity.
    + split; [vm_compute; reflexivity|]. discriminate.
Qed.

(** X10: clampValue maps NaN to NaN and every other float into [0, 1],
    and leaves a value strictly between 0 and 1 as it is. *)
Theorem clampValue_range x :
  (PrimFloat.is_nan x = true -> PrimFloat.is_nan (clampValue x) = true)
  /\ (PrimFloat.is_nan x = false -> inUnit (clampValue x) = true)
  /\ ((0 <? x)%float = true -> (x <? 1)%float = true -> clampValue x = x).
Proof.
  split; [apply clampValue_nan|]. split.
  - intros H. apply (clampValue_number x H).
  - intros H0 H1. destruct (PrimFloat.is_nan x) eqn:N.
    + apply is_nan_spec in N. rewrite FloatAxioms.ltb_spec, N in H1. discriminate H1.
    + apply (clampValue_number x N); assumption.
Qed.

Lemma nanOrUnit_clampValue x : nanOrUnit (clampValue x) = true.
Proof.
  unfold nanOrUnit. destruct (PrimFloat.is_nan x) eqn:N.
  - rewrite (clampValue_nan x N). reflexivity.
  - rewrite (proj1 (clampValue_number x N)). apply orb_true_r.
Qed.

Lemma getElementCode_letter w c :
  exists a, getElementCode w c = String a ""
            /\ (((65 <=? byteVal a) && (byteVal a <=? 84)) || (byteVal a =? 88))%N = true.
Proof.
  unfold getElementCode. generalize (w ++ "-" ++ c). intros key.
  unfold elementCodes. cbn [sget].
  repeat match goal with |- context [if ?b then _ else _] => destruct b end;
    eexists; split; reflexivity.
Qed.

Lemma getBalanceCode_digit modal yinYang :
  exists b, getBalanceCode modal yinYang = Some (String b "")
            /\ ((49 <=? byteVal b) && (byteVal b <=? 57))%N = true.
Proof.
  unfold getBalanceCode.
  repeat match goal with |- context [if ?b then _ else _] => destruct b end;
    eexists; split; reflexivity.
Qed.

Lemma generateFusionID_shape ord western chinese :
  exists id, generateFusionID ord western chinese = Some id /\ isFusionID id = true.
Proof.
  unfold generateFusionID.
  destruct (getElementCode_letter (WesternProfile.DominantElement western)
              (getDominantElement ord (ChineseProfile.ElementBalance chinese)))
    as (a & -> & Ha).
  destruct (getBalanceCode_digit (WesternProfile.Modal western)
              (ChineseProfile.YinYangBalance chinese)) as (b & -> & Hb).
  eexists. split; [reflexivity|]. cbn [append isFusionID]. rewrite Ha, Hb. reflexivity.
Qed.

(** X11: BuildFusionProfile never panics, whatever the profiles and the
    orders in which the maps are visited.  The fusion identifier is always
    two characters, a letter from A to T or X and a digit from 1 to 9; the
    rhythm is one of the three names; and each of the ten numeric traits
    (five cognitive, three of tempo, unified balance, harmonic resonance)
    is NaN or lies in [0, 1]. *)
Theorem BuildFusionProfile_invariants o western chinese :
  exists f,
    BuildFusionProfile o western chinese = Some f
    /\ isFusionID (FusionProfile.FusionID f) = true
    /\ In (TempoSignals.Rhythm (FusionProfile.TempoSignals f))
          ["steady"; "dynamic"; "fluctuating"]
    /\ forallb nanOrUnit
         [CognitiveFusion.Analytical (FusionProfile.CognitiveFusion f);
          CognitiveFusion.Creative (FusionProfile.CognitiveFusion f);
          CognitiveFusion.Grounded (FusionProfile.CognitiveFusion f);
          CognitiveFusion.Adaptive (FusionProfile.CognitiveFusion f);
          CognitiveFusion.Expressive (FusionProfile.CognitiveFusion f);
          TempoSignals.Pace (FusionProfile.TempoSignals f);
          TempoSignals.Variability (FusionProfile.TempoSignals f);
          TempoSignals.Intensity (FusionProfile.TempoSignals f);
          FusionProfile.UnifiedBalance f;
          FusionProfile.HarmonicResonance f] = true.
Proof.
  unfold BuildFusionProfile.
  destruct (generateFusionID_shape (ordFusionID o) western chinese) as (id & -> & Hid).
  eexists. split; [reflexivity|]. cbn [obind FusionProfile.FusionID]. split; [exact Hid|].
  split.
  - cbn [FusionProfile.TempoSignals]. unfold buildTempoSignals. cbv zeta.
    cbn [TempoSignals.Rhythm].
    repeat match goal with |- context [if ?b then _ else _] => destruct b end;
      cbn [In]; tauto.
  - cbn [FusionProfile.CognitiveFusion FusionProfile.TempoSignals
         FusionProfile.UnifiedBalance FusionProfile.HarmonicResonance].
    unfold buildCognitiveFusion, buildTempoSignals, calculateUnifiedBalance,
      calculateHarmonicResonance. cbv zeta.
    cbn [CognitiveFusion.Analytical CognitiveFusion.Creative CognitiveFusion.Grounded
         CognitiveFusion.Adaptive CognitiveFusion.Expressive TempoSignals.Pace
         TempoSignals.Variability TempoSignals.Intensity forallb].
    rewrite !nanOrUnit_clampValue. reflexivity.
Qed.

(** X12: the harmonic resonance is never NaN and always lies between 0.5
    and 1: it starts at 0.5 and only gains fixed bonuses, whatever the
    profiles hold (NaN included). *)
Theorem calculateHarmonicResonance_range ord western chinese :
  let r := calculateHarmonicResonance ord western chinese in
  (0.5 <=? r)%float = true /\ (r <=? 1)%float = true.
Proof.
  unfold calculateHarmonicResonance. cbv zeta.
  repeat match goal with |- context [if ?b then _ else _] => destruct b end;
    split; vm_compute; reflexivity.
Qed.

Lemma argmax_invariant m ord : forall seen st,
  ((fst st = "" /\ snd st = 0%float)
   \/ (In (fst st) seen /\ mget m (fst st) = snd st /\ (0 <? snd st)%float = true)) ->
  (forall k, In k seen -> (snd st <? mget m k)%float = false) ->
  let st' := fold_left (argmaxStep m) ord st in
  ((fst st' = "" /\ snd st' = 0%float)
   \/ (In (fst st') (seen ++ ord) /\ mget m (fst st') = snd st'
       /\ (0 <? snd st')%float = true))
  /\ (forall k, In k (seen ++ ord) -> (snd st' <? mget m k)%float = false).
Proof.
  induction ord as [|k ord IH]; intros seen st H1 H2; cbn [fold_left].
  - rewrite app_nil_r. split; assumption.
  - replace (seen ++ k :: ord)%list with ((seen ++ [k]) ++ ord)%list
      by (rewrite <- app_assoc; reflexivity).
    apply IH.
    + unfold argmaxStep. destruct (snd st <? mget m k)%float eqn:E; cbn [fst snd].
      * right. split; [apply in_or_app; right; left; reflexivity|].
        split; [reflexivity|].
        destruct H1 as [[_ Z0] | (_ & _ & P)].
        -- rewrite Z0 in E. exact E.
        -- exact (ltb_trans _ _ _ P E).
      * destruct H1 as [H1 | (I & V & P)]; [left; exact H1 | right].
        split; [apply in_or_app; left; exact I|]. split; assumption.
    + intros k' I. unfold argmaxStep.
      destruct (snd st <? mget m k)%float eqn:E; cbn [fst snd].
      * apply in_app_or in I. destruct I as [I | [<- | []]].
        -- destruct (mget m k <? mget m k')%float eqn:C; [|reflexivity].
           rewrite <- (H2 k' I). symmetry. exact (ltb_trans _ _ _ E C).
        -- apply ltb_irrefl.
      * apply in_app_or in I. destruct I as [I | [<- | []]]; [apply H2, I | exact E].
Qed.

(** X13: the dominant element that GetDominantChineseElement (and
    getDominantElement of the fusion engine, the same loop) returns is,
    for every order in which the map is visited, either the empty name,
    when no visited element has a value above 0, or a visited element
    whose value is above 0 and is exceeded by no visited element. *)
Theorem GetDominantChineseElement_maximal ord cp :
  let balance := ChineseProfile.ElementBalance cp in
  let e := GetDominantChineseElement ord cp in
  e = getDominantElement ord balance
  /\ ((e = "" /\ forall k, In k ord -> (0 <? mget balance k)%float = false)
      \/ (In e ord /\ (0 <? mget balance e)%float = true
          /\ forall k, In k ord -> (mget balance e <? mget balance k)%float = false)).
Proof.
  intros balance e. split; [reflexivity|].
  subst e. unfold GetDominantChineseElement, range_argmax. fold balance.
  destruct (argmax_invariant balance ord [] ("", 0%float)) as [H1 H2].
  - left. split; reflexivity.
  - intros k [].
  - cbn [app] in H1, H2.
    destruct H1 as [[E Z0] | (I & V & P)].
    + left. split; [exact E|]. intros k I. rewrite <- Z0. apply H2, I.
    + right. split; [exact I|]. split; [rewrite V; exact P|].
      intros k Ik. rewrite V. apply H2, Ik.
Qed.

(** ** Bit-packed codec U5: validation and decoding *)

Lemma get_beyond s : forall n, (String.length s <= n)%nat -> String.get n s = None.
Proof.
  induction s as [|c s IH]; intros n L; [reflexivity|].
  destruct n as [|n]; cbn [String.length] in L; [lia|]. cbn [String.get]. apply IH. lia.
Qed.

Lemma get_inside s : forall n, (n < String.length s)%nat -> exists c, String.get n s = Some c.
Proof.
  induction s as [|c s IH]; intros n L; cbn [String.length] in L; [lia|].
  destruct n as [|n]; cbn [String.get]; [eexists; reflexivity | apply IH; lia].
Qed.

Lemma slice_Some s lo hi :
  0 <= lo -> lo <= hi -> hi <= len s ->
  slice s lo hi = Some (substring (Z.to_nat lo) (Z.to_nat (hi - lo)) s).
Proof.
  intros H0 H1 H2. unfold slice, len in *.
  replace ((0 <=? lo) && (lo <=? hi) && (hi <=? Z.of_nat (String.length s)))%Z with true;
    [reflexivity|].
  symmetry. rewrite !andb_true_iff. repeat split; apply Z.leb_le; lia.
Qed.

Lemma slice_range s lo hi t :
  slice s lo hi = Some t ->
  0 <= lo /\ lo <= hi /\ hi <= len s
  /\ t = substring (Z.to_nat lo) (Z.to_nat (hi - lo)) s.
Proof.
  unfold slice, len. destruct ((0 <=? lo) && (lo <=? hi) && (hi <=? _))%Z eqn:E; [|discriminate].
  intros [= <-]. rewrite !andb_true_iff in E. destruct E as [[A B] C].
  apply Z.leb_le in A, B, C. repeat split; assumption.
Qed.

Lemma occursAt_chars code seg j :
  occursAt code seg j
  <-> 0 <= j /\ j + len seg <= len code
      /\ forall p, (p < String.length seg)%nat ->
                   charAt code (j + Z.of_nat p) = String.get p seg.
Proof.
  unfold occursAt. split.
  - intros H. apply slice_range in H. destruct H as (H0 & _ & H2 & E).
    split; [exact H0|]. split; [exact H2|]. intros p Hp.
    unfold charAt. replace (j + Z.of_nat p <? 0)%Z with false by (symmetry; apply Z.ltb_ge; lia).
    rewrite E. unfold len.
    replace (Z.to_nat (j + Z.of_nat (String.length seg) - j)) with (String.length seg) by lia.
    rewrite substring_correct1 by exact Hp. f_equal. lia.
  - intros (H0 & H2 & H). rewrite slice_Some by (unfold len in *; lia). f_equal.
    apply get_correct. intros n. unfold len.
    replace (Z.to_nat (j + Z.of_nat (String.length seg) - j)) with (String.length seg) by lia.
    destruct (Nat.lt_ge_cases n (String.length seg)) as [L|L].
    + rewrite substring_correct1 by exact L. rewrite <- (H n L). unfold charAt.
      replace (j + Z.of_nat n <? 0)%Z with false by (symmetry; apply Z.ltb_ge; lia).
      f_equal. lia.
    + rewrite substring_correct2 by exact L. symmetry. apply get_beyond, L.
Qed.

Lemma occursAtb_spec code seg j : occursAtb code seg j = true <-> occursAt code seg j.
Proof.
  unfold occursAtb, occursAt. destruct (slice code j (j + len seg)) as [t|].
  - rewrite String.eqb_eq. split; congruence.
  - split; discriminate.
Qed.

(** A scan whose windows all lie inside the code does not panic, and
    finds the segment exactly when it occurs in the scanned range. *)
Lemma scanSegment_spec code seg : forall count i,
  0 <= i -> i + Z.of_nat count + len seg <= len code + 1 ->
  exists b, scanSegment code seg i count = Some b
            /\ (b = true <-> exists j, i <= j < i + Z.of_nat count /\ occursAt code seg j).
Proof.
  induction count as [|count IH]; intros i H0 H1.
  - exists false. split; [reflexivity|]. split; [discriminate|]. intros (j & Hj & _). lia.
  - cbn [scanSegment]. assert (0 <= len seg) by (unfold len; lia).
    rewrite slice_Some by lia. cbn [obind].
    destruct (String.eqb_spec (substring (Z.to_nat i) (Z.to_nat (i + len seg - i)) code) seg)
      as [E|E].
    + exists true. split; [reflexivity|]. split; [|reflexivity]. intros _.
      exists i. split; [lia|]. unfold occursAt. rewrite slice_Some by lia. f_equal. exact E.
    + destruct (IH (i + 1)) as (b & Eb & Hb); [lia | lia |].
      exists b. split; [exact Eb|]. rewrite Hb. split.
      * intros (j & Hj & O). exists j. split; [lia | exact O].
      * intros (j & Hj & O). destruct (Z.eq_dec j i) as [->|N].
        -- unfold occursAt in O. rewrite slice_Some in O by lia. congruence.
        -- exists j. split; [lia | exact O].
Qed.

Lemma firstAfter_spec code seg : forall count i,
  0 <= i ->
  let p := firstAfter code seg i count in
  (p = -1 /\ forall j, i <= j < i + Z.of_nat count -> ~ occursAt code seg j)
  \/ (exists j, p = j + len seg /\ i <= j < i + Z.of_nat count /\ occursAt code seg j
                /\ forall j', i <= j' < j -> ~ occursAt code seg j').
Proof.
  induction count as [|count IH]; intros i H0; cbn [firstAfter].
  - left. split; [reflexivity|]. intros j Hj. lia.
  - destruct (occursAtb code seg i) eqn:E.
    + right. exists i. split; [reflexivity|]. split; [lia|].
      split; [apply occursAtb_spec, E|]. intros j' Hj'. lia.
    + assert (N : ~ occursAt code seg i).
      { intros O. apply occursAtb_spec in O. congruence. }
      destruct (IH (i + 1)) as [[P H]|(j & P & Hj & O & F)]; [lia | |].
      * left. split; [exact P|]. intros j Hj. destruct (Z.eq_dec j i) as [->|]; [exact N|].
        apply H. lia.
      * right. exists j. split; [exact P|]. split; [lia|]. split; [exact O|].
        intros j' Hj'. destruct (Z.eq_dec j' i) as [->|]; [exact N|]. apply F. lia.
Qed.

Lemma scanChip_firstAfter code : forall count i,
  0 <= i -> i + Z.of_nat count + 5 <= len code + 1 ->
  scanChip code i count = Some (firstAfter code "CHIP:" i count).
Proof.
  induction count as [|count IH]; intros i H0 H1; [reflexivity|].
  cbn [scanChip firstAfter]. unfold occursAtb. change (len "CHIP:") with 5.
  rewrite slice_Some by lia. cbn [obind].
  destruct (_ =? "CHIP:")%string; [reflexivity|]. apply IH; lia.
Qed.

Lemma markerStep_upd code w c f i :
  0 <= i -> i + 2 <= len code ->
  markerStep code (w, c, f) i
  = Some (markerUpd code "W:" w i, markerUpd code "C:" c i, markerUpd code "F:" f i).
Proof.
  intros H0 H1. unfold markerStep, markerUpd, occursAtb.
  change (len "W:") with 2. change (len "C:") with 2. change (len "F:") with 2.
  rewrite slice_Some by lia. cbn [obind].
  set (t := substring (Z.to_nat i) (Z.to_nat (i + 2 - i)) code).
  destruct (String.eqb_spec t "W:") as [Ew|Ew].
  - rewrite Ew. cbn [String.eqb Ascii.eqb Bool.eqb andb].
    destruct (w =? -1)%Z; reflexivity.
  - destruct (String.eqb_spec t "C:") as [Ec|Ec].
    + rewrite Ec. cbn [String.eqb Ascii.eqb Bool.eqb andb].
      destruct (c =? -1)%Z; reflexivity.
    + destruct (String.eqb_spec t "F:") as [Ef|Ef]; cbn [andb]; [|reflexivity].
      destruct (f =? -1)%Z; reflexivity.
Qed.

Lemma markerPos_step code seg held i count :
  0 <= i ->
  markerPos code seg held i (S count)
  = markerPos code seg (markerUpd code seg held i) (i + 1) count.
Proof.
  intros H0. unfold markerPos, markerUpd. cbn [firstAfter].
  assert (0 <= len seg) by (unfold len; lia).
  destruct (Z.eqb_spec held (-1)) as [E|E].
  - destruct (occursAtb code seg i); cbn [andb].
    + destruct (Z.eqb_spec (i + len seg) (-1)); [lia | reflexivity].
    + destruct (Z.eqb_spec held (-1)); [reflexivity | contradiction].
  - rewrite andb_false_r. destruct (Z.eqb_spec held (-1)); [contradiction | reflexivity].
Qed.

Lemma scanMarkers_firstAfter code : forall count i w c f,
  0 <= i -> i + Z.of_nat count + 2 <= len code + 1 ->
  scanMarkers code (w, c, f) i count
  = Some (markerPos code "W:" w i count, markerPos code "C:" c i count,
          markerPos code "F:" f i count).
Proof.
  induction count as [|count IH]; intros i w c f H0 H1.
  - unfold markerPos. cbn [scanMarkers firstAfter].
    destruct (Z.eqb_spec w (-1)), (Z.eqb_spec c (-1)), (Z.eqb_spec f (-1)); congruence.
  - cbn [scanMarkers]. rewrite markerStep_upd by lia. cbn [obind].
    rewrite IH by lia. rewrite !markerPos_step by lia. reflexivity.
Qed.

Lemma charAt_range s j c : charAt s j = Some c -> 0 <= j < len s.
Proof.
  unfold charAt, len. destruct (Z.ltb_spec j 0) as [L|L]; [discriminate|]. intros E.
  destruct (Nat.lt_ge_cases (Z.to_nat j) (String.length s)) as [L'|L']; [lia|].
  rewrite get_beyond in E by exact L'. discriminate.
Qed.

Lemma occursAt_nil code j : occursAt code "" j <-> 0 <= j <= len code.
Proof.
  rewrite occursAt_chars. change (len "") with 0. cbn [String.length]. split.
  - intros (A & B & _). lia.
  - intros [A B]. split; [lia|]. split; [lia|]. intros p Hp. lia.
Qed.

Lemma occursAt_cons code a seg j :
  occursAt code (String a seg) j <-> charAt code j = Some a /\ occursAt code seg (j + 1).
Proof.
  rewrite !occursAt_chars. unfold len. cbn [String.length]. split.
  - intros (A & B & H). split; [|split; [lia | split; [lia|]]].
    + rewrite <- (Z.add_0_r j). apply (H 0%nat). lia.
    + intros p Hp. replace (j + 1 + Z.of_nat p) with (j + Z.of_nat (S p)) by lia.
      rewrite H by lia. reflexivity.
  - intros (C & A & B & H). apply charAt_range in C as R. unfold len in R.
    split; [lia|]. split; [lia|]. intros [|p] Hp.
    + rewrite Z.add_0_r. exact C.
    + cbn [String.get]. rewrite <- H by lia. f_equal. lia.
Qed.

Ltac chars_of H :=
  repeat (let C := fresh "C" in
          apply occursAt_cons in H; destruct H as [C H];
          rewrite ?Z.add_0_r, <- ?Z.add_assoc in C, H; cbn [Z.add Pos.add Pos.succ] in C, H).

Lemma checkSegments_spec code : forall segs,
  (forall seg, In seg segs -> len seg <= len code) ->
  exists b, checkSegments code segs = Some b
            /\ (b = true <-> forall seg, In seg segs ->
                  exists j, 0 <= j < len code - len seg /\ occursAt code seg j).
Proof.
  induction segs as [|seg segs IH]; intros L.
  - exists true. split; [reflexivity|]. split; [intros _ seg []|reflexivity].
  - cbn [checkSegments].
    assert (Ls : len seg <= len code) by (apply L; left; reflexivity).
    destruct (scanSegment_spec code seg (Z.to_nat (len code - len seg)) 0) as (b & Eb & Hb);
      [lia | lia |].
    rewrite Eb. cbn [obind]. destruct b; cbn [negb].
    + destruct IH as (b & E & H); [intros s Hs; apply L; right; exact Hs|].
      exists b. split; [exact E|]. rewrite H. split.
      * intros A s [<-|Hs]; [|apply A, Hs].
        destruct (proj1 Hb eq_refl) as (j & Hj & O). exists j. split; [lia | exact O].
      * intros A s Hs. apply A. right. exact Hs.
    + exists false. split; [reflexivity|]. split; [discriminate|]. intros A.
      destruct (A seg (or_introl eq_refl)) as (j & Hj & O).
      apply Hb. exists j. split; [lia | exact O].
Qed.

Lemma ValidateU5Format_spec code :
  exists b, ValidateU5Format code = Some b
            /\ (b = true <->
                30 <= len code /\ occursAt code "HCS-U5|" 0
                /\ forall seg, In seg u5Segments ->
                     exists j, 0 <= j < len code - len seg /\ occursAt code seg j).
Proof.
  unfold ValidateU5Format. destruct (Z.ltb_spec (len code) 30) as [L|L].
  - exists false. split; [reflexivity|]. split; [discriminate|]. intros (A & _). lia.
  - destruct (Z.ltb_spec (len code) 7) as [L7|L7]; [lia|].
    rewrite slice_Some by lia. cbn [obind].
    destruct (String.eqb_spec (substring (Z.to_nat 0) (Z.to_nat (7 - 0)) code) "HCS-U5|")
      as [E|E]; cbn [negb].
    + destruct (checkSegments_spec code u5Segments) as (b & Eb & Hb).
      { intros seg [<-|[<-|[<-|[<-|[]]]]]; cbn; lia. }
      exists b. split; [exact Eb|]. rewrite Hb. split.
      * intros A. split; [exact L|]. split; [|exact A].
        unfold occursAt. change (0 + len "HCS-U5|") with 7.
        rewrite slice_Some by lia. f_equal. exact E.
      * intros (_ & _ & A). exact A.
    + exists false. split; [reflexivity|]. split; [discriminate|]. intros (_ & O & _).
      unfold occursAt in O. change (0 + len "HCS-U5|") with 7 in O.
      rewrite slice_Some in O by lia. congruence.
Qed.

Lemma firstAfter_found code seg i count p :
  0 <= i -> firstAfter code seg i count = p -> 0 < p ->
  exists j, p = j + len seg /\ i <= j < i + Z.of_nat count /\ occursAt code seg j
            /\ forall j', i <= j' < j -> ~ occursAt code seg j'.
Proof.
  intros H0 E P. destruct (firstAfter_spec code seg count i H0) as [[A _]|A].
  - lia.
  - rewrite E in A. exact A.
Qed.

Lemma sget_sset_same m k v : sget (sset m k v) k = Some v.
Proof.
  induction m as [|[k' v'] m IH]; cbn [sset sget].
  - rewrite String.eqb_refl. reflexivity.
  - destruct (String.eqb_spec k' k) as [E|E]; cbn [sget].
    + rewrite String.eqb_refl. reflexivity.
    + destruct (String.eqb_spec k' k); [contradiction | exact IH].
Qed.

Lemma sget_sset_other m k k' v : k <> k' -> sget (sset m k v) k' = sget m k'.
Proof.
  intros N. induction m as [|[a b] m IH]; cbn [sset sget].
  - destruct (String.eqb_spec k k'); [contradiction | reflexivity].
  - destruct (String.eqb_spec a k) as [E|E]; cbn [sget].
    + subst a. destruct (String.eqb_spec k k'); [contradiction | reflexivity].
    + destruct (String.eqb_spec a k'); [reflexivity | exact IH].
Qed.

(** The slice after a marker is in range when the next marker was found
    later: the validated code has the next marker after a bar. *)
Lemma U5_pair_in_range code (a b : ascii) ja jb :
  b <> ":"%char ->
  (exists j, 0 <= j < len code - 3 /\ occursAt code (String "|" (String b ":")) j) ->
  occursAt code (String a ":") ja -> occursAt code (String b ":") jb ->
  (forall j', 0 <= j' < jb -> ~ occursAt code (String b ":") j') ->
  0 <= ja -> ja < jb -> jb < len code - 2 ->
  ja + 6 <= len code.
Proof.
  intros Nb (j & Hj & Oj) Oa Ob F H0 H1 H2.
  chars_of Oa. chars_of Ob.
  destruct (Z.eq_dec jb (ja + 1)) as [->|N1]; [congruence|].
  destruct (Z.le_gt_cases (ja + 6) (len code)) as [L|L]; [exact L|exfalso].
  assert (jb = len code - 3) by lia. assert (ja = len code - 5) by lia.
  apply occursAt_cons in Oj. destruct Oj as [Cj Oj].
  destruct (Z.lt_ge_cases (j + 1) jb) as [B|B]; [apply (F (j + 1)); [lia | exact Oj]|].
  assert (j = ja + 1) by lia. subst j. congruence.
Qed.

Lemma U5_fusion_in_range code jf jp :
  occursAt code "F:" jf -> occursAt code "CHIP:" jp ->
  0 <= jf -> jf + 2 < jp + 5 -> jp < len code - 5 ->
  jf + 6 <= len code.
Proof.
  intros Of Op H0 H1 H2. chars_of Of. chars_of Op.
  destruct (Z.eq_dec jf jp) as [->|N0]; [congruence|].
  destruct (Z.eq_dec jf (jp + 1)) as [->|N1]; [congruence|].
  destruct (Z.eq_dec jf (jp + 2)) as [->|N2]; [congruence|].
  destruct (Z.eq_dec (jf + 1) jp) as [<-|N3]; [congruence|].
  lia.
Qed.

Lemma extract_step code (m : smap) (cond : bool) lo n key :
  key <> "fusionId" -> 0 <= n ->
  (cond = true -> 0 <= lo /\ lo + n <= len code) ->
  exists m',
    (if cond then let? t := slice code lo (lo + n) in Some (sset m key t) else Some m)
    = Some m'
    /\ sget m' "fusionId" = sget m "fusionId".
Proof.
  intros K N R. destruct cond.
  - destruct (R eq_refl) as [A B]. rewrite slice_Some by lia. cbn [obind].
    eexists. split; [reflexivity|]. apply sget_sset_other, K.
  - exists m. split; reflexivity.
Qed.

Lemma DecodeU5_cases code :
  (ValidateU5Format code = Some false
   /\ DecodeU5 code = Some (Err "invalid HCS-U5 format"))
  \/ (ValidateU5Format code = Some true
      /\ exists m, DecodeU5 code = Some (Ok m) /\ sget m "fusionId" = slice code 7 9).
Proof.
  unfold DecodeU5.
  destruct (ValidateU5Format_spec code) as (b & Eb & Hb). rewrite Eb. cbn [obind].
  destruct b; cbn [negb]; [right | left; split; reflexivity].
  split; [reflexivity|].
  destruct (proj1 Hb eq_refl) as (L & _ & Segs).
  rewrite (slice_Some code 7 9) by lia. cbn [obind].
  rewrite scanMarkers_firstAfter by lia. cbn [obind].
  rewrite scanChip_firstAfter by lia. cbn [obind].
  unfold markerPos. cbn [Z.eqb Pos.eqb].
  set (n2 := Z.to_nat (len code - 2)). set (n5 := Z.to_nat (len code - 5)).
  set (fid := substring (Z.to_nat 7) (Z.to_nat (9 - 7)) code).
  remember (firstAfter code "W:" 0 n2) as wPos eqn:Ew.
  remember (firstAfter code "C:" 0 n2) as cPos eqn:Ec.
  remember (firstAfter code "F:" 0 n2) as fPos eqn:Ef.
  remember (firstAfter code "CHIP:" 0 n5) as chipPos eqn:Ep.
  symmetry in Ew, Ec, Ef, Ep.
  assert (SC : exists j, 0 <= j < len code - 3 /\ occursAt code "|C:" j).
  { apply (Segs "|C:"). cbn. tauto. }
  assert (SF : exists j, 0 <= j < len code - 3 /\ occursAt code "|F:" j).
  { apply (Segs "|F:"). cbn. tauto. }
  destruct (extract_step code (sset [] "fusionId" fid)
              ((0 <? wPos) && (wPos <? cPos))%Z wPos 4 "western")
    as (m1 & E1 & G1); [discriminate | lia | |].
  { intros C. apply andb_true_iff in C. destruct C as [A B].
    apply Z.ltb_lt in A, B.
    apply firstAfter_found in Ew; [| lia | lia]. destruct Ew as (ja & Pa & Ra & Oa & _).
    apply firstAfter_found in Ec; [| lia | lia]. destruct Ec as (jb & Pb & Rb & Ob & Fb).
    change (len "W:") with 2 in Pa. change (len "C:") with 2 in Pb.
    pose proof (U5_pair_in_range code "W" "C" ja jb ltac:(discriminate) SC Oa Ob Fb).
    lia. }
  rewrite E1. cbn [obind].
  destruct (extract_step code m1
              ((0 <? cPos) && (cPos <? fPos))%Z cPos 4 "chinese")
    as (m2 & E2 & G2); [discriminate | lia | |].
  { intros C. apply andb_true_iff in C. destruct C as [A B].
    apply Z.ltb_lt in A, B.
    apply firstAfter_found in Ec; [| lia | lia]. destruct Ec as (ja & Pa & Ra & Oa & _).
    apply firstAfter_found in Ef; [| lia | lia]. destruct Ef as (jb & Pb & Rb & Ob & Fb).
    change (len "C:") with 2 in Pa. change (len "F:") with 2 in Pb.
    pose proof (U5_pair_in_range code "C" "F" ja jb ltac:(discriminate) SF Oa Ob Fb).
    lia. }
  rewrite E2. cbn [obind].
  destruct (extract_step code m2
              ((0 <? fPos) && (fPos <? chipPos))%Z fPos 4 "fusion")
    as (m3 & E3 & G3); [discriminate | lia | |].
  { intros C. apply andb_true_iff in C. destruct C as [A B].
    apply Z.ltb_lt in A, B.
    apply firstAfter_found in Ef; [| lia | lia]. destruct Ef as (ja & Pa & Ra & Oa & _).
    apply firstAfter_found in Ep; [| lia | lia]. destruct Ep as (jb & Pb & Rb & Ob & Fb).
    change (len "F:") with 2 in Pa. change (len "CHIP:") with 5 in Pb.
    pose proof (U5_fusion_in_range code ja jb Oa Ob).
    lia. }
  rewrite E3. cbn [obind].
  destruct (extract_step code m3
              ((0 <? chipPos) && (chipPos + 12 <=? len code))%Z chipPos 12 "chip")
    as (m4 & E4 & G4); [discriminate | lia | |].
  { intros C. apply andb_true_iff in C. destruct C as [A B].
    apply Z.ltb_lt in A. apply Z.leb_le in B. lia. }
  rewrite E4. cbn [obind].
  exists m4. split; [reflexivity|].
  rewrite G4, G3, G2, G1. apply sget_sset_same.
Qed.

Lemma firstAfter_unique code seg i count j :
  0 <= i -> i <= j < i + Z.of_nat count -> occursAt code seg j ->
  (forall j', i <= j' < j -> ~ occursAt code seg j') ->
  firstAfter code seg i count = j + len seg.
Proof.
  intros H0 R O F. destruct (firstAfter_spec code seg count i H0) as [[_ N]|(k & P & Rk & Ok & Fk)].
  - exfalso. exact (N j R O).
  - rewrite P. f_equal.
    destruct (Z.lt_trichotomy k j) as [L|[E|L]]; [|exact E|].
    + exfalso. apply (F k); [lia | exact Ok].
    + exfalso. apply (Fk j); [lia | exact O].
Qed.

Lemma isLowerHex_not_colon c : isLowerHex c = true -> c <> ":"%char.
Proof. intros H ->. discriminate H. Qed.

Ltac no_occurrence :=
  let j := fresh "j" in let R := fresh "R" in let O := fresh "O" in
  intros j R O; chars_of O;
  let k := fresh "k" in
  remember (Z.to_nat j) as k eqn:Ek;
  assert (Ej : j = Z.of_nat k) by lia; clear Ek; subst j;
  repeat (destruct k as [|k];
          [ solve [ repeat match goal with
                           | H : charAt _ _ = Some _ |- _ =>
                               vm_compute in H; first [discriminate H | injection H as H]
                           end; congruence ] |]);
  lia.

Section U5Chars.
Variables a b w1 w2 w3 w4 c1 c2 c3 c4 f1 f2 f3 f4 : ascii.
Variable chip : string.
Hypothesis HW : String a (String b "") <> "W:".
Hypothesis HC : String a (String b "") <> "C:".
Hypothesis HF : String a (String b "") <> "F:".
Hypothesis Hw1 : w1 <> ":"%char.
Hypothesis Hw2 : w2 <> ":"%char.
Hypothesis Hw3 : w3 <> ":"%char.
Hypothesis Hw4 : w4 <> ":"%char.
Hypothesis Hc1 : c1 <> ":"%char.
Hypothesis Hc2 : c2 <> ":"%char.
Hypothesis Hc3 : c3 <> ":"%char.
Hypothesis Hc4 : c4 <> ":"%char.
Hypothesis Hf1 : f1 <> ":"%char.
Hypothesis Hf2 : f2 <> ":"%char.
Hypothesis Hf3 : f3 <> ":"%char.
Hypothesis Hf4 : f4 <> ":"%char.
Hypothesis Hchip : String.length chip = 12%nat.

Local Abbreviation fid := (String a (String b "")).
Local Abbreviation w := (String w1 (String w2 (String w3 (String w4 "")))).
Local Abbreviation c := (String c1 (String c2 (String c3 (String c4 "")))).
Local Abbreviation f := (String f1 (String f2 (String f3 (String f4 "")))).
Local Abbreviation code := (u5Code fid w c f chip).

Lemma u5Code_len : len code = 48.
Proof.
  unfold len, u5Code. cbn [append String.length]. rewrite Hchip. reflexivity.
Qed.

Lemma u5Code_head :
  code = String "H" (String "C" (String "S" (String "-" (String "U" (String "5"
         (String "|" (String a (String b (String "|" (String "W" (String ":"
         (String w1 (String w2 (String w3 (String w4 (String "|" (String "C"
         (String ":" (String c1 (String c2 (String c3 (String c4 (String "|"
         (String "F" (String ":" (String f1 (String f2 (String f3 (String f4
         (String "|" (String "C" (String "H" (String "I" (String "P" (String ":"
         chip))))))))))))))))))))))))))))))))))).
Proof. reflexivity. Qed.

Lemma u5Code_occurs seg j pre post :
  code = pre ++ seg ++ post -> j = len pre -> occursAt code seg j.
Proof.
  intros E ->. unfold occursAt. rewrite E. unfold len.
  rewrite slice_Some; unfold len; rewrite ?append_length; try lia.
  f_equal. replace (Z.to_nat (Z.of_nat (String.length pre))) with (String.length pre) by lia.
  replace (Z.to_nat _) with (String.length seg) by lia.
  clear. induction pre as [|x pre IH]; cbn [append String.length substring].
  - revert post. induction seg as [|y seg IH]; intros post; cbn [append String.length substring].
    + destruct post; reflexivity.
    + f_equal. apply IH.
  - exact IH.
Qed.

Lemma u5Code_W : firstAfter code "W:" 0 (Z.to_nat (len code - 2)) = 12.
Proof.
  rewrite u5Code_len.
  apply (firstAfter_unique code "W:" 0 _ 10); [lia | lia | |].
  - apply (u5Code_occurs "W:" 10 ("HCS-U5|" ++ fid ++ "|") (w ++ "|C:" ++ c ++ "|F:" ++ f ++ "|CHIP:" ++ chip));
      reflexivity.
  - rewrite u5Code_head. no_occurrence.
Qed.

Lemma u5Code_C : firstAfter code "C:" 0 (Z.to_nat (len code - 2)) = 19.
Proof.
  rewrite u5Code_len.
  apply (firstAfter_unique code "C:" 0 _ 17); [lia | lia | |].
  - apply (u5Code_occurs "C:" 17 ("HCS-U5|" ++ fid ++ "|W:" ++ w ++ "|") (c ++ "|F:" ++ f ++ "|CHIP:" ++ chip));
      reflexivity.
  - rewrite u5Code_head. no_occurrence.
Qed.

Lemma u5Code_F : firstAfter code "F:" 0 (Z.to_nat (len code - 2)) = 26.
Proof.
  rewrite u5Code_len.
  apply (firstAfter_unique code "F:" 0 _ 24); [lia | lia | |].
  - apply (u5Code_occurs "F:" 24 ("HCS-U5|" ++ fid ++ "|W:" ++ w ++ "|C:" ++ c ++ "|") (f ++ "|CHIP:" ++ chip));
      reflexivity.
  - rewrite u5Code_head. no_occurrence.
Qed.

Lemma u5Code_CHIP : firstAfter code "CHIP:" 0 (Z.to_nat (len code - 5)) = 36.
Proof.
  rewrite u5Code_len.
  apply (firstAfter_unique code "CHIP:" 0 _ 31); [lia | lia | |].
  - apply (u5Code_occurs "CHIP:" 31
             ("HCS-U5|" ++ fid ++ "|W:" ++ w ++ "|C:" ++ c ++ "|F:" ++ f ++ "|") chip);
      reflexivity.
  - rewrite u5Code_head. no_occurrence.
Qed.

Lemma u5Code_valid : ValidateU5Format code = Some true.
Proof.
  destruct (ValidateU5Format_spec code) as (v & Ev & Hv). rewrite Ev. f_equal.
  apply Hv. rewrite u5Code_len. split; [lia|]. split.
  - apply (u5Code_occurs "HCS-U5|" 0 ""
             (fid ++ "|W:" ++ w ++ "|C:" ++ c ++ "|F:" ++ f ++ "|CHIP:" ++ chip));
      reflexivity.
  - intros seg [<-|[<-|[<-|[<-|[]]]]].
    + exists 9. split; [cbn; lia|].
      apply (u5Code_occurs "|W:" 9 ("HCS-U5|" ++ fid)
               (w ++ "|C:" ++ c ++ "|F:" ++ f ++ "|CHIP:" ++ chip)); reflexivity.
    + exists 16. split; [cbn; lia|].
      apply (u5Code_occurs "|C:" 16 ("HCS-U5|" ++ fid ++ "|W:" ++ w)
               (c ++ "|F:" ++ f ++ "|CHIP:" ++ chip)); reflexivity.
    + exists 23. split; [cbn; lia|].
      apply (u5Code_occurs "|F:" 23 ("HCS-U5|" ++ fid ++ "|W:" ++ w ++ "|C:" ++ c)
               (f ++ "|CHIP:" ++ chip)); reflexivity.
    + exists 30. split; [cbn; lia|].
      apply (u5Code_occurs "|CHIP:" 30
               ("HCS-U5|" ++ fid ++ "|W:" ++ w ++ "|C:" ++ c ++ "|F:" ++ f) chip);
        reflexivity.
Qed.

Lemma u5Code_chip_slice : slice code 36 (36 + 12) = Some chip.
Proof.
  assert (O : occursAt code chip 36).
  { apply (u5Code_occurs chip 36
             ("HCS-U5|" ++ fid ++ "|W:" ++ w ++ "|C:" ++ c ++ "|F:" ++ f ++ "|CHIP:") "").
    - unfold u5Code. rewrite append_nil_r_s. reflexivity.
    - reflexivity. }
  unfold occursAt, len in O. rewrite Hchip in O. exact O.
Qed.

Lemma u5Code_decode :
  DecodeU5 code
  = Some (Ok [("fusionId", fid); ("western", w); ("chinese", c); ("fusion", f);
              ("chip", chip)]).
Proof.
  unfold DecodeU5. rewrite u5Code_valid. cbn [obind negb].
  rewrite (slice_Some code 7 9) by (rewrite ?u5Code_len; lia).
  cbn [obind].
  rewrite scanMarkers_firstAfter by (rewrite ?u5Code_len; lia). cbn [obind].
  rewrite scanChip_firstAfter by (rewrite ?u5Code_len; lia). cbn [obind].
  unfold markerPos. cbn [Z.eqb Pos.eqb].
  rewrite u5Code_W, u5Code_C, u5Code_F, u5Code_CHIP.
  rewrite u5Code_len. cbn [Z.ltb Z.leb Z.compare Pos.compare Pos.compare_cont Z.add Pos.add
                          Pos.succ Pos.add_carry andb].
  rewrite (slice_Some code 12 16) by (rewrite ?u5Code_len; lia). cbn [obind].
  rewrite (slice_Some code 19 23) by (rewrite ?u5Code_len; lia). cbn [obind].
  rewrite (slice_Some code 26 30) by (rewrite ?u5Code_len; lia). cbn [obind].
  change 48 with (36 + 12). rewrite u5Code_chip_slice. cbn [obind].
  rewrite u5Code_head. reflexivity.
Qed.

End U5Chars.

Lemma hex4_chars w :
  isLowerHexOfLength 4 w = true ->
  exists w1 w2 w3 w4,
    w = String w1 (String w2 (String w3 (String w4 "")))
    /\ w1 <> ":"%char /\ w2 <> ":"%char /\ w3 <> ":"%char /\ w4 <> ":"%char.
Proof.
  unfold isLowerHexOfLength. intros H. apply andb_true_iff in H. destruct H as [L A].
  destruct w as [|w1 [|w2 [|w3 [|w4 [|? ?]]]]]; try discriminate L.
  cbn [allChars] in A.
  repeat (apply andb_true_iff in A; let B := fresh "B" in destruct A as [B A]).
  exists w1, w2, w3, w4. split; [reflexivity|].
  repeat split; apply isLowerHex_not_colon; assumption.
Qed.

Lemma DecodeU5_u5Code fid w c f chip :
  String.length fid = 2%nat -> fid <> "W:" -> fid <> "C:" -> fid <> "F:" ->
  isLowerHexOfLength 4 w = true -> isLowerHexOfLength 4 c = true ->
  isLowerHexOfLength 4 f = true -> String.length chip = 12%nat ->
  ValidateU5Format (u5Code fid w c f chip) = Some true
  /\ DecodeU5 (u5Code fid w c f chip)
     = Some (Ok [("fusionId", fid); ("western", w); ("chinese", c); ("fusion", f);
                 ("chip", chip)]).
Proof.
  intros Lf HW HC HF Hw Hc Hf Lc.
  destruct fid as [|a [|b [|? ?]]]; try discriminate Lf.
  destruct (hex4_chars w Hw) as (w1 & w2 & w3 & w4 & -> & ? & ? & ? & ?).
  destruct (hex4_chars c Hc) as (c1 & c2 & c3 & c4 & -> & ? & ? & ? & ?).
  destruct (hex4_chars f Hf) as (f1 & f2 & f3 & f4 & -> & ? & ? & ? & ?).
  split.
  - apply u5Code_valid; assumption.
  - apply u5Code_decode; assumption.
Qed.

(** X14: ValidateU5Format never panics.  It accepts exactly the codes of at
    least 30 bytes that start with HCS-U5| and in which each of the four
    markers |W:, |C:, |F: and |CHIP: occurs somewhere followed by at least
    one more byte, in any order and any number of times. *)
Theorem ValidateU5Format_accepts code :
  ValidateU5Format code <> None
  /\ (ValidateU5Format code = Some true
      <-> 30 <= len code /\ slice code 0 7 = Some "HCS-U5|"
          /\ forall seg, In seg ["|W:"; "|C:"; "|F:"; "|CHIP:"] ->
               exists j, 0 <= j /\ j + len seg < len code
                         /\ slice code j (j + len seg) = Some seg).
Proof.
  destruct (ValidateU5Format_spec code) as (b & Eb & Hb). rewrite Eb.
  split; [discriminate|]. split.
  - intros [= ->]. destruct (proj1 Hb eq_refl) as (L & P & S).
    split; [exact L|]. split; [exact P|]. intros seg Hs.
    destruct (S seg Hs) as (j & Hj & O). exists j. split; [lia|]. split; [lia | exact O].
  - intros (L & P & S). f_equal. apply Hb. split; [exact L|]. split; [exact P|].
    intros seg Hs. destruct (S seg Hs) as (j & H0 & H1 & O). exists j.
    split; [lia | exact O].
Qed.

(** X15: DecodeU5 never panics, whatever the string: none of its slices
    is out of range.  It returns the error exactly when ValidateU5Format
    rejects the code, and otherwise a map whose fusionId is the bytes 7
    and 8 of the code. *)
Theorem DecodeU5_never_panics code :
  (ValidateU5Format code = Some false
   /\ DecodeU5 code = Some (Err "invalid HCS-U5 format"))
  \/ (ValidateU5Format code = Some true
      /\ exists m, DecodeU5 code = Some (Ok m) /\ sget m "fusionId" = slice code 7 9).
Proof. exact (DecodeU5_cases code). Qed.

(** X16: a code in the documented format, with a two-byte fusion
    identifier that is none of W:, C: and F:, three words of four
    lower-case hexadecimal digits and a CHIP of twelve bytes, passes
    ValidateU5Format, and DecodeU5 returns exactly its five components. *)
Theorem DecodeU5_well_formed fid w c f chip :
  String.length fid = 2%nat -> fid <> "W:" -> fid <> "C:" -> fid <> "F:" ->
  isLowerHexOfLength 4 w = true -> isLowerHexOfLength 4 c = true ->
  isLowerHexOfLength 4 f = true -> String.length chip = 12%nat ->
  let code := "HCS-U5|" ++ fid ++ "|W:" ++ w ++ "|C:" ++ c ++ "|F:" ++ f ++ "|CHIP:" ++ chip in
  ValidateU5Format code = Some true
  /\ DecodeU5 code
     = Some (Ok [("fusionId", fid); ("western", w); ("chinese", c); ("fusion", f);
                 ("chip", chip)]).
Proof. intros. apply DecodeU5_u5Code; assumption. Qed.

Lemma DecodeU5_well_formed_witness :
  let code := "HCS-U5|" ++ "A5" ++ "|W:" ++ "88b5" ++ "|C:" ++ "6dd8" ++ "|F:" ++ "36dd"
              ++ "|CHIP:" ++ "73616c746461" in
  ValidateU5Format code = Some true
  /\ DecodeU5 code
     = Some (Ok [("fusionId", "A5"); ("western", "88b5"); ("chinese", "6dd8");
                 ("fusion", "36dd"); ("chip", "73616c746461")]).
Proof.
  apply (DecodeU5_well_formed "A5" "88b5" "6dd8" "36dd" "73616c746461");
    first [reflexivity | discriminate].
Defined.

Lemma hexDigits4_hex n : isLowerHexOfLength 4 (hexDigits4 n) = true.
Proof.
  unfold isLowerHexOfLength, hexDigits4. cbn [String.length Nat.eqb allChars andb].
  rewrite !isLowerHex_hexDigit by (apply N.mod_upper_bound; discriminate). reflexivity.
Qed.

Lemma compressWesternProfile_hex western :
  isLowerHexOfLength 4 (compressWesternProfile western) = true.
Proof. unfold compressWesternProfile. cbv zeta. apply hexDigits4_hex. Qed.

Lemma compressChineseProfile_hex o1 o2 chinese :
  isLowerHexOfLength 4 (compressChineseProfile o1 o2 chinese) = true.
Proof. unfold compressChineseProfile. cbv zeta. apply hexDigits4_hex. Qed.

Lemma compressFusionProfile_hex o1 o2 fusion :
  isLowerHexOfLength 4 (compressFusionProfile o1 o2 fusion) = true.
Proof. unfold compressFusionProfile. cbv zeta. apply hexDigits4_hex. Qed.

Lemma EncodeU5_decodes (sha256 : string -> string) describeProfiles o western chinese
      fusion salt :
  (forall x, String.length (sha256 x) = 32%nat) ->
  let id := FusionProfile.FusionID fusion in
  id <> "W:" -> id <> "C:" -> id <> "F:" ->
  exists code,
    EncodeU5 sha256 describeProfiles o western chinese fusion salt = Ok code
    /\ ValidateU5Format code = Some true
    /\ DecodeU5 code
       = Some (Ok [("fusionId", if Nat.eqb (String.length id) 2 then id else "XX");
                   ("western", compressWesternProfile western);
                   ("chinese",
                    compressChineseProfile (ordDominant o) (ordDistribution o) chinese);
                   ("fusion", compressFusionProfile (ordPrimary o) (ordSecondary o) fusion);
                   ("chip",
                    takeBytes 12
                      (hex_EncodeToString
                         (sha256 (salt ++ describeProfiles western chinese fusion))))]).
Proof.
  intros H id HW HC HF. unfold EncodeU5, generateU5Chip. cbv zeta. fold id.
  eexists. split; [reflexivity|].
  set (fid := if negb (Nat.eqb (String.length id) 2) then "XX" else id).
  assert (Efid : (if Nat.eqb (String.length id) 2 then id else "XX") = fid).
  { unfold fid. destruct (Nat.eqb (String.length id) 2); reflexivity. }
  rewrite Efid.
  apply (DecodeU5_u5Code fid).
  - unfold fid. destruct (Nat.eqb_spec (String.length id) 2) as [E|E]; cbn [negb];
      [exact E | reflexivity].
  - unfold fid. destruct (Nat.eqb (String.length id) 2); cbn [negb];
      [exact HW | discriminate].
  - unfold fid. destruct (Nat.eqb (String.length id) 2); cbn [negb];
      [exact HC | discriminate].
  - unfold fid. destruct (Nat.eqb (String.length id) 2); cbn [negb];
      [exact HF | discriminate].
  - apply compressWesternProfile_hex.
  - apply compressChineseProfile_hex.
  - apply compressFusionProfile_hex.
  - apply takeBytes_length. rewrite hex_EncodeToString_length, H. lia.
Qed.

(** X17: with a hash function of 32-byte digests, EncodeU5 never fails,
    and unless the fusion identifier is one of W:, C: and F: its code
    passes ValidateU5Format and DecodeU5 gives back the identifier that
    was printed (XX if the profile's is not two bytes long), the three
    compressed words and the twelve-digit CHIP. *)
Theorem DecodeU5_EncodeU5 (sha256 : string -> string) describeProfiles o western chinese
      fusion salt :
  (forall x, String.length (sha256 x) = 32%nat) ->
  let id := FusionProfile.FusionID fusion in
  id <> "W:" -> id <> "C:" -> id <> "F:" ->
  exists code,
    EncodeU5 sha256 describeProfiles o western chinese fusion salt = Ok code
    /\ ValidateU5Format code = Some true
    /\ DecodeU5 code
       = Some (Ok [("fusionId", if Nat.eqb (String.length id) 2 then id else "XX");
                   ("western", compressWesternProfile western);
                   ("chinese",
                    compressChineseProfile (ordDominant o) (ordDistribution o) chinese);
                   ("fusion", compressFusionProfile (ordPrimary o) (ordSecondary o) fusion);
                   ("chip",
                    takeBytes 12
                      (hex_EncodeToString
                         (sha256 (salt ++ describeProfiles western chinese fusion))))]).
Proof. exact (EncodeU5_decodes sha256 describeProfiles o western chinese fusion salt). Qed.

Lemma isFusionID_no_marker id :
  isFusionID id = true ->
  String.length id = 2%nat /\ id <> "W:" /\ id <> "C:" /\ id <> "F:".
Proof.
  intros H. destruct id as [|a [|b [|? ?]]]; try discriminate H.
  split; [reflexivity|].
  repeat split; intros [= -> ->]; discriminate H.
Qed.

(** X18: the fusion profile that BuildFusionProfile builds for two
    profiles always encodes, and DecodeU5 gives its fusion identifier
    back: the XX fallback of EncodeU5 is never taken for it, whatever the
    profiles and the orders in which the maps are visited. *)
Theorem DecodeU5_EncodeU5_built (sha256 : string -> string) describeProfiles fo o western
      chinese salt :
  (forall x, String.length (sha256 x) = 32%nat) ->
  exists fusion code m,
    BuildFusionProfile fo western chinese = Some fusion
    /\ EncodeU5 sha256 describeProfiles o western chinese fusion salt = Ok code
    /\ ValidateU5Format code = Some true
    /\ DecodeU5 code = Some (Ok m)
    /\ sget m "fusionId" = Some (FusionProfile.FusionID fusion)
    /\ sget m "western" = Some (compressWesternProfile western)
    /\ sget m "chinese"
       = Some (compressChineseProfile (ordDominant o) (ordDistribution o) chinese)
    /\ sget m "fusion"
       = Some (compressFusionProfile (ordPrimary o) (ordSecondary o) fusion)
    /\ option_map (isLowerHexOfLength 12) (sget m "chip") = Some true.
Proof.
  intros H. unfold BuildFusionProfile.
  destruct (generateFusionID_shape (ordFusionID fo) western chinese) as (id & -> & Hid).
  cbn [obind]. eexists. 
  destruct (isFusionID_no_marker id Hid) as (L & HW & HC & HF).
  match goal with
  | |- exists code m, Some ?f = Some _ /\ _ =>
      destruct (EncodeU5_decodes sha256 describeProfiles o western chinese f salt H)
        as (code & E & V & D); [exact HW | exact HC | exact HF |]
  end.
  cbn [FusionProfile.FusionID] in D. rewrite L in D. cbn [Nat.eqb] in D.
  exists code. eexists. split; [reflexivity|]. split; [exact E|]. split; [exact V|].
  split; [exact D|]. cbn [FusionProfile.FusionID].
  repeat split.
  cbn [sget String.eqb Ascii.eqb Bool.eqb option_map]. f_equal.
  unfold isLowerHexOfLength.
  rewrite takeBytes_length by (rewrite hex_EncodeToString_length, H; lia).
  rewrite allChars_takeBytes by apply allChars_hex_EncodeToString. reflexivity.
Qed.

Lemma DecodeU5_EncodeU5_witness :
  exists code,
    EncodeU5 prefixDigest sampleDescribe sampleU5Orders sampleWestern sampleChinese
      sampleFusion "salt" = Ok code
    /\ ValidateU5Format code = Some true
    /\ DecodeU5 code
       = Some (Ok [("fusionId",
                    if Nat.eqb (String.length (FusionProfile.FusionID sampleFusion)) 2
                    then FusionProfile.FusionID sampleFusion else "XX");
                   ("western", compressWesternProfile sampleWestern);
                   ("chinese",
                    compressChineseProfile (ordDominant sampleU5Orders)
                      (ordDistribution sampleU5Orders) sampleChinese);
                   ("fusion",
                    compressFusionProfile (ordPrimary sampleU5Orders)
                      (ordSecondary sampleU5Orders) sampleFusion);
                   ("chip",
                    takeBytes 12
                      (hex_EncodeToString
                         (prefixDigest
                            ("salt" ++ sampleDescribe sampleWestern sampleChinese
                                         sampleFusion))))]).
Proof.
  apply (DecodeU5_EncodeU5 prefixDigest sampleDescribe sampleU5Orders sampleWestern
           sampleChinese sampleFusion "salt").
  - exact prefixDigest_length.
  - discriminate.
  - discriminate.
  - discriminate.
Defined.

Lemma DecodeU5_EncodeU5_built_witness :
  exists fusion code m,
    BuildFusionProfile sampleFusionOrders sampleWestern sampleChinese = Some fusion
    /\ EncodeU5 prefixDigest sampleDescribe sampleU5Orders sampleWestern sampleChinese
         fusion "salt" = Ok code
    /\ ValidateU5Format code = Some true
    /\ DecodeU5 code = Some (Ok m)
    /\ sget m "fusionId" = Some (FusionProfile.FusionID fusion)
    /\ sget m "western" = Some (compressWesternProfile sampleWestern)
    /\ sget m "chinese"
       = Some (compressChineseProfile (ordDominant sampleU5Orders)
                 (ordDistribution sampleU5Orders) sampleChinese)
    /\ sget m "fusion"
       = Some (compressFusionProfile (ordPrimary sampleU5Orders)
                 (ordSecondary sampleU5Orders) fusion)
    /\ option_map (isLowerHexOfLength 12) (sget m "chip") = Some true.
Proof.
  apply (DecodeU5_EncodeU5_built prefixDigest sampleDescribe sampleFusionOrders
           sampleU5Orders sampleWestern sampleChinese "salt").
  exact prefixDigest_length.
Defined.

Lemma DecodeU5_marker_id w c f chip :
  isLowerHexOfLength 4 w = true -> isLowerHexOfLength 4 c = true ->
  isLowerHexOfLength 4 f = true -> String.length chip = 12%nat ->
  ValidateU5Format (u5Code "W:" w c f chip) = Some true
  /\ DecodeU5 (u5Code "W:" w c f chip)
     = Some (Ok [("fusionId", "W:"); ("western", "|W:" ++ takeBytes 1 w); ("chinese", c);
                 ("fusion", f); ("chip", chip)]).
Proof.
  intros Hw Hc Hf Lc.
  destruct (hex4_chars w Hw) as (w1 & w2 & w3 & w4 & -> & ? & ? & ? & ?).
  destruct (hex4_chars c Hc) as (c1 & c2 & c3 & c4 & -> & ? & ? & ? & ?).
  destruct (hex4_chars f Hf) as (f1 & f2 & f3 & f4 & -> & ? & ? & ? & ?).
  pose proof (u5Code_len "W" ":" w1 w2 w3 w4 c1 c2 c3 c4 f1 f2 f3 f4 chip Lc) as Hl.
  pose proof (u5Code_valid "W" ":" w1 w2 w3 w4 c1 c2 c3 c4 f1 f2 f3 f4 chip Lc) as Hv.
  split; [exact Hv|].
  unfold DecodeU5. rewrite Hv. cbn [obind negb].
  rewrite (slice_Some _ 7 9) by (rewrite ?Hl; lia). cbn [obind].
  rewrite scanMarkers_firstAfter by (rewrite ?Hl; lia). cbn [obind].
  rewrite scanChip_firstAfter by (rewrite ?Hl; lia). cbn [obind].
  unfold markerPos. cbn [Z.eqb Pos.eqb].
  rewrite u5Code_C, u5Code_F, u5Code_CHIP by (assumption || discriminate).
  assert (FW : firstAfter (u5Code "W:" (String w1 (String w2 (String w3 (String w4 ""))))
                             (String c1 (String c2 (String c3 (String c4 ""))))
                             (String f1 (String f2 (String f3 (String f4 "")))) chip)
                 "W:" 0 (Z.to_nat (len (u5Code "W:"
                             (String w1 (String w2 (String w3 (String w4 ""))))
                             (String c1 (String c2 (String c3 (String c4 ""))))
                             (String f1 (String f2 (String f3 (String f4 "")))) chip) - 2))
               = 9).
  { rewrite Hl. apply (firstAfter_unique _ "W:" 0 _ 7); [lia | lia | |].
    { apply (u5Code_occurs "W" ":" w1 w2 w3 w4 c1 c2 c3 c4 f1 f2 f3 f4 chip Lc "W:" 7
               "HCS-U5|"
               ("|W:" ++ String w1 (String w2 (String w3 (String w4 "")))
                ++ "|C:" ++ String c1 (String c2 (String c3 (String c4 "")))
                ++ "|F:" ++ String f1 (String f2 (String f3 (String f4 "")))
                ++ "|CHIP:" ++ chip)); reflexivity. }
    rewrite (u5Code_head "W" ":" w1 w2 w3 w4 c1 c2 c3 c4 f1 f2 f3 f4 chip).
    no_occurrence. }
  rewrite FW, Hl.
  cbn [Z.ltb Z.leb Z.compare Pos.compare Pos.compare_cont Z.add Pos.add
       Pos.succ Pos.add_carry andb].
  rewrite (slice_Some _ 9 13) by (rewrite ?Hl; lia). cbn [obind].
  rewrite (slice_Some _ 19 23) by (rewrite ?Hl; lia). cbn [obind].
  rewrite (slice_Some _ 26 30) by (rewrite ?Hl; lia). cbn [obind].
  change 48 with (36 + 12).
  rewrite (u5Code_chip_slice "W" ":" w1 w2 w3 w4 c1 c2 c3 c4 f1 f2 f3 f4 chip Lc).
  cbn [obind].
  rewrite (u5Code_head "W" ":" w1 w2 w3 w4 c1 c2 c3 c4 f1 f2 f3 f4 chip). reflexivity.
Qed.

(** X19: the decoder looks for the first W: anywhere in the code, so a
    fusion identifier that reads W: derails it: EncodeU5 prints the
    identifier as it is, the code passes ValidateU5Format, and DecodeU5
    returns as the western word the marker |W: and the first digit of the
    word instead of the word. *)
Theorem DecodeU5_EncodeU5_marker_id (sha256 : string -> string) describeProfiles o western
      chinese fusion salt :
  (forall x, String.length (sha256 x) = 32%nat) ->
  FusionProfile.FusionID fusion = "W:" ->
  exists code m,
    EncodeU5 sha256 describeProfiles o western chinese fusion salt = Ok code
    /\ ValidateU5Format code = Some true
    /\ DecodeU5 code = Some (Ok m)
    /\ sget m "western" = Some ("|W:" ++ takeBytes 1 (compressWesternProfile western))
    /\ sget m "western" <> Some (compressWesternProfile western).
Proof.
  intros H Hid. unfold EncodeU5, generateU5Chip. cbv zeta. rewrite Hid.
  cbn [String.length Nat.eqb negb].
  eexists. eexists. split; [reflexivity|].
  match goal with
  | |- ValidateU5Format ?code = _ /\ _ =>
      destruct (DecodeU5_marker_id (compressWesternProfile western)
                  (compressChineseProfile (ordDominant o) (ordDistribution o) chinese)
                  (compressFusionProfile (ordPrimary o) (ordSecondary o) fusion)
                  (takeBytes 12
                     (hex_EncodeToString
                        (sha256 (salt ++ describeProfiles western chinese fusion)))))
        as [V D]
  end.
  - apply compressWesternProfile_hex.
  - apply compressChineseProfile_hex.
  - apply compressFusionProfile_hex.
  - apply takeBytes_length. rewrite hex_EncodeToString_length, H. lia.
  - split; [exact V|]. split; [exact D|].
    cbn [sget String.eqb Ascii.eqb Bool.eqb]. split; [reflexivity|].
    destruct (hex4_chars _ (compressWesternProfile_hex western))
      as (w1 & w2 & w3 & w4 & -> & N1 & N2 & N3 & N4).
    cbn [takeBytes append]. intros [= E1 E2 E3]. apply N3. symmetry. exact E3.
Qed.

Lemma DecodeU5_EncodeU5_marker_id_witness :
  exists code m,
    EncodeU5 prefixDigest sampleDescribe sampleU5Orders sampleWestern sampleChinese
      sampleMarkerFusion "salt" = Ok code
    /\ ValidateU5Format code = Some true
    /\ DecodeU5 code = Some (Ok m)
    /\ sget m "western"
       = Some ("|W:" ++ takeBytes 1 (compressWesternProfile sampleWestern))
    /\ sget m "western" <> Some (compressWesternProfile sampleWestern).
Proof.
  apply (DecodeU5_EncodeU5_marker_id prefixDigest sampleDescribe sampleU5Orders
           sampleWestern sampleChinese sampleMarkerFusion "salt").
  - exact prefixDigest_length.
  - reflexivity.
Defined.

(** ** The four pillars: month and hour, polarities *)

Lemma index_out_of_range {A} (table : list A) i :
  i < 0 \/ Z.of_nat (List.length table) <= i -> index table i = None.
Proof.
  intros H. unfold index. destruct (Z.ltb_spec i 0) as [L|L]; [reflexivity|].
  apply nth_error_None. lia.
Qed.

Lemma stem_polarity s :
  0 <= s < 10 ->
  exists st, index HeavenlyStems s = Some st /\ Stem.YinYang st = polarityOf s.
Proof.
  intros H.
  assert (C : s = 0 \/ s = 1 \/ s = 2 \/ s = 3 \/ s = 4 \/ s = 5 \/ s = 6 \/ s = 7
              \/ s = 8 \/ s = 9) by lia.
  repeat (destruct C as [-> | C]); try subst s; eexists; split; reflexivity.
Qed.

Lemma branch_polarity b :
  0 <= b < 12 ->
  exists br, index EarthlyBranches b = Some br /\ Branch.YinYang br = polarityOf b.
Proof.
  intros H.
  assert (C : b = 0 \/ b = 1 \/ b = 2 \/ b = 3 \/ b = 4 \/ b = 5 \/ b = 6 \/ b = 7
              \/ b = 8 \/ b = 9 \/ b = 10 \/ b = 11) by lia.
  repeat (destruct C as [-> | C]); try subst b; eexists; split; reflexivity.
Qed.

Lemma mkPillar_polarity s b :
  0 <= s < 10 -> 0 <= b < 12 ->
  exists p, mkPillar s b = Some p
            /\ Pillar.StemIndex p = s /\ Pillar.BranchIndex p = b
            /\ Pillar_GetYinYang p = Some (polarityOf s)
            /\ Pillar_branchYinYang p = Some (polarityOf b).
Proof.
  intros Hs Hb. unfold mkPillar, Pillar_GetYinYang, Pillar_branchYinYang.
  destruct (stem_polarity s Hs) as (st & Es & Ps).
  destruct (branch_polarity b Hb) as (br & Eb & Pb).
  rewrite Es, Eb. cbn [obind]. eexists. split; [reflexivity|].
  cbn [Pillar.StemIndex Pillar.BranchIndex]. rewrite Es, Eb. cbn [obind].
  rewrite Ps, Pb. repeat split.
Qed.

Lemma even_mod d n : 0 < n -> Z.even n = true -> Z.even (d mod n) = Z.even d.
Proof.
  intros Hn En. rewrite (Z.div_mod d n) at 2 by lia.
  rewrite Z.even_add, Z.even_mul, En. cbn [orb]. destruct (Z.even (d mod n)); reflexivity.
Qed.

Lemma rem_nonneg_mod a n : 0 <= a -> 0 < n -> Z.rem a n = a mod n.
Proof. intros. apply Z.rem_mod_nonneg; lia. Qed.

Lemma polarityOf_even i j : Z.even i = Z.even j -> polarityOf i = polarityOf j.
Proof. unfold polarityOf. intros ->. reflexivity. Qed.

Lemma polarityOf_odd i j : Z.even i = negb (Z.even j) -> polarityOf i <> polarityOf j.
Proof. unfold polarityOf. intros ->. destruct (Z.even j); discriminate. Qed.

Lemma polarityOf_cases i : polarityOf i = "Yang" \/ polarityOf i = "Yin".
Proof. unfold polarityOf. destruct (Z.even i); [left | right]; reflexivity. Qed.

Lemma ComputeYearPillar_polarity year :
  exists p a, ComputeYearPillar year = Some p
              /\ 0 <= Pillar.StemIndex p < 10
              /\ Pillar_GetYinYang p = Some a /\ Pillar_branchYinYang p = Some a
              /\ (a = "Yang" \/ a = "Yin").
Proof.
  unfold ComputeYearPillar. cbv zeta. rewrite !nonNegRem_mod by lia.
  set (d := wrap64 (year - 1924)).
  destruct (mkPillar_polarity (d mod 10) (d mod 12)) as (p & E & Es & Eb & Ps & Pb);
    [apply Z.mod_pos_bound; lia | apply Z.mod_pos_bound; lia |].
  exists p, (polarityOf (d mod 10)). split; [exact E|].
  split; [rewrite Es; apply Z.mod_pos_bound; lia|]. split; [exact Ps|].
  split; [|apply polarityOf_cases].
  rewrite Pb. f_equal. apply polarityOf_even. rewrite !even_mod by (lia || reflexivity).
  reflexivity.
Qed.

Lemma ComputeDayPillar_polarity year month day :
  exists p a, ComputeDayPillar year month day = Some p
              /\ 0 <= Pillar.StemIndex p < 10
              /\ Pillar_GetYinYang p = Some a /\ Pillar_branchYinYang p = Some a
              /\ (a = "Yang" \/ a = "Yin").
Proof.
  unfold ComputeDayPillar. cbv zeta. rewrite !nonNegRem_mod by lia.
  set (d := daysSinceRef year month day).
  destruct (mkPillar_polarity (d mod 10) (d mod 12)) as (p & E & Es & Eb & Ps & Pb);
    [apply Z.mod_pos_bound; lia | apply Z.mod_pos_bound; lia |].
  exists p, (polarityOf (d mod 10)). split; [exact E|].
  split; [rewrite Es; apply Z.mod_pos_bound; lia|]. split; [exact Ps|].
  split; [|apply polarityOf_cases].
  rewrite Pb. f_equal. apply polarityOf_even. rewrite !even_mod by (lia || reflexivity).
  reflexivity.
Qed.

Lemma ComputeHourPillar_polarity dayPillar hour :
  0 <= Pillar.StemIndex dayPillar < 10 -> 0 <= hour <= 23 ->
  exists p a, ComputeHourPillar dayPillar hour = Some p
              /\ Pillar_GetYinYang p = Some a /\ Pillar_branchYinYang p = Some a
              /\ (a = "Yang" \/ a = "Yin").
Proof.
  intros Hs Hh. unfold ComputeHourPillar. cbv zeta.
  rewrite (wrap64_small (hour + 1)) by (unfold minInt64, maxInt64; lia).
  assert (Hq : 0 <= Z.quot (hour + 1) 2 <= 12).
  { rewrite Z.quot_div_nonneg by lia. Z.div_mod_to_equations. lia. }
  rewrite (rem_nonneg_mod (Z.quot (hour + 1) 2) 12) by lia.
  rewrite (rem_nonneg_mod (Pillar.StemIndex dayPillar) 5) by lia.
  set (b := Z.quot (hour + 1) 2 mod 12).
  set (k := Pillar.StemIndex dayPillar mod 5).
  assert (Hb : 0 <= b < 12) by (apply Z.mod_pos_bound; lia).
  assert (Hk : 0 <= k < 5) by (apply Z.mod_pos_bound; lia).
  rewrite (wrap64_small (k * 2)) by (unfold minInt64, maxInt64; lia).
  rewrite wrap64_small by (unfold minInt64, maxInt64; lia).
  rewrite rem_nonneg_mod by lia.
  destruct (mkPillar_polarity ((k * 2 + b) mod 10) b) as (p & E & Es & Eb & Ps & Pb);
    [apply Z.mod_pos_bound; lia | exact Hb |].
  exists p, (polarityOf b). split; [exact E|].
  split; [|split; [exact Pb | apply polarityOf_cases]].
  rewrite Ps. f_equal. apply polarityOf_even. rewrite even_mod by (lia || reflexivity).
  rewrite Z.even_add, Z.even_mul. cbn. rewrite orb_true_r. destruct (Z.even b); reflexivity.
Qed.

Lemma ComputeMonthPillar_indices year month day :
  1 <= month <= 12 ->
  exists yp p,
    ComputeYearPillar year = Some yp
    /\ ComputeMonthPillar year month day = Some p
    /\ Pillar.StemIndex p = (2 * Pillar.StemIndex yp + month) mod 10
    /\ Pillar.BranchIndex p = (month + 1) mod 12
    /\ Pillar_GetYinYang p = Some (polarityOf month)
    /\ Pillar_branchYinYang p = Some (polarityOf (month + 1)).
Proof.
  intros Hm. unfold ComputeMonthPillar.
  destruct (ComputeYearPillar_polarity year) as (yp & a & Ey & Hys & _).
  rewrite Ey. cbn [obind]. exists yp.
  rewrite (wrap64_small (month - 1)) by (unfold minInt64, maxInt64; lia).
  assert (Eb : index MonthBranchMapping (month - 1) = Some ((month + 1) mod 12)).
  { assert (C : month = 1 \/ month = 2 \/ month = 3 \/ month = 4 \/ month = 5 \/ month = 6
                \/ month = 7 \/ month = 8 \/ month = 9 \/ month = 10 \/ month = 11
                \/ month = 12) by lia.
    repeat (destruct C as [-> | C]); try subst month; reflexivity. }
  rewrite Eb. cbn [obind].
  rewrite (wrap64_small (Pillar.StemIndex yp * 2)) by (unfold minInt64, maxInt64; lia).
  rewrite wrap64_small by (unfold minInt64, maxInt64; lia).
  rewrite rem_nonneg_mod by lia.
  replace (Pillar.StemIndex yp * 2 + month) with (2 * Pillar.StemIndex yp + month) by lia.
  destruct (mkPillar_polarity ((2 * Pillar.StemIndex yp + month) mod 10) ((month + 1) mod 12))
    as (p & E & Es & Ebr & Ps & Pb);
    [apply Z.mod_pos_bound; lia | apply Z.mod_pos_bound; lia |].
  exists p. split; [reflexivity|]. split; [exact E|]. split; [exact Es|].
  split; [exact Ebr|]. split.
  - rewrite Ps. f_equal. apply polarityOf_even. rewrite even_mod by (lia || reflexivity).
    rewrite Z.even_add, Z.even_mul. cbn. destruct (Z.even month); reflexivity.
  - rewrite Pb. f_equal. apply polarityOf_even. rewrite even_mod by (lia || reflexivity).
    reflexivity.
Qed.

(** X20: for a month that an int holds, ComputeMonthPillar panics exactly
    when the month is outside 1..12 (the lookup in MonthBranchMapping is out
    of range).  Inside the range the branch is the one (month + 1) mod 12 and the
    stem the one (2 * year stem + month) mod 10, whatever the year and the
    day. *)
Theorem ComputeMonthPillar_defined_iff year month day :
  minInt64 <= month <= maxInt64 ->
  (ComputeMonthPillar year month day = None <-> month < 1 \/ 12 < month)
  /\ (1 <= month <= 12 ->
      exists yp p,
        ComputeYearPillar year = Some yp
        /\ ComputeMonthPillar year month day = Some p
        /\ Pillar.StemIndex p = (2 * Pillar.StemIndex yp + month) mod 10
        /\ Pillar.BranchIndex p = (month + 1) mod 12).
Proof.
  intros Hi. split.
  - split.
    + intros E. destruct (Z.lt_ge_cases month 1) as [L|L]; [left; exact L|].
      destruct (Z.lt_ge_cases 12 month) as [G|G]; [right; exact G|]. exfalso.
      destruct (ComputeMonthPillar_indices year month day) as (yp & p & _ & Ep & _); [lia|].
      congruence.
    + intros H. unfold ComputeMonthPillar.
      destruct (ComputeYearPillar_polarity year) as (yp & a & -> & _). cbn [obind].
      rewrite index_out_of_range; [reflexivity|].
      change (Z.of_nat (List.length MonthBranchMapping)) with 12.
      unfold wrap64, minInt64, maxInt64 in *.
      destruct (Z.eq_dec month (- 2 ^ 63)) as [->|N].
      * right. vm_compute. discriminate.
      * rewrite Z.mod_small by lia. lia.
  - intros Hm. destruct (ComputeMonthPillar_indices year month day Hm)
      as (yp & p & Ey & Ep & Es & Eb & _).
    exists yp, p. repeat split; assumption.
Qed.

Lemma ComputeMonthPillar_defined_iff_witness :
  (ComputeMonthPillar 1990 5 1 = None <-> 5 < 1 \/ 12 < 5)
  /\ (1 <= 5 <= 12 ->
      exists yp p,
        ComputeYearPillar 1990 = Some yp
        /\ ComputeMonthPillar 1990 5 1 = Some p
        /\ Pillar.StemIndex p = (2 * Pillar.StemIndex yp + 5) mod 10
        /\ Pillar.BranchIndex p = (5 + 1) mod 12).
Proof.
  apply (ComputeMonthPillar_defined_iff 1990 5 1). unfold minInt64, maxInt64. lia.
Defined.

(** X21: whatever the date and the hour of the day, the year, day and
    hour pillars pair a stem and a branch of the same polarity, as the
    sixty pairs of the cycle do, and the month pillar always pairs a stem
    and a branch of opposite polarities. *)
Theorem four_pillars_polarity year month day hour :
  1 <= month <= 12 -> 0 <= hour <= 23 ->
  exists yp mp dp hp,
    ComputeYearPillar year = Some yp
    /\ ComputeMonthPillar year month day = Some mp
    /\ ComputeDayPillar year month day = Some dp
    /\ ComputeHourPillar dp hour = Some hp
    /\ (exists a, Pillar_GetYinYang yp = Some a /\ Pillar_branchYinYang yp = Some a)
    /\ (exists a, Pillar_GetYinYang dp = Some a /\ Pillar_branchYinYang dp = Some a)
    /\ (exists a, Pillar_GetYinYang hp = Some a /\ Pillar_branchYinYang hp = Some a)
    /\ (exists a b, Pillar_GetYinYang mp = Some a /\ Pillar_branchYinYang mp = Some b
                    /\ a <> b).
Proof.
  intros Hm Hh.
  destruct (ComputeYearPillar_polarity year) as (yp & ya & Ey & _ & Pys & Pyb & _).
  destruct (ComputeMonthPillar_indices year month day Hm)
    as (yp' & mp & _ & Em & _ & _ & Pms & Pmb).
  destruct (ComputeDayPillar_polarity year month day) as (dp & da & Ed & Hds & Pds & Pdb & _).
  destruct (ComputeHourPillar_polarity dp hour Hds Hh) as (hp & ha & Eh & Phs & Phb & _).
  exists yp, mp, dp, hp. repeat (split; [assumption|]).
  split; [exists ya; split; assumption|].
  split; [exists da; split; assumption|].
  split; [exists ha; split; assumption|].
  exists (polarityOf month), (polarityOf (month + 1)). split; [exact Pms|].
  split; [exact Pmb|]. apply polarityOf_odd.
  rewrite Z.even_add. cbn. destruct (Z.even month); reflexivity.
Qed.

Lemma four_pillars_polarity_witness :
  exists yp mp dp hp,
    ComputeYearPillar 1990 = Some yp
    /\ ComputeMonthPillar 1990 5 15 = Some mp
    /\ ComputeDayPillar 1990 5 15 = Some dp
    /\ ComputeHourPillar dp 14 = Some hp
    /\ (exists a, Pillar_GetYinYang yp = Some a /\ Pillar_branchYinYang yp = Some a)
    /\ (exists a, Pillar_GetYinYang dp = Some a /\ Pillar_branchYinYang dp = Some a)
    /\ (exists a, Pillar_GetYinYang hp = Some a /\ Pillar_branchYinYang hp = Some a)
    /\ (exists a b, Pillar_GetYinYang mp = Some a /\ Pillar_branchYinYang mp = Some b
                    /\ a <> b).
Proof. apply (four_pillars_polarity 1990 5 15 14); lia. Defined.

Lemma pillar_polarity_inv p a b :
  Pillar_GetYinYang p = Some a -> Pillar_branchYinYang p = Some b ->
  exists st br,
    index HeavenlyStems (Pillar.StemIndex p) = Some st
    /\ index EarthlyBranches (Pillar.BranchIndex p) = Some br
    /\ Stem.YinYang st = a /\ Branch.YinYang br = b.
Proof.
  unfold Pillar_GetYinYang, Pillar_branchYinYang.
  destruct (index HeavenlyStems (Pillar.StemIndex p)) as [st|]; [|discriminate].
  destruct (index EarthlyBranches (Pillar.BranchIndex p)) as [br|]; [|discriminate].
  cbn [obind]. intros [= <-] [= <-]. exists st, br. repeat split.
Qed.

Lemma countYang_step p rest yang total a b :
  Pillar_GetYinYang p = Some a -> Pillar_branchYinYang p = Some b ->
  countYang (yang, total) (p :: rest)
  = countYang
      (let y := if (a =? "Yang")%string then (yang + 1.0)%float else yang in
       if (b =? "Yang")%string then (y + 0.5)%float else y,
       (total + 1.0 + 0.5)%float) rest.
Proof.
  intros Ha Hb. destruct (pillar_polarity_inv p a b Ha Hb) as (st & br & Es & Eb & <- & <-).
  cbn [countYang]. rewrite Es. cbn [obind]. rewrite Eb. cbn [obind]. reflexivity.
Qed.

Lemma ComputeChineseProfile_balances (Zone : Type) (LoadLocation : string -> option Zone)
      (zoneWallClock : Zone -> Z -> Z) ord info :
  birthInfoInRange info ->
  exists cp,
    ComputeChineseProfile Zone LoadLocation zoneWallClock ord info = Some (Ok cp)
    /\ In (ChineseProfile.YinYangBalance cp) yinYangBalances.
Proof.
  intros Hr.
  destruct (ComputeChineseProfile_ok Zone LoadLocation zoneWallClock ord info Hr) as (cp & E).
  exists cp. split; [exact E|].
  unfold ComputeChineseProfile in E. rewrite (validateBirthInfo_ok info Hr) in E.
  set (civil := secondsToCivil _) in E.
  destruct (secondsToCivil_ranges
              (wallClock Zone zoneWallClock
                 (resolveLocation Zone LoadLocation (BirthInfo.Timezone info))
                 (dateToSeconds (BirthInfo.Year info) (BirthInfo.Month info)
                    (BirthInfo.Day info) (BirthInfo.Hour info) (BirthInfo.Minute info))))
    as [Hm Hh].
  fold civil in Hm, Hh.
  destruct (ComputeYearPillar_polarity (Civil.Year civil))
    as (yp & ya & Ey & _ & Pys & Pyb & Cy).
  destruct (ComputeMonthPillar_indices (Civil.Year civil) (Civil.Month civil)
              (Civil.Day civil) Hm) as (yp' & mp & _ & Em & _ & _ & Pms & Pmb).
  destruct (ComputeDayPillar_polarity (Civil.Year civil) (Civil.Month civil)
              (Civil.Day civil)) as (dp & da & Ed & Hds & Pds & Pdb & Cd).
  destruct (ComputeHourPillar_polarity dp (Civil.Hour civil) Hds Hh)
    as (hp & ha & Eh & Phs & Phb & Ch).
  rewrite Ey, Em, Ed in E. cbn [obind] in E. rewrite Eh in E. cbn [obind] in E.
  destruct (CalculateElementBalance ord [yp; mp; dp; hp]) as [m|]; [|discriminate E].
  cbn [obind] in E. unfold CalculateYinYangBalance in E.
  rewrite (countYang_step yp _ _ _ ya ya Pys Pyb) in E.
  rewrite (countYang_step mp _ _ _ _ _ Pms Pmb) in E.
  rewrite (countYang_step dp _ _ _ da da Pds Pdb) in E.
  rewrite (countYang_step hp _ _ _ ha ha Phs Phb) in E.
  cbn [countYang obind] in E.
  destruct (GetDayMaster dp) as [dm|]; [|discriminate E]. cbn [obind] in E.
  destruct (GetDayMasterStrength [yp; mp; dp; hp] dp) as [s|]; [|discriminate E].
  cbn [obind] in E.
  apply (f_equal (fun r => match r with
                           | Some (Ok c) => ChineseProfile.YinYangBalance c
                           | _ => 0%float
                           end)) in E.
  cbn beta iota in E. cbn [ChineseProfile.YinYangBalance] in E. rewrite <- E. clear E.
  unfold polarityOf. rewrite Z.even_add. change (Z.even 1) with false.
  destruct (Z.even (Civil.Month civil));
    destruct Cy as [-> | ->]; destruct Cd as [-> | ->]; destruct Ch as [-> | ->];
    vm_compute; repeat (first [left; reflexivity | right]).
Qed.

(** X22: for birth data in the validated ranges, whatever the time zone
    database answers, the Yin/Yang balance of the computed profile is one
    of eight values, k/6 for k in 0.5, 1, 2, 2.5, 3.5, 4, 5, 5.5: the
    month pillar always adds one Yang and one Yin sign.  So the balance is
    never 0 (pure Yin), never 1 (pure Yang) and never exactly one half. *)
Theorem ComputeChineseProfile_yinYangBalance (Zone : Type)
      (LoadLocation : string -> option Zone) (zoneWallClock : Zone -> Z -> Z) ord info :
  birthInfoInRange info ->
  exists cp,
    ComputeChineseProfile Zone LoadLocation zoneWallClock ord info = Some (Ok cp)
    /\ In (ChineseProfile.YinYangBalance cp) yinYangBalances
    /\ (0.08 <? ChineseProfile.YinYangBalance cp)%float = true
    /\ (ChineseProfile.YinYangBalance cp <? 0.92)%float = true
    /\ (ChineseProfile.YinYangBalance cp =? 0.5)%float = false.
Proof.
  intros Hr.
  destruct (ComputeChineseProfile_balances Zone LoadLocation zoneWallClock ord info Hr)
    as (cp & E & H).
  exists cp. split; [exact E|]. split; [exact H|].
  unfold yinYangBalances in H. cbn [In] in H.
  repeat (destruct H as [<- | H]; [repeat split; vm_compute; reflexivity|]).
  destruct H.
Qed.

Lemma ComputeChineseProfile_yinYangBalance_witness :
  exists cp,
    ComputeChineseProfile unit noZones (fun _ s => s) elementNames sampleBirthInfo
    = Some (Ok cp)
    /\ In (ChineseProfile.YinYangBalance cp) yinYangBalances
    /\ (0.08 <? ChineseProfile.YinYangBalance cp)%float = true
    /\ (ChineseProfile.YinYangBalance cp <? 0.92)%float = true
    /\ (ChineseProfile.YinYangBalance cp =? 0.5)%float = false.
Proof.
  apply (ComputeChineseProfile_yinYangBalance unit noZones (fun _ s => s) elementNames
           sampleBirthInfo).
  unfold birthInfoInRange, sampleBirthInfo. simpl. lia.
Defined.

(** ** The generator: validation *)

Lemma ltb_nleb (x y : float) : (x <? y)%float = true -> (y <=? x)%float = false.
Proof.
  rewrite FloatAxioms.ltb_spec, FloatAxioms.leb_spec. unfold SFltb, SFleb.
  destruct (Prim2SF x) as [sa|sa| |sa ma ea], (Prim2SF y) as [sb|sb| |sb mb eb];
    cbn [SFcompare];
    try (destruct sa); try (destruct sb); try reflexivity; try discriminate;
    destruct (Z.compare_spec ea eb), (Z.compare_spec eb ea); try lia;
    try reflexivity; try discriminate;
    destruct (compare_cont_spec ma mb), (compare_cont_spec mb ma); try lia;
    cbn [CompOpp]; try reflexivity; try discriminate.
Qed.

Lemma ltb_nan_l (x y : float) : PrimFloat.is_nan x = true -> (x <? y)%float = false.
Proof. intros N. apply is_nan_spec in N. rewrite FloatAxioms.ltb_spec, N. reflexivity. Qed.

Lemma ltb_nan_r (x y : float) : PrimFloat.is_nan y = true -> (x <? y)%float = false.
Proof.
  intros N. apply is_nan_spec in N. rewrite FloatAxioms.ltb_spec, N.
  destruct (Prim2SF x) as [s|s| |s m e]; try reflexivity; destruct s; reflexivity.
Qed.

Lemma validateRange_ok field v : validateRange field v = Ok tt <-> nanOrUnit v = true.
Proof.
  unfold validateRange, nanOrUnit, inUnit.
  destruct (PrimFloat.is_nan v) eqn:N; cbn [orb].
  - rewrite (ltb_nan_l v 0 N), (ltb_nan_r 1 v N). cbn [orb]. split; reflexivity.
  - destruct (v <? 0)%float eqn:E0; cbn [orb].
    + rewrite (ltb_nleb _ _ E0). cbn [andb]. split; discriminate.
    + rewrite (nltb_leb v 0 N eq_refl E0). cbn [andb].
      destruct (1 <? v)%float eqn:E1.
      * rewrite (ltb_nleb _ _ E1). split; discriminate.
      * rewrite (nltb_leb 1 v eq_refl N E1). split; reflexivity.
Qed.

Lemma validateRange_cases field v :
  (validateRange field v = Ok tt /\ nanOrUnit v = true)
  \/ (exists e, validateRange field v = Err e) /\ nanOrUnit v = false.
Proof.
  destruct (nanOrUnit v) eqn:E.
  - left. split; [apply validateRange_ok, E | reflexivity].
  - right. split; [|reflexivity].
    destruct (validateRange field v) as [[]|e] eqn:R.
    + apply validateRange_ok in R. congruence.
    + eexists. reflexivity.
Qed.

Lemma emptyOr_defaults pace structure tone x :
  x = InteractionPreferences.mk pace structure tone ->
  memberOf ["balanced"; "fast"; "slow"]
    (InteractionPreferences.Pace (applyInteractionDefaults x))
  = emptyOr ["balanced"; "fast"; "slow"] pace
  /\ memberOf ["low"; "medium"; "high"]
       (InteractionPreferences.Structure (applyInteractionDefaults x))
     = emptyOr ["low"; "medium"; "high"] structure
  /\ memberOf ["warm"; "neutral"; "sharp"; "precise"]
       (InteractionPreferences.Tone (applyInteractionDefaults x))
     = emptyOr ["warm"; "neutral"; "sharp"; "precise"] tone.
Proof.
  intros ->. unfold applyInteractionDefaults, emptyOr.
  cbn [InteractionPreferences.Pace InteractionPreferences.Structure
       InteractionPreferences.Tone].
  repeat split.
  - destruct (String.eqb_spec pace ""); reflexivity.
  - destruct (String.eqb_spec structure ""); reflexivity.
  - destruct (String.eqb_spec tone ""); reflexivity.
Qed.

Lemma validateBirthInfo_cases info :
  (validateBirthInfo info = Ok tt /\ birthInfoInRange info)
  \/ ((exists e, validateBirthInfo info = Err e) /\ ~ birthInfoInRange info).
Proof.
  destruct (birthInfoInRange_dec info) as [H|H].
  - left. split; [apply validateBirthInfo_ok, H | exact H].
  - right. split; [apply validateBirthInfo_err, H | exact H].
Qed.

Lemma validateInput_verdict i :
  snd (validateInput i) = Ok tt
  <-> memberOf ["Earth"; "Air"; "Water"; "Fire"] (InputProfile.DominantElement i) = true
      /\ forallb nanOrUnit (ratiosOf i) = true
      /\ emptyOr ["balanced"; "fast"; "slow"]
           (InteractionPreferences.Pace (InputProfile.Interaction i)) = true
      /\ emptyOr ["low"; "medium"; "high"]
           (InteractionPreferences.Structure (InputProfile.Interaction i)) = true
      /\ emptyOr ["warm"; "neutral"; "sharp"; "precise"]
           (InteractionPreferences.Tone (InputProfile.Interaction i)) = true
      /\ birthInfoOk (InputProfile.BirthInfo i).
Proof.
  unfold validateInput, ratiosOf. cbv zeta.
  destruct (memberOf ["Earth"; "Air"; "Water"; "Fire"] (InputProfile.DominantElement i));
    cbn [negb snd]; [|split; [discriminate | intros (H & _); discriminate H]].
  cbn [forallb].
  repeat match goal with
         | |- context [validateRange ?f ?v] =>
             destruct (validateRange_cases f v) as [[-> ->] | [(e & ->) ->]];
             cbn [rbind andb snd];
             [| split; [discriminate | intros (_ & H & _); discriminate H]]
         end.
  destruct (InputProfile.Interaction i) as [pace structure tone] eqn:Ex.
  destruct (emptyOr_defaults pace structure tone _ eq_refl) as (Ep & Es & Et).
  cbn [withInteraction InputProfile.Interaction InputProfile.BirthInfo].
  rewrite Ep, Es, Et.
  cbn [InteractionPreferences.Pace InteractionPreferences.Structure
       InteractionPreferences.Tone].
  destruct (emptyOr ["balanced"; "fast"; "slow"] pace); cbn [negb snd];
    [|split; [discriminate | intros (_ & _ & H & _); discriminate H]].
  destruct (emptyOr ["low"; "medium"; "high"] structure); cbn [negb snd];
    [|split; [discriminate | intros (_ & _ & _ & H & _); discriminate H]].
  destruct (emptyOr ["warm"; "neutral"; "sharp"; "precise"] tone); cbn [negb snd];
    [|split; [discriminate | intros (_ & _ & _ & _ & H & _); discriminate H]].
  destruct (InputProfile.BirthInfo i) as [info|]; cbn [birthInfoOk snd].
  - destruct (validateBirthInfo_cases info) as [[-> H] | [(e & ->) H]]; cbn [snd].
    + split; [intros _; do 5 (split; [reflexivity|]); exact H | reflexivity].
    + split; [discriminate | intros (_ & _ & _ & _ & _ & H'); contradiction].
  - split; [intros _; do 5 (split; [reflexivity|]); exact I | reflexivity].
Qed.

(** X23: validateInput accepts exactly the profiles whose element is one
    of the four names, whose eight ratios are each NaN or in [0, 1] (NaN
    passes the range check: both comparisons are false), whose
    interaction preferences are each empty or one of the listed names,
    and whose birth info, if present, is in the validated ranges. *)
Theorem validateInput_ok_iff i :
  snd (validateInput i) = Ok tt
  <-> memberOf ["Earth"; "Air"; "Water"; "Fire"] (InputProfile.DominantElement i) = true
      /\ forallb nanOrUnit (ratiosOf i) = true
      /\ emptyOr ["balanced"; "fast"; "slow"]
           (InteractionPreferences.Pace (InputProfile.Interaction i)) = true
      /\ emptyOr ["low"; "medium"; "high"]
           (InteractionPreferences.Structure (InputProfile.Interaction i)) = true
      /\ emptyOr ["warm"; "neutral"; "sharp"; "precise"]
           (InteractionPreferences.Tone (InputProfile.Interaction i)) = true
      /\ birthInfoOk (InputProfile.BirthInfo i).
Proof. exact (validateInput_verdict i). Qed.

Lemma applyInteractionDefaults_idempotent x :
  applyInteractionDefaults (applyInteractionDefaults x) = applyInteractionDefaults x.
Proof.
  destruct x as [p s t]. unfold applyInteractionDefaults.
  cbn [InteractionPreferences.Pace InteractionPreferences.Structure
       InteractionPreferences.Tone].
  destruct (String.eqb_spec p ""), (String.eqb_spec s ""), (String.eqb_spec t "");
    cbn [String.eqb Ascii.eqb Bool.eqb];
    repeat match goal with
           | H : ?a <> "" |- context [(?a =? "")%string] =>
               destruct (String.eqb_spec a ""); [contradiction|]
           end; reflexivity.
Qed.

Lemma validateInput_after_defaults i :
  let i2 := withInteraction i (applyInteractionDefaults (InputProfile.Interaction i)) in
  validateInput i2 = (i2, snd (validateInput i)).
Proof.
  cbv zeta. unfold validateInput.
  cbn [withInteraction InputProfile.DominantElement InputProfile.Modal
       InputProfile.Cognition InputProfile.Interaction InputProfile.BirthInfo].
  rewrite applyInteractionDefaults_idempotent.
  destruct (negb (memberOf ["Earth"; "Air"; "Water"; "Fire"] (InputProfile.DominantElement i)));
    [reflexivity|].
  match goal with |- context [match ?r with Ok _ => _ | Err _ => _ end] => destruct r end;
    [|reflexivity].
  repeat match goal with
         | |- context [if ?b then _ else _] => destruct b; [reflexivity |]
         end.
  destruct (InputProfile.BirthInfo i) as [b|]; [|reflexivity].
  destruct (validateBirthInfo b); reflexivity.
Qed.

(** X24: validation is idempotent.  Validating the profile that a first
    validation left behind (with the defaults written into it) changes
    nothing more and gives the same verdict. *)
Theorem validateInput_idempotent i :
  validateInput (fst (validateInput i)) = validateInput i.
Proof.
  destruct (validateInput_state i) as [E | E].
  - rewrite E. reflexivity.
  - rewrite E at 1. rewrite validateInput_after_defaults. rewrite <- E.
    destruct (validateInput i); reflexivity.
Qed.

(** ** The generator: options and birth info *)

Section GeneratorExtras.

Variable sha256 : string -> string.
Variable sha3_256 : string -> string.
Variable blake3 : string -> string.
Variable Zone : Type.
Variable LoadLocation : string -> option Zone.
Variable zoneWallClock : Zone -> Z -> Z.
Variable ord : list string.
Variable BuildFusionProfile : WesternProfile.t -> ChineseProfile.t -> FusionProfile.t.
Variable EncodeU5 :
  WesternProfile.t -> ChineseProfile.t -> FusionProfile.t -> string -> result string.
Variable secretEnv : string.

Let Gen :=
  GenerateWithOptions sha256 sha3_256 blake3 Zone LoadLocation zoneWallClock ord
                      BuildFusionProfile EncodeU5 secretEnv.


Lemma Generate_birth_info_output g i opts :
  snd (Gen g i opts) <> None
  /\ forall i0 info out,
       i = Some i0 -> InputProfile.BirthInfo i0 = Some info ->
       snd (Gen g i opts) = Some (Ok out) ->
       exists cp,
         ComputeChineseProfile Zone LoadLocation zoneWallClock ord info = Some (Ok cp)
         /\ OutputHCS.ChineseProfile out = Some cp
         /\ OutputHCS.CombinedProfile out
            = Some (CombinedProfile.mk (westernOf (OutputHCS.Input out)) cp
                      (BuildFusionProfile (westernOf (OutputHCS.Input out)) cp))
         /\ OutputHCS.CodeU5 out
            = match EncodeU5 (westernOf (OutputHCS.Input out)) cp
                      (BuildFusionProfile (westernOf (OutputHCS.Input out)) cp) (salt g) with
              | Ok code => code
              | Err _ => ""
              end.
Proof.
  unfold Gen, GenerateWithOptions. destruct i as [i1|].
  2:{ split; [discriminate|]. intros i0 info out [=]. }
  pose proof (validateInput_verdict i1) as V.
  pose proof (validateInput_BirthInfo i1) as B.
  destruct (validateInput i1) as [i' [u|e]]; cbn [fst snd] in *.
  2:{ split; [discriminate|]. intros i0 info out _ _ [=]. }
  destruct u. destruct (proj1 V eq_refl) as (_ & _ & _ & _ & _ & Hb).
  set (o := match opts with Some o => o | None => GeneratorOptions.mk false false end).
  unfold generateCodes.
  destruct (GenerateCHIP sha256 (salt g) (Some (NormalizeProfile i'))) as [chip|e].
  2:{ split; [discriminate|]. intros i0 info out _ _ [=]. }
  assert (E4 : exists c4, (if negb (GeneratorOptions.U3Only o)
                           then EncodeU4 (Some (NormalizeProfile i')) chip else Ok "")
                          = Ok c4).
  { unfold EncodeU4. destruct (negb (GeneratorOptions.U3Only o)); eexists; reflexivity. }
  destruct E4 as (c4 & ->).
  unfold chineseBranch. rewrite B.
  destruct (InputProfile.BirthInfo i1) as [info1|] eqn:EB; cbn [birthInfoOk] in Hb.
  - destruct (ComputeChineseProfile_ok Zone LoadLocation zoneWallClock ord info1 Hb)
      as (cp & Ecp).
    rewrite Ecp. cbn [obind]. split.
    + destruct (CanonicalProfileData _ _); discriminate.
    + intros i0 info out [= <-] Hinfo E. rewrite EB in Hinfo. injection Hinfo as <-.
      exists cp. split; [exact Ecp|].
      destruct (CanonicalProfileData _ _) as [canonical|e]; [|discriminate E].
      destruct (LoadSecretKey secretEnv) as [secret|e]; [|discriminate E].
      destruct (ComputeQuantumSignatures sha3_256 blake3 canonical secret (salt g))
        as [[q b]|e]; [|discriminate E].
      destruct (FormatHCSU7 (Some (NormalizeProfile i')) q b) as [u7|e]; [|discriminate E].
      injection E as <-.
      cbn [OutputHCS.ChineseProfile OutputHCS.CombinedProfile OutputHCS.CodeU5
           OutputHCS.Input]. unfold westernOf. repeat split.
  - cbn [obind]. split.
    + destruct (CanonicalProfileData _ _); discriminate.
    + intros i0 info out [= <-] Hinfo. rewrite EB in Hinfo. discriminate Hinfo.
Qed.

(** X26: a generation call never panics.  When the input carries birth
    info and the call succeeds, the output always holds the Chinese
    profile computed for that birth info and the combined profile built
    from it and from the validated input: validation has checked the
    birth info, so the branch that only warns about a failed Chinese
    profile is never taken. *)
Theorem Generate_with_birth_info g i opts :
  snd (Gen g i opts) <> None
  /\ forall i0 info out,
       i = Some i0 -> InputProfile.BirthInfo i0 = Some info ->
       snd (Gen g i opts) = Some (Ok out) ->
       exists cp,
         ComputeChineseProfile Zone LoadLocation zoneWallClock ord info = Some (Ok cp)
         /\ OutputHCS.ChineseProfile out = Some cp
         /\ OutputHCS.CombinedProfile out
            = Some (CombinedProfile.mk (westernOf (OutputHCS.Input out)) cp
                      (BuildFusionProfile (westernOf (OutputHCS.Input out)) cp))
         /\ OutputHCS.CodeU5 out
            = match EncodeU5 (westernOf (OutputHCS.Input out)) cp
                      (BuildFusionProfile (westernOf (OutputHCS.Input out)) cp) (salt g) with
              | Ok code => code
              | Err _ => ""
              end.
Proof. exact (Generate_birth_info_output g i opts). Qed.

End GeneratorExtras.

Lemma fusionOf_built fo western chinese :
  BuildFusionProfile fo western chinese = Some (fusionOf fo western chinese)
  /\ isFusionID (FusionProfile.FusionID (fusionOf fo western chinese)) = true.
Proof.
  unfold fusionOf, BuildFusionProfile.
  destruct (generateFusionID_shape (ordFusionID fo) western chinese) as (id & -> & Hid).
  cbn [obind FusionProfile.FusionID]. split; [reflexivity | exact Hid].
Qed.

(** X27: end to end, with a hash function of 32-byte digests: when a
    generation call for a profile with birth info succeeds, the U5 code
    of the output passes ValidateU5Format, and DecodeU5 reads from it the
    fusion identifier of the combined profile of the same output, a
    letter and a digit. *)
Theorem Generate_U5_decodes (sha256 sha3_256 blake3 : string -> string) (Zone : Type)
      (LoadLocation : string -> option Zone) (zoneWallClock : Zone -> Z -> Z) ord fo uo
      describeProfiles secretEnv g i opts info out :
  (forall x, String.length (sha256 x) = 32%nat) ->
  InputProfile.BirthInfo i = Some info ->
  snd (GenerateWithOptions sha256 sha3_256 blake3 Zone LoadLocation zoneWallClock ord
         (fusionOf fo) (EncodeU5 sha256 describeProfiles uo) secretEnv g (Some i) opts)
  = Some (Ok out) ->
  exists combined m,
    OutputHCS.CombinedProfile out = Some combined
    /\ ValidateU5Format (OutputHCS.CodeU5 out) = Some true
    /\ DecodeU5 (OutputHCS.CodeU5 out) = Some (Ok m)
    /\ sget m "fusionId"
       = Some (FusionProfile.FusionID (CombinedProfile.Fusion combined))
    /\ isFusionID (FusionProfile.FusionID (CombinedProfile.Fusion combined)) = true.
Proof.
  intros H Hb E.
  destruct (proj2 (Generate_birth_info_output sha256 sha3_256 blake3 Zone LoadLocation
                     zoneWallClock ord (fusionOf fo) (EncodeU5 sha256 describeProfiles uo)
                     secretEnv g (Some i) opts) i info out eq_refl Hb E)
    as (cp & _ & _ & Ec & E5).
  set (w := westernOf (OutputHCS.Input out)) in *.
  destruct (fusionOf_built fo w cp) as [_ Hid].
  destruct (isFusionID_no_marker _ Hid) as (L & HW & HC & HF).
  destruct (EncodeU5_decodes sha256 describeProfiles uo w cp (fusionOf fo w cp) (salt g) H
              HW HC HF) as (code & Ee & V & D).
  rewrite Ee in E5. rewrite L in D. cbn [Nat.eqb] in D.
  eexists. eexists. split; [exact Ec|]. rewrite E5. split; [exact V|].
  split; [exact D|]. cbn [CombinedProfile.Fusion sget String.eqb Ascii.eqb Bool.eqb].
  split; [reflexivity | exact Hid].
Qed.

Lemma sampleGeneration_succeeds :
  exists out,
    snd (GenerateWithOptions prefixDigest prefixDigest prefixDigest unit noZones
           (fun _ s => s) elementNames (fusionOf sampleFusionOrders)
           (EncodeU5 prefixDigest sampleDescribe sampleU5Orders) sampleSecretEnv
           sampleGenerator (Some sampleBirthInput) None)
    = Some (Ok out).
Proof. eexists. vm_compute. reflexivity. Qed.

Lemma Generate_U5_decodes_witness :
  exists out combined m,
    snd (GenerateWithOptions prefixDigest prefixDigest prefixDigest unit noZones
           (fun _ s => s) elementNames (fusionOf sampleFusionOrders)
           (EncodeU5 prefixDigest sampleDescribe sampleU5Orders) sampleSecretEnv
           sampleGenerator (Some sampleBirthInput) None)
    = Some (Ok out)
    /\ OutputHCS.CombinedProfile out = Some combined
    /\ ValidateU5Format (OutputHCS.CodeU5 out) = Some true
    /\ DecodeU5 (OutputHCS.CodeU5 out) = Some (Ok m)
    /\ sget m "fusionId"
       = Some (FusionProfile.FusionID (CombinedProfile.Fusion combined))
    /\ isFusionID (FusionProfile.FusionID (CombinedProfile.Fusion combined)) = true.
Proof.
  destruct sampleGeneration_succeeds as (out & E).
  destruct (Generate_U5_decodes prefixDigest prefixDigest prefixDigest unit noZones
              (fun _ s => s) elementNames sampleFusionOrders sampleU5Orders
              sampleDescribe sampleSecretEnv sampleGenerator sampleBirthInput None
              sampleBirthInfo out prefixDigest_length eq_refl E)
    as (combined & m & H).
  exists out, combined, m. split; [exact E | exact H].
Defined.

(** ** The generator: causes of failure *)

Lemma isLowerHexOfLength_hex n s :
  String.length s = n -> isLowerHexOfLength (2 * n) (hex_EncodeToString s) = true.
Proof.
  intros L. unfold isLowerHexOfLength.
  rewrite hex_EncodeToString_length, L, Nat.eqb_refl, allChars_hex_EncodeToString.
  reflexivity.
Qed.

Section GeneratorFailures.

Variable sha256 : string -> string.
Variable sha3_256 : string -> string.
Variable blake3 : string -> string.
Variable Zone : Type.
Variable LoadLocation : string -> option Zone.
Variable zoneWallClock : Zone -> Z -> Z.
Variable ord : list string.
Variable BuildFusionProfile : WesternProfile.t -> ChineseProfile.t -> FusionProfile.t.
Variable EncodeU5 :
  WesternProfile.t -> ChineseProfile.t -> FusionProfile.t -> string -> result string.
Variable secretEnv : string.

Hypothesis sha256_length : forall x, String.length (sha256 x) = 32%nat.
Hypothesis sha3_256_length : forall x, String.length (sha3_256 x) = 32%nat.
Hypothesis blake3_length : forall x, String.length (blake3 x) = 32%nat.

Let Gen :=
  GenerateWithOptions sha256 sha3_256 blake3 Zone LoadLocation zoneWallClock ord
                      BuildFusionProfile EncodeU5 secretEnv.

(** X28: with hash functions of 32-byte digests a generation call never
    panics, and it fails for four reasons only: a nil input, an input that
    validateInput rejects, canonical data that cannot be built (only with
    birth info), and a secret key that LoadSecretKey rejects.  The
    failures of the CHIP, the U4 code, the signatures and the U7 format
    never happen.  On success the CHIP is twelve and the two signatures
    are sixty-four lower-case hexadecimal digits each. *)
Theorem Generate_error_causes g i opts :
  match snd (Gen g i opts) with
  | None => False
  | Some (Err e) =>
      (i = None /\ e = "input profile cannot be nil")
      \/ (exists i0 m, i = Some i0 /\ snd (validateInput i0) = Err m
                       /\ e = "invalid input profile: " ++ m)
      \/ (exists i0 info m, i = Some i0 /\ InputProfile.BirthInfo i0 = Some info
                            /\ e = "failed to build canonical profile: " ++ m)
      \/ (exists m, LoadSecretKey secretEnv = Err m
                    /\ e = "failed to load secret key: " ++ m)
  | Some (Ok out) =>
      isLowerHexOfLength 12 (OutputHCS.Chip out) = true
      /\ isLowerHexOfLength 64 (OutputHCS.QSig out) = true
      /\ isLowerHexOfLength 64 (OutputHCS.B3Sig out) = true
  end.
Proof.
  unfold Gen, GenerateWithOptions. destruct i as [i1|]; cbn [snd].
  2:{ left. split; reflexivity. }
  pose proof (validateInput_verdict i1) as V.
  pose proof (validateInput_BirthInfo i1) as B.
  destruct (validateInput i1) as [i' [u|e]] eqn:EV; cbn [fst snd] in *.
  2:{ right. left. exists i1, e. rewrite EV. repeat split. }
  destruct u. destruct (proj1 V eq_refl) as (_ & _ & _ & _ & _ & Hb).
  set (o := match opts with Some o => o | None => GeneratorOptions.mk false false end).
  unfold generateCodes, GenerateCHIP.
  assert (E4 : exists c4, (if negb (GeneratorOptions.U3Only o)
                           then EncodeU4 (Some (NormalizeProfile i'))
                                  (takeBytes 12
                                     (hex_EncodeToString
                                        (sha256 (salt g
                                                 ++ marshalNormalizedProfilePtr
                                                      (Some (NormalizeProfile i'))))))
                           else Ok "")
                          = Ok c4).
  { unfold EncodeU4. destruct (negb (GeneratorOptions.U3Only o)); eexists; reflexivity. }
  destruct E4 as (c4 & ->).
  assert (EC : exists cb,
             chineseBranch Zone LoadLocation zoneWallClock ord BuildFusionProfile EncodeU5
               g i' = Some cb
             /\ (InputProfile.BirthInfo i1 = None -> snd (fst cb) = None)).
  { unfold chineseBranch. rewrite B.
    destruct (InputProfile.BirthInfo i1) as [info1|]; cbn [birthInfoOk] in Hb.
    - destruct (ComputeChineseProfile_ok Zone LoadLocation zoneWallClock ord info1 Hb)
        as (cp & ->).
      cbn [obind]. eexists. split; [reflexivity | discriminate].
    - eexists. split; [reflexivity | reflexivity]. }
  destruct EC as ([[cp comb] u5] & -> & Hnone). cbn [obind fst snd] in *.
  destruct (CanonicalProfileData (Some (NormalizeProfile i')) comb) as [canonical|e] eqn:EK.
  2:{ right. right. left.
      destruct (InputProfile.BirthInfo i1) as [info1|] eqn:EB.
      - exists i1, info1, e. split; [reflexivity|]. split; [exact EB | reflexivity].
      - rewrite (Hnone eq_refl) in EK. discriminate EK. }
  destruct (LoadSecretKey secretEnv) as [secret|e] eqn:ES.
  2:{ right. right. right. exists e. split; reflexivity. }
  assert (Hlen : String.length secret <> 0%nat)
    by (destruct (LoadSecretKey_length _ _ ES) as [-> | ->]; discriminate).
  unfold ComputeQuantumSignatures.
  destruct (Nat.eqb_spec (String.length secret) 0) as [Z0|_]; [contradiction|].
  cbv zeta.
  set (q := hex_EncodeToString (hmac_sha3_256 sha3_256 _ canonical)).
  set (b := hex_EncodeToString (blake3 _)).
  assert (Hq : isLowerHexOfLength 64 q = true).
  { apply (isLowerHexOfLength_hex 32). unfold hmac_sha3_256. apply sha3_256_length. }
  assert (Hb3 : isLowerHexOfLength 64 b = true).
  { apply (isLowerHexOfLength_hex 32). apply blake3_length. }
  assert (Lq : Nat.eqb (String.length q) 0 = false).
  { unfold isLowerHexOfLength in Hq. apply andb_true_iff in Hq. destruct Hq as [Hq _].
    apply Nat.eqb_eq in Hq. rewrite Hq. reflexivity. }
  assert (Lb : Nat.eqb (String.length b) 0 = false).
  { unfold isLowerHexOfLength in Hb3. apply andb_true_iff in Hb3. destruct Hb3 as [Hb3 _].
    apply Nat.eqb_eq in Hb3. rewrite Hb3. reflexivity. }
  unfold FormatHCSU7. rewrite Lq, Lb. cbn [orb].
  cbn [OutputHCS.Chip OutputHCS.QSig OutputHCS.B3Sig].
  split; [|split; assumption].
  unfold isLowerHexOfLength.
  rewrite takeBytes_length by (rewrite hex_EncodeToString_length, sha256_length; lia).
  rewrite allChars_takeBytes by apply allChars_hex_EncodeToString. reflexivity.
Qed.

End GeneratorFailures.

Lemma Generate_error_causes_witness :
  match snd (GenerateWithOptions prefixDigest prefixDigest prefixDigest unit noZones
               (fun _ s => s) elementNames (fusionOf sampleFusionOrders)
               (EncodeU5 prefixDigest sampleDescribe sampleU5Orders) sampleSecretEnv
               sampleGenerator (Some sampleBirthInput) None) with
  | None => False
  | Some (Err e) =>
      (Some sampleBirthInput = None /\ e = "input profile cannot be nil")
      \/ (exists i0 m, Some sampleBirthInput = Some i0 /\ snd (validateInput i0) = Err m
                       /\ e = "invalid input profile: " ++ m)
      \/ (exists i0 info m, Some sampleBirthInput = Some i0
                            /\ InputProfile.BirthInfo i0 = Some info
                            /\ e = "failed to build canonical profile: " ++ m)
      \/ (exists m, LoadSecretKey sampleSecretEnv = Err m
                    /\ e = "failed to load secret key: " ++ m)
  | Some (Ok out) =>
      isLowerHexOfLength 12 (OutputHCS.Chip out) = true
      /\ isLowerHexOfLength 64 (OutputHCS.QSig out) = true
      /\ isLowerHexOfLength 64 (OutputHCS.B3Sig out) = true
  end.
Proof.
  apply (Generate_error_causes prefixDigest prefixDigest prefixDigest unit noZones
           (fun _ s => s) elementNames (fusionOf sampleFusionOrders)
           (EncodeU5 prefixDigest sampleDescribe sampleU5Orders) sampleSecretEnv
           prefixDigest_length prefixDigest_length prefixDigest_length
           sampleGenerator (Some sampleBirthInput) None).
Defined.

(** ** Canonical data: independence of the order of the element map *)

Lemma ascii_compare_trans a b c o :
  Ascii.compare a b = o -> Ascii.compare b c = o -> Ascii.compare a c = o.
Proof.
  unfold Ascii.compare. intros H1 H2. destruct o.
  - apply N.compare_eq_iff in H1, H2. apply N.compare_eq_iff. congruence.
  - rewrite N.compare_lt_iff in *. lia.
  - rewrite N.compare_gt_iff in *. lia.
Qed.

Lemma string_compare_le_trans : forall s1 s2 s3,
  String.compare s1 s2 <> Gt -> String.compare s2 s3 <> Gt -> String.compare s1 s3 <> Gt.
Proof.
  induction s1 as [|a s1 IH]; intros [|b s2] [|c s3] H1 H2; cbn [String.compare] in *;
    try congruence.
  destruct (Ascii.compare a b) eqn:Eab; try congruence;
    destruct (Ascii.compare b c) eqn:Ebc; try congruence.
  - apply Ascii.compare_eq_iff in Eab, Ebc. subst b c.
    assert (E : Ascii.compare a a = Eq) by (unfold Ascii.compare; apply N.compare_refl).
    rewrite E. apply (IH s2 s3); assumption.
  - apply Ascii.compare_eq_iff in Eab. subst b. rewrite Ebc. discriminate.
  - apply Ascii.compare_eq_iff in Ebc. subst c. rewrite Eab. discriminate.
  - rewrite (ascii_compare_trans a b c Lt Eab Ebc). discriminate.
Qed.

Lemma leb_compare s1 s2 : String.leb s1 s2 = true <-> String.compare s1 s2 <> Gt.
Proof.
  unfold String.leb. destruct (String.compare s1 s2); split; congruence.
Qed.

Lemma string_leb_trans s1 s2 s3 :
  String.leb s1 s2 = true -> String.leb s2 s3 = true -> String.leb s1 s3 = true.
Proof. rewrite !leb_compare. apply string_compare_le_trans. Qed.

Lemma insertSorted_perm k l : Permutation (insertSorted k l) (k :: l).
Proof.
  induction l as [|x l IH]; cbn [insertSorted]; [apply Permutation_refl|].
  destruct (String.leb k x); [apply Permutation_refl|].
  eapply perm_trans; [apply perm_skip, IH | apply perm_swap].
Qed.

Lemma sort_Strings_perm l : Permutation (sort_Strings l) l.
Proof.
  induction l as [|x l IH]; cbn [sort_Strings fold_right]; [apply perm_nil|].
  eapply perm_trans; [apply insertSorted_perm | apply perm_skip, IH].
Qed.

Lemma insertSorted_sorted k l : sortedStrings l -> sortedStrings (insertSorted k l).
Proof.
  induction l as [|x l IH]; cbn [insertSorted sortedStrings].
  - intros _. split; [constructor | exact I].
  - intros [F S]. destruct (String.leb k x) eqn:E; cbn [sortedStrings].
    + split; [|split; assumption].
      constructor; [exact E|].
      rewrite Forall_forall in *. intros y Hy. apply (string_leb_trans k x y E), F, Hy.
    + split; [|apply IH, S].
      rewrite Forall_forall in *. intros y Hy.
      apply (Permutation_in _ (insertSorted_perm k l)) in Hy. destruct Hy as [<- | Hy].
      * destruct (String.leb_total x k) as [T|T]; [exact T | unfold lebP; congruence].
      * apply F, Hy.
Qed.

Lemma sort_Strings_sorted l : sortedStrings (sort_Strings l).
Proof.
  induction l as [|x l IH]; cbn [sort_Strings fold_right]; [exact I|].
  apply insertSorted_sorted, IH.
Qed.

Lemma sorted_perm_eq : forall l1 l2,
  sortedStrings l1 -> sortedStrings l2 -> Permutation l1 l2 -> l1 = l2.
Proof.
  induction l1 as [|x l1 IH]; intros l2 S1 S2 P.
  - apply Permutation_nil in P. congruence.
  - destruct l2 as [|y l2]; [apply Permutation_sym, Permutation_nil in P; discriminate|].
    destruct S1 as [F1 S1]. destruct S2 as [F2 S2].
    assert (E : x = y).
    { rewrite Forall_forall in F1, F2.
      assert (Hy : In y (x :: l1))
        by (apply (Permutation_in _ (Permutation_sym P)); left; reflexivity).
      assert (Hx : In x (y :: l2)) by (apply (Permutation_in _ P); left; reflexivity).
      destruct Hy as [E | Hy]; [exact E|]. destruct Hx as [E | Hx]; [symmetry; exact E|].
      apply String.leb_antisym; [apply F1, Hy | apply F2, Hx]. }
    subst y. f_equal. apply IH; [assumption | assumption |].
    apply (Permutation_cons_inv P).
Qed.

Lemma sort_Strings_permutation l1 l2 :
  Permutation l1 l2 -> sort_Strings l1 = sort_Strings l2.
Proof.
  intros P. apply sorted_perm_eq; try apply sort_Strings_sorted.
  eapply perm_trans; [apply sort_Strings_perm|].
  eapply perm_trans; [exact P|]. apply Permutation_sym, sort_Strings_perm.
Qed.

Lemma mget_not_in m k : ~ In k (mkeys m) -> mget m k = 0%float.
Proof.
  induction m as [|[k' v] m IH]; cbn [mget mkeys map fst In]; intros N; [reflexivity|].
  destruct (String.eqb_spec k' k) as [E|E]; [exfalso; apply N; left; exact E|].
  apply IH. intros H. apply N. right. exact H.
Qed.

Lemma mget_permutation m1 m2 k :
  Permutation m1 m2 -> NoDup (mkeys m1) -> mget m1 k = mget m2 k.
Proof.
  induction 1 as [|[k' v] m1 m2 P IH|[k1 v1] [k2 v2] m|m1 m2 m3 P1 IH1 P2 IH2]; intros N.
  - reflexivity.
  - cbn [mget]. destruct (String.eqb k' k); [reflexivity|].
    apply IH. cbn [mkeys map] in N. inversion N; assumption.
  - cbn [mget]. destruct (String.eqb_spec k1 k) as [E1|E1],
      (String.eqb_spec k2 k) as [E2|E2]; try reflexivity.
    exfalso. cbn [mkeys map fst] in N. inversion N as [|? ? Hn _]; subst.
    apply Hn. left. reflexivity.
  - rewrite IH1 by exact N. apply IH2.
    unfold mkeys in *. apply (Permutation_NoDup (Permutation_map fst P1) N).
Qed.

Lemma marshalElements_ext b1 b2 keys :
  (forall k, mget b1 k = mget b2 k) -> marshalElements b1 keys = marshalElements b2 keys.
Proof.
  intros H. induction keys as [|k keys IH]; cbn [marshalElements]; [reflexivity|].
  rewrite H, IH. reflexivity.
Qed.

(** X29: the canonical data does not depend on the order in which the
    element balance of the Chinese profile is held: for a map with
    distinct keys, any rearrangement of its entries gives the same bytes
    (and the same error, if there is one). *)
Theorem CanonicalProfileData_order_independent normalized combined elements :
  NoDup (mkeys (ChineseProfile.ElementBalance (CombinedProfile.Chinese combined))) ->
  Permutation (ChineseProfile.ElementBalance (CombinedProfile.Chinese combined)) elements ->
  CanonicalProfileData normalized (Some (withElementBalance combined elements))
  = CanonicalProfileData normalized (Some combined).
Proof.
  intros N P. unfold CanonicalProfileData, withElementBalance, marshalCanonicalChinese.
  cbn [CombinedProfile.Chinese CombinedProfile.Fusion ChineseProfile.YearPillar
       ChineseProfile.MonthPillar ChineseProfile.DayPillar ChineseProfile.HourPillar
       ChineseProfile.YinYangBalance ChineseProfile.ElementBalance ChineseProfile.DayMaster
       ChineseProfile.DayMasterStrength].
  set (eb := ChineseProfile.ElementBalance (CombinedProfile.Chinese combined)) in *.
  assert (K : sort_Strings (mkeys elements) = sort_Strings (mkeys eb)).
  { apply sort_Strings_permutation. unfold mkeys. apply Permutation_map, Permutation_sym, P. }
  rewrite K.
  rewrite (marshalElements_ext elements eb)
    by (intros k; symmetry; apply mget_permutation; assumption).
  reflexivity.
Qed.

Lemma CanonicalProfileData_order_independent_witness :
  CanonicalProfileData (Some (NormalizeProfile testInput))
    (Some (withElementBalance sampleCombined
             (rev (ChineseProfile.ElementBalance (CombinedProfile.Chinese sampleCombined)))))
  = CanonicalProfileData (Some (NormalizeProfile testInput)) (Some sampleCombined).
Proof.
  apply (CanonicalProfileData_order_independent (Some (NormalizeProfile testInput))
           sampleCombined).
  - cbn. repeat constructor; cbn; intuition discriminate.
  - apply Permutation_rev.
Defined.

(** ** Persistent salt *)

Section SaltProperties.

Variable World : Type.
Variable filepath_Join : string -> string -> string.
Variable os_ReadFile : World -> string -> string * option ioError.
Variable rand_Read : World -> nat -> World * result string.
Variable os_WriteFile : World -> string -> string -> Z -> World * option string.

(** A file that was written reads back as it was written, and the random
    source fills the whole slice. *)
Hypothesis read_after_write : forall w path data perm w',
  os_WriteFile w path data perm = (w', None) -> os_ReadFile w' path = (data, None).
Hypothesis rand_Read_length : forall w n w' bytes,
  rand_Read w n = (w', Ok bytes) -> String.length bytes = n.

Let Load := LoadOrCreateSalt World filepath_Join os_ReadFile rand_Read os_WriteFile.

(** X30: the salt is persistent.  When LoadOrCreateSalt succeeds, the
    salt is 32 bytes long, and a later call for the same directory in
    the world that the first call left behind returns the same salt and
    changes nothing more, so that a generator built then carries the same
    salt. *)
Theorem LoadOrCreateSalt_persistent w dir w' salt :
  Load w dir = (w', Ok salt) ->
  String.length salt = 32%nat
  /\ Load w' dir = (w', Ok salt)
  /\ NewGeneratorWithSaltDir World filepath_Join os_ReadFile rand_Read os_WriteFile w' dir
     = (w', Ok (mkGenerator salt)).
Proof.
  intros E.
  assert (H : String.length salt = 32%nat /\ Load w' dir = (w', Ok salt)).
  { unfold Load, LoadOrCreateSalt in *. cbv zeta in *.
    set (path := filepath_Join (if dir =? "" then "." else dir) saltFileName) in *.
    destruct (os_ReadFile w path) as [data err] eqn:R.
    destruct err as [e|]; cbn [andb] in E.
    - destruct (isNotExist e || negb (Nat.eqb (String.length data) saltSize));
        [|discriminate E].
      destruct (rand_Read w saltSize) as [w1 [bytes|m]] eqn:G; [|discriminate E].
      destruct (os_WriteFile w1 path bytes 384) as [w2 [m|]] eqn:W; [discriminate E|].
      injection E as <- <-.
      pose proof (rand_Read_length _ _ _ _ G) as L.
      split; [exact L|].
      rewrite (read_after_write _ _ _ _ _ W). cbn [andb]. rewrite L.
      reflexivity.
    - destruct (Nat.eqb_spec (String.length data) saltSize) as [L|L].
      + injection E as <- <-. split; [exact L|]. rewrite R. cbn [andb].
        rewrite L. reflexivity.
      + cbn [orb negb] in E.
        destruct (rand_Read w saltSize) as [w1 [bytes|m]] eqn:G; [|discriminate E].
        destruct (os_WriteFile w1 path bytes 384) as [w2 [m|]] eqn:W; [discriminate E|].
        injection E as <- <-.
        pose proof (rand_Read_length _ _ _ _ G) as L'.
        split; [exact L'|].
        rewrite (read_after_write _ _ _ _ _ W). cbn [andb]. rewrite L'.
        reflexivity. }
  destruct H as [L P]. split; [exact L|]. split; [exact P|].
  unfold NewGeneratorWithSaltDir. fold Load. rewrite P. reflexivity.
Qed.

End SaltProperties.

Lemma sample_read_after_write : forall w path data perm w',
  sampleWriteFile w path data perm = (w', None) -> sampleReadFile w' path = (data, None).
Proof.
  intros w path data perm w' [= <-]. unfold sampleReadFile. cbn [sampleLookup].
  rewrite String.eqb_refl. reflexivity.
Qed.

Lemma sample_rand_length : forall w n w' bytes,
  sampleRand w n = (w', Ok bytes) -> String.length bytes = n.
Proof. intros w n w' bytes [= _ <-]. apply repeatByte_length. Qed.

Lemma LoadOrCreateSalt_persistent_witness :
  let w' := [("data/.hcs_salt", repeatByte "s"%char 32)] in
  let salt := repeatByte "s"%char 32 in
  String.length salt = 32%nat
  /\ LoadOrCreateSalt SampleWorld sampleJoin sampleReadFile sampleRand sampleWriteFile
       w' "data" = (w', Ok salt)
  /\ NewGeneratorWithSaltDir SampleWorld sampleJoin sampleReadFile sampleRand
       sampleWriteFile w' "data" = (w', Ok (mkGenerator salt)).
Proof.
  apply (LoadOrCreateSalt_persistent SampleWorld sampleJoin sampleReadFile sampleRand
           sampleWriteFile sample_read_after_write sample_rand_length [] "data").
  reflexivity.
Defined.
